(** * Reconciliation engine of the SAT x Questor comparison (core/views.py)

    A shallow embedding of the normaliser, the key extractor, the document
    classifier, the Questor indexer, the reconciler, the period aggregator
    and the competency-keyed importer, together with the properties that
    the design document states about them.

    Conventions of the embedding.
    - Text is ASCII: a Python [str] is a [string] whose characters are below
      128.  On ASCII text, NFKD normalisation followed by the
      ascii/ignore round trip is the identity, which is how it is modelled;
      the folding of an accented letter to its base letter is not
      modelled, so text with characters outside ASCII is outside the
      embedding.
    - A spreadsheet cell or a JSON value is a [pyval]: [None], a string, an
      integer, a date or a datetime.  Binary floats are not represented.
    - A Python [dict] is an insertion-ordered association list.
    - [Decimal] values are the sign/coefficient/exponent numbers of the
      [decimal] module, with its infinities and NaNs.  Finite sums are
      exact: the rounding to the 28 digits of the default context and its
      [Overflow] trap are not modelled, nor are the bounds that the
      constructor puts on an exponent.  The sums of the embedding are those
      of the code for amounts within that precision and range, and no
      property below states that a sum of arbitrary amounts returns.
    - An exception is a [Raise] in the [result] type. *)

From Stdlib Require Import String Ascii List ZArith Bool Lia.
From Stdlib Require Import DecimalString.
Import ListNotations.
Open Scope string_scope.
Open Scope list_scope.

(* ================================================================== *)
(** ** Exceptions *)

Inductive exn : Type :=
| ValueError (msg : string)
| KeyError (key : string)
| InvalidOperation
| StopIteration.

Inductive result (A : Type) : Type :=
| Ok (a : A)
| Raise (e : exn).

Arguments Ok {A} a.
Arguments Raise {A} e.

Definition bind {A B : Type} (m : result A) (k : A -> result B) : result B :=
  match m with
  | Ok a => k a
  | Raise e => Raise e
  end.

Notation "x <- m ;; k" := (bind m (fun x => k))
  (at level 61, m at next level, right associativity).
Notation "' p <- m ;; k" := (bind m (fun x => match x with p => k end))
  (at level 61, p pattern, m at next level, right associativity).

(* ================================================================== *)
(** ** Text primitives *)

Module Text.

Definition code (c : ascii) : nat := nat_of_ascii c.

Definition is_digit (c : ascii) : bool :=
  (48 <=? code c)%nat && (code c <=? 57)%nat.

Definition is_upper (c : ascii) : bool :=
  (65 <=? code c)%nat && (code c <=? 90)%nat.

Definition is_lower (c : ascii) : bool :=
  (97 <=? code c)%nat && (code c <=? 122)%nat.

(** [\w] on ASCII text. *)
Definition is_word (c : ascii) : bool :=
  is_digit c || is_upper c || is_lower c || Ascii.eqb c "_".

(** [str.isspace] on ASCII text: TAB..CR, FS..US and the blank. *)
Definition is_space (c : ascii) : bool :=
  ((9 <=? code c)%nat && (code c <=? 13)%nat)
  || ((28 <=? code c)%nat && (code c <=? 32)%nat).

Definition lower_char (c : ascii) : ascii :=
  if is_upper c then ascii_of_nat (code c + 32) else c.

Definition upper_char (c : ascii) : ascii :=
  if is_lower c then ascii_of_nat (code c - 32) else c.

Fixpoint map_chars (f : ascii -> ascii) (s : string) : string :=
  match s with
  | EmptyString => EmptyString
  | String c r => String (f c) (map_chars f r)
  end.

Definition lower (s : string) : string := map_chars lower_char s.
Definition upper (s : string) : string := map_chars upper_char s.

Fixpoint filter_chars (p : ascii -> bool) (s : string) : string :=
  match s with
  | EmptyString => EmptyString
  | String c r => if p c then String c (filter_chars p r) else filter_chars p r
  end.

Fixpoint forall_chars (p : ascii -> bool) (s : string) : bool :=
  match s with
  | EmptyString => true
  | String c r => p c && forall_chars p r
  end.

Fixpoint lstrip_by (p : ascii -> bool) (s : string) : string :=
  match s with
  | EmptyString => EmptyString
  | String c r => if p c then lstrip_by p r else s
  end.

Fixpoint rstrip_by (p : ascii -> bool) (s : string) : string :=
  match s with
  | EmptyString => EmptyString
  | String c r =>
      match rstrip_by p r with
      | EmptyString => if p c then EmptyString else String c EmptyString
      | r' => String c r'
      end
  end.

(** [s.strip()] and [s.strip(chars)]. *)
Definition strip_by (p : ascii -> bool) (s : string) : string :=
  rstrip_by p (lstrip_by p s).

Definition strip (s : string) : string := strip_by is_space s.

(** [s.replace(c, new)] for a one-character pattern. *)
Fixpoint replace_char (c : ascii) (new : string) (s : string) : string :=
  match s with
  | EmptyString => EmptyString
  | String a r =>
      if Ascii.eqb a c then new ++ replace_char c new r
      else String a (replace_char c new r)
  end.

(** [s.replace("R$", "")]: occurrences are found left to right and do not
    overlap. *)
Fixpoint remove_RS (s : string) : string :=
  match s with
  | EmptyString => EmptyString
  | String a r =>
      match r with
      | String b r' =>
          if Ascii.eqb a "R" && Ascii.eqb b "$"
          then remove_RS r'
          else String a (remove_RS r)
      | EmptyString => s
      end
  end.

Fixpoint count_char (c : ascii) (s : string) : nat :=
  match s with
  | EmptyString => 0
  | String a r => (if Ascii.eqb a c then 1 else 0) + count_char c r
  end.

Fixpoint starts_with (p s : string) : bool :=
  match p, s with
  | EmptyString, _ => true
  | String a p', String b s' => Ascii.eqb a b && starts_with p' s'
  | String _ _, EmptyString => false
  end.

(** [sub in s]. *)
Fixpoint contains (sub s : string) : bool :=
  starts_with sub s
  || match s with
     | EmptyString => false
     | String _ r => contains sub r
     end.

(** [re.sub(r"\D+", "", s)]. *)
Definition digits_of (s : string) : string := filter_chars is_digit s.

(** [re.sub(r"[^\w]+", "_", s)]: every maximal run of non-word characters
    becomes one underscore. [in_run] tells that the previous character was
    already part of the run being replaced. *)
Fixpoint sub_nonword (in_run : bool) (s : string) : string :=
  match s with
  | EmptyString => EmptyString
  | String c r =>
      if is_word c then String c (sub_nonword false r)
      else if in_run then sub_nonword true r
      else String "_" (sub_nonword true r)
  end.

Definition is_underscore (c : ascii) : bool := Ascii.eqb c "_".

(** [s[i:j]] for [0 <= i <= j]. *)
Fixpoint drop (n : nat) (s : string) : string :=
  match n, s with
  | O, _ => s
  | S n', String _ r => drop n' r
  | S _, EmptyString => EmptyString
  end.

Fixpoint take (n : nat) (s : string) : string :=
  match n, s with
  | S n', String c r => String c (take n' r)
  | _, _ => EmptyString
  end.

Definition slice (i j : nat) (s : string) : string := take (j - i) (drop i s).

(** [s.split(".")[0]]: the text before the first occurrence of [c]. *)
Fixpoint before_char (c : ascii) (s : string) : string :=
  match s with
  | EmptyString => EmptyString
  | String a r => if Ascii.eqb a c then EmptyString else String a (before_char c r)
  end.

(** The number a run of ASCII digits denotes, most significant first. *)
Fixpoint digits_value (acc : Z) (s : string) : Z :=
  match s with
  | EmptyString => acc
  | String c r => digits_value (10 * acc + Z.of_nat (code c - 48)) r
  end.

Definition nonempty (s : string) : bool :=
  match s with
  | EmptyString => false
  | String _ _ => true
  end.

End Text.

(* ================================================================== *)
(** ** Calendar dates ([datetime.date]) *)

Record date : Type := mkdate { year : Z; month : Z; day : Z }.

Module Calendar.
Open Scope Z_scope.

Definition is_leap (y : Z) : bool :=
  (y mod 4 =? 0) && (negb (y mod 100 =? 0) || (y mod 400 =? 0)).

Definition days_in_month (y m : Z) : Z :=
  if m =? 2 then (if is_leap y then 29 else 28)
  else if (m =? 4) || (m =? 6) || (m =? 9) || (m =? 11) then 30
  else 31.

(** Days of the year before the first day of month [m], in a common year. *)
Definition days_before_month_common (m : Z) : Z :=
  match m with
  | 1 => 0 | 2 => 31 | 3 => 59 | 4 => 90 | 5 => 120 | 6 => 151
  | 7 => 181 | 8 => 212 | 9 => 243 | 10 => 273 | 11 => 304 | _ => 334
  end.

Definition days_before_month (y m : Z) : Z :=
  days_before_month_common m + (if (2 <? m) && is_leap y then 1 else 0).

Definition days_before_year (y : Z) : Z :=
  let p := y - 1 in p * 365 + p / 4 - p / 100 + p / 400.

(** [date.toordinal]: 0001-01-01 is day 1. *)
Definition toordinal (d : date) : Z :=
  days_before_year (year d) + days_before_month (year d) (month d) + day d.

(** [date.fromordinal], the inverse of [toordinal]. *)
Definition fromordinal (n0 : Z) : date :=
  let n := n0 - 1 in
  let n400 := n / 146097 in
  let n := n mod 146097 in
  let n100 := n / 36524 in
  let n := n mod 36524 in
  let n4 := n / 1461 in
  let n := n mod 1461 in
  let n1 := n / 365 in
  let n := n mod 365 in
  let y := n400 * 400 + 1 + n100 * 100 + n4 * 4 + n1 in
  if (n1 =? 4) || (n100 =? 4) then mkdate (y - 1) 12 31
  else
    let leapyear := (n1 =? 3) && (negb (n4 =? 24) || (n100 =? 3)) in
    let m := Z.shiftr (n + 50) 5 in
    let preceding :=
      days_before_month_common m + (if (2 <? m) && leapyear then 1 else 0) in
    if n <? preceding then
      let m' := m - 1 in
      let dim :=
        (if m' =? 2 then 28
         else if (m' =? 4) || (m' =? 6) || (m' =? 9) || (m' =? 11) then 30
         else 31)
        + (if (m' =? 2) && leapyear then 1 else 0) in
      mkdate y m' (n - (preceding - dim) + 1)
    else mkdate y m (n - preceding + 1).

(** The arguments [date(y, m, d)] accepts. *)
Definition valid_ymd (y m d : Z) : bool :=
  (1 <=? y) && (y <=? 9999) && (1 <=? m) && (m <=? 12)
  && (1 <=? d) && (d <=? days_in_month y m).

(** [d + timedelta(days=n)], for a result inside the supported years. *)
Definition add_days (d : date) (n : Z) : date := fromordinal (toordinal d + n).

Definition date_eqb (a b : date) : bool :=
  (year a =? year b) && (month a =? month b) && (day a =? day b).

(** [a <= b] on dates. *)
Definition date_leb (a b : date) : bool :=
  (year a <? year b)
  || ((year a =? year b)
      && ((month a <? month b)
          || ((month a =? month b) && (day a <=? day b)))).

End Calendar.

(* ================================================================== *)
(** ** Python values that reach the core *)

Inductive pyval : Type :=
| PNone
| PStr (s : string)
| PInt (z : Z)
| PDate (d : date)
| PDateTime (d : date) (hh mm ss : Z).

Module Py.

Definition digit_char (z : Z) : ascii := ascii_of_nat (48 + Z.to_nat (z mod 10)).

Definition pad2 (z : Z) : string :=
  String (digit_char (z / 10)) (String (digit_char z) EmptyString).

Definition pad4 (z : Z) : string :=
  String (digit_char (z / 1000)) (String (digit_char (z / 100)) (pad2 z)).

Definition isoformat (d : date) : string :=
  pad4 (year d) ++ "-" ++ pad2 (month d) ++ "-" ++ pad2 (day d).

(** [str(v)]. *)
Definition str (v : pyval) : string :=
  match v with
  | PNone => "None"
  | PStr s => s
  | PInt z => NilZero.string_of_int (Z.to_int z)
  | PDate d => isoformat d
  | PDateTime d hh mm ss =>
      isoformat d ++ " " ++ pad2 hh ++ ":" ++ pad2 mm ++ ":" ++ pad2 ss
  end.

(** [v is None]. *)
Definition is_none (v : pyval) : bool :=
  match v with
  | PNone => true
  | _ => false
  end.

(** [v in (None, "")]. *)
Definition is_blank (v : pyval) : bool :=
  match v with
  | PNone => true
  | PStr EmptyString => true
  | _ => false
  end.

(** Truth value of an optional string: [None] and [""] are false. *)
Definition truthy (o : option string) : bool :=
  match o with
  | Some s => Text.nonempty s
  | None => false
  end.

(** [a or b] on optional strings. *)
Definition or_else (a b : option string) : option string :=
  if truthy a then a else b.

(** [row[i] if i < len(row) else dflt]. *)
Definition cell (row : list pyval) (i : nat) (dflt : pyval) : pyval :=
  nth i row dflt.

End Py.

(* ================================================================== *)
(** ** Decimal numbers ([decimal.Decimal]) *)

(** A finite number is [coef * 10 ^ exp]; the sign of a zero is not kept. *)
Inductive Decimal : Type :=
| DFin (coef : Z) (exp : Z)
| DInf (neg : bool)
| DNaN (neg signaling : bool) (diag : Z).

Module Dec.
Import Text.
Open Scope Z_scope.

(** [Decimal("0")]. *)
Definition zero : Decimal := DFin 0 0.

(** The longest prefix of digits, and what follows it. *)
Fixpoint span_digits (s : string) : string * string :=
  match s with
  | EmptyString => (EmptyString, EmptyString)
  | String c r =>
      if is_digit c then
        let (ds, rest) := span_digits r in (String c ds, rest)
      else (EmptyString, s)
  end.

(** An optional leading sign: whether it is a minus, and the rest. *)
Definition split_sign (s : string) : bool * string :=
  match s with
  | String "-" r => (true, r)
  | String "+" r => (false, r)
  | _ => (false, s)
  end.

Definition signed (neg : bool) (z : Z) : Z := if neg then - z else z.

(** The exponent part: empty, or [e], an optional sign and digits. *)
Definition parse_exponent (s : string) : option Z :=
  match s with
  | EmptyString => Some 0
  | String "e" r =>
      let (neg, ds) := split_sign r in
      if nonempty ds && forall_chars is_digit ds
      then Some (signed neg (digits_value 0 ds))
      else None
  | _ => None
  end.

(** A number with at least one digit, an optional fraction and an optional
    exponent. *)
Definition parse_number (neg : bool) (s : string) : option Decimal :=
  let (ip, r1) := span_digits s in
  let '(fp, r2) :=
    match r1 with
    | String "." r => span_digits r
    | _ => (EmptyString, r1)
    end in
  if nonempty ip || nonempty fp then
    match parse_exponent r2 with
    | Some e =>
        Some (DFin (signed neg (digits_value 0 (ip ++ fp)))
                   (e - Z.of_nat (String.length fp)))
    | None => None
    end
  else None.

(** [NaN] or [sNaN] followed by diagnostic digits. *)
Definition parse_nan (neg : bool) (s : string) : option Decimal :=
  if starts_with "nan" s then
    let d := drop 3 s in
    if forall_chars is_digit d then Some (DNaN neg false (digits_value 0 d))
    else None
  else if starts_with "snan" s then
    let d := drop 4 s in
    if forall_chars is_digit d then Some (DNaN neg true (digits_value 0 d))
    else None
  else None.

(** [Decimal(s)] for a string: surrounding blanks and underscores are
    dropped, letters are read in either case; [None] stands for the
    [InvalidOperation] that a malformed literal raises.  An exponent of
    any size is read: the constructor refuses one beyond its limits. *)
Definition of_string (s : string) : option Decimal :=
  let t := lower (replace_char "_" "" (strip s)) in
  let (neg, body) := split_sign t in
  if String.eqb body "inf" || String.eqb body "infinity" then Some (DInf neg)
  else
    match parse_nan neg body with
    | Some d => Some d
    | None => parse_number neg body
    end.

(** [a + b].  A signalling NaN and the sum of opposite infinities raise
    [InvalidOperation] (trapped in the default context).  The sum of two
    finite numbers is the exact one: the code rounds it to 28 digits and
    raises [Overflow] above the largest exponent of the context, which
    this definition does not. *)
Definition add (a b : Decimal) : result Decimal :=
  match a, b with
  | DNaN _ true _, _ => Raise InvalidOperation
  | _, DNaN _ true _ => Raise InvalidOperation
  | DNaN n false d, _ => Ok (DNaN n false d)
  | _, DNaN n false d => Ok (DNaN n false d)
  | DInf n1, DInf n2 =>
      if Bool.eqb n1 n2 then Ok (DInf n1) else Raise InvalidOperation
  | DInf n, _ => Ok (DInf n)
  | _, DInf n => Ok (DInf n)
  | DFin c1 e1, DFin c2 e2 =>
      let e := Z.min e1 e2 in
      Ok (DFin (c1 * 10 ^ (e1 - e) + c2 * 10 ^ (e2 - e)) e)
  end.

(** [bool(d)]: only a zero is false. *)
Definition truthy (d : Decimal) : bool :=
  match d with
  | DFin c _ => negb (c =? 0)
  | _ => true
  end.

(** [d != 0]; the comparison of a signalling NaN raises. *)
Definition nonzero (d : Decimal) : result bool :=
  match d with
  | DFin c _ => Ok (negb (c =? 0))
  | DInf _ => Ok true
  | DNaN _ false _ => Ok true
  | DNaN _ true _ => Raise InvalidOperation
  end.

(** [sum(values, Decimal("0"))]. *)
Fixpoint sum_from (acc : Decimal) (l : list Decimal) : result Decimal :=
  match l with
  | [] => Ok acc
  | d :: r => acc' <- add acc d ;; sum_from acc' r
  end.

Definition sum (l : list Decimal) : result Decimal := sum_from zero l.

End Dec.

(* ================================================================== *)
(** ** Utils basicos *)

Import Text.

(** The text [_parse_decimal] hands to [Decimal]: the currency sign and
    the blanks go, and a lone comma becomes the decimal point after the
    dots are dropped. *)
Definition amount_text (v : pyval) : string :=
  let s := replace_char " " "" (remove_RS (strip (Py.str v))) in
  if contains "," s && (count_char "," s =? 1)%nat
  then replace_char "," "." (replace_char "." "" s)
  else s.

Definition _parse_decimal (v : pyval) : Decimal :=
  match v with
  | PNone => Dec.zero
  | _ =>
      match Dec.of_string (amount_text v) with
      | Some d => d
      | None => Dec.zero
      end
  end.

(* ================================================================== *)
(** ** Datas e competencia *)

(** [datetime.strptime] for the directives that [_DT_FMTS] uses.  A format
    is compiled to a regular expression: each directive is a group of
    alternatives tried in order, a blank of the format is [\s+], any other
    character stands for itself.  The expression is matched at the start of
    the text with backtracking; text left over, or field values that are no
    date and time, make the call fail. *)
Module Strptime.
Open Scope Z_scope.

Inductive directive : Type :=
| Dd | Dm | Dy | DY | DH | DM | DS
| Dspace
| Dlit (c : ascii)
| Dbad.

Fixpoint compile (fmt : string) : list directive :=
  match fmt with
  | EmptyString => []
  | String "%" (String c r) =>
      (if Ascii.eqb c "d" then Dd
       else if Ascii.eqb c "m" then Dm
       else if Ascii.eqb c "y" then Dy
       else if Ascii.eqb c "Y" then DY
       else if Ascii.eqb c "H" then DH
       else if Ascii.eqb c "M" then DM
       else if Ascii.eqb c "S" then DS
       else Dbad) :: compile r
  | String c r => (if is_space c then Dspace else Dlit c) :: compile r
  end.

(** The fields a match collects, with the defaults of [strptime]. *)
Record found : Type := mkfound {
  f_year : Z; f_month : Z; f_day : Z;
  f_hour : Z; f_minute : Z; f_second : Z
}.

Definition found0 : found := mkfound 1900 1 1 0 0 0.

Definition digit_val (c : ascii) : Z := Z.of_nat (code c - 48).

Definition between (lo hi : ascii) (c : ascii) : bool :=
  (code lo <=? code c)%nat && (code c <=? code hi)%nat.

(** One alternative made of two character classes. *)
Definition alt2 (p1 p2 : ascii -> bool) (s : string) : list (Z * string) :=
  match s with
  | String a (String b r) =>
      if p1 a && p2 b then [(10 * digit_val a + digit_val b, r)] else []
  | _ => []
  end.

(** One alternative made of one character class. *)
Definition alt1 (p : ascii -> bool) (s : string) : list (Z * string) :=
  match s with
  | String a r => if p a then [(digit_val a, r)] else []
  | _ => []
  end.

(** The alternative [ [1-9]] of [%d]: a blank, then a digit. *)
Definition alt_blank_digit (s : string) : list (Z * string) :=
  match s with
  | String " " (String b r) =>
      if between "1" "9" b then [(digit_val b, r)] else []
  | _ => []
  end.

Definition four_digits (s : string) : list (Z * string) :=
  match s with
  | String a (String b (String c (String d r))) =>
      if is_digit a && is_digit b && is_digit c && is_digit d
      then [(1000 * digit_val a + 100 * digit_val b
             + 10 * digit_val c + digit_val d, r)]
      else []
  | _ => []
  end.

(** The rests after one or more blanks, the longest run first. *)
Fixpoint blank_rests (s : string) : list string :=
  match s with
  | String c r => if is_space c then blank_rests r ++ [r] else []
  | EmptyString => []
  end.

(** The ways a directive can match a prefix of [s], in the order the
    expression tries them: the updated fields and the text that remains. *)
Definition alternatives (d : directive) (s : string) (f : found)
  : list (found * string) :=
  let upd (g : Z -> found) (l : list (Z * string)) :=
    map (fun vr => (g (fst vr), snd vr)) l in
  match d with
  | Dd =>
      upd (fun v => mkfound (f_year f) (f_month f) v
                            (f_hour f) (f_minute f) (f_second f))
          (alt2 (Ascii.eqb "3") (between "0" "1") s
           ++ alt2 (between "1" "2") is_digit s
           ++ alt2 (Ascii.eqb "0") (between "1" "9") s
           ++ alt1 (between "1" "9") s
           ++ alt_blank_digit s)
  | Dm =>
      upd (fun v => mkfound (f_year f) v (f_day f)
                            (f_hour f) (f_minute f) (f_second f))
          (alt2 (Ascii.eqb "1") (between "0" "2") s
           ++ alt2 (Ascii.eqb "0") (between "1" "9") s
           ++ alt1 (between "1" "9") s)
  | Dy =>
      upd (fun v => mkfound (if v <=? 68 then v + 2000 else v + 1900)
                            (f_month f) (f_day f)
                            (f_hour f) (f_minute f) (f_second f))
          (alt2 is_digit is_digit s)
  | DY =>
      upd (fun v => mkfound v (f_month f) (f_day f)
                            (f_hour f) (f_minute f) (f_second f))
          (four_digits s)
  | DH =>
      upd (fun v => mkfound (f_year f) (f_month f) (f_day f)
                            v (f_minute f) (f_second f))
          (alt2 (Ascii.eqb "2") (between "0" "3") s
           ++ alt2 (between "0" "1") is_digit s
           ++ alt1 is_digit s)
  | DM =>
      upd (fun v => mkfound (f_year f) (f_month f) (f_day f)
                            (f_hour f) v (f_second f))
          (alt2 (between "0" "5") is_digit s ++ alt1 is_digit s)
  | DS =>
      upd (fun v => mkfound (f_year f) (f_month f) (f_day f)
                            (f_hour f) (f_minute f) v)
          (alt2 (Ascii.eqb "6") (between "0" "1") s
           ++ alt2 (between "0" "5") is_digit s
           ++ alt1 is_digit s)
  | Dspace => map (fun r => (f, r)) (blank_rests s)
  | Dlit c =>
      match s with
      | String a r => if Ascii.eqb (lower_char a) (lower_char c) then [(f, r)] else []
      | EmptyString => []
      end
  | Dbad => []
  end.

Fixpoint first_success {A B : Type} (k : A -> option B) (l : list A) : option B :=
  match l with
  | [] => None
  | a :: r =>
      match k a with
      | Some b => Some b
      | None => first_success k r
      end
  end.

(** The first match of the compiled format at the start of [s]. *)
Fixpoint regex_match (ds : list directive) (s : string) (f : found)
  : option (found * string) :=
  match ds with
  | [] => Some (f, s)
  | d :: ds' =>
      first_success (fun fr => regex_match ds' (snd fr) (fst fr))
                    (alternatives d s f)
  end.

(** [datetime.strptime(s, fmt).date()], [None] when it raises. *)
Definition strptime_date (s fmt : string) : option date :=
  match regex_match (compile fmt) s found0 with
  | Some (f, EmptyString) =>
      if Calendar.valid_ymd (f_year f) (f_month f) (f_day f)
         && (f_hour f <=? 23) && (f_minute f <=? 59) && (f_second f <=? 59)
      then Some (mkdate (f_year f) (f_month f) (f_day f))
      else None
  | _ => None
  end.

End Strptime.

Definition _DT_FMTS : list string :=
  [ "%d/%m/%y"; "%d/%m/%Y"; "%Y-%m-%d"; "%d-%m-%Y"; "%d.%m.%Y";
    "%Y-%m-%d %H:%M"; "%Y-%m-%d %H:%M:%S";
    "%d/%m/%Y %H:%M"; "%d/%m/%Y %H:%M:%S";
    "%d/%m/%y %H:%M"; "%d/%m/%y %H:%M:%S" ].

(** The [for fmt in _DT_FMTS] loop: the first format that parses. *)
Fixpoint try_formats (fmts : list string) (s : string) : option date :=
  match fmts with
  | [] => None
  | fmt :: r =>
      match Strptime.strptime_date s fmt with
      | Some d => Some d
      | None => try_formats r s
      end
  end.

(** [s.isdigit()] on ASCII text. *)
Definition isdigit (s : string) : bool := nonempty s && forall_chars is_digit s.

Definition _parse_date_any (v : pyval) : option date :=
  match v with
  | PNone => None
  | PDate d => Some d
  | PDateTime d _ _ _ => Some d
  | _ =>
      let s := strip (Py.str v) in
      if negb (nonempty s) then None
      else
        let s_norm := replace_char "Z" "" (replace_char "T" " " s) in
        let s_norm :=
          if contains "." s_norm then before_char "." s_norm else s_norm in
        match try_formats _DT_FMTS s_norm with
        | Some d => Some d
        | None =>
            if isdigit s then
              let n := digits_value 0 s in
              if (20000 <=? n)%Z && (n <=? 80000)%Z
              then Some (Calendar.add_days (mkdate 1899 12 30) n)
              else None
            else None
        end
  end.

Definition _competencia_from_date (d : option date) : option date :=
  match d with
  | Some d => Some (mkdate (year d) (month d) 1)
  | None => None
  end.

(* ================================================================== *)
(** ** Dictionaries *)

(** A [dict] with string keys, in insertion order. *)
Definition dict (V : Type) : Type := list (string * V).

Module Dict.
Section Ops.
Context {V : Type}.

Fixpoint get (k : string) (d : dict V) : option V :=
  match d with
  | [] => None
  | (k', v) :: r => if String.eqb k k' then Some v else get k r
  end.

(** [k in d]. *)
Definition mem (k : string) (d : dict V) : bool :=
  match get k d with
  | Some _ => true
  | None => false
  end.

(** [d[k] = v]: an existing key keeps its place. *)
Fixpoint set (k : string) (v : V) (d : dict V) : dict V :=
  match d with
  | [] => [(k, v)]
  | (k', v') :: r =>
      if String.eqb k k' then (k', v) :: r else (k', v') :: set k v r
  end.

Definition keys (d : dict V) : list string := map fst d.
Definition values (d : dict V) : list V := map snd d.

(** [d.get(k, dflt)]. *)
Definition get_default (k : string) (dflt : V) (d : dict V) : V :=
  match get k d with
  | Some v => v
  | None => dflt
  end.

(** [bool(d)]. *)
Definition nonempty (d : dict V) : bool :=
  match d with
  | [] => false
  | _ :: _ => true
  end.

End Ops.
End Dict.

(** A row as the core sees it: field key to text, or to [None]. *)
Definition row_dict : Type := dict (option string).

Definition to_py (v : option string) : pyval :=
  match v with
  | Some s => PStr s
  | None => PNone
  end.

(** [d.get(k)] where [k] itself may be [None]: a missing key gives [None]. *)
Definition get_opt (d : row_dict) (k : option string) : option string :=
  match k with
  | Some k =>
      match Dict.get k d with
      | Some v => v
      | None => None
      end
  | None => None
  end.

(** [d.get(k, "")]. *)
Definition get_or_empty (d : row_dict) (k : option string) : option string :=
  match k with
  | Some k => Dict.get_default k (Some EmptyString) d
  | None => Some EmptyString
  end.

(** [s or ""] for an optional string. *)
Definition or_empty (v : option string) : string :=
  match v with
  | Some s => s
  | None => EmptyString
  end.

(** The ascii/ignore round trip after NFKD: characters outside ASCII go.
    On text outside ASCII the code first folds an accented letter to its
    base letter; that text is outside the embedding. *)
Definition to_ascii (s : string) : string :=
  filter_chars (fun c => (code c <? 128)%nat) s.

Definition reserved_names : list string :=
  [ "class"; "def"; "return"; "yield"; "from"; "import"; "global";
    "lambda"; "with"; "pass"; "raise"; "id"; "pk"; "model"; "objects" ].

Definition _slugify_field (name : pyval) : string :=
  let name := match name with PNone => EmptyString | _ => Py.str name end in
  let name := to_ascii name in
  let name := strip_by is_underscore (sub_nonword false (lower (strip name))) in
  let name := if nonempty name then name else "campo" in
  let name :=
    match name with
    | String c _ => if is_digit c then ("col_" ++ name)%string else name
    | EmptyString => name
    end in
  if existsb (String.eqb name) reserved_names
  then (name ++ "_field")%string else name.

Definition _slug (s : pyval) : string :=
  let t := to_ascii (Py.str s) in
  let t := strip_by is_underscore (sub_nonword false (lower (strip t))) in
  if nonempty t then t else "campo".

(** The first loop of [_first_key]: a candidate that is a key. *)
Fixpoint first_exact {V : Type} (d : dict V) (candidates : list string)
  : option string :=
  match candidates with
  | [] => None
  | k :: r => if Dict.mem k d then Some k else first_exact d r
  end.

(** [{k.lower(): k for k in d.keys()}]. *)
Definition low_map {V : Type} (d : dict V) : dict string :=
  fold_left (fun m k => Dict.set (lower k) k m) (Dict.keys d) [].

(** The second loop: the first candidate contained in a lower-cased key. *)
Fixpoint first_substring (lm : dict string) (candidates : list string)
  : option string :=
  match candidates with
  | [] => None
  | c :: r =>
      match find (fun kl => contains c (fst kl)) lm with
      | Some (_, korig) => Some korig
      | None => first_substring lm r
      end
  end.

Definition _first_key {V : Type} (d : dict V) (candidates : list string)
  : option string :=
  match first_exact d candidates with
  | Some k => Some k
  | None => first_substring (low_map d) candidates
  end.

(* ================================================================== *)
(** ** Normalizacao/extracoes *)

Definition _is_cancelado (txt : string) : bool :=
  nonempty txt && contains "cancel" (lower (strip txt)).

Definition _extr_status_sat (d : row_dict) : string :=
  let k := _first_key d ["situacao"; "status"; "status_nfce"; "situacao_nfce"] in
  if Py.truthy k
  then lower (strip (Py.str (to_py (get_or_empty d k))))
  else EmptyString.

Definition _extr_valor_total_sat (d : row_dict) : Decimal :=
  let k := _first_key d
    ["valornfe"; "valor_total"; "valortotal"; "valor_total_nfe"; "valor_nfce"] in
  _parse_decimal (to_py (get_opt d k)).

Definition _numero_documento_sat (d : row_dict) : string :=
  let k := _first_key d
    [ "cu_numerodocumento"; "numerodocumento"; "numero_documento";
      "documento"; "n_documento"; "numnfe"; "numero_nfce"; "numero" ] in
  strip (if Py.truthy k
         then match get_opt d k with
              | Some s => s
              | None => EmptyString
              end
         else EmptyString).

Definition _digits_only (s : string) : string := strip (digits_of s).

Definition _norm_doc (s : string) : string * string :=
  (lower (strip s), _digits_only s).

Definition _norm_pair (doc serie : string) : string * string :=
  let raw_doc := lower (strip doc) in
  let raw_ser := lower (strip serie) in
  let dig_doc := _digits_only doc in
  let dig_ser := _digits_only serie in
  ((raw_doc ++ "|" ++ raw_ser)%string, (dig_doc ++ "|" ++ dig_ser)%string).

Definition _norm_txt (s : string) : string :=
  let t := to_ascii s in
  replace_char "." "" (replace_char "-" "" (replace_char " " "" (lower t))).

Definition _is_nfe_questor (d : row_dict) : bool :=
  let k_esp := _first_key d ["especie"; "especie_documento"; "tipo"; "tipo_documento"] in
  let by_esp : option bool :=
    if Py.truthy k_esp then
      let v := _norm_txt (Py.str (to_py (get_or_empty d k_esp))) in
      if contains "nfce" v || contains "nfc" v || String.eqb v "65" then Some false
      else if contains "nfe" v || contains "nfeletronica" v || String.eqb v "55"
      then Some true
      else None
    else None in
  match by_esp with
  | Some b => b
  | None =>
      let k_mod := _first_key d
        [ "modelodocumento"; "modelo_documento"; "modelo"; "mod";
          "modelo_nf"; "modelo_nfe"; "modelo_nfce" ] in
      let by_mod : option bool :=
        if Py.truthy k_mod then
          let v := _norm_txt (Py.str (to_py (get_or_empty d k_mod))) in
          if contains "65" v || contains "nfce" v || contains "nfc" v then Some false
          else if contains "55" v || contains "nfe" v then Some true
          else None
        else None in
      match by_mod with
      | Some b => b
      | None =>
          let k_ch := _first_key d
            ["chaveacesso"; "chave_de_acesso"; "chave"; "accesskey"] in
          if Py.truthy k_ch then
            let digs := _digits_only (or_empty (get_or_empty d k_ch)) in
            if (22 <=? String.length digs)%nat then
              let modelo := slice 20 22 digs in
              if String.eqb modelo "55" then true
              else if String.eqb modelo "65" then false
              else false
            else false
          else false
      end
  end.

Definition _is_autorizado (txt : string) : bool :=
  let t := lower (strip txt) in
  if negb (nonempty t) || _is_cancelado t then false
  else existsb (fun tok => contains tok t)
               ["autoriz"; "aprov"; "normal"; "regular"; "emitid"].

Definition _status_legivel (d : row_dict) : string :=
  let s := _extr_status_sat d in
  if _is_cancelado s then "CANCELADA"
  else if _is_autorizado s then "AUTORIZADA"
  else upper (strip (if nonempty s then s else "DESCONHECIDO")).

Definition _extr_data_emissao_dict (d : row_dict) : option date :=
  let k := _first_key d
    [ "dataemissao"; "data_emissao"; "dt_emissao"; "emissao"; "emissao_data";
      "dataemissaonf"; "data_emissao_nf"; "data"; "dtemissao";
      "data_entrada_saida"; "data_entrada"; "data_saida"; "dt_entrada";
      "dt_saida"; "dataentradasaida" ] in
  if Py.truthy k then _parse_date_any (to_py (get_opt d k)) else None.

Definition CANDS_VALOR_NOTA : list string :=
  [ "valor_total_nota"; "valor_total_notas"; "valor_total"; "valortotal";
    "vl_total"; "valor"; "valornfe"; "valor_nfce"; "valor_total_nfe" ].

Definition CANDS_BC_ICMS : list string :=
  [ "bc_icms"; "base_icms"; "base_de_calculo_icms"; "basecalc_icms";
    "valor_bc_icms"; "basecalculo_icms" ].

Definition CANDS_VALOR_ICMS : list string :=
  [ "valor_icms"; "vl_icms"; "vlr_icms"; "valor_do_icms"; "vlicms"; "v_icms" ].

Definition _extr_decimal_by_keys (d : row_dict) (candidates : list string)
  : Decimal :=
  let k := _first_key d candidates in
  if Py.truthy k then _parse_decimal (to_py (get_opt d k)) else Dec.zero.

(** [{_slug(h): f(row, i) for i, h in enumerate(headers)}]. *)
Fixpoint enumerate_from {A : Type} (i : nat) (l : list A) : list (nat * A) :=
  match l with
  | [] => []
  | a :: r => (i, a) :: enumerate_from (S i) r
  end.

Definition _row_to_norm_dict (headers row : list pyval) : row_dict :=
  let d : dict pyval :=
    fold_left (fun m ih => Dict.set (_slug (snd ih)) (Py.cell row (fst ih) PNone) m)
              (enumerate_from 0 headers) [] in
  map (fun kv => (fst kv,
                  Some (match snd kv with
                        | PNone => EmptyString
                        | v => strip (Py.str v)
                        end))) d.

(* ================================================================== *)
(** ** Questor indexer *)

(** A worksheet as [iter_rows(values_only=True)] yields it: the header row
    first. *)
Definition worksheet : Type := list (list pyval).

Record tables : Type := mktables {
  doc_exato : dict Decimal;
  doc_digits : dict Decimal;
  pair_exato : dict Decimal;
  pair_digits : dict Decimal
}.

Record meta : Type := mkmeta {
  linhas_lidas_total : nat;
  linhas_lidas_periodo : nat;
  col_num : string;
  col_val : string;
  col_serie : string;
  col_data : string
}.

(** [{_slug(h): i for i, h in enumerate(headers)}]. *)
Definition header_cols (headers : list pyval) : dict nat :=
  fold_left (fun m ih => Dict.set (_slug (snd ih)) (fst ih) m)
            (enumerate_from 0 headers) [].

(** [cols[k]]: a key that is missing raises [KeyError].  The loops below
    read [cols[k]] for keys that [_first_key cols ...] returned, so the
    index of each resolved column is looked up once, before the loop. *)
Definition col_index (cols : dict nat) (k : string) : result nat :=
  match Dict.get k cols with
  | Some i => Ok i
  | None => Raise (KeyError k)
  end.

(** [dt_ini <= d <= dt_fim]. *)
Definition in_range (dt_ini dt_fim d : date) : bool :=
  Calendar.date_leb dt_ini d && Calendar.date_leb d dt_fim.

(** The date filter of a loop: with both bounds given, a row passes only
    with a date inside them. *)
Definition passes_period (dt_ini dt_fim : option date) (dt_row : option date)
  : bool :=
  match dt_ini, dt_fim with
  | Some a, Some b =>
      match dt_row with
      | Some d => in_range a b d
      | None => false
      end
  | _, _ => true
  end.

(** [m[k] = m.get(k, Decimal("0")) + v]. *)
Definition accumulate (m : dict Decimal) (k : string) (v : Decimal)
  : result (dict Decimal) :=
  s <- Dec.add (Dict.get_default k Dec.zero m) v ;;
  Ok (Dict.set k s m).

Definition cand_num : list string :=
  [ "cu_numerodocumento"; "numerodocumento"; "numero_documento";
    "n_documento"; "documento"; "numero" ].

Definition cand_val : list string :=
  [ "valor_contabil"; "valorcontabil"; "vl_contabil"; "vlr_contabil";
    "valor_total"; "valortotal"; "vl_total"; "valor" ].

Definition cand_ser : list string :=
  [ "serie"; "serie_documento"; "serienfe"; "serie_nfce" ].

Definition cand_dt : list string :=
  [ "dataemissao"; "data_emissao"; "dt_emissao"; "emissao"; "emissao_data";
    "data"; "dtemissao";
    "data_entrada_saida"; "data_entrada"; "data_saida"; "dt_entrada";
    "dt_saida"; "dataentradasaida" ].

Definition schema_error : exn :=
  ValueError
    "Planilha do Questor sem colunas NumeroDocumento/Valor Contabil (ou Valor Total).".

(** The loop state of [_questor_map_por_documento]. *)
Record qstate : Type := mkqstate {
  q_tables : tables;
  lidas_total : nat;
  lidas_periodo : nat
}.

(** The date of a row, read from the resolved date column. *)
Definition questor_row_date (i_dt : option nat) (row : list pyval)
  : option date :=
  match i_dt with
  | Some i =>
      if (i <? List.length row)%nat then _parse_date_any (Py.cell row i PNone)
      else None
  | None => None
  end.

(** The series of a row, read from the resolved series column. *)
Definition questor_row_serie (i_ser : option nat) (row : list pyval) : string :=
  match i_ser with
  | Some i =>
      if (i <? List.length row)%nat then
        match Py.cell row i PNone with
        | PNone => EmptyString
        | v => Py.str v
        end
      else EmptyString
  | None => EmptyString
  end.

(** [row[i] if i < len(row) and row[i] is not None else ""]. *)
Definition questor_raw_num (i_num : nat) (row : list pyval) : pyval :=
  match Py.cell row i_num PNone with
  | PNone => PStr EmptyString
  | v => v
  end.

(** One iteration of the loop over the data rows. *)
Definition questor_map_step (headers : list pyval)
    (i_num i_val : nat) (i_ser i_dt : option nat)
    (dt_ini dt_fim : option date) (st : qstate) (row : list pyval)
  : result qstate :=
  let total := S (lidas_total st) in
  let dt_row := questor_row_date i_dt row in
  if negb (passes_period dt_ini dt_fim dt_row)
  then Ok (mkqstate (q_tables st) total (lidas_periodo st))
  else
    let dline := _row_to_norm_dict headers row in
    if _is_nfe_questor dline
    then Ok (mkqstate (q_tables st) total (lidas_periodo st))
    else
      let periodo := S (lidas_periodo st) in
      let raw_num := questor_raw_num i_num row in
      if String.eqb (strip (Py.str raw_num)) EmptyString
      then Ok (mkqstate (q_tables st) total periodo)
      else
        let val_q := _parse_decimal (Py.cell row i_val (PStr "0")) in
        let serie := questor_row_serie i_ser row in
        let '(doc_raw, doc_dig) := _norm_doc (Py.str raw_num) in
        let '(key_pair_raw, key_pair_dig) := _norm_pair (Py.str raw_num) serie in
        let t := q_tables st in
        if nonempty serie then
          pe <- accumulate (pair_exato t) key_pair_raw val_q ;;
          pd <- accumulate (pair_digits t) key_pair_dig val_q ;;
          Ok (mkqstate (mktables (doc_exato t) (doc_digits t) pe pd) total periodo)
        else
          de <- accumulate (doc_exato t) doc_raw val_q ;;
          dd <- accumulate (doc_digits t) doc_dig val_q ;;
          Ok (mkqstate (mktables de dd (pair_exato t) (pair_digits t)) total periodo).

(** A [for] loop whose body may raise. *)
Fixpoint foldM {S A : Type} (step : S -> A -> result S) (st : S) (l : list A)
  : result S :=
  match l with
  | [] => Ok st
  | a :: r => st' <- step st a ;; foldM step st' r
  end.

Definition empty_tables : tables := mktables [] [] [] [].

(** The index of an optional column key. *)
Definition opt_col_index (cols : dict nat) (k : option string)
  : result (option nat) :=
  match k with
  | Some k => i <- col_index cols k ;; Ok (Some i)
  | None => Ok None
  end.

Definition _questor_map_por_documento (ws : worksheet)
    (dt_ini dt_fim : option date) : result (tables * meta) :=
  match ws with
  | [] => Raise StopIteration
  | headers :: rows =>
      let cols := header_cols headers in
      let k_num := _first_key cols cand_num in
      let k_val := _first_key cols cand_val in
      let k_ser := _first_key cols cand_ser in
      let k_dt := _first_key cols cand_dt in
      if negb (Py.truthy k_num && Py.truthy k_val) then Raise schema_error
      else
        i_num <- col_index cols (or_empty k_num) ;;
        i_val <- col_index cols (or_empty k_val) ;;
        i_ser <- opt_col_index cols k_ser ;;
        i_dt <- opt_col_index cols k_dt ;;
        st <- foldM (questor_map_step headers i_num i_val i_ser i_dt dt_ini dt_fim)
                    (mkqstate empty_tables 0 0) rows ;;
        Ok (q_tables st,
            mkmeta (lidas_total st) (lidas_periodo st)
                   (or_empty k_num) (or_empty k_val)
                   (or_empty (Py.or_else k_ser (Some EmptyString)))
                   (or_empty (Py.or_else k_dt (Some EmptyString))))
  end.

(* ================================================================== *)
(** ** Period aggregator *)

Record totais : Type := mktotais {
  valor_total : Decimal;
  bc_icms : Decimal;
  valor_icms : Decimal
}.

Definition totais_zero : totais := mktotais Dec.zero Dec.zero Dec.zero.

(** The three per-document maps of [_questor_totais_periodo]. *)
Record por_doc : Type := mkpor_doc {
  por_doc_valor : dict Decimal;
  por_doc_bc : dict Decimal;
  por_doc_icms : dict Decimal
}.

(** Whether the loop of [_questor_totais_periodo] keeps a row: the date
    filter, the document kind and a document number that is not blank. *)
Definition questor_totais_accepts (headers : list pyval)
    (i_num : nat) (i_dt : option nat) (dt_ini dt_fim : option date)
    (row : list pyval) : bool :=
  (match dt_ini, dt_fim with
   | Some a, Some b =>
       match i_dt with
       | Some i =>
           if (List.length row <=? i)%nat then false
           else
             match _parse_date_any (Py.cell row i PNone) with
             | Some d => in_range a b d
             | None => false
             end
       | None => false
       end
   | _, _ => true
   end)
  && negb (_is_nfe_questor (_row_to_norm_dict headers row))
  && negb (String.eqb (strip (Py.str (Py.cell row i_num (PStr EmptyString))))
                      EmptyString).

(** The pair key under which a kept row is summed. *)
Definition questor_totais_key (i_num : nat) (i_ser : option nat)
    (row : list pyval) : string :=
  fst (_norm_pair (Py.str (Py.cell row i_num (PStr EmptyString)))
                  (questor_row_serie i_ser row)).

(** The three quantities of a normalised row. *)
Definition quantities (d : row_dict) : Decimal * Decimal * Decimal :=
  (_extr_decimal_by_keys d CANDS_VALOR_NOTA,
   _extr_decimal_by_keys d CANDS_BC_ICMS,
   _extr_decimal_by_keys d CANDS_VALOR_ICMS).

Definition questor_totais_step (headers : list pyval)
    (i_num : nat) (i_ser i_dt : option nat) (dt_ini dt_fim : option date)
    (st : por_doc) (row : list pyval) : result por_doc :=
  if questor_totais_accepts headers i_num i_dt dt_ini dt_fim row then
    let key_raw := questor_totais_key i_num i_ser row in
    let '(v_nota, v_bc, v_icms) := quantities (_row_to_norm_dict headers row) in
    pv <- accumulate (por_doc_valor st) key_raw v_nota ;;
    pb <- accumulate (por_doc_bc st) key_raw v_bc ;;
    pi <- accumulate (por_doc_icms st) key_raw v_icms ;;
    Ok (mkpor_doc pv pb pi)
  else Ok st.

(** The closing sums over the values of the three maps. *)
Definition por_doc_totais (st : por_doc) : result totais :=
  v <- Dec.sum (Dict.values (por_doc_valor st)) ;;
  b <- Dec.sum (Dict.values (por_doc_bc st)) ;;
  i <- Dec.sum (Dict.values (por_doc_icms st)) ;;
  Ok (mktotais v b i).

Definition _questor_totais_periodo (ws : worksheet)
    (dt_ini dt_fim : option date) : result totais :=
  match ws with
  | [] => Raise StopIteration
  | headers :: rows =>
      let cols := header_cols headers in
      let k_num := _first_key cols cand_num in
      let k_ser := _first_key cols cand_ser in
      let k_dt := _first_key cols cand_dt in
      if negb (Py.truthy k_num) then Ok totais_zero
      else
        i_num <- col_index cols (or_empty k_num) ;;
        i_ser <- opt_col_index cols k_ser ;;
        i_dt <- opt_col_index cols k_dt ;;
        st <- foldM (questor_totais_step headers i_num i_ser i_dt dt_ini dt_fim)
                    (mkpor_doc [] [] []) rows ;;
        por_doc_totais st
  end.

(* ================================================================== *)
(** ** The persisted registry *)

(** A [SatRegistro].  [pk] is the position of the row in the table, [None]
    for an object that was never read from it. *)
Record SatRegistro : Type := mkSatRegistro {
  pk : option nat;
  empresa : nat;
  competencia : option date;
  sheet : string;
  row : nat;
  data : row_dict;
  descricao : option string;
  ncm : option string;
  cfop : option string;
  cest : option string;
  cst_csosn : option string;
  data_emissao : option date
}.

(** The series of a persisted row. *)
Definition serie_sat_of (d : row_dict) : string :=
  or_empty (get_or_empty d (_first_key d ["serie"; "serienfe"; "serie_nfce"])).

(** The loop state of [_sat_totais_periodo]. *)
Record sat_acc : Type := mksat_acc {
  tot : totais;
  vistos : list string
}.

(** Whether the loop of [_sat_totais_periodo] reaches the pair key of a
    row: the date filter and a document number. *)
Definition sat_totais_accepts (dt_ini dt_fim : option date) (d : row_dict)
  : bool :=
  (match dt_ini, dt_fim with
   | Some a, Some b =>
       match _extr_data_emissao_dict d with
       | Some dt_em => in_range a b dt_em
       | None => false
       end
   | _, _ => true
   end)
  && nonempty (_numero_documento_sat d).

Definition sat_totais_key (d : row_dict) : string :=
  fst (_norm_pair (_numero_documento_sat d) (serie_sat_of d)).

(** [key in vistos]. *)
Definition seen (k : string) (vistos : list string) : bool :=
  existsb (String.eqb k) vistos.

Definition sat_totais_step (dt_ini dt_fim : option date)
    (st : sat_acc) (reg : SatRegistro) : result sat_acc :=
  let d := data reg in
  if sat_totais_accepts dt_ini dt_fim d then
    let key_pair_raw := sat_totais_key d in
    if seen key_pair_raw (vistos st) then Ok st
    else
      let '(v_nota, v_bc, v_icms) := quantities d in
      tv <- Dec.add (valor_total (tot st)) v_nota ;;
      tb <- Dec.add (bc_icms (tot st)) v_bc ;;
      ti <- Dec.add (valor_icms (tot st)) v_icms ;;
      Ok (mksat_acc (mktotais tv tb ti) (key_pair_raw :: vistos st))
  else Ok st.

Definition _sat_totais_periodo (qs : list SatRegistro)
    (dt_ini dt_fim : option date) : result totais :=
  st <- foldM (sat_totais_step dt_ini dt_fim) (mksat_acc totais_zero []) qs ;;
  Ok (tot st).

(* ================================================================== *)
(** ** Reconciler *)

(** An entry of the divergence list.  The display identifier [id_sat] is
    layout text and is left out. *)
Record divergencia : Type := mkdivergencia {
  dv_documento : string;
  dv_serie : string;
  dv_data_emissao : string;
  dv_valor_questor : Decimal;
  dv_status_sat : string;
  dv_valor_sat : Decimal;
  dv_sheet_sat : string;
  dv_row_sat : nat
}.

(** An entry of the authorised-but-absent list. *)
Record autorizada_fora : Type := mkautorizada_fora {
  af_documento : string;
  af_serie : string;
  af_data_emissao : string;
  af_status_sat : string;
  af_valor_sat : Decimal;
  af_sheet_sat : string;
  af_row_sat : nat
}.

(** [request.session["questor_cmp"]]. *)
Record payload : Type := mkpayload {
  p_empresa_id : nat;
  p_linhas_lidas : nat;
  p_pareadas : nat;
  p_nao_encontradas : nat;
  p_candidatos_cancelados : nat;
  p_resultado : list divergencia;
  p_meta : meta;
  p_sat_linhas_periodo : nat;
  p_questor_linhas_periodo : nat;
  p_sat_considerados : nat;
  p_inicio : string;
  p_fim : string;
  p_totais_questor : totais;
  p_totais_sat : totais;
  p_sat_autorizadas_fora : list autorizada_fora;
  p_sat_autorizadas_fora_total : nat
}.

Inductive level : Type := LError | LWarning | LSuccess.

(** What a request leaves behind: the flashed message, the page it
    redirects to and what it wrote to the session, if anything. *)
Record response : Type := mkresponse {
  flash : level;
  flash_text : string;
  redirect_to : string;
  stored : option payload
}.

(** The keys of a persisted row and its membership in the counterpart. *)
Record sat_keys : Type := mksat_keys {
  raw_doc : string;
  dig_doc : string;
  key_pair_raw : string;
  key_pair_dig : string
}.

Definition sat_keys_of (num_sat serie_sat : string) : sat_keys :=
  let '(rd, dd) := _norm_doc num_sat in
  let '(kr, kd) := _norm_pair num_sat serie_sat in
  mksat_keys rd dd kr kd.

(** The membership test, in the order pair-exact, pair-digits, doc-exact,
    doc-digits. *)
Definition present_in (t : tables) (k : sat_keys) : bool :=
  (nonempty (key_pair_raw k) && Dict.mem (key_pair_raw k) (pair_exato t))
  || (nonempty (key_pair_dig k) && Dict.mem (key_pair_dig k) (pair_digits t))
  || (nonempty (raw_doc k) && Dict.mem (raw_doc k) (doc_exato t))
  || (nonempty (dig_doc k) && Dict.mem (dig_doc k) (doc_digits t)).

(** [a or b] where [a] is an optional Decimal: [None] and a zero are
    false. *)
Definition dec_or (a b : option Decimal) : option Decimal :=
  match a with
  | Some d => if Dec.truthy d then a else b
  | None => b
  end.

(** The retrieval of the matched sum. *)
Definition lookup_val_q (t : tables) (k : sat_keys) : option Decimal :=
  dec_or (Dict.get (key_pair_raw k) (pair_exato t))
    (dec_or (Dict.get (key_pair_dig k) (pair_digits t))
       (dec_or (Dict.get (raw_doc k) (doc_exato t))
               (Dict.get (dig_doc k) (doc_digits t)))).

Definition iso_or_empty (d : option date) : string :=
  match d with
  | Some d => Py.isoformat d
  | None => EmptyString
  end.

(** The loop state of the pass over the cancelled rows. *)
Record cmp_state : Type := mkcmp_state {
  divergencias : list divergencia;
  candidatos : nat;
  pareadas : nat;
  nao_encontradas : nat;
  sat_considerados : nat;
  sat_total_periodo : nat
}.

Definition cancel_step (t : tables) (dt_ini dt_fim : option date)
    (st : cmp_state) (reg : SatRegistro) : result cmp_state :=
  let d := data reg in
  let dt_em := _extr_data_emissao_dict d in
  if negb (passes_period dt_ini dt_fim dt_em) then Ok st
  else
    let st := mkcmp_state (divergencias st) (candidatos st) (pareadas st)
                (nao_encontradas st) (sat_considerados st)
                (S (sat_total_periodo st)) in
    let num_sat := _numero_documento_sat d in
    if negb (nonempty num_sat) then Ok st
    else
      let serie_sat := serie_sat_of d in
      let k := sat_keys_of num_sat serie_sat in
      if negb (present_in t k) then Ok st
      else
        let st := mkcmp_state (divergencias st) (candidatos st) (pareadas st)
                    (nao_encontradas st) (S (sat_considerados st))
                    (sat_total_periodo st) in
        let status := _extr_status_sat d in
        if negb (_is_cancelado status) then Ok st
        else
          let st := mkcmp_state (divergencias st) (S (candidatos st))
                      (pareadas st) (nao_encontradas st)
                      (sat_considerados st) (sat_total_periodo st) in
          match lookup_val_q t k with
          | None =>
              Ok (mkcmp_state (divergencias st) (candidatos st) (pareadas st)
                    (S (nao_encontradas st)) (sat_considerados st)
                    (sat_total_periodo st))
          | Some val_q =>
              nz <- Dec.nonzero val_q ;;
              let dv :=
                if nz then
                  divergencias st ++
                  [ mkdivergencia num_sat serie_sat (iso_or_empty dt_em) val_q
                      (_status_legivel d) (_extr_valor_total_sat d)
                      (sheet reg) (row reg) ]
                else divergencias st in
              Ok (mkcmp_state dv (candidatos st) (S (pareadas st))
                    (nao_encontradas st) (sat_considerados st)
                    (sat_total_periodo st))
          end.

(** [a or b or c] on strings. *)
Definition str_or (a b : string) : string := if nonempty a then a else b.

(** The loop state of the pass over the authorised rows. *)
Record aut_state : Type := mkaut_state {
  autorizadas_fora : list autorizada_fora;
  vistos_aut : list string
}.

Definition autorizada_step (t : tables) (dt_ini dt_fim : option date)
    (st : aut_state) (reg : SatRegistro) : aut_state :=
  let d := data reg in
  let dt_em := _extr_data_emissao_dict d in
  if negb (passes_period dt_ini dt_fim dt_em) then st
  else
    let num_sat := _numero_documento_sat d in
    if negb (nonempty num_sat) then st
    else
      let serie_sat := serie_sat_of d in
      let k := sat_keys_of num_sat serie_sat in
      let status := _extr_status_sat d in
      if negb (_is_autorizado status) then st
      else if present_in t k then st
      else
        let uniq := str_or (key_pair_raw k) (str_or (raw_doc k) (dig_doc k)) in
        if seen uniq (vistos_aut st) then st
        else
          mkaut_state
            (autorizadas_fora st ++
             [ mkautorizada_fora num_sat serie_sat (iso_or_empty dt_em)
                 (_status_legivel d) (_extr_valor_total_sat d)
                 (sheet reg) (row reg) ])
            (uniq :: vistos_aut st).

(** [bool(set(...))] for the four key sets together. *)
Definition any_key (t : tables) : bool :=
  Dict.nonempty (pair_exato t) || Dict.nonempty (pair_digits t)
  || Dict.nonempty (doc_exato t) || Dict.nonempty (doc_digits t).

(** [(dt_ini and dt_fim) and dt_ini > dt_fim]. *)
Definition invalid_period (dt_ini dt_fim : option date) : bool :=
  match dt_ini, dt_fim with
  | Some a, Some b => negb (Calendar.date_leb a b)
  | _, _ => false
  end.

(** The answers of [comparar_questor] that store nothing. *)
Definition invalid_period_error : response :=
  mkresponse LError "Periodo invalido: data inicial maior que a final."
    "comparar_questor_form" None.

Definition schema_error_response (msg : string) : response :=
  mkresponse LError msg "comparar_questor_form" None.

Definition no_document_warning : response :=
  mkresponse LWarning
    "A planilha do Questor nao trouxe nenhum Documento legivel para pareamento no periodo."
    "comparar_questor_form" None.

(** [comparar_questor], from the opened workbook on: [ws_q] is its first
    sheet, [store] the registry table, [inicio] and [fim] the two form
    fields.  A [Raise] is an exception that the view does not catch. *)
Definition comparar_questor (empresa_id : nat) (store : list SatRegistro)
    (ws_q : worksheet) (inicio fim : pyval) : result response :=
  let dt_ini := _parse_date_any inicio in
  let dt_fim := _parse_date_any fim in
  if invalid_period dt_ini dt_fim then Ok invalid_period_error
  else
    match _questor_map_por_documento ws_q dt_ini dt_fim with
    | Raise (ValueError msg) => Ok (schema_error_response msg)
    | Raise e => Raise e
    | Ok (t, m) =>
        totais_questor <- _questor_totais_periodo ws_q dt_ini dt_fim ;;
        if negb (any_key t) then Ok no_document_warning
        else
          let qs_sat := filter (fun r => Nat.eqb (empresa r) empresa_id) store in
          totais_sat <- _sat_totais_periodo qs_sat dt_ini dt_fim ;;
          st <- foldM (cancel_step t dt_ini dt_fim)
                      (mkcmp_state [] 0 0 0 0 0) qs_sat ;;
          let au := fold_left (autorizada_step t dt_ini dt_fim) qs_sat
                              (mkaut_state [] []) in
          Ok (mkresponse LSuccess EmptyString "comparar_questor_resultado"
                (Some (mkpayload empresa_id
                         (linhas_lidas_periodo m)
                         (pareadas st) (nao_encontradas st) (candidatos st)
                         (firstn (Z.to_nat 20000) (divergencias st))
                         m
                         (sat_total_periodo st)
                         (linhas_lidas_periodo m)
                         (sat_considerados st)
                         (iso_or_empty dt_ini) (iso_or_empty dt_fim)
                         totais_questor totais_sat
                         (firstn (Z.to_nat 20000) (autorizadas_fora au))
                         (List.length (autorizadas_fora au)))))
    end.

(* ================================================================== *)
(** ** Importacao SAT (usa competencia) *)

(** The table of [SatRegistro] rows.  A row's [pk] is its position. *)
Definition table : Type := list SatRegistro.

(** The logical key [(empresa, competencia, sheet, row)]. *)
Definition ukey : Type := (nat * option date * string * nat)%type.

Definition opt_date_eqb (a b : option date) : bool :=
  match a, b with
  | Some x, Some y => Calendar.date_eqb x y
  | None, None => true
  | _, _ => false
  end.

Definition ukey_eqb (a b : ukey) : bool :=
  let '(e1, c1, s1, r1) := a in
  let '(e2, c2, s2, r2) := b in
  Nat.eqb e1 e2 && opt_date_eqb c1 c2 && String.eqb s1 s2 && Nat.eqb r1 r2.

Definition ukey_of (reg : SatRegistro) : ukey :=
  (empresa reg, competencia reg, sheet reg, row reg).

(** [exist_map]: logical key to the object in memory.  The lists
    [to_create] and [to_update] hold references to objects of this map, so
    they are lists of keys: a key never changes the object it names. *)
Definition exist_map_t : Type := list (ukey * SatRegistro).

Fixpoint em_get (k : ukey) (m : exist_map_t) : option SatRegistro :=
  match m with
  | [] => None
  | (k', v) :: r => if ukey_eqb k k' then Some v else em_get k r
  end.

Fixpoint em_set (k : ukey) (v : SatRegistro) (m : exist_map_t) : exist_map_t :=
  match m with
  | [] => [(k, v)]
  | (k', v') :: r =>
      if ukey_eqb k k' then (k', v) :: r else (k', v') :: em_set k v r
  end.

(** The objects a list of references names. *)
Definition deref (m : exist_map_t) (ks : list ukey) : list SatRegistro :=
  flat_map (fun k => match em_get k m with Some o => [o] | None => [] end) ks.

(** The partial unique constraint [uniq_emp_comp_sheet_row]: it binds rows
    whose competency is not null. *)
Definition conflicts (t : table) (o : SatRegistro) : bool :=
  match competencia o with
  | None => false
  | Some _ => existsb (fun r => ukey_eqb (ukey_of r) (ukey_of o)) t
  end.

Definition with_pk (p : nat) (o : SatRegistro) : SatRegistro :=
  mkSatRegistro (Some p) (empresa o) (competencia o) (sheet o) (row o) (data o)
    (descricao o) (ncm o) (cfop o) (cest o) (cst_csosn o) (data_emissao o).

(** [bulk_create(objs, ignore_conflicts=True)]: a row that would break the
    constraint is dropped, any other is appended. *)
Definition insert_ignore (t : table) (o : SatRegistro) : table :=
  if conflicts t o then t else t ++ [with_pk (List.length t) o].

Definition bulk_create (t : table) (objs : list SatRegistro) : table :=
  fold_left insert_ignore objs t.

(** The eight columns [bulk_update] writes, taken from the object. *)
Definition write_fields (o r : SatRegistro) : SatRegistro :=
  mkSatRegistro (pk r) (empresa r) (competencia o) (sheet r) (row r) (data o)
    (descricao o) (ncm o) (cfop o) (cest o) (cst_csosn o) (data_emissao o).

Definition opt_nat_eqb (a b : option nat) : bool :=
  match a, b with
  | Some x, Some y => Nat.eqb x y
  | None, None => true
  | _, _ => false
  end.

Definition update_row (t : table) (o : SatRegistro) : table :=
  map (fun r => if opt_nat_eqb (pk r) (pk o) then write_fields o r else r) t.

Definition has_pk (o : SatRegistro) : bool :=
  match pk o with
  | Some _ => true
  | None => false
  end.

(** [bulk_update(objs, fields=[...])]: an object without primary key is
    refused before anything is written. *)
Definition bulk_update (t : table) (objs : list SatRegistro) : result table :=
  if forallb has_pk objs then Ok (fold_left update_row objs t)
  else Raise (ValueError "All bulk_update() objects must have a primary key set.").

Definition BATCH : nat := 500.

Record imp_state : Type := mkimp_state {
  exist_map : exist_map_t;
  to_create : list ukey;
  to_update : list ukey;
  tbl : table;
  criados : nat;
  atualizados : nat;
  ignorados_vazios : nat
}.

(** The inner loop over the header keys: the row as a dict, and whether
    every cell was blank. *)
Definition build_data (header_keys : list string) (cells : list pyval)
  : row_dict * bool :=
  fold_left
    (fun acc ik =>
       let val := Py.cell cells (fst ik) PNone in
       (Dict.set (snd ik)
                 (if Py.is_blank val then None else Some (Py.str val))
                 (fst acc),
        snd acc && Py.is_blank val))
    (enumerate_from 0 header_keys) ([], true).

(** [data.get(k)]. *)
Definition data_get (d : row_dict) (k : string) : option string :=
  get_opt d (Some k).

(** The two flushes at the end of an iteration. *)
Definition flush_full (st : imp_state) : result imp_state :=
  let st1 :=
    if (BATCH <=? List.length (to_create st))%nat then
      mkimp_state (exist_map st) [] (to_update st)
        (bulk_create (tbl st) (deref (exist_map st) (to_create st)))
        (criados st) (atualizados st) (ignorados_vazios st)
    else st in
  if (BATCH <=? List.length (to_update st1))%nat then
    t <- bulk_update (tbl st1) (deref (exist_map st1) (to_update st1)) ;;
    Ok (mkimp_state (exist_map st1) (to_create st1) [] t
          (criados st1) (atualizados st1) (ignorados_vazios st1))
  else Ok st1.

(** The competency a row is filed under. *)
Definition row_competencia (comp_param : option date) (d : row_dict)
  : option date :=
  match _competencia_from_date (_extr_data_emissao_dict d) with
  | Some c => Some c
  | None => comp_param
  end.

(** One iteration of the loop over the rows of a sheet. *)
Definition import_row (empresa_id : nat) (comp_param : option date)
    (sheet_name : string) (header_keys : list string)
    (st : imp_state) (rr : nat * list pyval) : result imp_state :=
  let '(r, cells) := rr in
  let '(d, vazio) := build_data header_keys cells in
  if vazio then
    Ok (mkimp_state (exist_map st) (to_create st) (to_update st) (tbl st)
          (criados st) (atualizados st) (S (ignorados_vazios st)))
  else
    let desc :=
      Py.or_else (data_get d "descricao")
        (Py.or_else (data_get d "descricao_produto")
                    (data_get d "descricao_mercadoria")) in
    let cst :=
      Py.or_else (data_get d "cst_csosn")
        (Py.or_else (data_get d "cst") (data_get d "csosn")) in
    let dt_em := _extr_data_emissao_dict d in
    let comp := row_competencia comp_param d in
    let unique_key : ukey := (empresa_id, comp, sheet_name, r) in
    let st' :=
      match em_get unique_key (exist_map st) with
      | Some reg =>
          let reg' :=
            mkSatRegistro (pk reg) (empresa reg) comp (sheet reg) (row reg) d
              desc (data_get d "ncm") (data_get d "cfop") (data_get d "cest")
              cst dt_em in
          mkimp_state (em_set unique_key reg' (exist_map st))
            (to_create st) (to_update st ++ [unique_key]) (tbl st)
            (criados st) (S (atualizados st)) (ignorados_vazios st)
      | None =>
          let obj :=
            mkSatRegistro None empresa_id comp sheet_name r d
              desc (data_get d "ncm") (data_get d "cfop") (data_get d "cest")
              cst dt_em in
          mkimp_state (em_set unique_key obj (exist_map st))
            (to_create st ++ [unique_key]) (to_update st) (tbl st)
            (S (criados st)) (atualizados st) (ignorados_vazios st)
      end in
    flush_full st'.

(** A workbook: the sheets in order, each under its name. *)
Definition workbook : Type := list (string * worksheet).

(** [wb[sheet_name]]: the first sheet of that name. *)
Fixpoint wb_get (wb : workbook) (name : string) : worksheet :=
  match wb with
  | [] => []
  | (n, ws) :: r => if String.eqb n name then ws else wb_get r name
  end.

(** The body of the loop over the sheet names. *)
Definition import_sheet (empresa_id : nat) (comp_param : option date)
    (wb : workbook) (st : imp_state) (sheet_name : string)
  : result imp_state :=
  match wb_get wb sheet_name with
  | [] => Ok st
  | headers :: rows =>
      let header_keys := map _slugify_field headers in
      foldM (import_row empresa_id comp_param sheet_name header_keys)
            st (enumerate_from 2 rows)
  end.

(** The objects of the company, keyed by their logical key. *)
Definition load_exist_map (empresa_id : nat) (t : table) : exist_map_t :=
  fold_left
    (fun m reg => em_set (empresa_id, competencia reg, sheet reg, row reg) reg m)
    (filter (fun reg => Nat.eqb (empresa reg) empresa_id) t) [].

(** What an import run reports, with the table it leaves. *)
Record import_result : Type := mkimport_result {
  ir_table : table;
  ir_criados : nat;
  ir_atualizados : nat;
  ir_ignorados_vazios : nat
}.

(** [sat_importar], from the opened workbook on.  The view runs in one
    transaction: a [Raise] leaves the table as it was. *)
Definition sat_importar (t : table) (empresa_id : nat)
    (comp_param : option date) (wb : workbook) : result import_result :=
  st <- foldM (import_sheet empresa_id comp_param wb)
              (mkimp_state (load_exist_map empresa_id t) [] [] t 0 0 0)
              (map fst wb) ;;
  let t1 :=
    match to_create st with
    | [] => tbl st
    | _ => bulk_create (tbl st) (deref (exist_map st) (to_create st))
    end in
  t2 <- match to_update st with
        | [] => Ok t1
        | _ => bulk_update t1 (deref (exist_map st) (to_update st))
        end ;;
  Ok (mkimport_result t2 (criados st) (atualizados st) (ignorados_vazios st)).

(* ================================================================== *)
(** ** Sample inputs *)

(** A Questor sheet where document 123, series 1, is posted with value
    zero, and the same digits are posted once more, written [12-3], with
    value 150,00. *)
Definition ws_zero_sum : worksheet :=
  [ [PStr "Numero Documento"; PStr "Serie"; PStr "Valor Contabil"];
    [PStr "12-3"; PStr "1"; PStr "150,00"];
    [PStr "123"; PStr "1"; PStr "0,00"] ].

(** A cancelled SAT row for document 123, series 1. *)
Definition reg_cancelada_123 : SatRegistro :=
  mkSatRegistro (Some 0) 1 None "Plan1" 2
    [ ("numerodocumento", Some "123"); ("serie", Some "1");
      ("situacao", Some "Cancelada") ]
    None None None None None None.

(** The tables [_questor_map_por_documento] builds from [ws_zero_sum]. *)
Definition tables_zero_sum : tables :=
  mktables [] []
    [ ("12-3|1", DFin 15000 (-2)); ("123|1", DFin 0 (-2)) ]
    [ ("123|1", DFin 15000 (-2)) ].

(* ================================================================== *)
(** ** The two amount conventions *)

(** The text after the first occurrence of [c], when [c] occurs. *)
Fixpoint after_char (c : ascii) (s : string) : option string :=
  match s with
  | EmptyString => None
  | String a r => if Ascii.eqb a c then Some r else after_char c r
  end.

(** One or more digits. *)
Definition plain_digits (s : string) : bool :=
  nonempty s && forall_chars is_digit s.

(** Zero or more groups of a dot and three digits. *)
Fixpoint groups3 (s : string) : bool :=
  match s with
  | EmptyString => true
  | String "." (String a (String b (String c r))) =>
      is_digit a && is_digit b && is_digit c && groups3 r
  | _ => false
  end.

(** One to three digits, then groups of three behind dots: [1.234.567]. *)
Definition grouped (s : string) : bool :=
  match s with
  | String a r =>
      is_digit a
      && (groups3 r
          || match r with
             | String b r2 =>
                 is_digit b
                 && (groups3 r2
                     || match r2 with
                        | String c r3 => is_digit c && groups3 r3
                        | EmptyString => false
                        end)
             | EmptyString => false
             end)
  | EmptyString => false
  end.

(** A sign in front of an amount: whether the amount is negative, and the
    amount without its sign. *)
Definition leading_sign (s : string) : bool * string :=
  match s with
  | String "-" r => (true, r)
  | String "+" r => (false, r)
  | _ => (false, s)
  end.

(** The [1.234,56] convention: an optional sign, an integer part, plain or
    grouped by dots, one comma, and the decimals. *)
Definition is_comma_decimal (s : string) : bool :=
  let u := snd (leading_sign s) in
  match after_char "," u with
  | Some f =>
      let i := before_char "," u in
      (plain_digits i || grouped i) && plain_digits f
  | None => false
  end.

(** The [1234.56] convention: an optional sign, digits, and optionally a
    point and the decimals. *)
Definition is_point_decimal (s : string) : bool :=
  let u := snd (leading_sign s) in
  match after_char "." u with
  | Some f => plain_digits (before_char "." u) && plain_digits f
  | None => plain_digits u
  end.

(** The amount such a text denotes: the number its digits spell, with its
    sign, scaled by the count of decimals behind the separator [sep]. *)
Definition intended_amount (sep : ascii) (s : string) : Decimal :=
  let z := digits_value 0 (digits_of s) in
  DFin (if fst (leading_sign s) then (- z)%Z else z)
       (- Z.of_nat (String.length (or_empty (after_char sep s)))).

(** The characters of an amount: a digit, a dot or a comma; the same or a
    sign; a digit or a dot. *)
Definition amount_char (c : ascii) : bool :=
  is_digit c || Ascii.eqb c "." || Ascii.eqb c ",".

Definition signed_char (c : ascii) : bool :=
  amount_char c || Ascii.eqb c "-" || Ascii.eqb c "+".

Definition dot_digit (c : ascii) : bool := is_digit c || Ascii.eqb c ".".

(* ================================================================== *)
(** ** The document kind, in words *)

(** What a field says about the kind of a document. *)
Inductive verdict : Type := Receipt | Invoice | Unresolved.

(** The kind (species) field: a receipt marker or the code 65, else an
    invoice marker or the code 55. *)
Definition especie_verdict (v : string) : verdict :=
  if contains "nfce" v || contains "nfc" v || String.eqb v "65" then Receipt
  else if contains "nfe" v || contains "nfeletronica" v || String.eqb v "55"
  then Invoice
  else Unresolved.

(** The model field: the codes count wherever they occur in the text. *)
Definition modelo_verdict (v : string) : verdict :=
  if contains "65" v || contains "nfce" v || contains "nfc" v then Receipt
  else if contains "55" v || contains "nfe" v then Invoice
  else Unresolved.

(** The access key: with 22 digits or more, the two digits at offset 20. *)
Definition chave_verdict (digs : string) : verdict :=
  if (22 <=? String.length digs)%nat then
    if String.eqb (slice 20 22 digs) "55" then Invoice
    else if String.eqb (slice 20 22 digs) "65" then Receipt
    else Unresolved
  else Unresolved.

(** The verdict of a field that [_first_key] finds under [candidates],
    read through [norm]. *)
Definition field_verdict (d : row_dict) (candidates : list string)
    (read : option string -> verdict) : verdict :=
  let k := _first_key d candidates in
  if Py.truthy k then read (get_or_empty d k) else Unresolved.

(** The first of kind, model and access key that resolves. *)
Definition document_verdict (d : row_dict) : verdict :=
  match field_verdict d ["especie"; "especie_documento"; "tipo"; "tipo_documento"]
          (fun v => especie_verdict (_norm_txt (Py.str (to_py v)))) with
  | Unresolved =>
      match field_verdict d
              [ "modelodocumento"; "modelo_documento"; "modelo"; "mod";
                "modelo_nf"; "modelo_nfe"; "modelo_nfce" ]
              (fun v => modelo_verdict (_norm_txt (Py.str (to_py v)))) with
      | Unresolved =>
          field_verdict d ["chaveacesso"; "chave_de_acesso"; "chave"; "accesskey"]
            (fun v => chave_verdict (_digits_only (or_empty v)))
      | v => v
      end
  | v => v
  end.

(** Whether the indexer keeps a row: the date filter, the document kind
    and a document number that is not blank. *)
Definition questor_map_accepts (headers : list pyval)
    (i_num : nat) (i_dt : option nat) (dt_ini dt_fim : option date)
    (row : list pyval) : bool :=
  passes_period dt_ini dt_fim (questor_row_date i_dt row)
  && negb (_is_nfe_questor (_row_to_norm_dict headers row))
  && negb (String.eqb (strip (Py.str (questor_raw_num i_num row))) EmptyString).

(** The value, the series and the four keys of a row of the sheet. *)
Definition questor_row_val (i_val : nat) (row : list pyval) : Decimal :=
  _parse_decimal (Py.cell row i_val (PStr "0")).

Definition questor_row_keys (i_num : nat) (i_ser : option nat)
    (row : list pyval) : sat_keys :=
  sat_keys_of (Py.str (questor_raw_num i_num row)) (questor_row_serie i_ser row).

(** Three one-row sheets: a receipt (NFC-e), an invoice (NF-e) and a row
    that says nothing about its kind. *)
Definition ws_receipt : worksheet :=
  [ [PStr "Numero Documento"; PStr "Serie"; PStr "Valor Contabil"; PStr "Especie"];
    [PStr "10"; PStr "1"; PStr "50,00"; PStr "NFC-e"] ].

Definition ws_invoice : worksheet :=
  [ [PStr "Numero Documento"; PStr "Serie"; PStr "Valor Contabil"; PStr "Especie"];
    [PStr "10"; PStr "1"; PStr "50,00"; PStr "NF-e"] ].

Definition ws_unknown_kind : worksheet :=
  [ [PStr "Numero Documento"; PStr "Serie"; PStr "Valor Contabil"];
    [PStr "10"; PStr "1"; PStr "50,00"] ].

Definition tables_doc_10 : tables :=
  mktables [] [] [("10|1", DFin 5000 (-2))] [("10|1", DFin 5000 (-2))].

(* ================================================================== *)
(** ** Words for the indexer's effect on a map *)

(** [m'] is [m] with [v] added under [k]: the entry of [k] is the sum of
    the old entry (zero when absent) and [v], every other entry is as it
    was. *)
Definition added (m : dict Decimal) (k : string) (v : Decimal)
    (m' : dict Decimal) : Prop :=
  exists s,
    Dec.add (Dict.get_default k Dec.zero m) v = Ok s
    /\ Dict.get k m' = Some s
    /\ forall k', k' <> k -> Dict.get k' m' = Dict.get k' m.

(** The header and two rows of a small sheet: one row with a series, one
    without. *)
Definition headers_nsv : list pyval :=
  [PStr "Numero Documento"; PStr "Serie"; PStr "Valor Contabil"].

Definition row_with_serie : list pyval := [PStr "10"; PStr "1"; PStr "50,00"].

Definition row_without_serie : list pyval := [PStr "10"; PNone; PStr "50,00"].

Definition qstate0 : qstate := mkqstate empty_tables 0 0.

(** A sheet whose only data row has no document number. *)
Definition ws_blank_number : worksheet :=
  [ headers_nsv; [PStr " "; PStr "1"; PStr "50,00"] ].

(** A sheet without a value column, and one without a series column. *)
Definition ws_no_value : worksheet :=
  [ [PStr "Numero Documento"; PStr "Serie"]; [PStr "10"; PStr "1"] ].

Definition ws_no_serie : worksheet :=
  [ [PStr "Numero Documento"; PStr "Valor Contabil"]; [PStr "10"; PStr "50,00"] ].

(* ================================================================== *)
(** ** Words for the period totals *)

(** The rows of [l] that are the first to carry their key, given the keys
    [seen_keys] met before. *)
Fixpoint first_by_key {A : Type} (key : A -> string) (seen_keys : list string)
    (l : list A) : list A :=
  match l with
  | [] => []
  | a :: r =>
      if seen (key a) seen_keys then first_by_key key seen_keys r
      else a :: first_by_key key (key a :: seen_keys) r
  end.

(** [tot_valor += v_nota; tot_bc += v_bc; tot_icms += v_icms]. *)
Definition add3 (t : totais) (q : Decimal * Decimal * Decimal) : result totais :=
  let '(v_nota, v_bc, v_icms) := q in
  tv <- Dec.add (valor_total t) v_nota ;;
  tb <- Dec.add (bc_icms t) v_bc ;;
  ti <- Dec.add (valor_icms t) v_icms ;;
  Ok (mktotais tv tb ti).

(** The values that the rows of [l] with key [k] carry, in order. *)
Definition values_of_key {A : Type} (key : A -> string) (val : A -> Decimal)
    (k : string) (l : list A) : list Decimal :=
  map val (filter (fun a => String.eqb (key a) k) l).

(** [m] merges the rows of [l] by key: its keys are the keys of the rows,
    each once, and the entry of a key is the sum of the values of its rows,
    taken in order from zero. *)
Definition merged_by_key {A : Type} (key : A -> string) (val : A -> Decimal)
    (l : list A) (m : dict Decimal) : Prop :=
  NoDup (Dict.keys m)
  /\ (forall k, Dict.mem k m = existsb (fun a => String.eqb (key a) k) l)
  /\ (forall k, Dec.sum (values_of_key key val k l)
                = Ok (Dict.get_default k Dec.zero m)).

Definition q_valor (headers : list pyval) (row : list pyval) : Decimal :=
  fst (fst (quantities (_row_to_norm_dict headers row))).

Definition q_bc (headers : list pyval) (row : list pyval) : Decimal :=
  snd (fst (quantities (_row_to_norm_dict headers row))).

Definition q_icms (headers : list pyval) (row : list pyval) : Decimal :=
  snd (quantities (_row_to_norm_dict headers row)).

(** Two postings of document 10, series 1: as rows of a Questor sheet and
    as rows of the registry. *)
Definition ws_two_postings : worksheet :=
  [ [PStr "Numero"; PStr "Serie"; PStr "Valor Total"; PStr "BC ICMS"; PStr "Valor ICMS"];
    [PStr "10"; PStr "1"; PStr "100,00"; PStr "80,00"; PStr "8,00"];
    [PStr "10"; PStr "1"; PStr "50,00"; PStr "40,00"; PStr "4,00"] ].

Definition reg_posting (r : nat) (valor bc icms : string) : SatRegistro :=
  mkSatRegistro (Some (r - 2)) 1 None "Plan1" r
    [ ("numero", Some "10"); ("serie", Some "1");
      ("valor_total", Some valor); ("bc_icms", Some bc);
      ("valor_icms", Some icms) ]
    None None None None None None.

Definition regs_two_postings : list SatRegistro :=
  [ reg_posting 2 "100,00" "80,00" "8,00"; reg_posting 3 "50,00" "40,00" "4,00" ].

(** The step of the loop over key and value pairs that each of the three maps of
    [_questor_totais_periodo] goes through. *)
Definition merge_step (m : dict Decimal) (kv : string * Decimal)
  : result (dict Decimal) :=
  accumulate m (fst kv) (snd kv).

(* ================================================================== *)
(** ** Words for the importer *)

(** One data row of the workbook as the two loops reach it: the sheet it
    is on, the header keys of that sheet, its row number and its cells. *)
Record item : Type := mkitem {
  it_sheet : string;
  it_keys : list string;
  it_row : nat;
  it_cells : list pyval
}.

(** The data rows of the sheet [wb[name]], numbered from 2. *)
Definition sheet_items (wb : workbook) (name : string) : list item :=
  match wb_get wb name with
  | [] => []
  | headers :: rows =>
      map (fun rr => mkitem name (map _slugify_field headers) (fst rr) (snd rr))
          (enumerate_from 2 rows)
  end.

(** The data rows of the workbook in the order of the import. *)
Definition all_items (wb : workbook) : list item :=
  flat_map (sheet_items wb) (map fst wb).

Definition import_item (empresa_id : nat) (comp_param : option date)
    (st : imp_state) (x : item) : result imp_state :=
  import_row empresa_id comp_param (it_sheet x) (it_keys x) st
             (it_row x, it_cells x).

(** The logical key of a row that is not empty. *)
Definition item_key (empresa_id : nat) (comp_param : option date) (x : item)
  : option ukey :=
  let '(d, vazio) := build_data (it_keys x) (it_cells x) in
  if vazio then None
  else Some (empresa_id, row_competencia comp_param d, it_sheet x, it_row x).

Definition item_keys (empresa_id : nat) (comp_param : option date)
    (items : list item) : list ukey :=
  flat_map (fun x => match item_key empresa_id comp_param x with
                     | Some k => [k]
                     | None => []
                     end) items.

(** The primary key of a row is its position in the table. *)
Definition pk_ok (t : table) : Prop :=
  forall p reg, nth_error t p = Some reg -> pk reg = Some p.

(** The table holds a row of logical key [k]. *)
Definition persisted (t : table) (k : ukey) : Prop :=
  exists reg, In reg t /\ ukey_of reg = k.

(** The object of an update: the loaded one with the fields of the row. *)
Definition updated_reg (reg : SatRegistro) (comp : option date) (d : row_dict)
  : SatRegistro :=
  mkSatRegistro (pk reg) (empresa reg) comp (sheet reg) (row reg) d
    (Py.or_else (data_get d "descricao")
       (Py.or_else (data_get d "descricao_produto")
                   (data_get d "descricao_mercadoria")))
    (data_get d "ncm") (data_get d "cfop") (data_get d "cest")
    (Py.or_else (data_get d "cst_csosn")
       (Py.or_else (data_get d "cst") (data_get d "csosn")))
    (_extr_data_emissao_dict d).

(** The object of an insert. *)
Definition created_reg (empresa_id : nat) (comp : option date)
    (sheet_name : string) (r : nat) (d : row_dict) : SatRegistro :=
  mkSatRegistro None empresa_id comp sheet_name r d
    (Py.or_else (data_get d "descricao")
       (Py.or_else (data_get d "descricao_produto")
                   (data_get d "descricao_mercadoria")))
    (data_get d "ncm") (data_get d "cfop") (data_get d "cest")
    (Py.or_else (data_get d "cst_csosn")
       (Py.or_else (data_get d "cst") (data_get d "csosn")))
    (_extr_data_emissao_dict d).

(** The state after the branch of a hit and of a miss, before the flushes. *)
Definition staged_update (st : imp_state) (k : ukey) (reg : SatRegistro)
  : imp_state :=
  mkimp_state (em_set k reg (exist_map st)) (to_create st) (to_update st ++ [k])
    (tbl st) (criados st) (S (atualizados st)) (ignorados_vazios st).

Definition staged_create (st : imp_state) (k : ukey) (obj : SatRegistro)
  : imp_state :=
  mkimp_state (em_set k obj (exist_map st)) (to_create st ++ [k]) (to_update st)
    (tbl st) (S (criados st)) (atualizados st) (ignorados_vazios st).

(** A registry with one undated row of company 7, and a workbook whose
    row 2 of the same sheet has no date either. *)
Definition table_undated : table :=
  [ mkSatRegistro (Some 0) 7 None "Plan1" 2 [("numero", Some "1")]
      None None None None None None ].

Definition wb_undated : workbook :=
  [ ("Plan1", [ [PStr "Numero"; PStr "NCM"]; [PStr "1"; PStr "100"] ]) ].

(** A workbook with a dated row, an empty row and an undated row. *)
Definition wb_three_rows : workbook :=
  [ ("Plan1", [ [PStr "Numero"; PStr "Data Emissao"; PStr "NCM"];
                [PStr "1"; PStr "31/12/2024"; PStr "100"];
                [PNone; PStr ""; PNone];
                [PStr "2"; PNone; PStr "200"] ]) ].

(** Where a row stands in the workbook. *)
Definition locator (x : item) : string * nat := (it_sheet x, it_row x).

(** What the importer relies on in a table: the primary key and the
    logical key of each row, in order. *)
Definition shape (t : table) : list (option nat * ukey) :=
  map (fun reg => (pk reg, ukey_of reg)) t.

Definition key_comp (k : ukey) : option date := snd (fst (fst k)).

(** In a shape, the primary key of a row is its position. *)
Definition sh_ok (sh : list (option nat * ukey)) : Prop :=
  forall p x, nth_error sh p = Some x -> fst x = Some p.

(** Writing the object [o] over the rows of its primary key changes no
    logical key. *)
Definition harmless (sh : list (option nat * ukey)) (o : SatRegistro) : Prop :=
  forall x, In x sh -> fst x = pk o -> key_comp (snd x) = competencia o.

(** The invariant of the import loop; [rest] are the keys of the rows
    still to come.  An object read from the table names the row at its
    primary key, which has the key the object is filed under; an object
    made by this run is pending or written, and no later row has its key;
    the pending updates are objects with a primary key. *)
Record import_inv (rest : list ukey) (st : imp_state) : Prop := mkimport_inv {
  inv_pk : sh_ok (shape (tbl st));
  inv_obj :
    forall k o, em_get k (exist_map st) = Some o ->
      ukey_of o = k
      /\ match pk o with
         | Some p => nth_error (shape (tbl st)) p = Some (Some p, k)
         | None =>
             (In k (to_create st)
              \/ exists x, In x (shape (tbl st)) /\ snd x = k)
             /\ ~ In k rest
         end;
  inv_upd :
    forall k, In k (to_update st) ->
      exists o, em_get k (exist_map st) = Some o /\ has_pk o = true;
  inv_cre :
    forall k, In k (to_create st) ->
      exists o, em_get k (exist_map st) = Some o
}.

(** Whether the object map holds the key. *)
Definition hit (m : exist_map_t) (k : ukey) : bool :=
  match em_get k m with
  | Some _ => true
  | None => false
  end.

(** The state after a flush of the pending inserts and of the pending
    updates. *)
Definition after_create (st : imp_state) : imp_state :=
  mkimp_state (exist_map st) [] (to_update st)
    (bulk_create (tbl st) (deref (exist_map st) (to_create st)))
    (criados st) (atualizados st) (ignorados_vazios st).

Definition after_update (st : imp_state) (t : table) : imp_state :=
  mkimp_state (exist_map st) (to_create st) [] t
    (criados st) (atualizados st) (ignorados_vazios st).

(** The rows of a run that find their key in the object map [m], those
    that do not, and the empty ones. *)
Definition count_hit (m : exist_map_t) (ks : list ukey) : nat :=
  List.length (filter (hit m) ks).

Definition count_miss (m : exist_map_t) (ks : list ukey) : nat :=
  List.length (filter (fun k => negb (hit m k)) ks).

Definition count_empty (empresa_id : nat) (comp_param : option date)
    (items : list item) : nat :=
  List.length
    (filter (fun x => match item_key empresa_id comp_param x with
                      | Some _ => false
                      | None => true
                      end) items).

(** The state after an empty row. *)
Definition staged_empty (st : imp_state) : imp_state :=
  mkimp_state (exist_map st) (to_create st) (to_update st) (tbl st)
    (criados st) (atualizados st) (S (ignorados_vazios st)).

(** The key of a row as a list: empty for an empty row. *)
Definition item_key_list (empresa_id : nat) (comp_param : option date)
    (x : item) : list ukey :=
  match item_key empresa_id comp_param x with
  | Some k => [k]
  | None => []
  end.

(** The dict of a row. *)
Definition item_data (x : item) : row_dict :=
  fst (build_data (it_keys x) (it_cells x)).

(** The key under which [sat_importar] files a row it reads from the
    table. *)
Definition load_key (emp : nat) (reg : SatRegistro) : ukey :=
  (emp, competencia reg, sheet reg, row reg).

(** A row has a value: some cell under a header is neither [None] nor the
    empty text. *)
Definition has_value (x : item) : bool :=
  existsb (fun i => negb (Py.is_blank (Py.cell (it_cells x) i PNone)))
          (seq 0 (List.length (it_keys x))).

(** The logical key a row with a value is filed under. *)
Definition row_key (empresa_id : nat) (comp_param : option date) (x : item)
  : ukey :=
  (empresa_id, row_competencia comp_param (item_data x), it_sheet x, it_row x).

(* ================================================================== *)
(** ** Words for the reconciler *)

(** How the counters of the pass over the cancelled rows stand to each
    other. *)
Definition counters_ok (st : cmp_state) : Prop :=
  candidatos st = pareadas st + nao_encontradas st
  /\ candidatos st <= sat_considerados st
  /\ sat_considerados st <= sat_total_periodo st
  /\ List.length (divergencias st) <= pareadas st.

(** The keys of a persisted row. *)
Definition reg_keys (reg : SatRegistro) : sat_keys :=
  sat_keys_of (_numero_documento_sat (data reg)) (serie_sat_of (data reg)).

(** A divergence entry reports the row [reg]: a cancelled row with a
    document number, found in the tables [t], whose retrieved sum is the
    reported value and is not zero. *)
Definition reports_cancelled (t : tables) (reg : SatRegistro)
    (e : divergencia) : Prop :=
  dv_documento e = _numero_documento_sat (data reg)
  /\ dv_serie e = serie_sat_of (data reg)
  /\ dv_sheet_sat e = sheet reg
  /\ dv_row_sat e = row reg
  /\ nonempty (dv_documento e) = true
  /\ _is_cancelado (_extr_status_sat (data reg)) = true
  /\ present_in t (reg_keys reg) = true
  /\ lookup_val_q t (reg_keys reg) = Some (dv_valor_questor e)
  /\ Dec.nonzero (dv_valor_questor e) = Ok true.

(** An entry of the second list reports the row [reg]: an authorised row
    with a document number that the tables [t] do not hold. *)
Definition reports_absent (t : tables) (reg : SatRegistro)
    (e : autorizada_fora) : Prop :=
  af_documento e = _numero_documento_sat (data reg)
  /\ af_serie e = serie_sat_of (data reg)
  /\ af_sheet_sat e = sheet reg
  /\ af_row_sat e = row reg
  /\ nonempty (af_documento e) = true
  /\ _is_autorizado (_extr_status_sat (data reg)) = true
  /\ present_in t (reg_keys reg) = false.

(** The exact pair key of an entry of the second list. *)
Definition af_key (e : autorizada_fora) : string :=
  fst (_norm_pair (af_documento e) (af_serie e)).

(** The state of the second pass: the keys seen are the keys of the
    entries, each once. *)
Definition aut_ok (st : aut_state) : Prop :=
  NoDup (map af_key (autorizadas_fora st))
  /\ forall k, In k (vistos_aut st) <-> In k (map af_key (autorizadas_fora st)).

(** A cancelled row and an authorised row of company 1; a Questor sheet
    that posts the first with a value and does not have the second. *)
Definition reg_autorizada_77 : SatRegistro :=
  mkSatRegistro (Some 1) 1 None "Plan1" 3
    [ ("numerodocumento", Some "77"); ("serie", Some "1");
      ("situacao", Some "Autorizada") ]
    None None None None None None.

Definition store_two_status : list SatRegistro :=
  [ reg_cancelada_123; reg_autorizada_77 ].

(* ================================================================== *)
(** ** Words for the field keys *)

(** The characters of a key: lower-case letters, digits and the
    underscore. *)
Definition key_char (c : ascii) : bool :=
  is_lower c || is_digit c || Ascii.eqb c "_".

(** A slug: a text of key characters, not empty, with no underscore at
    either end. *)
Definition slug_ok (s : string) : bool :=
  nonempty s && forall_chars key_char s
  && String.eqb (strip_by is_underscore s) s.

Definition starts_lower (s : string) : bool :=
  match s with
  | String c _ => is_lower c
  | EmptyString => false
  end.

(** A field key: a slug that starts with a letter and is none of the
    reserved names. *)
Definition field_key_ok (s : string) : bool :=
  slug_ok s && starts_lower s && negb (existsb (String.eqb s) reserved_names).

(* ================================================================== *)
(** ** Words for the indexer's counters *)

(** Whether the indexer counts a row as read in the period: the date
    filter and the document kind, before the document number is looked
    at. *)
Definition questor_map_counts (headers : list pyval) (i_dt : option nat)
    (dt_ini dt_fim : option date) (row : list pyval) : bool :=
  passes_period dt_ini dt_fim (questor_row_date i_dt row)
  && negb (_is_nfe_questor (_row_to_norm_dict headers row)).

(* ================================================================== *)
(** ** The competency typed in the form *)

(** The digits of an integer literal: single underscores may stand
    between digits.  [prev] tells that the previous character was a
    digit. *)
Fixpoint grouped_digits (prev : bool) (s : string) : bool :=
  match s with
  | EmptyString => prev
  | String c r =>
      if is_digit c then grouped_digits true r
      else if Ascii.eqb c "_" then prev && grouped_digits false r
      else false
  end.

(** The longest literal [int] converts (the default of
    [sys.set_int_max_str_digits]). *)
Definition max_str_digits : nat := 4300.

(** [int(s)] for a string, in base 10: blanks around, an optional sign,
    digits; [None] stands for the [ValueError] of anything else. *)
Definition py_int (s : string) : option Z :=
  let (neg, body) := Dec.split_sign (strip s) in
  if grouped_digits false body
     && (String.length (digits_of body) <=? max_str_digits)%nat
  then Some (Dec.signed neg (digits_value 0 (digits_of body)))
  else None.

(** [date(int(y), int(m), 1)], [None] when one of the three calls
    raises. *)
Definition competencia_of (y m : string) : option date :=
  match py_int y with
  | Some yy =>
      match py_int m with
      | Some mm =>
          if Calendar.valid_ymd yy mm 1 then Some (mkdate yy mm 1) else None
      | None => None
      end
  | None => None
  end.

Definition _parse_competencia_str (s : option string) : option date :=
  if negb (Py.truthy s) then None
  else
    let t := strip (or_empty s) in
    if contains "-" t then
      competencia_of (before_char "-" t) (or_empty (after_char "-" t))
    else if contains "/" t then
      competencia_of (or_empty (after_char "/" t)) (before_char "/" t)
    else None.

(** The two ways the form writes the month of a date: [YYYY-MM] and
    [MM/YYYY]. *)
Definition month_iso (d : date) : string :=
  (Py.pad4 (year d) ++ "-" ++ Py.pad2 (month d))%string.

Definition month_br (d : date) : string :=
  (Py.pad2 (month d) ++ "/" ++ Py.pad4 (year d))%string.

(* ================================================================== *)
(** ** Words for the rows an import leaves alone *)

(** The rows of the other companies. *)
Definition others (emp : nat) (t : table) : table :=
  filter (fun r => negb (Nat.eqb (empresa r) emp)) t.

(** Every object of the object map is an object of the company. *)
Definition objs_of (emp : nat) (st : imp_state) : Prop :=
  forall k o, em_get k (exist_map st) = Some o -> empresa o = emp.

(** From the table [t] to the table [t']: the rows of the other companies
    are the same, and every row keeps its place, its primary key and its
    logical key. *)
Definition frame (emp : nat) (t t' : table) : Prop :=
  others emp t' = others emp t
  /\ forall p x, nth_error (shape t) p = Some x ->
                 nth_error (shape t') p = Some x.

(** A registry with a row of company 7 and a row of company 8. *)
Definition table_two_companies : table :=
  [ mkSatRegistro (Some 0) 7 None "Plan1" 2 [("numero", Some "1")]
      None None None None None None;
    mkSatRegistro (Some 1) 8 None "Plan1" 2 [("numero", Some "9")]
      None None None None None None ].

(* ================================================================== *)
(** ** Words for the texts of dates *)

(** The character [c] does not occur in [s]. *)
Definition absent (c : ascii) (s : string) : bool :=
  forall_chars (fun a => negb (Ascii.eqb a c)) s.

(** A date written [DD/MM/YYYY], with leading zeros. *)
Definition date_br (d : date) : string :=
  (Py.pad2 (day d) ++ "/" ++ Py.pad2 (month d) ++ "/" ++ Py.pad4 (year d))%string.

(** The first day the serial numbers are counted from. *)
Definition serial_base : date := mkdate 1899 12 30.

(** [_to_date] of the export: the stored text of a date, read again. *)
Definition _to_date (x : pyval) : option date := _parse_date_any x.

(** [p] holds of the [k] integers from [n] on. *)
Fixpoint all_from (k : nat) (n : Z) (p : Z -> bool) : bool :=
  match k with
  | O => true
  | S k' => p n && all_from k' (n + 1)%Z p
  end.

(** The characters of a date written with digits, dashes and slashes. *)
Definition date_char (c : ascii) : bool :=
  is_digit c || Ascii.eqb c "-" || Ascii.eqb c "/".

(** [date(y, m, d)] accepts the fields of [d]. *)
Definition valid_date (d : date) : bool :=
  Calendar.valid_ymd (year d) (month d) (day d).

(** An entry with the sheet [sh], the row [rw] and the date text [txt]
    comes from the row [reg]: the text, read again, is the emission date
    of the row, and the row passed the period. *)
Definition dated_from (dt_ini dt_fim : option date) (reg : SatRegistro)
    (sh : string) (rw : nat) (txt : string) : Prop :=
  sh = sheet reg /\ rw = row reg
  /\ _to_date (PStr txt) = _extr_data_emissao_dict (data reg)
  /\ passes_period dt_ini dt_fim (_to_date (PStr txt)) = true.

(** A Questor sheet with a date column, and two rows of the registry
    dated 2024-12-31: a cancelled one whose date is a text, an authorised
    one whose date is a serial number. *)
Definition ws_dated : worksheet :=
  [ [PStr "Numero Documento"; PStr "Serie"; PStr "Valor Contabil";
     PStr "Data Emissao"];
    [PStr "123"; PStr "1"; PStr "150,00"; PStr "31/12/2024"] ].

Definition reg_cancelada_dated : SatRegistro :=
  mkSatRegistro (Some 0) 1 (Some (mkdate 2024 12 1)) "Plan1" 2
    [ ("numerodocumento", Some "123"); ("serie", Some "1");
      ("situacao", Some "Cancelada"); ("data_emissao", Some "31/12/2024") ]
    None None None None None (Some (mkdate 2024 12 31)).

Definition reg_autorizada_dated : SatRegistro :=
  mkSatRegistro (Some 1) 1 (Some (mkdate 2024 12 1)) "Plan1" 3
    [ ("numerodocumento", Some "77"); ("serie", Some "1");
      ("situacao", Some "Autorizada"); ("data_emissao", Some "45657") ]
    None None None None None (Some (mkdate 2024 12 31)).

Definition store_dated : list SatRegistro :=
  [ reg_cancelada_dated; reg_autorizada_dated ].

(* ================================================================== *)
(** ** Words for the columns of a sheet *)

(** [""] for [None], else [str(v).strip()]: the text of a cell in a row
    dict. *)
Definition cell_text (v : pyval) : string :=
  match v with
  | PNone => EmptyString
  | v => strip (Py.str v)
  end.

(** The header at position [i] has the slug [k], and no later header
    has. *)
Definition last_column (headers : list pyval) (k : string) (i : nat) : Prop :=
  (exists h, nth_error headers i = Some h /\ _slug h = k)
  /\ forall j h, i < j -> nth_error headers j = Some h -> _slug h <> k.

(** The last position of [k] among the slugs of numbered headers. *)
Fixpoint last_index (k : string) (l : list (nat * pyval)) : option nat :=
  match l with
  | [] => None
  | ih :: r =>
      match last_index k r with
      | Some j => Some j
      | None => if String.eqb k (_slug (snd ih)) then Some (fst ih) else None
      end
  end.

(* ================================================================== *)
(** ** Words for the matching of a row against the sheet *)

(** The keys [k] of a registry row share a key with the keys [kq] of a row
    of the sheet, in the family the row of the sheet was filed under: the
    pair keys when it has a series, the document keys when it has none.
    An empty key of the registry row is never looked up. *)
Definition shares_key (kq : sat_keys) (with_serie : bool) (k : sat_keys)
  : bool :=
  if with_serie then
    (nonempty (key_pair_raw k) && String.eqb (key_pair_raw k) (key_pair_raw kq))
    || (nonempty (key_pair_dig k) && String.eqb (key_pair_dig k) (key_pair_dig kq))
  else
    (nonempty (raw_doc k) && String.eqb (raw_doc k) (raw_doc kq))
    || (nonempty (dig_doc k) && String.eqb (dig_doc k) (dig_doc kq)).

(** A row of the sheet that the indexer keeps and that shares a key with
    [k]. *)
Definition matches_row (headers : list pyval) (i_num : nat)
    (i_ser i_dt : option nat) (dt_ini dt_fim : option date) (k : sat_keys)
    (row : list pyval) : bool :=
  questor_map_accepts headers i_num i_dt dt_ini dt_fim row
  && shares_key (questor_row_keys i_num i_ser row)
       (nonempty (questor_row_serie i_ser row)) k.

(** The columns the indexer resolved on the header row. *)
Definition resolved_columns (headers : list pyval) (i_num : nat)
    (i_ser i_dt : option nat) : Prop :=
  let cols := header_cols headers in
  col_index cols (or_empty (_first_key cols cand_num)) = Ok i_num
  /\ opt_col_index cols (_first_key cols cand_ser) = Ok i_ser
  /\ opt_col_index cols (_first_key cols cand_dt) = Ok i_dt.

(** A sheet whose only row has no series, and a registry row for the same
    document with a series. *)
Definition ws_doc_only : worksheet :=
  [ [PStr "Numero Documento"; PStr "Serie"; PStr "Valor Contabil"];
    [PStr "1.23"; PNone; PStr "10,00"] ].

Definition keys_123_serie_1 : sat_keys := sat_keys_of "123" "1".

(* ================================================================== *)
(** * Properties *)

(* ------------------------------------------------------------------ *)
(** ** Date parsing on the listed shapes *)

(** C9: of the listed shapes, "31/12/24", "2024-12-31",
    "31/12/2024 10:00:00" and the serial "45657" give 2024-12-31, and so do
    the ISO form with [T], [Z] and a fraction and the dashed form; the
    dotted form "31.12.2024" gives no date, because the text is cut at its
    first dot before any format is tried. *)
Theorem parse_date_any_listed_shapes :
  let d := Some (mkdate 2024 12 31) in
  _parse_date_any (PStr "31/12/24") = d
  /\ _parse_date_any (PStr "2024-12-31") = d
  /\ _parse_date_any (PStr "31/12/2024 10:00:00") = d
  /\ _parse_date_any (PStr "45657") = d
  /\ _parse_date_any (PStr "2024-12-31T10:00:00.123Z") = d
  /\ _parse_date_any (PStr "31-12-2024") = d
  /\ Strptime.strptime_date "31.12.2024" "%d.%m.%Y" = d
  /\ _parse_date_any (PStr "31.12.2024") = None.
Proof.
  cbv zeta. repeat split; vm_compute; reflexivity.
Qed.

(* ------------------------------------------------------------------ *)
(** ** Retrieval of the matched sum *)

(** C1: on the sheet [ws_zero_sum] the exact-pair table holds the key of
    document 123, series 1, with sum zero; the retrieval passes over it and
    returns the 150,00 of the digits-only pair table, and the comparison
    reports a divergence of that value. *)
Theorem zero_sum_exact_pair_is_skipped :
  let k := sat_keys_of "123" "1" in
  (exists m, _questor_map_por_documento ws_zero_sum None None
             = Ok (tables_zero_sum, m))
  /\ Dict.get (key_pair_raw k) (pair_exato tables_zero_sum) = Some (DFin 0 (-2))
  /\ lookup_val_q tables_zero_sum k = Some (DFin 15000 (-2))
  /\ (exists r p,
        comparar_questor 1 [reg_cancelada_123] ws_zero_sum PNone PNone = Ok r
        /\ stored r = Some p
        /\ map dv_valor_questor (p_resultado p) = [DFin 15000 (-2)]).
Proof.
  cbv zeta. split; [| split; [| split]].
  - eexists. vm_compute. reflexivity.
  - vm_compute. reflexivity.
  - vm_compute. reflexivity.
  - eexists. eexists. split; [vm_compute; reflexivity |].
    split; [reflexivity |]. vm_compute. reflexivity.
Qed.

(* ------------------------------------------------------------------ *)
(** ** Facts about text *)

Module TextFacts.

(** What the character classes exclude, checked on every character. *)
Lemma amount_char_facts (c : ascii) :
  amount_char c = true ->
  is_space c = false /\ lower_char c = c
  /\ Ascii.eqb c "R" = false /\ Ascii.eqb c " " = false
  /\ Ascii.eqb c "_" = false /\ Ascii.eqb c "-" = false
  /\ Ascii.eqb c "+" = false /\ Ascii.eqb c "i" = false
  /\ Ascii.eqb c "n" = false /\ Ascii.eqb c "s" = false.
Proof.
  destruct c as [b0 b1 b2 b3 b4 b5 b6 b7].
  destruct b0, b1, b2, b3, b4, b5, b6, b7; vm_compute; intro H;
    try discriminate H; repeat split; reflexivity.
Qed.

Lemma digit_facts (c : ascii) :
  is_digit c = true ->
  amount_char c = true /\ Ascii.eqb c "." = false /\ Ascii.eqb c "," = false.
Proof.
  destruct c as [b0 b1 b2 b3 b4 b5 b6 b7].
  destruct b0, b1, b2, b3, b4, b5, b6, b7; vm_compute; intro H;
    try discriminate H; repeat split; reflexivity.
Qed.

Lemma signed_char_facts (c : ascii) :
  signed_char c = true ->
  is_space c = false /\ lower_char c = c
  /\ Ascii.eqb c "R" = false /\ Ascii.eqb c " " = false
  /\ Ascii.eqb c "_" = false.
Proof.
  destruct c as [b0 b1 b2 b3 b4 b5 b6 b7].
  destruct b0, b1, b2, b3, b4, b5, b6, b7; vm_compute; intro H;
    try discriminate H; repeat split; reflexivity.
Qed.

Lemma append_nil_r (s : string) : (s ++ "")%string = s.
Proof. induction s; simpl; congruence. Qed.

Lemma append_assoc (a b c : string) :
  ((a ++ b) ++ c)%string = (a ++ (b ++ c))%string.
Proof. induction a; simpl; congruence. Qed.

Lemma length_append (a b : string) :
  String.length (a ++ b) = String.length a + String.length b.
Proof. induction a; simpl; congruence. Qed.

Lemma forall_chars_append (p : ascii -> bool) (a b : string) :
  forall_chars p (a ++ b) = forall_chars p a && forall_chars p b.
Proof.
  induction a; simpl; [reflexivity |].
  rewrite IHa. apply andb_assoc.
Qed.

Lemma forall_chars_impl (p q : ascii -> bool) (s : string) :
  (forall c, p c = true -> q c = true) ->
  forall_chars p s = true -> forall_chars q s = true.
Proof.
  intros Hpq. induction s; simpl; [reflexivity |].
  intros H. apply andb_true_iff in H as [H1 H2].
  rewrite (Hpq _ H1), (IHs H2). reflexivity.
Qed.

Lemma filter_chars_append (p : ascii -> bool) (a b : string) :
  filter_chars p (a ++ b) = (filter_chars p a ++ filter_chars p b)%string.
Proof.
  induction a; simpl; [reflexivity |].
  destruct (p a); simpl; congruence.
Qed.

Lemma filter_chars_all (p : ascii -> bool) (s : string) :
  forall_chars p s = true -> filter_chars p s = s.
Proof.
  induction s; simpl; [reflexivity |].
  intros H. apply andb_true_iff in H as [H1 H2].
  rewrite H1, (IHs H2). reflexivity.
Qed.

Lemma forall_chars_filter (p : ascii -> bool) (s : string) :
  forall_chars p (filter_chars p s) = true.
Proof.
  induction s; simpl; [reflexivity |].
  destruct (p a) eqn:E; simpl; [rewrite E |]; assumption.
Qed.

(** A text splits around the first occurrence of a character. *)
Lemma split_at_char (c : ascii) (s f : string) :
  after_char c s = Some f ->
  s = (before_char c s ++ String c f)%string
  /\ forall_chars (fun a => negb (Ascii.eqb a c)) (before_char c s) = true.
Proof.
  revert f. induction s as [| a r IH]; simpl; intros f H; [discriminate |].
  destruct (Ascii.eqb_spec a c) as [-> | Hne].
  - injection H as ->. split; reflexivity.
  - destruct (IH f H) as [E1 E2]. simpl. split.
    + f_equal. exact E1.
    + rewrite E2. apply Ascii.eqb_neq in Hne. rewrite Hne. reflexivity.
Qed.

Lemma after_char_none (c : ascii) (s : string) :
  after_char c s = None ->
  forall_chars (fun a => negb (Ascii.eqb a c)) s = true.
Proof.
  induction s as [| a r IH]; simpl; intros H; [reflexivity |].
  destruct (Ascii.eqb a c); [discriminate |]. simpl. auto.
Qed.

Lemma lstrip_by_id (p : ascii -> bool) (s : string) :
  forall_chars (fun a => negb (p a)) s = true -> lstrip_by p s = s.
Proof.
  destruct s as [| a r]; simpl; [reflexivity |].
  intros H. apply andb_true_iff in H as [H1 _].
  apply negb_true_iff in H1. rewrite H1. reflexivity.
Qed.

Lemma rstrip_by_id (p : ascii -> bool) (s : string) :
  forall_chars (fun a => negb (p a)) s = true -> rstrip_by p s = s.
Proof.
  induction s as [| a r IH]; simpl; [reflexivity |].
  intros H. apply andb_true_iff in H as [H1 H2].
  apply negb_true_iff in H1. rewrite (IH H2), H1.
  destruct r; reflexivity.
Qed.

Lemma strip_by_id (p : ascii -> bool) (s : string) :
  forall_chars (fun a => negb (p a)) s = true -> strip_by p s = s.
Proof.
  intros H. unfold strip_by. rewrite (lstrip_by_id _ _ H).
  apply rstrip_by_id, H.
Qed.

Lemma replace_char_id (c : ascii) (new s : string) :
  forall_chars (fun a => negb (Ascii.eqb a c)) s = true ->
  replace_char c new s = s.
Proof.
  induction s as [| a r IH]; simpl; [reflexivity |].
  intros H. apply andb_true_iff in H as [H1 H2].
  apply negb_true_iff in H1. rewrite H1, (IH H2). reflexivity.
Qed.

Lemma replace_char_append (c : ascii) (new a b : string) :
  replace_char c new (a ++ b)
  = (replace_char c new a ++ replace_char c new b)%string.
Proof.
  induction a as [| x r IH]; simpl; [reflexivity |].
  destruct (Ascii.eqb x c); simpl; rewrite IH;
    [symmetry; apply append_assoc | reflexivity].
Qed.

Lemma remove_RS_id (s : string) :
  forall_chars (fun a => negb (Ascii.eqb a "R")) s = true -> remove_RS s = s.
Proof.
  induction s as [| a r IH]; [reflexivity |].
  intros H. simpl in H. apply andb_true_iff in H as [H1 H2].
  apply negb_true_iff in H1. specialize (IH H2).
  destruct r as [| b r']; [reflexivity |].
  change (remove_RS (String a (String b r')))
    with (if Ascii.eqb a "R" && Ascii.eqb b "$" then remove_RS r'
          else String a (remove_RS (String b r'))).
  rewrite H1, IH. reflexivity.
Qed.

Lemma map_chars_id (f : ascii -> ascii) (p : ascii -> bool) (s : string) :
  (forall c, p c = true -> f c = c) ->
  forall_chars p s = true -> map_chars f s = s.
Proof.
  intros Hf. induction s as [| a r IH]; simpl; [reflexivity |].
  intros H. apply andb_true_iff in H as [H1 H2].
  rewrite (Hf _ H1), (IH H2). reflexivity.
Qed.

Lemma count_char_append (c : ascii) (a b : string) :
  count_char c (a ++ b) = count_char c a + count_char c b.
Proof.
  induction a as [| x r IH]; simpl; [reflexivity |].
  rewrite IH. apply Nat.add_assoc.
Qed.

Lemma count_char_zero (c : ascii) (s : string) :
  forall_chars (fun a => negb (Ascii.eqb a c)) s = true -> count_char c s = 0.
Proof.
  induction s as [| a r IH]; simpl; [reflexivity |].
  intros H. apply andb_true_iff in H as [H1 H2].
  apply negb_true_iff in H1. rewrite H1, (IH H2). reflexivity.
Qed.

(** [c in s] for a one-character pattern. *)
Lemma contains_char_here (c : ascii) (a b : string) :
  contains (String c "") (a ++ String c b) = true.
Proof.
  induction a as [| x r IH]; simpl.
  - rewrite Ascii.eqb_refl. reflexivity.
  - rewrite IH. apply orb_true_r.
Qed.

Lemma contains_char_absent (c : ascii) (s : string) :
  forall_chars (fun a => negb (Ascii.eqb a c)) s = true ->
  contains (String c "") s = false.
Proof.
  induction s as [| a r IH]; simpl; [reflexivity |].
  intros H. apply andb_true_iff in H as [H1 H2].
  apply negb_true_iff in H1. rewrite (IH H2).
  rewrite Ascii.eqb_sym, H1. reflexivity.
Qed.

End TextFacts.

(* ------------------------------------------------------------------ *)
(** ** Monetary parsing *)

Module ParseDecimalFacts.
Import TextFacts.

Lemma span_digits_app (ds rest : string) :
  forall_chars is_digit ds = true ->
  match rest with
  | String c _ => is_digit c = false
  | EmptyString => True
  end ->
  Dec.span_digits (ds ++ rest) = (ds, rest).
Proof.
  intros Hd Hr. induction ds as [| a r IH]; simpl.
  - destruct rest as [| c rest']; simpl; [reflexivity |].
    rewrite Hr. reflexivity.
  - simpl in Hd. apply andb_true_iff in Hd as [H1 H2].
    rewrite H1, (IH H2). reflexivity.
Qed.

Lemma span_digits_all (ds : string) :
  forall_chars is_digit ds = true -> Dec.span_digits ds = (ds, EmptyString).
Proof.
  intros H. rewrite <- (append_nil_r ds) at 1.
  apply span_digits_app; [exact H | exact I].
Qed.

Lemma split_sign_other (c : ascii) (r : string) :
  Ascii.eqb c "-" = false -> Ascii.eqb c "+" = false ->
  Dec.split_sign (String c r) = (false, String c r).
Proof.
  destruct c as [b0 b1 b2 b3 b4 b5 b6 b7].
  destruct b0, b1, b2, b3, b4, b5, b6, b7; simpl; intros H1 H2;
    try discriminate; reflexivity.
Qed.

(** A text starts with a minus, with a plus, or with neither. *)
Lemma leading_sign_cases (s : string) :
  (exists u, s = String "-" u /\ leading_sign s = (true, u))
  \/ (exists u, s = String "+" u /\ leading_sign s = (false, u))
  \/ (leading_sign s = (false, s)
      /\ match s with
         | String c _ => Ascii.eqb c "-" = false /\ Ascii.eqb c "+" = false
         | EmptyString => True
         end).
Proof.
  destruct s as [| c r]; [right; right; split; [reflexivity | exact I] |].
  destruct c as [b0 b1 b2 b3 b4 b5 b6 b7].
  destruct b0, b1, b2, b3, b4, b5, b6, b7;
    try (right; right; split; [reflexivity | split; reflexivity]).
  - right. left. exists r. split; reflexivity.
  - left. exists r. split; reflexivity.
Qed.

Lemma string_eqb_head (c : ascii) (r : string) (c' : ascii) (r' : string) :
  Ascii.eqb c c' = false -> String.eqb (String c r) (String c' r') = false.
Proof. intros H. simpl. rewrite H. reflexivity. Qed.

Lemma starts_with_head (c : ascii) (p : string) (c' : ascii) (s : string) :
  Ascii.eqb c' c = false -> starts_with (String c p) (String c' s) = false.
Proof.
  intros H. unfold starts_with. rewrite Ascii.eqb_sym, H. reflexivity.
Qed.

Lemma parse_nan_other (neg : bool) (c : ascii) (r : string) :
  Ascii.eqb c "n" = false -> Ascii.eqb c "s" = false ->
  Dec.parse_nan neg (String c r) = None.
Proof.
  intros Hn Hs. unfold Dec.parse_nan.
  rewrite (starts_with_head "n" "an" c r Hn).
  rewrite (starts_with_head "s" "nan" c r Hs). reflexivity.
Qed.

(** After the sign, a text of digits, dots and commas is neither an
    infinity nor a NaN: the number grammar reads it. *)
Lemma number_body (neg : bool) (t : string) :
  forall_chars amount_char t = true ->
  (if String.eqb t "inf" || String.eqb t "infinity" then Some (DInf neg)
   else match Dec.parse_nan neg t with
        | Some d => Some d
        | None => Dec.parse_number neg t
        end)
  = Dec.parse_number neg t.
Proof.
  intros H. destruct t as [| c r]; [reflexivity |].
  simpl in H. apply andb_true_iff in H as [Hc _].
  destruct (amount_char_facts c Hc)
    as (_ & _ & _ & _ & _ & _ & _ & Hi & Hn & Hs).
  rewrite (string_eqb_head c r "i" "nf" Hi).
  rewrite (string_eqb_head c r "i" "nfinity" Hi).
  rewrite (parse_nan_other neg c r Hn Hs). reflexivity.
Qed.

(** [Decimal] leaves a text of amount characters and signs as it is
    before it reads it. *)
Lemma of_string_clean (t : string) :
  forall_chars signed_char t = true ->
  Dec.of_string t
  = let (neg, body) := Dec.split_sign t in
    if String.eqb body "inf" || String.eqb body "infinity"
    then Some (DInf neg)
    else match Dec.parse_nan neg body with
         | Some d => Some d
         | None => Dec.parse_number neg body
         end.
Proof.
  intros H. unfold Dec.of_string, strip.
  rewrite strip_by_id
    by (eapply forall_chars_impl; [| exact H];
        intros c Hc; destruct (signed_char_facts c Hc) as (-> & _); reflexivity).
  rewrite replace_char_id
    by (eapply forall_chars_impl; [| exact H];
        intros c Hc;
        destruct (signed_char_facts c Hc) as (_ & _ & _ & _ & ->);
        reflexivity).
  unfold lower. rewrite (map_chars_id lower_char signed_char)
    by (try exact H; intros c Hc; apply (signed_char_facts c Hc)).
  reflexivity.
Qed.

Lemma amount_signed (t : string) :
  forall_chars amount_char t = true -> forall_chars signed_char t = true.
Proof.
  apply forall_chars_impl. intros c H. unfold signed_char. rewrite H.
  reflexivity.
Qed.

Lemma of_string_number (t : string) :
  forall_chars amount_char t = true ->
  Dec.of_string t = Dec.parse_number false t.
Proof.
  intros H. rewrite of_string_clean by (apply amount_signed, H).
  destruct t as [| c r]; [reflexivity |].
  pose proof H as H'. simpl in H'. apply andb_true_iff in H' as [Hc _].
  destruct (amount_char_facts c Hc) as (_ & _ & _ & _ & _ & Hm & Hp & _).
  rewrite (split_sign_other c r Hm Hp). apply number_body, H.
Qed.

Lemma of_string_signed (sg : ascii) (t : string) :
  sg = "-"%char \/ sg = "+"%char ->
  forall_chars amount_char t = true ->
  Dec.of_string (String sg t) = Dec.parse_number (Ascii.eqb sg "-") t.
Proof.
  intros Hs H. rewrite of_string_clean.
  - destruct Hs as [-> | ->]; cbn [Dec.split_sign]; apply number_body, H.
  - cbn [forall_chars]. rewrite (amount_signed t H).
    destruct Hs as [-> | ->]; reflexivity.
Qed.

Lemma parse_number_point (neg : bool) (ds fs : string) :
  forall_chars is_digit ds = true ->
  forall_chars is_digit fs = true ->
  nonempty ds || nonempty fs = true ->
  Dec.parse_number neg (ds ++ String "." fs)
  = Some (DFin (Dec.signed neg (digits_value 0 (ds ++ fs)))
               (- Z.of_nat (String.length fs))).
Proof.
  intros Hd Hf Hne. unfold Dec.parse_number.
  rewrite (span_digits_app ds (String "." fs) Hd) by reflexivity.
  rewrite (span_digits_all fs Hf), Hne. simpl.
  reflexivity.
Qed.

Lemma parse_number_plain (neg : bool) (ds : string) :
  plain_digits ds = true ->
  Dec.parse_number neg ds = Some (DFin (Dec.signed neg (digits_value 0 ds)) 0).
Proof.
  unfold plain_digits. intros H. apply andb_true_iff in H as [Hne Hd].
  unfold Dec.parse_number. rewrite (span_digits_all ds Hd). simpl.
  rewrite Hne, append_nil_r. reflexivity.
Qed.

Lemma replace_dots_digits (s : string) :
  forall_chars dot_digit s = true ->
  replace_char "." "" s = digits_of s.
Proof.
  unfold digits_of. induction s as [| a r IH]; simpl; [reflexivity |].
  intros H. apply andb_true_iff in H as [H1 H2]. rewrite (IH H2).
  unfold dot_digit in H1. destruct (is_digit a) eqn:Ed.
  - destruct (digit_facts a Ed) as (_ & -> & _). reflexivity.
  - simpl in H1. rewrite H1. reflexivity.
Qed.

Lemma groups3_chars (s : string) :
  groups3 s = true -> forall_chars dot_digit s = true.
Proof.
  assert (G : forall n s, String.length s <= n ->
              groups3 s = true -> forall_chars dot_digit s = true).
  { intros n. induction n as [| n IH]; intros t Hl Hg.
    - destruct t; [reflexivity | simpl in Hl; lia].
    - destruct t as [| x t]; [reflexivity |].
      destruct (Ascii.eqb_spec x ".") as [-> | Hx].
      + destruct t as [| a [| b [| c r]]]; try discriminate Hg.
        simpl in Hg.
        apply andb_true_iff in Hg as [Hg Hr].
        apply andb_true_iff in Hg as [Hg Hc].
        apply andb_true_iff in Hg as [Ha Hb].
        simpl. unfold dot_digit at 1 2 3 4. rewrite Ha, Hb, Hc. simpl.
        apply IH; [simpl in Hl; lia | exact Hr].
      + exfalso. revert Hg Hx. clear.
        destruct x as [b0 b1 b2 b3 b4 b5 b6 b7].
        destruct b0, b1, b2, b3, b4, b5, b6, b7; simpl;
          try discriminate; intros _ H; apply H; reflexivity. }
  intros H. exact (G (String.length s) s (le_n _) H).
Qed.

Lemma grouped_chars (s : string) :
  grouped s = true ->
  forall_chars dot_digit s = true /\ nonempty (digits_of s) = true.
Proof.
  destruct s as [| a r]; simpl; [discriminate |].
  intros H. apply andb_true_iff in H as [Ha H].
  unfold digits_of. simpl. rewrite Ha. simpl.
  split; [| reflexivity].
  unfold dot_digit at 1. rewrite Ha. simpl.
  apply orb_true_iff in H as [H | H]; [apply groups3_chars, H |].
  destruct r as [| b r2]; [discriminate |].
  apply andb_true_iff in H as [Hb H].
  simpl. unfold dot_digit at 1. rewrite Hb. simpl.
  apply orb_true_iff in H as [H | H]; [apply groups3_chars, H |].
  destruct r2 as [| c r3]; [discriminate |].
  apply andb_true_iff in H as [Hc H].
  simpl. unfold dot_digit at 1. rewrite Hc. simpl.
  apply groups3_chars, H.
Qed.

Lemma plain_digits_chars (s : string) :
  plain_digits s = true ->
  forall_chars is_digit s = true /\ nonempty s = true.
Proof.
  unfold plain_digits. intros H. apply andb_true_iff in H as [H1 H2].
  split; assumption.
Qed.

Lemma int_part_chars (s : string) :
  plain_digits s || grouped s = true ->
  forall_chars dot_digit s = true /\ nonempty (digits_of s) = true.
Proof.
  intros H. apply orb_true_iff in H as [H | H]; [| apply grouped_chars, H].
  destruct (plain_digits_chars s H) as [Hd Hn]. split.
  - eapply forall_chars_impl; [| exact Hd].
    intros c Hc. unfold dot_digit. rewrite Hc. reflexivity.
  - unfold digits_of. rewrite (filter_chars_all _ _ Hd). exact Hn.
Qed.

Lemma dot_digit_amount (s : string) :
  forall_chars dot_digit s = true -> forall_chars amount_char s = true.
Proof.
  apply forall_chars_impl. intros c H. unfold amount_char.
  unfold dot_digit in H. rewrite H. reflexivity.
Qed.

Lemma digits_amount (s : string) :
  forall_chars is_digit s = true -> forall_chars amount_char s = true.
Proof.
  apply forall_chars_impl. intros c H. apply (digit_facts c H).
Qed.

(** Blanks, the currency sign and the normalisation leave a text of
    amount characters and signs to the comma rule alone. *)
Lemma amount_text_clean (s : string) :
  forall_chars signed_char s = true ->
  amount_text (PStr s)
  = if contains "," s && (count_char "," s =? 1)%nat
    then replace_char "," "." (replace_char "." "" s)
    else s.
Proof.
  intros H. unfold amount_text, strip. simpl Py.str.
  rewrite strip_by_id
    by (eapply forall_chars_impl; [| exact H];
        intros c Hc; destruct (signed_char_facts c Hc) as (-> & _); reflexivity).
  rewrite remove_RS_id
    by (eapply forall_chars_impl; [| exact H];
        intros c Hc;
        destruct (signed_char_facts c Hc) as (_ & _ & -> & _); reflexivity).
  rewrite replace_char_id
    by (eapply forall_chars_impl; [| exact H];
        intros c Hc;
        destruct (signed_char_facts c Hc) as (_ & _ & _ & -> & _); reflexivity).
  reflexivity.
Qed.

Lemma no_comma_in_digits (s : string) :
  forall_chars is_digit s = true ->
  forall_chars (fun a => negb (Ascii.eqb a ",")) s = true.
Proof.
  apply forall_chars_impl. intros c H.
  destruct (digit_facts c H) as (_ & _ & ->). reflexivity.
Qed.

Lemma no_dot_in_digits (s : string) :
  forall_chars is_digit s = true ->
  forall_chars (fun a => negb (Ascii.eqb a ".")) s = true.
Proof.
  apply forall_chars_impl. intros c H.
  destruct (digit_facts c H) as (_ & -> & _). reflexivity.
Qed.

(** What the comma rule makes of the unsigned part of a text in the
    [1.234,56] convention. *)
Lemma comma_body (u f : string) :
  after_char "," u = Some f ->
  (plain_digits (before_char "," u) || grouped (before_char "," u))
  && plain_digits f = true ->
  let i := before_char "," u in
  forall_chars amount_char u = true
  /\ contains "," u && (count_char "," u =? 1)%nat = true
  /\ replace_char "," "." (replace_char "." "" u)
     = (digits_of i ++ String "." f)%string
  /\ forall_chars is_digit f = true
  /\ nonempty (digits_of i) = true
  /\ digits_of u = (digits_of i ++ f)%string.
Proof.
  intros Ef H i. apply andb_true_iff in H as [Hi Hf].
  destruct (split_at_char _ _ _ Ef) as [Es Hnc].
  destruct (int_part_chars _ Hi) as [Hic Hin].
  destruct (plain_digits_chars _ Hf) as [Hfd Hfn].
  fold i in Es, Hnc, Hic, Hin.
  split; [| split; [| split; [| split; [exact Hfd | split; [exact Hin |]]]]].
  - rewrite Es, forall_chars_append. simpl.
    rewrite (dot_digit_amount _ Hic), (digits_amount _ Hfd). reflexivity.
  - rewrite Es at 1. rewrite contains_char_here. rewrite Es.
    rewrite count_char_append. simpl.
    rewrite (count_char_zero _ _ Hnc).
    rewrite (count_char_zero _ _ (no_comma_in_digits _ Hfd)). reflexivity.
  - rewrite Es at 1. rewrite replace_char_append. simpl.
    rewrite (replace_dots_digits _ Hic).
    rewrite (replace_char_id "." _ f (no_dot_in_digits _ Hfd)).
    rewrite replace_char_append. simpl.
    rewrite (replace_char_id "," _ f (no_comma_in_digits _ Hfd)).
    rewrite replace_char_id; [reflexivity |].
    apply no_comma_in_digits. apply forall_chars_filter.
  - rewrite Es at 1. unfold digits_of. rewrite filter_chars_append. simpl.
    rewrite (filter_chars_all _ _ Hfd). reflexivity.
Qed.

(** The same for the unsigned part of a text in the [1234.56]
    convention, with its point. *)
Lemma point_body (u f : string) :
  after_char "." u = Some f ->
  plain_digits (before_char "." u) && plain_digits f = true ->
  let i := before_char "." u in
  forall_chars amount_char u = true
  /\ contains "," u = false
  /\ u = (i ++ String "." f)%string
  /\ forall_chars is_digit i = true
  /\ forall_chars is_digit f = true
  /\ nonempty i = true
  /\ digits_of u = (i ++ f)%string.
Proof.
  intros Ef H i. apply andb_true_iff in H as [Hi Hf].
  destruct (split_at_char _ _ _ Ef) as [Es _].
  destruct (plain_digits_chars _ Hi) as [Hid Hin].
  destruct (plain_digits_chars _ Hf) as [Hfd Hfn].
  fold i in Es, Hid, Hin.
  split; [| split; [| split; [exact Es | split; [exact Hid |
    split; [exact Hfd | split; [exact Hin |]]]]]].
  - rewrite Es, forall_chars_append. simpl.
    rewrite (digits_amount _ Hid), (digits_amount _ Hfd). reflexivity.
  - apply contains_char_absent. rewrite Es, forall_chars_append. simpl.
    rewrite (no_comma_in_digits _ Hid), (no_comma_in_digits _ Hfd).
    reflexivity.
  - rewrite Es at 1. unfold digits_of. rewrite filter_chars_append. simpl.
    rewrite (filter_chars_all _ _ Hid), (filter_chars_all _ _ Hfd).
    reflexivity.
Qed.

Lemma contains_char_cons (c a : ascii) (r : string) :
  contains (String c "") (String a r)
  = Ascii.eqb c a || contains (String c "") r.
Proof. simpl. rewrite andb_true_r. reflexivity. Qed.

Lemma comma_decimal_parsed (s : string) :
  is_comma_decimal s = true ->
  _parse_decimal (PStr s) = intended_amount "," s.
Proof.
  unfold is_comma_decimal, intended_amount.
  destruct (leading_sign_cases s)
    as [(u & -> & ->) | [(u & -> & ->) | (-> & Hh)]]; cbn [fst snd];
    destruct (after_char "," _) as [f |] eqn:Ef; try discriminate;
    intros H; destruct (comma_body _ f Ef H) as (Ha & Hc & Et & Hfd & Hin & Ed);
    unfold _parse_decimal.
  - rewrite amount_text_clean
      by (cbn [forall_chars]; rewrite (amount_signed _ Ha); reflexivity).
    rewrite contains_char_cons. cbn [count_char Ascii.eqb Bool.eqb orb Nat.add].
    rewrite Hc. cbn [replace_char Ascii.eqb Bool.eqb].
    rewrite Et.
    rewrite (of_string_signed "-")
      by (try (left; reflexivity);
          rewrite forall_chars_append; simpl;
          rewrite (digits_amount (digits_of (before_char "," u)))
            by apply forall_chars_filter;
          rewrite (digits_amount _ Hfd); reflexivity).
    rewrite parse_number_point;
      [| apply forall_chars_filter | exact Hfd | rewrite Hin; reflexivity].
    change (digits_of (String "-" u)) with (digits_of u).
    rewrite Ed. reflexivity.
  - rewrite amount_text_clean
      by (cbn [forall_chars]; rewrite (amount_signed _ Ha); reflexivity).
    rewrite contains_char_cons. cbn [count_char Ascii.eqb Bool.eqb orb Nat.add].
    rewrite Hc. cbn [replace_char Ascii.eqb Bool.eqb].
    rewrite Et.
    rewrite (of_string_signed "+")
      by (try (right; reflexivity);
          rewrite forall_chars_append; simpl;
          rewrite (digits_amount (digits_of (before_char "," u)))
            by apply forall_chars_filter;
          rewrite (digits_amount _ Hfd); reflexivity).
    rewrite parse_number_point;
      [| apply forall_chars_filter | exact Hfd | rewrite Hin; reflexivity].
    change (digits_of (String "+" u)) with (digits_of u).
    rewrite Ed. reflexivity.
  - rewrite amount_text_clean by (apply amount_signed, Ha).
    rewrite Hc, Et.
    rewrite of_string_number
      by (rewrite forall_chars_append; simpl;
          rewrite (digits_amount (digits_of (before_char "," s)))
            by apply forall_chars_filter;
          rewrite (digits_amount _ Hfd); reflexivity).
    rewrite parse_number_point;
      [| apply forall_chars_filter | exact Hfd | rewrite Hin; reflexivity].
    simpl or_empty. rewrite Ed. reflexivity.
Qed.

Lemma point_decimal_parsed (s : string) :
  is_point_decimal s = true ->
  _parse_decimal (PStr s) = intended_amount "." s.
Proof.
  unfold is_point_decimal, intended_amount.
  destruct (leading_sign_cases s)
    as [(u & -> & ->) | [(u & -> & ->) | (-> & Hh)]]; cbn [fst snd];
    destruct (after_char "." _) as [f |] eqn:Ef; intros H;
    unfold _parse_decimal.
  - destruct (point_body _ f Ef H) as (Ha & Hc & Es & Hid & Hfd & Hin & Ed).
    rewrite amount_text_clean
      by (cbn [forall_chars]; rewrite (amount_signed _ Ha); reflexivity).
    rewrite contains_char_cons, Hc. simpl andb. cbv iota.
    rewrite (of_string_signed "-") by (try (left; reflexivity); exact Ha).
    rewrite Es at 1.
    rewrite parse_number_point;
      [| exact Hid | exact Hfd | rewrite Hin; reflexivity].
    change (digits_of (String "-" u)) with (digits_of u).
    rewrite Ed. reflexivity.
  - destruct (plain_digits_chars _ H) as [Hd Hn].
    pose proof (digits_amount _ Hd) as Ha.
    rewrite amount_text_clean
      by (cbn [forall_chars]; rewrite (amount_signed _ Ha); reflexivity).
    rewrite contains_char_cons.
    rewrite contains_char_absent by (apply no_comma_in_digits, Hd).
    simpl andb. cbv iota.
    rewrite (of_string_signed "-") by (try (left; reflexivity); exact Ha).
    rewrite (parse_number_plain _ u H).
    change (digits_of (String "-" u)) with (digits_of u).
    unfold digits_of. rewrite (filter_chars_all _ _ Hd). reflexivity.
  - destruct (point_body _ f Ef H) as (Ha & Hc & Es & Hid & Hfd & Hin & Ed).
    rewrite amount_text_clean
      by (cbn [forall_chars]; rewrite (amount_signed _ Ha); reflexivity).
    rewrite contains_char_cons, Hc. simpl andb. cbv iota.
    rewrite (of_string_signed "+") by (try (right; reflexivity); exact Ha).
    rewrite Es at 1.
    rewrite parse_number_point;
      [| exact Hid | exact Hfd | rewrite Hin; reflexivity].
    change (digits_of (String "+" u)) with (digits_of u).
    rewrite Ed. reflexivity.
  - destruct (plain_digits_chars _ H) as [Hd Hn].
    pose proof (digits_amount _ Hd) as Ha.
    rewrite amount_text_clean
      by (cbn [forall_chars]; rewrite (amount_signed _ Ha); reflexivity).
    rewrite contains_char_cons.
    rewrite contains_char_absent by (apply no_comma_in_digits, Hd).
    simpl andb. cbv iota.
    rewrite (of_string_signed "+") by (try (right; reflexivity); exact Ha).
    rewrite (parse_number_plain _ u H).
    change (digits_of (String "+" u)) with (digits_of u).
    unfold digits_of. rewrite (filter_chars_all _ _ Hd). reflexivity.
  - destruct (point_body _ f Ef H) as (Ha & Hc & Es & Hid & Hfd & Hin & Ed).
    rewrite amount_text_clean by (apply amount_signed, Ha).
    rewrite Hc. simpl andb. cbv iota.
    rewrite (of_string_number s Ha).
    rewrite Es at 1.
    rewrite parse_number_point;
      [| exact Hid | exact Hfd | rewrite Hin; reflexivity].
    rewrite Ed. reflexivity.
  - destruct (plain_digits_chars _ H) as [Hd Hn].
    pose proof (digits_amount _ Hd) as Ha.
    rewrite amount_text_clean by (apply amount_signed, Ha).
    rewrite contains_char_absent by (apply no_comma_in_digits, Hd).
    simpl andb. cbv iota.
    rewrite (of_string_number s Ha), (parse_number_plain _ s H).
    unfold digits_of. rewrite (filter_chars_all _ _ Hd). reflexivity.
Qed.

End ParseDecimalFacts.

(** C8, as amended: [_parse_decimal] is a total function; a text in the
    [1.234,56] convention or in the [1234.56] convention is read as the
    exact amount its digits spell; [None] gives zero; and so does every
    input whose normalised text the [Decimal] constructor rejects. *)
Theorem parse_decimal_conventions :
  (forall s, is_comma_decimal s = true ->
             _parse_decimal (PStr s) = intended_amount "," s)
  /\ (forall s, is_point_decimal s = true ->
                _parse_decimal (PStr s) = intended_amount "." s)
  /\ _parse_decimal PNone = Dec.zero
  /\ (forall v, Dec.of_string (amount_text v) = None ->
                _parse_decimal v = Dec.zero).
Proof.
  split; [exact ParseDecimalFacts.comma_decimal_parsed |].
  split; [exact ParseDecimalFacts.point_decimal_parsed |].
  split; [reflexivity |].
  intros v H. unfold _parse_decimal. rewrite H. destruct v; reflexivity.
Qed.

(** C8, as stated, fails: "Infinity" and "1e3" are in neither convention,
    the constructor accepts them, and the result is not zero. *)
Lemma parse_decimal_other_input_not_zero :
  ~ (forall s, is_comma_decimal s = false -> is_point_decimal s = false ->
               _parse_decimal (PStr s) = Dec.zero).
Proof.
  intros H. specialize (H "Infinity" eq_refl eq_refl).
  vm_compute in H. discriminate H.
Qed.

(* ------------------------------------------------------------------ *)
(** ** Facts about dictionaries *)

Module DictFacts.
Section Facts.
Context {V : Type}.
Implicit Types (d : dict V) (k : string) (v : V).

Lemma get_set_same k v d : Dict.get k (Dict.set k v d) = Some v.
Proof.
  induction d as [| [k' v'] r IH]; simpl.
  - rewrite String.eqb_refl. reflexivity.
  - destruct (String.eqb k k') eqn:E; simpl; rewrite E; [reflexivity | exact IH].
Qed.

Lemma get_set_other k k' v d :
  k <> k' -> Dict.get k' (Dict.set k v d) = Dict.get k' d.
Proof.
  intros Hne. induction d as [| [k0 v0] r IH]; simpl.
  - destruct (String.eqb_spec k' k); [congruence | reflexivity].
  - destruct (String.eqb_spec k k0) as [-> | Hk]; simpl.
    + destruct (String.eqb_spec k' k0); [congruence | reflexivity].
    + destruct (String.eqb k' k0); [reflexivity | exact IH].
Qed.

Lemma mem_set_same k v d : Dict.mem k (Dict.set k v d) = true.
Proof. unfold Dict.mem. rewrite get_set_same. reflexivity. Qed.

Lemma mem_set_other k k' v d :
  k <> k' -> Dict.mem k' (Dict.set k v d) = Dict.mem k' d.
Proof. intros H. unfold Dict.mem. rewrite (get_set_other _ _ _ _ H). reflexivity. Qed.

Lemma mem_set_mono k k' v d :
  Dict.mem k' d = true -> Dict.mem k' (Dict.set k v d) = true.
Proof.
  intros H. destruct (String.eqb_spec k k') as [-> | Hne].
  - apply mem_set_same.
  - rewrite mem_set_other; assumption.
Qed.


Lemma mem_nonempty k d : Dict.mem k d = true -> Dict.nonempty d = true.
Proof. destruct d; [discriminate | reflexivity]. Qed.

Lemma get_in_keys k v d : Dict.get k d = Some v -> In k (Dict.keys d).
Proof.
  induction d as [| [k' v'] r IH]; simpl; [discriminate |].
  destruct (String.eqb_spec k k') as [-> | Hne]; auto.
Qed.

Lemma in_keys_mem k d : In k (Dict.keys d) -> Dict.mem k d = true.
Proof.
  unfold Dict.mem.
  induction d as [| [k' v'] r IH]; simpl; [tauto |].
  destruct (String.eqb_spec k k') as [-> | Hne]; [reflexivity |].
  intros [H | H]; [congruence | exact (IH H)].
Qed.

Lemma keys_set k v d :
  Dict.keys (Dict.set k v d)
  = if Dict.mem k d then Dict.keys d else Dict.keys d ++ [k].
Proof.
  unfold Dict.mem.
  induction d as [| [k' v'] r IH]; simpl; [reflexivity |].
  destruct (String.eqb k k') eqn:E; simpl; [reflexivity |].
  rewrite IH. destruct (Dict.get k r); reflexivity.
Qed.

End Facts.

Lemma accumulate_ok (m m' : dict Decimal) (k : string) (v : Decimal) :
  accumulate m k v = Ok m' ->
  exists s, Dec.add (Dict.get_default k Dec.zero m) v = Ok s
            /\ m' = Dict.set k s m.
Proof.
  unfold accumulate, bind.
  destruct (Dec.add (Dict.get_default k Dec.zero m) v) as [s | e];
    [| discriminate].
  intros [= <-]. exists s. split; reflexivity.
Qed.

Lemma accumulate_raises (m : dict Decimal) (k : string) (v : Decimal) (e : exn) :
  accumulate m k v = Raise e -> e = InvalidOperation.
Proof.
  unfold accumulate, bind, Dec.add.
  destruct (Dict.get_default k Dec.zero m) as [c1 e1 | n1 | n1 [] d1];
    destruct v as [c2 e2 | n2 | n2 [] d2];
    try discriminate; try (intros [= <-]; reflexivity).
  destruct (Bool.eqb n1 n2); [discriminate | intros [= <-]; reflexivity].
Qed.

End DictFacts.

(* ------------------------------------------------------------------ *)
(** ** The document classifier in the indexer *)

Module ClassifierFacts.
Import DictFacts.

Lemma is_nfe_verdict (d : row_dict) :
  _is_nfe_questor d
  = match document_verdict d with
    | Invoice => true
    | _ => false
    end.
Proof.
  unfold _is_nfe_questor, document_verdict, field_verdict,
    especie_verdict, modelo_verdict, chave_verdict.
  repeat match goal with
         | |- context [if ?b then _ else _] => destruct b
         end; reflexivity.
Qed.

(** A row of the wrong period, an invoice row and a row without document
    number leave the tables as they are. *)
Lemma step_rejected headers i_num i_val i_ser i_dt dt_ini dt_fim st row :
  questor_map_accepts headers i_num i_dt dt_ini dt_fim row = false ->
  exists st',
    questor_map_step headers i_num i_val i_ser i_dt dt_ini dt_fim st row = Ok st'
    /\ q_tables st' = q_tables st.
Proof.
  unfold questor_map_accepts, questor_map_step. intros H.
  destruct (passes_period dt_ini dt_fim (questor_row_date i_dt row));
    simpl in *; [| eexists; split; reflexivity].
  destruct (_is_nfe_questor (_row_to_norm_dict headers row));
    simpl in *; [eexists; split; reflexivity |].
  apply negb_false_iff in H. rewrite H. eexists; split; reflexivity.
Qed.

(** What a kept row does to the tables. *)
Lemma step_accepted headers i_num i_val i_ser i_dt dt_ini dt_fim st row :
  questor_map_accepts headers i_num i_dt dt_ini dt_fim row = true ->
  let k := questor_row_keys i_num i_ser row in
  let v := questor_row_val i_val row in
  let t := q_tables st in
  questor_map_step headers i_num i_val i_ser i_dt dt_ini dt_fim st row
  = if nonempty (questor_row_serie i_ser row) then
      pe <- accumulate (pair_exato t) (key_pair_raw k) v ;;
      pd <- accumulate (pair_digits t) (key_pair_dig k) v ;;
      Ok (mkqstate (mktables (doc_exato t) (doc_digits t) pe pd)
            (S (lidas_total st)) (S (lidas_periodo st)))
    else
      de <- accumulate (doc_exato t) (raw_doc k) v ;;
      dd <- accumulate (doc_digits t) (dig_doc k) v ;;
      Ok (mkqstate (mktables de dd (pair_exato t) (pair_digits t))
            (S (lidas_total st)) (S (lidas_periodo st))).
Proof.
  unfold questor_map_accepts, questor_map_step. intros H.
  apply andb_true_iff in H as [H H3]. apply andb_true_iff in H as [H1 H2].
  apply negb_true_iff in H2, H3. rewrite H1, H2, H3. simpl negb. cbv iota.
  unfold questor_row_keys, questor_row_val, sat_keys_of.
  destruct (_norm_doc (Py.str (questor_raw_num i_num row))) as [dr dg].
  destruct (_norm_pair (Py.str (questor_raw_num i_num row))
              (questor_row_serie i_ser row)) as [kr kd].
  reflexivity.
Qed.

End ClassifierFacts.

(** C2, as amended: [_is_nfe_questor] answers true exactly when the first
    of the kind field, the model field and the access key that resolves
    says invoice (marker [nfe] or code 55); a receipt marker or code 65,
    and a row where nothing resolves, answer false.  The indexer leaves
    out the rows that answer true, and a row that answers false, passes the
    date filter and has a document number enters the tables under its
    key. *)
Theorem classifier_excludes_invoices :
  (forall d, _is_nfe_questor d
             = match document_verdict d with
               | Invoice => true
               | _ => false
               end)
  /\ (forall headers i_num i_val i_ser i_dt dt_ini dt_fim st row,
        _is_nfe_questor (_row_to_norm_dict headers row) = true ->
        exists st',
          questor_map_step headers i_num i_val i_ser i_dt dt_ini dt_fim st row
          = Ok st'
          /\ q_tables st' = q_tables st)
  /\ (forall headers i_num i_val i_ser i_dt dt_ini dt_fim st row st',
        _is_nfe_questor (_row_to_norm_dict headers row) = false ->
        passes_period dt_ini dt_fim (questor_row_date i_dt row) = true ->
        String.eqb (strip (Py.str (questor_raw_num i_num row))) EmptyString
        = false ->
        questor_map_step headers i_num i_val i_ser i_dt dt_ini dt_fim st row
        = Ok st' ->
        let k := questor_row_keys i_num i_ser row in
        if nonempty (questor_row_serie i_ser row)
        then Dict.mem (key_pair_raw k) (pair_exato (q_tables st')) = true
        else Dict.mem (raw_doc k) (doc_exato (q_tables st')) = true).
Proof.
  split; [exact ClassifierFacts.is_nfe_verdict |]. split.
  - intros headers i_num i_val i_ser i_dt dt_ini dt_fim st row H.
    apply ClassifierFacts.step_rejected.
    unfold questor_map_accepts. rewrite H.
    rewrite andb_false_r. reflexivity.
  - intros headers i_num i_val i_ser i_dt dt_ini dt_fim st row st' H1 H2 H3.
    rewrite ClassifierFacts.step_accepted
      by (unfold questor_map_accepts; rewrite H1, H2, H3; reflexivity).
    cbv zeta.
    destruct (nonempty (questor_row_serie i_ser row)); unfold bind.
    + destruct (accumulate _ _ _) as [pe |] eqn:E1; [| discriminate].
      destruct (accumulate (pair_digits _) _ _) as [pd |]; [| discriminate].
      intros [= <-]. simpl.
      apply DictFacts.accumulate_ok in E1 as (s & _ & ->).
      apply DictFacts.mem_set_same.
    + destruct (accumulate _ _ _) as [de |] eqn:E1; [| discriminate].
      destruct (accumulate (doc_digits _) _ _) as [dd |]; [| discriminate].
      intros [= <-]. simpl.
      apply DictFacts.accumulate_ok in E1 as (s & _ & ->).
      apply DictFacts.mem_set_same.
Qed.

(** C2, as stated, fails: a row whose kind field carries the receipt
    marker is not left out of the tables.  The receipt row of [ws_receipt]
    enters them, the invoice row of [ws_invoice] does not, and the row of
    [ws_unknown_kind], where nothing resolves, enters them too. *)
Lemma classifier_keeps_receipts :
  ~ (forall headers row t m,
       document_verdict (_row_to_norm_dict headers row) = Receipt ->
       _questor_map_por_documento [headers; row] None None = Ok (t, m) ->
       any_key t = false)
  /\ (exists m, _questor_map_por_documento ws_receipt None None
                = Ok (tables_doc_10, m))
  /\ (exists m, _questor_map_por_documento ws_invoice None None
                = Ok (empty_tables, m))
  /\ (exists m, _questor_map_por_documento ws_unknown_kind None None
                = Ok (tables_doc_10, m)).
Proof.
  split.
  - intros H.
    specialize (H [PStr "Numero Documento"; PStr "Serie";
                   PStr "Valor Contabil"; PStr "Especie"]
                  [PStr "10"; PStr "1"; PStr "50,00"; PStr "NFC-e"]
                  tables_doc_10
                  (mkmeta 1 1 "numero_documento" "valor_contabil" "serie" "")).
    assert (E : any_key tables_doc_10 = false)
      by (apply H; vm_compute; reflexivity).
    discriminate E.
  - repeat split; eexists; vm_compute; reflexivity.
Qed.

(* ------------------------------------------------------------------ *)
(** ** Facts about [bind] *)

Lemma bind_ok_inv {A B : Type} (m : result A) (k : A -> result B) (b : B) :
  bind m k = Ok b -> exists a, m = Ok a /\ k a = Ok b.
Proof.
  destruct m as [a | e]; simpl; [| discriminate].
  intros H. exists a. split; [reflexivity | exact H].
Qed.

Lemma bind_raise_inv {A B : Type} (m : result A) (k : A -> result B) (e : exn) :
  bind m k = Raise e -> m = Raise e \/ exists a, m = Ok a /\ k a = Raise e.
Proof.
  destruct m as [a | e']; simpl.
  - intros H. right. exists a. split; [reflexivity | exact H].
  - intros [= <-]. left. reflexivity.
Qed.

(* ------------------------------------------------------------------ *)
(** ** The Questor indexer *)

Module IndexerFacts.
Import DictFacts ClassifierFacts.

Lemma accumulate_added (m m' : dict Decimal) (k : string) (v : Decimal) :
  accumulate m k v = Ok m' -> added m k v m'.
Proof.
  intros H. apply accumulate_ok in H as (s & Es & ->).
  exists s. split; [exact Es |]. split.
  - apply get_set_same.
  - intros k' Hne. apply get_set_other. congruence.
Qed.


(** The loop raises nothing but the arithmetic error of a sum. *)
Lemma step_raises headers i_num i_val i_ser i_dt dt_ini dt_fim st row e :
  questor_map_step headers i_num i_val i_ser i_dt dt_ini dt_fim st row = Raise e ->
  e = InvalidOperation.
Proof.
  destruct (questor_map_accepts headers i_num i_dt dt_ini dt_fim row) eqn:Ea.
  - rewrite (step_accepted _ _ _ _ _ _ _ _ _ Ea). cbv zeta.
    destruct (nonempty (questor_row_serie i_ser row)); intros H;
      (apply bind_raise_inv in H as [H | (m1 & _ & H)];
       [ exact (accumulate_raises _ _ _ _ H) |]);
      (apply bind_raise_inv in H as [H | (m2 & _ & H)];
       [ exact (accumulate_raises _ _ _ _ H) | discriminate H ]).
  - destruct (step_rejected headers i_num i_val i_ser i_dt dt_ini dt_fim
                st row Ea) as (st' & E & _).
    rewrite E. discriminate.
Qed.

Lemma foldM_raises {S A : Type} (step : S -> A -> result S)
    (P : exn -> Prop) :
  (forall st a e, step st a = Raise e -> P e) ->
  forall l st e, foldM step st l = Raise e -> P e.
Proof.
  intros Hs l. induction l as [| a r IH]; simpl; intros st e; [discriminate |].
  unfold bind. destruct (step st a) as [st1 |] eqn:E.
  - apply IH.
  - intros [= <-]. exact (Hs _ _ _ E).
Qed.


End IndexerFacts.

(** C6: a kept row updates one family of tables.  When the step returns,
    then with a series the value of the row was added under its pair keys
    to both pair maps and the two document maps are as they were, and
    without one it was added under its document keys to both document maps
    and the two pair maps are as they were.  The step raises only when one
    of the two additions of that family raises, with the error of that
    addition; it never touches the other family. *)
Theorem indexer_updates_one_family :
  forall headers i_num i_val i_ser i_dt dt_ini dt_fim st row,
    questor_map_accepts headers i_num i_dt dt_ini dt_fim row = true ->
    let k := questor_row_keys i_num i_ser row in
    let v := questor_row_val i_val row in
    let t := q_tables st in
    let step :=
      questor_map_step headers i_num i_val i_ser i_dt dt_ini dt_fim st row in
    (forall st', step = Ok st' ->
        let t' := q_tables st' in
        if nonempty (questor_row_serie i_ser row) then
          added (pair_exato t) (key_pair_raw k) v (pair_exato t')
          /\ added (pair_digits t) (key_pair_dig k) v (pair_digits t')
          /\ doc_exato t' = doc_exato t
          /\ doc_digits t' = doc_digits t
        else
          added (doc_exato t) (raw_doc k) v (doc_exato t')
          /\ added (doc_digits t) (dig_doc k) v (doc_digits t')
          /\ pair_exato t' = pair_exato t
          /\ pair_digits t' = pair_digits t)
    /\ (forall e, step = Raise e ->
        if nonempty (questor_row_serie i_ser row) then
          Dec.add (Dict.get_default (key_pair_raw k) Dec.zero (pair_exato t)) v
          = Raise e
          \/ Dec.add (Dict.get_default (key_pair_dig k) Dec.zero (pair_digits t)) v
             = Raise e
        else
          Dec.add (Dict.get_default (raw_doc k) Dec.zero (doc_exato t)) v
          = Raise e
          \/ Dec.add (Dict.get_default (dig_doc k) Dec.zero (doc_digits t)) v
             = Raise e).
Proof.
  intros headers i_num i_val i_ser i_dt dt_ini dt_fim st row Ha k v t step.
  subst step. rewrite (ClassifierFacts.step_accepted _ _ _ _ _ _ _ _ _ Ha).
  cbv zeta. fold k v t. split.
  - intros st'.
    destruct (nonempty (questor_row_serie i_ser row)); intros E;
      apply bind_ok_inv in E as (m1 & E1 & E);
      apply bind_ok_inv in E as (m2 & E2 & E);
      injection E as <-; simpl;
      (split; [exact (IndexerFacts.accumulate_added _ _ _ _ E1) |]);
      (split; [exact (IndexerFacts.accumulate_added _ _ _ _ E2) |]);
      split; reflexivity.
  - intros e.
    destruct (nonempty (questor_row_serie i_ser row)); intros E;
      (apply bind_raise_inv in E as [E | (m1 & _ & E)];
       [ left; unfold accumulate in E;
         apply bind_raise_inv in E as [E | (s & _ & E)];
         [exact E | discriminate E] |]);
      (apply bind_raise_inv in E as [E | (m2 & _ & E)];
       [ right; unfold accumulate in E;
         apply bind_raise_inv in E as [E | (s & _ & E)];
         [exact E | discriminate E]
       | discriminate E ]).
Qed.

(** The row [10; 1; 50,00] of a sheet with the three columns is kept and
    the step returns: its value is under the pair key in both pair maps
    and the document maps are empty.  The row [10; None; 50,00] is kept
    too: its value is under the document key in both document maps and the
    pair maps are empty. *)
Lemma indexer_updates_one_family_witness :
  questor_map_accepts headers_nsv 0 None None None row_with_serie = true
  /\ questor_map_accepts headers_nsv 0 None None None row_without_serie = true
  /\ (exists st',
        questor_map_step headers_nsv 0 2 (Some 1) None None None
          qstate0 row_with_serie = Ok st'
        /\ added [] "10|1" (DFin 5000 (-2)) (pair_exato (q_tables st'))
        /\ added [] "10|1" (DFin 5000 (-2)) (pair_digits (q_tables st'))
        /\ doc_exato (q_tables st') = []
        /\ doc_digits (q_tables st') = [])
  /\ (exists st',
        questor_map_step headers_nsv 0 2 (Some 1) None None None
          qstate0 row_without_serie = Ok st'
        /\ added [] "10" (DFin 5000 (-2)) (doc_exato (q_tables st'))
        /\ added [] "10" (DFin 5000 (-2)) (doc_digits (q_tables st'))
        /\ pair_exato (q_tables st') = []
        /\ pair_digits (q_tables st') = []).
Proof.
  split; [reflexivity |]. split; [reflexivity |]. split.
  - eexists. split; [vm_compute; reflexivity |].
    exact (proj1 (indexer_updates_one_family headers_nsv 0 2 (Some 1)
                    None None None qstate0 row_with_serie eq_refl)
             _ eq_refl).
  - eexists. split; [vm_compute; reflexivity |].
    exact (proj1 (indexer_updates_one_family headers_nsv 0 2 (Some 1)
                    None None None qstate0 row_without_serie eq_refl)
             _ eq_refl).
Defined.

(* ------------------------------------------------------------------ *)
(** ** Column resolution *)

Module ColumnFacts.
Import DictFacts IndexerFacts.

Lemma slug_nonempty (h : pyval) : nonempty (_slug h) = true.
Proof.
  unfold _slug.
  destruct (nonempty (strip_by is_underscore
                        (sub_nonword false (lower (strip (to_ascii (Py.str h)))))))
    eqn:E; [exact E | reflexivity].
Qed.

Lemma keys_set_in {V : Type} (k k0 : string) (v : V) (d : dict V) :
  In k (Dict.keys (Dict.set k0 v d)) -> k = k0 \/ In k (Dict.keys d).
Proof.
  rewrite keys_set. destruct (Dict.mem k0 d); [auto |].
  intros H. apply in_app_or in H as [H | [H | []]]; auto.
Qed.

Lemma values_set_in {V : Type} (x : V) (k0 : string) (v : V) (d : dict V) :
  In x (Dict.values (Dict.set k0 v d)) -> x = v \/ In x (Dict.values d).
Proof.
  induction d as [| [k' v'] r IH]; simpl.
  - intros [H | []]; auto.
  - destruct (String.eqb k0 k'); simpl.
    + intros [H | H]; auto.
    + intros [H | H]; [auto |]. destruct (IH H); auto.
Qed.

(** Every key of [header_cols] is the slug of a header. *)
Lemma header_cols_keys (headers : list pyval) (k : string) :
  In k (Dict.keys (header_cols headers)) -> nonempty k = true.
Proof.
  unfold header_cols.
  assert (G : forall (l : list (nat * pyval)) (m : dict nat),
             (forall k, In k (Dict.keys m) -> nonempty k = true) ->
             forall k,
               In k (Dict.keys
                       (fold_left
                          (fun m ih => Dict.set (_slug (snd ih)) (fst ih) m)
                          l m)) ->
               nonempty k = true).
  { induction l as [| [i h] r IH]; simpl; intros m Hm k0 Hk; [auto |].
    apply (IH _ (fun k1 H1 =>
                   match keys_set_in k1 _ _ _ H1 with
                   | or_introl E => eq_ind_r (fun x => nonempty x = true)
                                             (slug_nonempty h) E
                   | or_intror H2 => Hm k1 H2
                   end) k0 Hk). }
  apply G. intros k0 [].
Qed.

Lemma first_exact_in {V : Type} (d : dict V) (cands : list string) (k : string) :
  first_exact d cands = Some k -> In k (Dict.keys d).
Proof.
  induction cands as [| c r IH]; simpl; [discriminate |].
  destruct (Dict.mem c d) eqn:E; [| exact IH].
  intros [= <-]. unfold Dict.mem in E.
  destruct (Dict.get c d) eqn:G; [| discriminate].
  exact (get_in_keys _ _ _ G).
Qed.

Lemma first_substring_in (lm : dict string) (cands : list string) (k : string) :
  first_substring lm cands = Some k -> In k (Dict.values lm).
Proof.
  induction cands as [| c r IH]; simpl; [discriminate |].
  destruct (find (fun kl => contains c (fst kl)) lm) as [[kl ko] |] eqn:E;
    [| exact IH].
  intros [= <-]. apply find_some in E as [E _].
  unfold Dict.values. change ko with (snd (kl, ko)). apply in_map, E.
Qed.

Lemma low_map_values {V : Type} (d : dict V) (k : string) :
  In k (Dict.values (low_map d)) -> In k (Dict.keys d).
Proof.
  unfold low_map.
  assert (G : forall (l : list string) (m : dict string),
             In k (Dict.values
                     (fold_left (fun m k0 => Dict.set (lower k0) k0 m) l m)) ->
             In k (Dict.values m) \/ In k l).
  { induction l as [| a r IH]; simpl; intros m H; [auto |].
    destruct (IH _ H) as [H1 | H1]; [| auto].
    destruct (values_set_in _ _ _ _ H1); auto. }
  intros H. destruct (G _ _ H) as [[] | H1]. exact H1.
Qed.

(** The key [_first_key] returns is a key of the dict. *)
Lemma first_key_in {V : Type} (d : dict V) (cands : list string) (k : string) :
  _first_key d cands = Some k -> In k (Dict.keys d).
Proof.
  unfold _first_key.
  destruct (first_exact d cands) as [k0 |] eqn:E.
  - intros [= <-]. exact (first_exact_in _ _ _ E).
  - intros H. apply low_map_values. exact (first_substring_in _ _ _ H).
Qed.

(** A resolved column of the header is a true value with an index. *)
Lemma resolved_column (headers : list pyval) (cands : list string) (k : string) :
  _first_key (header_cols headers) cands = Some k ->
  Py.truthy (Some k) = true
  /\ exists i, col_index (header_cols headers) k = Ok i.
Proof.
  intros H. apply first_key_in in H. split.
  - exact (header_cols_keys _ _ H).
  - apply in_keys_mem in H. unfold Dict.mem in H. unfold col_index.
    destruct (Dict.get k (header_cols headers)) as [i |]; [| discriminate].
    exists i. reflexivity.
Qed.

Lemma opt_resolved_column (headers : list pyval) (cands : list string) :
  exists i,
    opt_col_index (header_cols headers)
      (_first_key (header_cols headers) cands) = Ok i.
Proof.
  destruct (_first_key (header_cols headers) cands) as [k |] eqn:E; simpl.
  - destruct (resolved_column _ _ _ E) as (_ & i & ->). simpl.
    eexists. reflexivity.
  - eexists. reflexivity.
Qed.

(** With both mandatory columns resolved, the indexer is its loop. *)
Lemma indexer_resolved headers rows dt_ini dt_fim kn kv :
  _first_key (header_cols headers) cand_num = Some kn ->
  _first_key (header_cols headers) cand_val = Some kv ->
  exists i_num i_val i_ser i_dt,
    col_index (header_cols headers) kn = Ok i_num
    /\ col_index (header_cols headers) kv = Ok i_val
    /\ _questor_map_por_documento (headers :: rows) dt_ini dt_fim
       = (st <- foldM (questor_map_step headers i_num i_val i_ser i_dt
                         dt_ini dt_fim) (mkqstate empty_tables 0 0) rows ;;
          Ok (q_tables st,
              mkmeta (lidas_total st) (lidas_periodo st) kn kv
                (or_empty (Py.or_else (_first_key (header_cols headers) cand_ser)
                                      (Some EmptyString)))
                (or_empty (Py.or_else (_first_key (header_cols headers) cand_dt)
                                      (Some EmptyString))))).
Proof.
  intros En Ev.
  destruct (resolved_column _ _ _ En) as (Tn & i_num & In_).
  destruct (resolved_column _ _ _ Ev) as (Tv & i_val & Iv).
  destruct (opt_resolved_column headers cand_ser) as (i_ser & Is).
  destruct (opt_resolved_column headers cand_dt) as (i_dt & Id).
  exists i_num, i_val, i_ser, i_dt.
  split; [exact In_ |]. split; [exact Iv |].
  unfold _questor_map_por_documento. rewrite En, Ev, Tn, Tv. simpl negb.
  cbv iota. simpl or_empty. rewrite In_, Iv, Is, Id. reflexivity.
Qed.

Lemma indexer_raises headers rows dt_ini dt_fim e :
  _questor_map_por_documento (headers :: rows) dt_ini dt_fim = Raise e ->
  e = schema_error \/ e = InvalidOperation.
Proof.
  destruct (_first_key (header_cols headers) cand_num) as [kn |] eqn:En.
  - destruct (_first_key (header_cols headers) cand_val) as [kv |] eqn:Ev.
    + destruct (indexer_resolved headers rows dt_ini dt_fim kn kv En Ev)
        as (i_num & i_val & i_ser & i_dt & _ & _ & ->).
      intros H. right.
      apply bind_raise_inv in H as [H | (st & _ & H)]; [| discriminate H].
      refine (foldM_raises _ (fun x => x = InvalidOperation) _ _ _ _ H).
      intros st a e0. apply step_raises.
    + unfold _questor_map_por_documento. rewrite En, Ev.
      destruct (Py.truthy (Some kn)); simpl; intros [= <-]; left; reflexivity.
  - unfold _questor_map_por_documento. rewrite En. simpl.
    intros [= <-]. left. reflexivity.
Qed.

End ColumnFacts.

(** C7: on a sheet with a header row, the indexer raises its schema error
    exactly when the document-number column or the value column is not
    resolved; it raises no other [ValueError], so a missing series or date
    column raises nothing; and on the schema error the comparison answers
    with an error message and stores no result. *)
Theorem schema_error_iff_mandatory_column_missing :
  forall headers rows dt_ini dt_fim,
    let cols := header_cols headers in
    let run := _questor_map_por_documento (headers :: rows) dt_ini dt_fim in
    (run = Raise schema_error
     <-> _first_key cols cand_num = None \/ _first_key cols cand_val = None)
    /\ (forall msg, run = Raise (ValueError msg) ->
                    ValueError msg = schema_error)
    /\ (forall empresa_id store inicio fim,
          dt_ini = _parse_date_any inicio -> dt_fim = _parse_date_any fim ->
          run = Raise schema_error ->
          exists r,
            comparar_questor empresa_id store (headers :: rows) inicio fim = Ok r
            /\ flash r = LError /\ stored r = None).
Proof.
  intros headers rows dt_ini dt_fim cols run. subst cols run.
  split; [| split].
  - split.
    + intros H.
      destruct (_first_key (header_cols headers) cand_num) as [kn |] eqn:En;
        [| left; reflexivity].
      destruct (_first_key (header_cols headers) cand_val) as [kv |] eqn:Ev;
        [| right; reflexivity].
      exfalso.
      destruct (ColumnFacts.indexer_resolved headers rows dt_ini dt_fim
                  kn kv En Ev) as (i_num & i_val & i_ser & i_dt & _ & _ & E).
      rewrite E in H.
      apply bind_raise_inv in H as [H | (st & _ & H)]; [| discriminate H].
      assert (K : schema_error = InvalidOperation).
      { refine (IndexerFacts.foldM_raises _ (fun x => x = InvalidOperation)
                  _ _ _ _ H).
        intros st a e0. apply IndexerFacts.step_raises. }
      discriminate K.
    + unfold _questor_map_por_documento. intros [-> | ->].
      * reflexivity.
      * rewrite andb_false_r. reflexivity.
  - intros msg H.
    destruct (ColumnFacts.indexer_raises _ _ _ _ _ H) as [E | E];
      [exact E | discriminate E].
  - intros empresa_id store inicio fim -> -> H.
    unfold comparar_questor.
    destruct (invalid_period (_parse_date_any inicio) (_parse_date_any fim)).
    + exists invalid_period_error. repeat split.
    + rewrite H. unfold schema_error. eexists. repeat split.
Qed.



(* ------------------------------------------------------------------ *)
(** ** The period aggregator *)

Module AggregatorFacts.
Import DictFacts ColumnFacts.

Lemma merge_get (kvs : list (string * Decimal)) :
  forall m m' k,
    foldM merge_step m kvs = Ok m' ->
    Dec.sum_from (Dict.get_default k Dec.zero m)
                 (values_of_key fst snd k kvs)
    = Ok (Dict.get_default k Dec.zero m').
Proof.
  unfold values_of_key.
  induction kvs as [| [k0 v0] r IH]; simpl; intros m m' k.
  - intros [= <-]. reflexivity.
  - intros H. apply bind_ok_inv in H as (m1 & E1 & H).
    unfold merge_step in E1. simpl in E1.
    apply accumulate_ok in E1 as (s & Es & ->).
    specialize (IH _ _ k H).
    destruct (String.eqb_spec k0 k) as [-> | Hne]; simpl.
    + rewrite Es. simpl. unfold Dict.get_default in IH at 1.
      rewrite get_set_same in IH. exact IH.
    + unfold Dict.get_default in IH at 1.
      rewrite (get_set_other _ _ _ _ Hne) in IH. exact IH.
Qed.

Lemma merge_mem (kvs : list (string * Decimal)) :
  forall m m' k,
    foldM merge_step m kvs = Ok m' ->
    Dict.mem k m'
    = Dict.mem k m || existsb (fun kv => String.eqb (fst kv) k) kvs.
Proof.
  induction kvs as [| [k0 v0] r IH]; simpl; intros m m' k.
  - intros [= <-]. rewrite orb_false_r. reflexivity.
  - intros H. apply bind_ok_inv in H as (m1 & E1 & H).
    unfold merge_step in E1. simpl in E1.
    apply accumulate_ok in E1 as (s & Es & ->).
    rewrite (IH _ _ k H).
    destruct (String.eqb_spec k0 k) as [-> | Hne]; simpl.
    + rewrite mem_set_same, orb_true_r. reflexivity.
    + rewrite (mem_set_other _ _ _ _ Hne). reflexivity.
Qed.

Lemma nodup_keys_set (k : string) (v : Decimal) (m : dict Decimal) :
  NoDup (Dict.keys m) -> NoDup (Dict.keys (Dict.set k v m)).
Proof.
  intros H. rewrite keys_set. destruct (Dict.mem k m) eqn:E; [exact H |].
  apply NoDup_app; [exact H | constructor; [intros [] | constructor] |].
  intros x Hx [<- | []]. apply in_keys_mem in Hx. congruence.
Qed.

Lemma merge_nodup (kvs : list (string * Decimal)) :
  forall m m',
    foldM merge_step m kvs = Ok m' ->
    NoDup (Dict.keys m) -> NoDup (Dict.keys m').
Proof.
  induction kvs as [| [k0 v0] r IH]; simpl; intros m m'.
  - intros [= <-]. auto.
  - intros H Hn. apply bind_ok_inv in H as (m1 & E1 & H).
    unfold merge_step in E1. simpl in E1.
    apply accumulate_ok in E1 as (s & Es & ->).
    apply (IH _ _ H). apply nodup_keys_set, Hn.
Qed.

Lemma values_of_key_map {A : Type} (key : A -> string) (val : A -> Decimal)
    (k : string) (l : list A) :
  values_of_key fst snd k (map (fun a => (key a, val a)) l)
  = values_of_key key val k l.
Proof.
  unfold values_of_key. induction l as [| a r IH]; simpl; [reflexivity |].
  destruct (String.eqb (key a) k); simpl; rewrite IH; reflexivity.
Qed.

Lemma existsb_key_map {A : Type} (key : A -> string) (val : A -> Decimal)
    (k : string) (l : list A) :
  existsb (fun kv => String.eqb (fst kv) k) (map (fun a => (key a, val a)) l)
  = existsb (fun a => String.eqb (key a) k) l.
Proof.
  induction l as [| a r IH]; simpl; [reflexivity |]. rewrite IH. reflexivity.
Qed.

(** A map filled by the merging loop from the empty map merges its rows by
    key. *)
Lemma merge_merged {A : Type} (key : A -> string) (val : A -> Decimal)
    (l : list A) (m : dict Decimal) :
  foldM merge_step [] (map (fun a => (key a, val a)) l) = Ok m ->
  merged_by_key key val l m.
Proof.
  intros H. split; [| split].
  - apply (merge_nodup _ _ _ H). constructor.
  - intros k. rewrite (merge_mem _ _ _ k H). simpl.
    apply existsb_key_map.
  - intros k. pose proof (merge_get _ _ _ k H) as G.
    rewrite values_of_key_map in G. exact G.
Qed.

(** Each of the three maps of the Questor loop goes through the merging
    loop over the kept rows. *)
Lemma questor_totais_project headers i_num i_ser i_dt dt_ini dt_fim rows :
  forall st st',
    foldM (questor_totais_step headers i_num i_ser i_dt dt_ini dt_fim)
          st rows = Ok st' ->
    let kept :=
      filter (questor_totais_accepts headers i_num i_dt dt_ini dt_fim) rows in
    let key := questor_totais_key i_num i_ser in
    foldM merge_step (por_doc_valor st)
          (map (fun r => (key r, q_valor headers r)) kept)
    = Ok (por_doc_valor st')
    /\ foldM merge_step (por_doc_bc st)
             (map (fun r => (key r, q_bc headers r)) kept)
       = Ok (por_doc_bc st')
    /\ foldM merge_step (por_doc_icms st)
             (map (fun r => (key r, q_icms headers r)) kept)
       = Ok (por_doc_icms st').
Proof.
  induction rows as [| row r IH]; simpl; intros st st'.
  - intros [= <-]. repeat split.
  - intros H. apply bind_ok_inv in H as (st1 & E1 & H).
    specialize (IH _ _ H). cbv zeta in IH.
    unfold questor_totais_step in E1.
    destruct (questor_totais_accepts headers i_num i_dt dt_ini dt_fim row).
    + cbn [map foldM].
      assert (Qv : q_valor headers row
                   = fst (fst (quantities (_row_to_norm_dict headers row))))
        by reflexivity.
      assert (Qb : q_bc headers row
                   = snd (fst (quantities (_row_to_norm_dict headers row))))
        by reflexivity.
      assert (Qi : q_icms headers row
                   = snd (quantities (_row_to_norm_dict headers row)))
        by reflexivity.
      destruct (quantities (_row_to_norm_dict headers row)) as [[vn vb] vi].
      simpl in Qv, Qb, Qi. rewrite Qv, Qb, Qi.
      apply bind_ok_inv in E1 as (pv & Ev & E1).
      apply bind_ok_inv in E1 as (pb & Eb & E1).
      apply bind_ok_inv in E1 as (pi & Ei & E1).
      injection E1 as <-. simpl in IH.
      unfold merge_step at 1 3 5. cbn [fst snd].
      rewrite Ev, Eb, Ei. cbn [bind]. exact IH.
    + injection E1 as <-. exact IH.
Qed.

(** The source side: a fold of [add3] over the first rows of each key. *)
Lemma sat_totais_fold dt_ini dt_fim (qs : list SatRegistro) :
  forall st,
    (st' <- foldM (sat_totais_step dt_ini dt_fim) st qs ;; Ok (tot st'))
    = foldM add3 (tot st)
        (map quantities
             (first_by_key sat_totais_key (vistos st)
                (filter (sat_totais_accepts dt_ini dt_fim) (map data qs)))).
Proof.
  induction qs as [| reg r IH]; intros st; [reflexivity |].
  cbn [foldM map filter]. unfold sat_totais_step at 1.
  destruct (sat_totais_accepts dt_ini dt_fim (data reg)) eqn:Ea.
  - cbn [first_by_key].
    destruct (seen (sat_totais_key (data reg)) (vistos st)) eqn:Es.
    + cbn [bind]. apply IH.
    + cbn [map foldM]. unfold add3 at 1.
      destruct (quantities (data reg)) as [[vn vb] vi].
      destruct (Dec.add (valor_total (tot st)) vn) as [tv | e];
        [| reflexivity].
      destruct (Dec.add (bc_icms (tot st)) vb) as [tb | e]; [| reflexivity].
      destruct (Dec.add (valor_icms (tot st)) vi) as [ti | e]; [| reflexivity].
      cbn [bind].
      apply (IH (mksat_acc (mktotais tv tb ti)
                   (sat_totais_key (data reg) :: vistos st))).
  - cbn [bind]. apply IH.
Qed.

End AggregatorFacts.

(** C5: the two sides of the period totals differ by design.  On the
    Questor side every kept row is summed: each of the three maps merges
    the kept rows by pair key, and each total is the sum of the entries of
    its map.  On the source side only the first kept row of a pair key is
    summed: the totals are the sums over those first rows, later rows of a
    key seen before add nothing. *)
Theorem period_totals_asymmetric :
  forall headers rows (qs : list SatRegistro) dt_ini dt_fim,
    (forall kn t,
       _first_key (header_cols headers) cand_num = Some kn ->
       _questor_totais_periodo (headers :: rows) dt_ini dt_fim = Ok t ->
       exists i_num i_ser i_dt pv pb pi,
         col_index (header_cols headers) kn = Ok i_num
         /\ opt_col_index (header_cols headers)
              (_first_key (header_cols headers) cand_ser) = Ok i_ser
         /\ opt_col_index (header_cols headers)
              (_first_key (header_cols headers) cand_dt) = Ok i_dt
         /\ let kept :=
              filter (questor_totais_accepts headers i_num i_dt dt_ini dt_fim)
                     rows in
            let key := questor_totais_key i_num i_ser in
            merged_by_key key (q_valor headers) kept pv
            /\ merged_by_key key (q_bc headers) kept pb
            /\ merged_by_key key (q_icms headers) kept pi
            /\ Dec.sum (Dict.values pv) = Ok (valor_total t)
            /\ Dec.sum (Dict.values pb) = Ok (bc_icms t)
            /\ Dec.sum (Dict.values pi) = Ok (valor_icms t))
    /\ _sat_totais_periodo qs dt_ini dt_fim
       = foldM add3 totais_zero
           (map quantities
              (first_by_key sat_totais_key []
                 (filter (sat_totais_accepts dt_ini dt_fim) (map data qs)))).
Proof.
  intros headers rows qs dt_ini dt_fim. split.
  - intros kn t En Hrun.
    destruct (ColumnFacts.resolved_column _ _ _ En) as (Tn & i_num & In_).
    destruct (ColumnFacts.opt_resolved_column headers cand_ser) as (i_ser & Is).
    destruct (ColumnFacts.opt_resolved_column headers cand_dt) as (i_dt & Id).
    unfold _questor_totais_periodo in Hrun.
    rewrite En, Tn in Hrun. simpl negb in Hrun. cbv iota in Hrun.
    simpl or_empty in Hrun. rewrite In_, Is, Id in Hrun. simpl in Hrun.
    apply bind_ok_inv in Hrun as (st & Hf & Hsum).
    destruct (AggregatorFacts.questor_totais_project _ _ _ _ _ _ _ _ _ Hf)
      as (Pv & Pb & Pi).
    unfold por_doc_totais in Hsum.
    apply bind_ok_inv in Hsum as (v & Sv & Hsum).
    apply bind_ok_inv in Hsum as (b & Sb & Hsum).
    apply bind_ok_inv in Hsum as (i & Si & Hsum).
    injection Hsum as <-.
    exists i_num, i_ser, i_dt,
      (por_doc_valor st), (por_doc_bc st), (por_doc_icms st).
    split; [exact In_ |]. split; [exact Is |]. split; [exact Id |].
    cbv zeta. simpl.
    split; [exact (AggregatorFacts.merge_merged _ _ _ _ Pv) |].
    split; [exact (AggregatorFacts.merge_merged _ _ _ _ Pb) |].
    split; [exact (AggregatorFacts.merge_merged _ _ _ _ Pi) |].
    repeat split; assumption.
  - unfold _sat_totais_periodo.
    exact (AggregatorFacts.sat_totais_fold dt_ini dt_fim qs
             (mksat_acc totais_zero [])).
Qed.

(** Two postings of one document: the Questor side totals both, 150,00;
    the source side totals the first only, 100,00. *)
Example period_totals_two_postings :
  _questor_totais_periodo ws_two_postings None None
  = Ok (mktotais (DFin 15000 (-2)) (DFin 12000 (-2)) (DFin 1200 (-2)))
  /\ _sat_totais_periodo regs_two_postings None None
     = Ok (mktotais (DFin 10000 (-2)) (DFin 8000 (-2)) (DFin 800 (-2))).
Proof.
  split; vm_compute; reflexivity.
Qed.

(* ------------------------------------------------------------------ *)
(** ** The importer: keys, the object map and the two bulk writes *)

Module ImporterFacts.

Lemma date_eqb_eq (a b : date) : Calendar.date_eqb a b = true <-> a = b.
Proof.
  unfold Calendar.date_eqb. destruct a as [y1 m1 d1], b as [y2 m2 d2]. simpl.
  rewrite !andb_true_iff, !Z.eqb_eq. split.
  - intros [[-> ->] ->]. reflexivity.
  - intros [= -> -> ->]. auto.
Qed.

Lemma opt_date_eqb_eq (a b : option date) : opt_date_eqb a b = true <-> a = b.
Proof.
  destruct a as [a |], b as [b |]; simpl.
  - rewrite date_eqb_eq. split; [intros ->; reflexivity | intros [= ->]; reflexivity].
  - split; discriminate.
  - split; discriminate.
  - split; reflexivity.
Qed.

Lemma ukey_eqb_eq (a b : ukey) : ukey_eqb a b = true <-> a = b.
Proof.
  destruct a as [[[e1 c1] s1] r1], b as [[[e2 c2] s2] r2]. simpl.
  rewrite !andb_true_iff, !Nat.eqb_eq, opt_date_eqb_eq, String.eqb_eq. split.
  - intros [[[-> ->] ->] ->]. reflexivity.
  - intros [= -> -> -> ->]. auto.
Qed.

Lemma ukey_eqb_spec (a b : ukey) : reflect (a = b) (ukey_eqb a b).
Proof.
  destruct (ukey_eqb a b) eqn:E; constructor.
  - apply ukey_eqb_eq, E.
  - intros H. apply ukey_eqb_eq in H. congruence.
Qed.

Lemma em_get_set_same k v m : em_get k (em_set k v m) = Some v.
Proof.
  induction m as [| [k' v'] r IH]; simpl.
  - destruct (ukey_eqb_spec k k); [reflexivity | congruence].
  - destruct (ukey_eqb_spec k k') as [-> | Hne]; simpl.
    + destruct (ukey_eqb_spec k' k'); [reflexivity | congruence].
    + destruct (ukey_eqb_spec k k'); [congruence | exact IH].
Qed.

Lemma em_get_set_other k k' v m :
  k <> k' -> em_get k' (em_set k v m) = em_get k' m.
Proof.
  intros Hne. induction m as [| [k0 v0] r IH]; simpl.
  - destruct (ukey_eqb_spec k' k); [congruence | reflexivity].
  - destruct (ukey_eqb_spec k k0) as [-> | Hk]; simpl.
    + destruct (ukey_eqb_spec k' k0); [congruence | reflexivity].
    + destruct (ukey_eqb_spec k' k0); [reflexivity | exact IH].
Qed.

Lemma em_get_set k k' v m :
  em_get k' (em_set k v m) = if ukey_eqb k k' then Some v else em_get k' m.
Proof.
  destruct (ukey_eqb_spec k k') as [-> | Hne].
  - apply em_get_set_same.
  - apply em_get_set_other, Hne.
Qed.

(** *** The loops as one loop over the rows *)

Lemma foldM_app {S A : Type} (step : S -> A -> result S) (l1 l2 : list A) :
  forall st,
    foldM step st (l1 ++ l2) = (st' <- foldM step st l1 ;; foldM step st' l2).
Proof.
  induction l1 as [| a r IH]; simpl; intros st; [reflexivity |].
  destruct (step st a) as [st1 | e]; simpl; [apply IH | reflexivity].
Qed.

Lemma foldM_map {S A B : Type} (step : S -> B -> result S) (f : A -> B)
    (l : list A) :
  forall st, foldM step st (map f l) = foldM (fun s a => step s (f a)) st l.
Proof.
  induction l as [| a r IH]; simpl; intros st; [reflexivity |].
  destruct (step st (f a)) as [st1 | e]; simpl; [apply IH | reflexivity].
Qed.

Lemma foldM_ext {S A : Type} (f g : S -> A -> result S) (l : list A) :
  (forall s a, f s a = g s a) ->
  forall st, foldM f st l = foldM g st l.
Proof.
  intros H. induction l as [| a r IH]; intros st; cbn [foldM]; [reflexivity |].
  rewrite H. destruct (g st a); cbn [bind]; [apply IH | reflexivity].
Qed.

Lemma import_sheet_items emp comp wb st name :
  import_sheet emp comp wb st name
  = foldM (import_item emp comp) st (sheet_items wb name).
Proof.
  unfold import_sheet, sheet_items.
  destruct (wb_get wb name) as [| headers rows]; [reflexivity |].
  rewrite foldM_map. apply foldM_ext.
  intros s [r cells]. reflexivity.
Qed.

Lemma import_all_items emp comp wb (names : list string) :
  forall st,
    foldM (import_sheet emp comp wb) st names
    = foldM (import_item emp comp) st (flat_map (sheet_items wb) names).
Proof.
  induction names as [| n r IH]; intros st; cbn [foldM flat_map];
    [reflexivity |].
  rewrite foldM_app, import_sheet_items.
  destruct (foldM (import_item emp comp) st (sheet_items wb n)); cbn [bind];
    [apply IH | reflexivity].
Qed.

(** *** Rows of a workbook with distinct sheet names have distinct keys *)

Lemma enumerate_from_fst {A : Type} (l : list A) :
  forall i, map fst (enumerate_from i l) = seq i (List.length l).
Proof.
  induction l as [| a r IH]; simpl; intros i; [reflexivity |].
  rewrite IH. reflexivity.
Qed.

Lemma sheet_items_sheet wb name x :
  In x (sheet_items wb name) -> it_sheet x = name.
Proof.
  unfold sheet_items. destruct (wb_get wb name) as [| headers rows]; [intros [] |].
  intros H. apply in_map_iff in H as (rr & <- & _). reflexivity.
Qed.

Lemma sheet_items_rows wb name :
  NoDup (map it_row (sheet_items wb name)).
Proof.
  unfold sheet_items. destruct (wb_get wb name) as [| headers rows];
    [constructor |].
  rewrite map_map. simpl.
  change (fun x : nat * list pyval => fst x) with (@fst nat (list pyval)).
  rewrite enumerate_from_fst. apply seq_NoDup.
Qed.

Lemma sheet_items_locators wb name :
  NoDup (map locator (sheet_items wb name)).
Proof.
  pose proof (sheet_items_rows wb name) as H.
  induction (sheet_items wb name) as [| x r IH]; simpl; [constructor |].
  simpl in H. inversion H as [| ? ? Hn Hr]; subst. constructor.
  - intros Hin. apply Hn. apply in_map_iff in Hin as (y & Ey & Hy).
    apply in_map_iff. exists y. split; [| exact Hy].
    unfold locator in Ey. congruence.
  - apply IH, Hr.
Qed.

Lemma all_items_locators wb (names : list string) :
  NoDup names -> NoDup (map locator (flat_map (sheet_items wb) names)).
Proof.
  induction names as [| n r IH]; simpl; intros H; [constructor |].
  inversion H as [| ? ? Hn Hr]; subst.
  rewrite map_app. apply NoDup_app.
  - apply sheet_items_locators.
  - apply IH, Hr.
  - intros [s i] H1 H2.
    apply in_map_iff in H1 as (x & Ex & Hx).
    apply in_map_iff in H2 as (y & Ey & Hy).
    apply sheet_items_sheet in Hx.
    apply in_flat_map in Hy as (n' & Hn' & Hy).
    apply sheet_items_sheet in Hy.
    unfold locator in Ex, Ey. apply Hn.
    assert (E : n = n') by congruence. rewrite E. exact Hn'.
Qed.



End ImporterFacts.

Module TableFacts.
Import ImporterFacts.

Lemma shape_length t : List.length (shape t) = List.length t.
Proof. apply length_map. Qed.

Lemma nth_error_prefix {A : Type} (l l' : list A) p x :
  nth_error l p = Some x -> nth_error (l ++ l') p = Some x.
Proof.
  intros H. rewrite nth_error_app1; [exact H |].
  apply nth_error_Some. congruence.
Qed.

Lemma in_shape_persisted t k :
  (exists x, In x (shape t) /\ snd x = k) <-> persisted t k.
Proof.
  unfold persisted, shape. split.
  - intros (x & Hx & E). apply in_map_iff in Hx as (reg & <- & Hr).
    exists reg. split; [exact Hr | exact E].
  - intros (reg & Hr & E). exists (pk reg, ukey_of reg). split.
    + apply in_map_iff. exists reg. split; [reflexivity | exact Hr].
    + exact E.
Qed.

(** *** [bulk_create] *)

Lemma conflicts_persisted t o :
  conflicts t o = true -> exists x, In x (shape t) /\ snd x = ukey_of o.
Proof.
  unfold conflicts. destruct (competencia o); [| discriminate].
  intros H. apply existsb_exists in H as (reg & Hr & E).
  apply ukey_eqb_eq in E. apply in_shape_persisted.
  exists reg. split; assumption.
Qed.

Lemma insert_ignore_ext t o :
  (forall p x, nth_error (shape t) p = Some x ->
               nth_error (shape (insert_ignore t o)) p = Some x)
  /\ (sh_ok (shape t) -> sh_ok (shape (insert_ignore t o)))
  /\ (exists x, In x (shape (insert_ignore t o)) /\ snd x = ukey_of o).
Proof.
  unfold insert_ignore. destruct (conflicts t o) eqn:E.
  - split; [auto |]. split; [auto |]. apply conflicts_persisted, E.
  - unfold shape. rewrite map_app. simpl. fold (shape t).
    split; [| split].
    + intros p x H. apply nth_error_prefix, H.
    + intros Hok p x H.
      destruct (Nat.lt_ge_cases p (List.length (shape t))) as [Hlt | Hge].
      * rewrite nth_error_app1 in H by exact Hlt. exact (Hok _ _ H).
      * rewrite nth_error_app2 in H by exact Hge.
        destruct (p - List.length (shape t)) as [| q] eqn:Eq.
        -- simpl in H. injection H as <-. simpl. f_equal.
           rewrite shape_length in *. lia.
        -- simpl in H. destruct q; discriminate H.
    + exists (Some (List.length t), ukey_of o). split; [| reflexivity].
      apply in_or_app. right. left. reflexivity.
Qed.

Lemma bulk_create_ext (objs : list SatRegistro) :
  forall t,
    (forall p x, nth_error (shape t) p = Some x ->
                 nth_error (shape (bulk_create t objs)) p = Some x)
    /\ (sh_ok (shape t) -> sh_ok (shape (bulk_create t objs)))
    /\ (forall o, In o objs ->
          exists x, In x (shape (bulk_create t objs)) /\ snd x = ukey_of o).
Proof.
  unfold bulk_create.
  induction objs as [| a r IH]; simpl; intros t.
  - split; [auto |]. split; [auto |]. intros o [].
  - destruct (insert_ignore_ext t a) as (E1 & E2 & E3).
    destruct (IH (insert_ignore t a)) as (I1 & I2 & I3).
    split; [| split].
    + intros p x H. apply I1, E1, H.
    + intros H. apply I2, E2, H.
    + intros o [<- | Ho]; [| apply I3, Ho].
      destruct E3 as (x & Hx & Ex). exists x. split; [| exact Ex].
      apply In_nth_error in Hx as (p & Hp).
      apply (nth_error_In _ p). apply I1, Hp.
Qed.

(** *** [bulk_update] *)

Lemma opt_nat_eqb_eq (a b : option nat) : opt_nat_eqb a b = true <-> a = b.
Proof.
  destruct a as [a |], b as [b |]; simpl;
    try (split; [discriminate | discriminate]); try (split; reflexivity).
  rewrite Nat.eqb_eq. split; [intros ->; reflexivity | intros [= ->]; reflexivity].
Qed.

Lemma update_row_shape t o :
  harmless (shape t) o -> shape (update_row t o) = shape t.
Proof.
  unfold harmless, shape, update_row. intros H. rewrite map_map.
  apply map_ext_in. intros reg Hr.
  destruct (opt_nat_eqb (pk reg) (pk o)) eqn:E; [| reflexivity].
  apply opt_nat_eqb_eq in E.
  assert (K : key_comp (ukey_of reg) = competencia o).
  { apply (H (pk reg, ukey_of reg)); [| exact E].
    apply in_map_iff. exists reg. split; [reflexivity | exact Hr]. }
  unfold ukey_of, key_comp in *. simpl in *. rewrite <- K. reflexivity.
Qed.

Lemma fold_update_shape (objs : list SatRegistro) :
  forall t,
    (forall o, In o objs -> harmless (shape t) o) ->
    shape (fold_left update_row objs t) = shape t.
Proof.
  induction objs as [| a r IH]; simpl; intros t H; [reflexivity |].
  assert (E : shape (update_row t a) = shape t)
    by (apply update_row_shape, H; left; reflexivity).
  rewrite IH; [exact E |].
  intros o Ho. rewrite E. apply H. right. exact Ho.
Qed.

Lemma bulk_update_ok t objs :
  (forall o, In o objs -> has_pk o = true /\ harmless (shape t) o) ->
  exists t', bulk_update t objs = Ok t' /\ shape t' = shape t.
Proof.
  intros H. unfold bulk_update.
  assert (F : forallb has_pk objs = true)
    by (apply forallb_forall; intros o Ho; apply H, Ho).
  rewrite F. eexists. split; [reflexivity |].
  apply fold_update_shape. intros o Ho. apply H, Ho.
Qed.

Lemma in_deref m ks o :
  In o (deref m ks) -> exists k, In k ks /\ em_get k m = Some o.
Proof.
  unfold deref. intros H. apply in_flat_map in H as (k & Hk & Ho).
  exists k. split; [exact Hk |].
  destruct (em_get k m) as [o' |]; [| destruct Ho].
  destruct Ho as [-> | []]. reflexivity.
Qed.

Lemma deref_in m ks k o :
  In k ks -> em_get k m = Some o -> In o (deref m ks).
Proof.
  unfold deref. intros Hk E. apply in_flat_map. exists k.
  split; [exact Hk |]. rewrite E. left. reflexivity.
Qed.

End TableFacts.

(* ------------------------------------------------------------------ *)
(** ** The importer: the loop invariant *)

Module LoopFacts.
Import ImporterFacts TableFacts.

Lemma in_sh_nth (sh : list (option nat * ukey)) p k :
  nth_error sh p = Some (Some p, k) -> exists x, In x sh /\ snd x = k.
Proof.
  intros H. exists (Some p, k). split; [| reflexivity].
  exact (nth_error_In _ _ H).
Qed.

Lemma harmless_of_inv rest st k o :
  import_inv rest st ->
  em_get k (exist_map st) = Some o -> has_pk o = true ->
  harmless (shape (tbl st)) o.
Proof.
  intros I E Hp x Hx Hfst.
  destruct (inv_obj _ _ I k o E) as [Ek Ho].
  unfold has_pk in Hp. destruct (pk o) as [p |] eqn:Epk; [| discriminate].
  apply In_nth_error in Hx as (q & Hq).
  pose proof (inv_pk _ _ I q x Hq) as Hxq.
  assert (q = p) by congruence. subst q.
  rewrite Ho in Hq. injection Hq as <-. simpl.
  rewrite <- Ek. reflexivity.
Qed.

Lemma inv_after_create rest st :
  import_inv rest st -> import_inv rest (after_create st).
Proof.
  intros I.
  destruct (bulk_create_ext (deref (exist_map st) (to_create st)) (tbl st))
    as (B1 & B2 & B3).
  constructor; simpl.
  - apply B2, (inv_pk _ _ I).
  - intros k o E. destruct (inv_obj _ _ I k o E) as [Ek Ho].
    split; [exact Ek |].
    destruct (pk o) as [p |]; [apply B1, Ho |].
    destruct Ho as [Hc Hr]. split; [| exact Hr]. right.
    destruct Hc as [Hc | (x & Hx & Ex)].
    + destruct (B3 o (deref_in _ _ _ _ Hc E)) as (x & Hx & Ex).
      exists x. split; [exact Hx | congruence].
    + exists x. split; [| exact Ex].
      apply In_nth_error in Hx as (p & Hp).
      apply (nth_error_In _ p). apply B1, Hp.
  - apply (inv_upd _ _ I).
  - intros k [].
Qed.

Lemma inv_shape rest st t :
  import_inv rest st -> shape t = shape (tbl st) ->
  import_inv rest (after_update st t).
Proof.
  intros I E. constructor; simpl.
  - rewrite E. apply (inv_pk _ _ I).
  - intros k o H. rewrite E. apply (inv_obj _ _ I k o H).
  - intros k [].
  - apply (inv_cre _ _ I).
Qed.

Lemma inv_after_update rest st :
  import_inv rest st ->
  exists t,
    bulk_update (tbl st) (deref (exist_map st) (to_update st)) = Ok t
    /\ shape t = shape (tbl st)
    /\ import_inv rest (after_update st t).
Proof.
  intros I.
  destruct (bulk_update_ok (tbl st) (deref (exist_map st) (to_update st)))
    as (t & Et & Es).
  { intros o Ho. apply in_deref in Ho as (k & Hk & E).
    destruct (inv_upd _ _ I k Hk) as (o' & E' & Hp).
    assert (o' = o) by congruence. subst o'.
    split; [exact Hp | exact (harmless_of_inv _ _ _ _ I E Hp)]. }
  exists t. split; [exact Et |]. split; [exact Es |].
  apply inv_shape; assumption.
Qed.

Lemma bulk_create_nil t m : bulk_create t (deref m []) = t.
Proof. reflexivity. Qed.

Lemma flush_full_eq st :
  flush_full st
  = let st1 := if (BATCH <=? List.length (to_create st))%nat
               then after_create st else st in
    if (BATCH <=? List.length (to_update st1))%nat
    then t <- bulk_update (tbl st1) (deref (exist_map st1) (to_update st1)) ;;
         Ok (after_update st1 t)
    else Ok st1.
Proof. reflexivity. Qed.

(** The two flushes keep the invariant, the object map and the counters. *)
Lemma flush_full_inv rest st :
  import_inv rest st ->
  exists st',
    flush_full st = Ok st'
    /\ import_inv rest st'
    /\ exist_map st' = exist_map st
    /\ criados st' = criados st
    /\ atualizados st' = atualizados st
    /\ ignorados_vazios st' = ignorados_vazios st
    /\ (to_create st = [] ->
        to_create st' = [] /\ shape (tbl st') = shape (tbl st)).
Proof.
  intros I. rewrite flush_full_eq. cbv zeta.
  set (st1 := if (BATCH <=? List.length (to_create st))%nat
              then after_create st else st).
  assert (I1 : import_inv rest st1
               /\ exist_map st1 = exist_map st
               /\ criados st1 = criados st
               /\ atualizados st1 = atualizados st
               /\ ignorados_vazios st1 = ignorados_vazios st
               /\ (to_create st = [] ->
                   to_create st1 = [] /\ shape (tbl st1) = shape (tbl st))).
  { subst st1. destruct (BATCH <=? List.length (to_create st))%nat.
    - split; [apply inv_after_create, I |].
      do 4 (split; [reflexivity |]).
      intros H. split; [reflexivity |]. simpl. rewrite H. reflexivity.
    - split; [exact I |]. do 4 (split; [reflexivity |]).
      intros H. split; [exact H | reflexivity]. }
  destruct I1 as (J & Em & Ec & Ea & Ei & Et).
  destruct (BATCH <=? List.length (to_update st1))%nat.
  - destruct (inv_after_update _ _ J) as (t & Eu & Es & K).
    rewrite Eu. exists (after_update st1 t). split; [reflexivity |].
    split; [exact K |]. simpl.
    do 4 (split; [assumption |]).
    intros H. destruct (Et H) as [H1 H2]. split; [exact H1 |].
    rewrite Es. exact H2.
  - exists st1. split; [reflexivity |]. split; [exact J |].
    do 4 (split; [assumption |]). exact Et.
Qed.

End LoopFacts.

(* ------------------------------------------------------------------ *)
(** ** The importer: one row, then all rows *)

Module RunFacts.
Import ImporterFacts TableFacts LoopFacts.

Lemma item_key_form emp comp x k :
  item_key emp comp x = Some k ->
  k = (emp, row_competencia comp (item_data x), it_sheet x, it_row x).
Proof.
  unfold item_key, item_data.
  destruct (build_data (it_keys x) (it_cells x)) as [d vazio].
  destruct vazio; [discriminate |]. intros [= <-]. reflexivity.
Qed.

(** What one iteration does, by the key of the row. *)
Lemma import_item_eq emp comp st x :
  import_item emp comp st x
  = match item_key emp comp x with
    | None => Ok (staged_empty st)
    | Some k =>
        match em_get k (exist_map st) with
        | Some reg =>
            flush_full (staged_update st k
                          (updated_reg reg (key_comp k) (item_data x)))
        | None =>
            flush_full (staged_create st k
                          (created_reg emp (key_comp k) (it_sheet x)
                                       (it_row x) (item_data x)))
        end
    end.
Proof.
  unfold import_item, import_row, item_key, item_data.
  destruct (build_data (it_keys x) (it_cells x)) as [d vazio].
  destruct vazio; [reflexivity |]. cbv zeta. simpl fst.
  destruct (em_get _ (exist_map st)); reflexivity.
Qed.

Lemma hit_set m k v k' :
  hit (em_set k v m) k' = ukey_eqb k k' || hit m k'.
Proof.
  unfold hit. rewrite em_get_set. destruct (ukey_eqb k k'); reflexivity.
Qed.

Lemma inv_staged_empty rest st :
  import_inv rest st -> import_inv rest (staged_empty st).
Proof.
  intros I. constructor; simpl.
  - apply (inv_pk _ _ I).
  - apply (inv_obj _ _ I).
  - apply (inv_upd _ _ I).
  - apply (inv_cre _ _ I).
Qed.

Lemma inv_staged_update rest st k reg c d :
  ~ In k rest ->
  import_inv (k :: rest) st ->
  em_get k (exist_map st) = Some reg ->
  c = key_comp k ->
  import_inv rest (staged_update st k (updated_reg reg c d)).
Proof.
  intros Hk I E ->.
  destruct (inv_obj _ _ I k reg E) as [Ek Hreg].
  destruct (pk reg) as [p |] eqn:Epk;
    [| exfalso; apply (proj2 Hreg); left; reflexivity].
  assert (Eu : ukey_of (updated_reg reg (key_comp k) d) = k).
  { unfold ukey_of in *. simpl. rewrite <- Ek. reflexivity. }
  constructor; simpl.
  - apply (inv_pk _ _ I).
  - intros k' o. rewrite em_get_set.
    destruct (ukey_eqb_spec k k') as [<- | Hne].
    + intros [= <-]. split; [exact Eu |]. simpl. rewrite Epk. exact Hreg.
    + intros H. destruct (inv_obj _ _ I k' o H) as [E1 E2].
      split; [exact E1 |]. destruct (pk o); [exact E2 |].
      destruct E2 as [E2 E3]. split; [exact E2 |].
      intros Hin. apply E3. right. exact Hin.
  - intros k' Hin. rewrite em_get_set.
    destruct (ukey_eqb_spec k k') as [<- | Hne].
    + eexists. split; [reflexivity |]. unfold has_pk. simpl. rewrite Epk.
      reflexivity.
    + apply in_app_or in Hin as [Hin | [Hin | []]]; [| congruence].
      apply (inv_upd _ _ I k' Hin).
  - intros k' Hin. rewrite em_get_set.
    destruct (ukey_eqb k k'); [eexists; reflexivity |].
    apply (inv_cre _ _ I k' Hin).
Qed.

Lemma inv_staged_create rest st k obj :
  ~ In k rest ->
  import_inv (k :: rest) st ->
  em_get k (exist_map st) = None ->
  ukey_of obj = k -> pk obj = None ->
  import_inv rest (staged_create st k obj).
Proof.
  intros Hk I E Eo Epk.
  constructor; simpl.
  - apply (inv_pk _ _ I).
  - intros k' o. rewrite em_get_set.
    destruct (ukey_eqb_spec k k') as [<- | Hne].
    + intros [= <-]. split; [exact Eo |]. rewrite Epk.
      split; [| exact Hk]. left. apply in_or_app. right. left. reflexivity.
    + intros H. destruct (inv_obj _ _ I k' o H) as [E1 E2].
      split; [exact E1 |]. destruct (pk o); [exact E2 |].
      destruct E2 as [E2 E3]. split.
      * destruct E2 as [E2 | E2]; [left; apply in_or_app; left; exact E2 |].
        right. exact E2.
      * intros Hin. apply E3. right. exact Hin.
  - intros k' Hin. rewrite em_get_set.
    destruct (ukey_eqb_spec k k') as [<- | Hne].
    + destruct (inv_upd _ _ I k Hin) as (o & Eo' & _). congruence.
    + apply (inv_upd _ _ I k' Hin).
  - intros k' Hin. rewrite em_get_set.
    destruct (ukey_eqb_spec k k') as [<- | Hne]; [eexists; reflexivity |].
    apply in_app_or in Hin as [Hin | [Hin | []]]; [| congruence].
    apply (inv_cre _ _ I k' Hin).
Qed.

End RunFacts.

Module WholeRun.
Import ImporterFacts TableFacts LoopFacts RunFacts.

Lemma count_split m (ks : list ukey) :
  count_miss m ks + count_hit m ks = List.length ks.
Proof.
  unfold count_miss, count_hit.
  induction ks as [| k r IH]; simpl; [reflexivity |].
  destruct (hit m k); simpl; lia.
Qed.

Lemma count_app m (a b : list ukey) :
  count_miss m (a ++ b) = count_miss m a + count_miss m b
  /\ count_hit m (a ++ b) = count_hit m a + count_hit m b.
Proof.
  unfold count_miss, count_hit. rewrite !filter_app, !length_app. auto.
Qed.

Lemma count_ext m m' (ks : list ukey) :
  (forall k, In k ks -> hit m' k = hit m k) ->
  count_miss m' ks = count_miss m ks /\ count_hit m' ks = count_hit m ks.
Proof.
  intros H. unfold count_miss, count_hit. split; f_equal.
  - apply filter_ext_in. intros k Hk. rewrite (H k Hk). reflexivity.
  - apply filter_ext_in. intros k Hk. apply H, Hk.
Qed.

Lemma count_all_hit m (ks : list ukey) :
  (forall k, In k ks -> hit m k = true) ->
  count_miss m ks = 0 /\ count_hit m ks = List.length ks.
Proof.
  intros H. unfold count_miss, count_hit.
  induction ks as [| k r IH]; simpl; [auto |].
  rewrite (H k) by (left; reflexivity). simpl.
  destruct IH as [I1 I2]; [intros k' Hk'; apply H; right; exact Hk' |].
  rewrite I1, I2. auto.
Qed.

(** One iteration keeps the invariant and counts the row once. *)
Lemma step_inv emp comp x rest st :
  let ks := item_key_list emp comp x in
  NoDup (ks ++ rest) ->
  import_inv (ks ++ rest) st ->
  exists st',
    import_item emp comp st x = Ok st'
    /\ import_inv rest st'
    /\ criados st' = criados st + count_miss (exist_map st) ks
    /\ atualizados st' = atualizados st + count_hit (exist_map st) ks
    /\ ignorados_vazios st' = ignorados_vazios st + count_empty emp comp [x]
    /\ (forall k, hit (exist_map st) k = true -> hit (exist_map st') k = true)
    /\ (forall k, In k ks -> hit (exist_map st') k = true)
    /\ (forall k, In k rest -> hit (exist_map st') k = hit (exist_map st) k)
    /\ (to_create st = [] -> count_miss (exist_map st) ks = 0 ->
        to_create st' = [] /\ shape (tbl st') = shape (tbl st)).
Proof.
  unfold item_key_list, count_empty. cbn [filter].
  rewrite import_item_eq.
  destruct (item_key emp comp x) as [k |] eqn:Ek; cbn [app List.length].
  - intros Hnd I. inversion Hnd as [| ? ? Hk Hr]; subst.
    pose proof (item_key_form _ _ _ _ Ek) as Fk.
    destruct (em_get k (exist_map st)) as [reg |] eqn:E.
    + pose proof (inv_staged_update rest st k reg (key_comp k) (item_data x)
                    Hk I E eq_refl) as I2.
      destruct (flush_full_inv rest _ I2)
        as (st' & Ef & I' & Em & Ec & Ea & Ei & Et).
      exists st'. split; [exact Ef |]. split; [exact I' |].
      assert (Hh : hit (exist_map st) k = true) by (unfold hit; rewrite E; reflexivity).
      unfold count_miss, count_hit. cbn [filter]. rewrite Hh. cbn [negb List.length].
      simpl in Ec, Ea, Ei, Em.
      split; [lia |]. split; [lia |]. split; [lia |].
      rewrite Em. split; [| split; [| split]].
      * intros k0 H0. rewrite hit_set, H0. apply orb_true_r.
      * intros k0 [<- | []]. rewrite hit_set.
        destruct (ukey_eqb_spec k k); [reflexivity | congruence].
      * intros k0 H0. rewrite hit_set.
        destruct (ukey_eqb_spec k k0) as [<- | Hne]; [contradiction | reflexivity].
      * intros Hc _. apply (Et Hc).
    + assert (Eo : ukey_of (created_reg emp (key_comp k) (it_sheet x)
                              (it_row x) (item_data x)) = k).
      { rewrite Fk. reflexivity. }
      pose proof (inv_staged_create rest st k _ Hk I E Eo eq_refl) as I2.
      destruct (flush_full_inv rest _ I2)
        as (st' & Ef & I' & Em & Ec & Ea & Ei & Et).
      exists st'. split; [exact Ef |]. split; [exact I' |].
      assert (Hh : hit (exist_map st) k = false) by (unfold hit; rewrite E; reflexivity).
      unfold count_miss, count_hit. cbn [filter]. rewrite Hh. cbn [negb List.length].
      simpl in Ec, Ea, Ei, Em.
      split; [lia |]. split; [lia |]. split; [lia |].
      rewrite Em. split; [| split; [| split]].
      * intros k0 H0. rewrite hit_set, H0. apply orb_true_r.
      * intros k0 [<- | []]. rewrite hit_set.
        destruct (ukey_eqb_spec k k); [reflexivity | congruence].
      * intros k0 H0. rewrite hit_set.
        destruct (ukey_eqb_spec k k0) as [<- | Hne]; [contradiction | reflexivity].
      * intros _ Hz. discriminate Hz.
  - intros _ I. exists (staged_empty st). split; [reflexivity |].
    split; [apply inv_staged_empty, I |].
    unfold count_miss, count_hit. simpl.
    repeat split; auto; lia.
Qed.

Lemma item_keys_cons emp comp x xs :
  item_keys emp comp (x :: xs)
  = item_key_list emp comp x ++ item_keys emp comp xs.
Proof. reflexivity. Qed.

Lemma count_empty_cons emp comp x xs :
  count_empty emp comp (x :: xs)
  = count_empty emp comp [x] + count_empty emp comp xs.
Proof.
  unfold count_empty. cbn [filter].
  destruct (item_key emp comp x); reflexivity.
Qed.

(** The loop over all rows. *)
Lemma run_inv emp comp (items : list item) :
  forall st,
    NoDup (item_keys emp comp items) ->
    import_inv (item_keys emp comp items) st ->
    exists st',
      foldM (import_item emp comp) st items = Ok st'
      /\ import_inv [] st'
      /\ criados st'
         = criados st + count_miss (exist_map st) (item_keys emp comp items)
      /\ atualizados st'
         = atualizados st + count_hit (exist_map st) (item_keys emp comp items)
      /\ ignorados_vazios st'
         = ignorados_vazios st + count_empty emp comp items
      /\ (forall k, hit (exist_map st) k = true -> hit (exist_map st') k = true)
      /\ (forall k, In k (item_keys emp comp items) ->
                    hit (exist_map st') k = true)
      /\ (to_create st = [] ->
          count_miss (exist_map st) (item_keys emp comp items) = 0 ->
          to_create st' = [] /\ shape (tbl st') = shape (tbl st)).
Proof.
  induction items as [| x xs IH]; intros st Hnd I.
  - exists st. split; [reflexivity |]. split; [exact I |].
    unfold count_miss, count_hit, count_empty. simpl.
    repeat split; auto; try lia.
  - rewrite item_keys_cons in *. rewrite count_empty_cons.
    destruct (step_inv emp comp x _ st Hnd I)
      as (st1 & E1 & I1 & C1 & A1 & G1 & M1 & K1 & R1 & T1).
    assert (Hnd' : NoDup (item_keys emp comp xs))
      by (apply NoDup_app_remove_l in Hnd; exact Hnd).
    destruct (IH st1 Hnd' I1) as (st' & E' & I' & C' & A' & G' & M' & K' & T').
    destruct (count_ext _ _ _ R1) as [X1 X2].
    destruct (count_app (exist_map st) (item_key_list emp comp x)
                (item_keys emp comp xs)) as [Y1 Y2].
    exists st'. cbn [foldM]. rewrite E1. cbn [bind].
    split; [exact E' |]. split; [exact I' |].
    split; [lia |]. split; [lia |]. split; [lia |].
    split; [| split].
    + intros k H. apply M', M1, H.
    + intros k H. apply in_app_or in H as [H | H];
        [apply M', K1, H | apply K', H].
    + intros Hc Hz.
      assert (Z1 : count_miss (exist_map st) (item_key_list emp comp x) = 0) by lia.
      assert (Z2 : count_miss (exist_map st1) (item_keys emp comp xs) = 0) by lia.
      destruct (T1 Hc Z1) as [Tc Ts]. destruct (T' Tc Z2) as [Tc' Ts'].
      split; [exact Tc' | congruence].
Qed.

(** *** The object map read from the table *)

Lemma fold_em_get emp (l : list SatRegistro) :
  forall m k o,
    em_get k (fold_left (fun m reg => em_set (load_key emp reg) reg m) l m)
    = Some o ->
    em_get k m = Some o \/ (In o l /\ load_key emp o = k).
Proof.
  induction l as [| a r IH]; simpl; intros m k o H; [auto |].
  destruct (IH _ _ _ H) as [H1 | [H1 H2]]; [| auto].
  rewrite em_get_set in H1.
  destruct (ukey_eqb_spec (load_key emp a) k) as [Ek | Hne]; [| auto].
  injection H1 as <-. right. auto.
Qed.

Lemma fold_em_hit emp (l : list SatRegistro) :
  forall m k,
    hit m k = true \/ (exists reg, In reg l /\ load_key emp reg = k) ->
    hit (fold_left (fun m reg => em_set (load_key emp reg) reg m) l m) k = true.
Proof.
  induction l as [| a r IH]; simpl; intros m k H.
  - destruct H as [H | (reg & [] & _)]. exact H.
  - apply IH. destruct H as [H | (reg & [<- | Hr] & E)].
    + left. rewrite hit_set, H. apply orb_true_r.
    + left. rewrite hit_set, E.
      destruct (ukey_eqb_spec k k); [reflexivity | congruence].
    + right. exists reg. auto.
Qed.

Lemma load_get emp t k o :
  em_get k (load_exist_map emp t) = Some o ->
  In o t /\ ukey_of o = k.
Proof.
  unfold load_exist_map. intros H.
  destruct (fold_em_get emp _ _ _ _ H) as [H1 | [H1 H2]]; [discriminate H1 |].
  apply filter_In in H1 as [H1 He]. apply Nat.eqb_eq in He.
  split; [exact H1 |]. unfold ukey_of. rewrite He. exact H2.
Qed.

Lemma load_hit emp t k :
  fst (fst (fst k)) = emp -> persisted t k ->
  hit (load_exist_map emp t) k = true.
Proof.
  intros He (reg & Hr & E). unfold load_exist_map.
  apply fold_em_hit. right. exists reg. split.
  - apply filter_In. split; [exact Hr |]. apply Nat.eqb_eq.
    rewrite <- E in He. exact He.
  - unfold load_key. rewrite <- E in He. simpl in He. rewrite <- He. exact E.
Qed.

Lemma load_hit_persisted emp t k :
  hit (load_exist_map emp t) k = true -> persisted t k.
Proof.
  unfold hit. destruct (em_get k (load_exist_map emp t)) as [o |] eqn:E;
    [| discriminate].
  intros _. destruct (load_get _ _ _ _ E) as [H1 H2].
  exists o. split; assumption.
Qed.

Lemma pk_ok_shape t : pk_ok t <-> sh_ok (shape t).
Proof.
  unfold pk_ok, sh_ok, shape. split.
  - intros H p x Hx. rewrite nth_error_map in Hx.
    destruct (nth_error t p) as [reg |] eqn:E; [| discriminate].
    injection Hx as <-. simpl. exact (H _ _ E).
  - intros H p reg E.
    apply (H p (pk reg, ukey_of reg)).
    rewrite nth_error_map, E. reflexivity.
Qed.

Lemma inv_initial emp t rest :
  pk_ok t ->
  import_inv rest (mkimp_state (load_exist_map emp t) [] [] t 0 0 0).
Proof.
  intros Hok. constructor; simpl.
  - apply pk_ok_shape, Hok.
  - intros k o H. destruct (load_get _ _ _ _ H) as [Hin Ek].
    split; [exact Ek |].
    apply In_nth_error in Hin as (p & Hp).
    rewrite (Hok _ _ Hp). unfold shape.
    rewrite nth_error_map, Hp. simpl. rewrite (Hok _ _ Hp), Ek. reflexivity.
  - intros k [].
  - intros k [].
Qed.

Lemma in_item_keys emp comp (items : list item) k :
  In k (item_keys emp comp items) ->
  exists x, In x items /\ item_key emp comp x = Some k.
Proof.
  unfold item_keys. intros H. apply in_flat_map in H as (x & Hx & Hk).
  exists x. split; [exact Hx |].
  destruct (item_key emp comp x) as [k' |]; [| destruct Hk].
  destruct Hk as [-> | []]. reflexivity.
Qed.

Lemma item_keys_nodup emp comp (items : list item) :
  NoDup (map locator items) -> NoDup (item_keys emp comp items).
Proof.
  induction items as [| x xs IH]; simpl; intros H; [constructor |].
  inversion H as [| ? ? Hn Hr]; subst.
  fold (item_keys emp comp xs).
  destruct (item_key emp comp x) as [k |] eqn:Ek; simpl; [| apply IH, Hr].
  constructor; [| apply IH, Hr].
  intros Hin. apply in_item_keys in Hin as (y & Hy & Eky).
  apply Hn. apply in_map_iff. exists y. split; [| exact Hy].
  apply item_key_form in Ek, Eky. unfold locator. congruence.
Qed.

Lemma item_key_empresa emp comp (items : list item) k :
  In k (item_keys emp comp items) -> fst (fst (fst k)) = emp.
Proof.
  intros H. apply in_item_keys in H as (x & _ & E).
  apply item_key_form in E. rewrite E. reflexivity.
Qed.

(** The run as the loop over the rows and the two closing writes. *)
Lemma sat_importar_eq t emp comp wb :
  sat_importar t emp comp wb
  = (st <- foldM (import_item emp comp)
             (mkimp_state (load_exist_map emp t) [] [] t 0 0 0)
             (all_items wb) ;;
     t2 <- bulk_update (tbl (after_create st))
             (deref (exist_map st) (to_update st)) ;;
     Ok (mkimport_result t2 (criados st) (atualizados st)
           (ignorados_vazios st))).
Proof.
  unfold sat_importar. rewrite import_all_items. fold (all_items wb).
  destruct (foldM (import_item emp comp) _ (all_items wb)) as [st | e];
    cbn [bind]; [| reflexivity].
  unfold after_create. cbn [tbl].
  destruct (to_create st) as [| c cs]; destruct (to_update st) as [| u us];
    reflexivity.
Qed.

(** An import run on a well-formed table and a workbook with distinct
    sheet names: it returns, and this is what it returns. *)
Lemma sat_importar_run t emp comp wb :
  pk_ok t -> NoDup (map fst wb) ->
  let ks := item_keys emp comp (all_items wb) in
  let m := load_exist_map emp t in
  exists r,
    sat_importar t emp comp wb = Ok r
    /\ pk_ok (ir_table r)
    /\ ir_criados r = count_miss m ks
    /\ ir_atualizados r = count_hit m ks
    /\ ir_ignorados_vazios r = count_empty emp comp (all_items wb)
    /\ (forall k, In k ks -> persisted (ir_table r) k)
    /\ (count_miss m ks = 0 -> shape (ir_table r) = shape t).
Proof.
  intros Hok Hnames ks m. subst ks m.
  assert (Hnd : NoDup (item_keys emp comp (all_items wb)))
    by (apply item_keys_nodup, all_items_locators, Hnames).
  destruct (run_inv emp comp (all_items wb) _ Hnd
              (inv_initial emp t _ Hok))
    as (st & E & I & C & A & G & M & K & T).
  simpl in C, A, G, M, T.
  pose proof (inv_after_create _ _ I) as I1.
  destruct (inv_after_update _ _ I1) as (t2 & Eu & Es & I2).
  exists (mkimport_result t2 (criados st) (atualizados st)
            (ignorados_vazios st)).
  rewrite sat_importar_eq, E. cbn [bind].
  change (deref (exist_map st) (to_update st))
    with (deref (exist_map (after_create st)) (to_update (after_create st))).
  rewrite Eu. cbn [bind ir_table ir_criados ir_atualizados ir_ignorados_vazios].
  split; [reflexivity |].
  split; [apply pk_ok_shape; exact (inv_pk _ _ I2) |].
  split; [exact C |]. split; [exact A |]. split; [exact G |].
  split.
  - intros k Hk. specialize (K k Hk). unfold hit in K.
    destruct (em_get k (exist_map st)) as [o |] eqn:Eo; [| discriminate].
    apply in_shape_persisted.
    destruct (inv_obj _ _ I2 k o Eo) as [_ Ho]. cbn [tbl after_update] in Ho.
    destruct (pk o) as [p |].
    + exact (in_sh_nth _ _ _ Ho).
    + destruct Ho as [[[] | Ho] _]. exact Ho.
  - intros Hz. destruct (T eq_refl Hz) as [Tc Ts].
    rewrite Es. unfold after_create. cbn [tbl]. rewrite Tc. exact Ts.
Qed.

End WholeRun.

(* ------------------------------------------------------------------ *)
(** ** The rows of a workbook *)

Module RowFacts.
Import ImporterFacts.

Lemma enumerate_from_seq {A : Type} (l : list A) :
  forall i, map fst (enumerate_from i l) = seq i (List.length l).
Proof.
  induction l as [| a r IH]; intros i; simpl; [reflexivity |].
  rewrite IH. reflexivity.
Qed.

(** The flag of the inner loop: true when no cell under a header has a
    value. *)
Lemma build_data_flag (keys : list string) (cells : list pyval) :
  snd (build_data keys cells)
  = negb (existsb (fun i => negb (Py.is_blank (Py.cell cells i PNone)))
                  (seq 0 (List.length keys))).
Proof.
  unfold build_data.
  assert (G : forall (l : list (nat * string)) (acc : row_dict * bool),
             snd (fold_left
                    (fun acc ik =>
                       let val := Py.cell cells (fst ik) PNone in
                       (Dict.set (snd ik)
                          (if Py.is_blank val then None else Some (Py.str val))
                          (fst acc),
                        snd acc && Py.is_blank val)) l acc)
             = snd acc
               && negb (existsb
                          (fun i => negb (Py.is_blank (Py.cell cells i PNone)))
                          (map fst l))).
  { induction l as [| [i k] r IH]; intros acc; simpl.
    - rewrite andb_true_r. reflexivity.
    - rewrite IH. destruct acc as [d b]. simpl.
      destruct b, (Py.is_blank (Py.cell cells i PNone)); reflexivity. }
  rewrite G, enumerate_from_seq. reflexivity.
Qed.

(** The key of a row: a row with a value has its key, a row without has
    none. *)
Lemma item_key_value emp comp (x : item) :
  item_key emp comp x
  = if has_value x then Some (row_key emp comp x) else None.
Proof.
  unfold item_key, row_key, item_data, has_value.
  pose proof (build_data_flag (it_keys x) (it_cells x)) as F.
  destruct (build_data (it_keys x) (it_cells x)) as [d vazio].
  simpl in F. rewrite F.
  destruct (existsb _ _); reflexivity.
Qed.

Lemma item_keys_filled emp comp (items : list item) :
  item_keys emp comp items = map (row_key emp comp) (filter has_value items).
Proof.
  unfold item_keys. induction items as [| x r IH]; simpl; [reflexivity |].
  rewrite item_key_value, IH. destruct (has_value x); reflexivity.
Qed.

Lemma count_empty_filled emp comp (items : list item) :
  count_empty emp comp items
  = List.length (filter (fun x => negb (has_value x)) items).
Proof.
  unfold count_empty. f_equal. apply filter_ext. intros x.
  rewrite item_key_value. destruct (has_value x); reflexivity.
Qed.

(** In a workbook whose sheets have distinct names, a name opens the
    sheet listed under it. *)
Lemma wb_get_in (wb : workbook) (name : string) (ws : worksheet) :
  NoDup (map fst wb) -> In (name, ws) wb -> wb_get wb name = ws.
Proof.
  induction wb as [| [n w] r IH]; simpl; intros Hn H; [destruct H |].
  inversion Hn as [| ? ? Hx Hr]; subst.
  destruct H as [E | H].
  - injection E as -> ->. rewrite String.eqb_refl. reflexivity.
  - destruct (String.eqb_spec n name) as [-> | Hne]; [| exact (IH Hr H)].
    exfalso. apply Hx. apply in_map_iff. exists (name, ws). auto.
Qed.

Lemma wb_get_found (wb : workbook) (name : string) (h : list pyval)
    (rows : list (list pyval)) :
  wb_get wb name = h :: rows -> In (name, h :: rows) wb.
Proof.
  induction wb as [| [n w] r IH]; simpl; [discriminate |].
  destruct (String.eqb_spec n name) as [-> | Hne].
  - intros ->. left. reflexivity.
  - intros H. right. exact (IH H).
Qed.

Lemma enumerate_from_nth {A : Type} (l : list A) :
  forall s i a, nth_error l i = Some a -> In (i + s, a) (enumerate_from s l).
Proof.
  induction l as [| b r IH]; intros s [| i] a; simpl; try discriminate.
  - intros [= ->]. left. reflexivity.
  - intros H. right. replace (S (i + s)) with (i + S s) by lia.
    apply IH, H.
Qed.

Lemma enumerate_from_in {A : Type} (l : list A) :
  forall s n a, In (n, a) (enumerate_from s l) ->
                exists i, n = i + s /\ nth_error l i = Some a.
Proof.
  induction l as [| b r IH]; intros s n a; simpl; [intros [] |].
  intros [E | H].
  - injection E as <- <-. exists 0. auto.
  - destruct (IH _ _ _ H) as (i & -> & Hi). exists (S i). split; [lia | exact Hi].
Qed.

(** The rows the import goes through are the data rows of the sheets,
    numbered from 2, each under the field keys of its header row. *)
Lemma all_items_rows (wb : workbook) :
  NoDup (map fst wb) ->
  forall x,
    In x (all_items wb)
    <-> exists name headers rows i cells,
          In (name, headers :: rows) wb
          /\ nth_error rows i = Some cells
          /\ x = mkitem name (map _slugify_field headers) (i + 2) cells.
Proof.
  intros Hn x. unfold all_items. rewrite in_flat_map. split.
  - intros (name & _ & Hx). unfold sheet_items in Hx.
    destruct (wb_get wb name) as [| headers rows] eqn:E; [destruct Hx |].
    apply in_map_iff in Hx as ([n cells] & <- & Hin).
    destruct (enumerate_from_in _ _ _ _ Hin) as (i & -> & Hi).
    exists name, headers, rows, i, cells.
    split; [exact (wb_get_found _ _ _ _ E) |]. split; [exact Hi | reflexivity].
  - intros (name & headers & rows & i & cells & Hw & Hi & ->).
    exists name. split.
    + apply in_map_iff. exists (name, headers :: rows). auto.
    + unfold sheet_items. rewrite (wb_get_in _ _ _ Hn Hw).
      apply in_map_iff. exists (i + 2, cells). split; [reflexivity |].
      apply enumerate_from_nth, Hi.
Qed.

Lemma filter_split {A : Type} (p : A -> bool) (l : list A) :
  List.length (filter p l) + List.length (filter (fun x => negb (p x)) l)
  = List.length l.
Proof.
  induction l as [| a r IH]; simpl; [reflexivity |].
  destruct (p a); simpl; lia.
Qed.

End RowFacts.

(** C3: on a table whose primary keys are the positions of its rows, and
    for a workbook whose sheets have distinct names, the rows the import
    goes through are the data rows of the sheets, numbered from 2, and a
    row counts as not empty when some cell under a header is neither
    [None] nor the empty text.  Importing the workbook and importing it
    once more with the same fallback competency both succeed; after the
    first run every row that is not empty has a persisted row of its key
    (company, competency, sheet, row number); the second run creates
    nothing, updates every row that is not empty, skips the others, and
    leaves the table with the same rows under the same keys. *)
Theorem reimport_is_idempotent :
  forall t emp comp wb,
    pk_ok t -> NoDup (map fst wb) ->
    let items := all_items wb in
    let filled := filter has_value items in
    (forall x,
       In x items
       <-> exists name headers rows i cells,
             In (name, headers :: rows) wb
             /\ nth_error rows i = Some cells
             /\ x = mkitem name (map _slugify_field headers) (i + 2) cells)
    /\ exists r1 r2,
         sat_importar t emp comp wb = Ok r1
         /\ sat_importar (ir_table r1) emp comp wb = Ok r2
         /\ (forall x, In x filled -> persisted (ir_table r1) (row_key emp comp x))
         /\ ir_criados r2 = 0
         /\ ir_atualizados r2 = List.length filled
         /\ ir_atualizados r2 = ir_criados r1 + ir_atualizados r1
         /\ ir_ignorados_vazios r2 = ir_ignorados_vazios r1
         /\ ir_ignorados_vazios r2 + List.length filled = List.length items
         /\ List.length (ir_table r2) = List.length (ir_table r1)
         /\ map ukey_of (ir_table r2) = map ukey_of (ir_table r1).
Proof.
  intros t emp comp wb Hok Hnames items filled.
  split; [exact (RowFacts.all_items_rows wb Hnames) |].
  set (ks := item_keys emp comp (all_items wb)).
  assert (Eks : ks = map (row_key emp comp) filled)
    by apply RowFacts.item_keys_filled.
  destruct (WholeRun.sat_importar_run t emp comp wb Hok Hnames)
    as (r1 & E1 & Ok1 & C1 & A1 & G1 & P1 & _).
  destruct (WholeRun.sat_importar_run (ir_table r1) emp comp wb Ok1 Hnames)
    as (r2 & E2 & Ok2 & C2 & A2 & G2 & P2 & S2).
  fold ks in C1, A1, P1, C2, A2, P2, S2.
  destruct (WholeRun.count_all_hit (load_exist_map emp (ir_table r1)) ks)
    as [Z1 Z2].
  { intros k Hk. apply WholeRun.load_hit; [| exact (P1 k Hk)].
    exact (WholeRun.item_key_empresa emp comp _ k Hk). }
  pose proof (WholeRun.count_split (load_exist_map emp t) ks) as Sp.
  specialize (S2 Z1).
  assert (Lk : List.length ks = List.length filled)
    by (rewrite Eks; apply length_map).
  exists r1, r2.
  split; [exact E1 |]. split; [exact E2 |]. split.
  { intros x Hx. apply P1. rewrite Eks. apply in_map, Hx. }
  split; [congruence |]. split; [congruence |]. split; [lia |].
  split; [congruence |]. split.
  { rewrite G2, RowFacts.count_empty_filled.
    pose proof (RowFacts.filter_split has_value items). fold items. fold filled in H.
    lia. }
  split.
  - rewrite <- !TableFacts.shape_length, S2. reflexivity.
  - unfold shape in S2.
    assert (X : map snd (map (fun reg => (pk reg, ukey_of reg)) (ir_table r2))
                = map snd (map (fun reg => (pk reg, ukey_of reg)) (ir_table r1)))
      by (rewrite S2; reflexivity).
    rewrite !map_map in X. exact X.
Qed.

(** An empty table and the workbook [wb_three_rows] meet the conditions:
    of its three data rows two have a value.  The first run creates two
    rows; the second creates none, updates two, skips one and leaves two
    rows in the table. *)
Lemma reimport_is_idempotent_witness :
  pk_ok [] /\ NoDup (map fst wb_three_rows)
  /\ exists r1 r2,
       sat_importar [] 7 None wb_three_rows = Ok r1
       /\ sat_importar (ir_table r1) 7 None wb_three_rows = Ok r2
       /\ ir_criados r1 = 2 /\ ir_atualizados r1 = 0
       /\ ir_criados r2 = 0 /\ ir_atualizados r2 = 2
       /\ ir_ignorados_vazios r2 = 1
       /\ List.length (ir_table r2) = 2.
Proof.
  assert (H1 : pk_ok []) by (intros p reg H; destruct p; discriminate H).
  assert (H2 : NoDup (map fst wb_three_rows))
    by (constructor; [intros [] | constructor]).
  split; [exact H1 |]. split; [exact H2 |].
  destruct (reimport_is_idempotent [] 7 None wb_three_rows H1 H2)
    as (_ & r1 & r2 & E1 & E2 & _ & C & A & S & _ & G & L & _).
  assert (X : exists c,
            sat_importar [] 7 None wb_three_rows = Ok c
            /\ ir_criados c = 2 /\ ir_atualizados c = 0
            /\ List.length (ir_table c) = 2).
  { eexists. split; [vm_compute; reflexivity |]. repeat split. }
  destruct X as (c & Ec & X1 & X2 & X3).
  rewrite E1 in Ec. injection Ec as <-.
  exists r1, r2.
  split; [exact E1 |]. split; [exact E2 |].
  split; [exact X1 |]. split; [exact X2 |]. split; [exact C |].
  split; [exact A |]. split.
  - change (List.length (filter has_value (all_items wb_three_rows))) with 2 in G.
    change (List.length (all_items wb_three_rows)) with 3 in G.
    apply (Nat.add_cancel_r _ _ 2). exact G.
  - rewrite L. exact X3.
Defined.

(** C4, as amended: an undated row, filed under the null competency, is
    treated like any other.  It is matched and staged for update when the
    object map holds its key, which at the start of a run means that the
    table holds a row of the company with null competency and the same
    sheet and row number; it is inserted fresh otherwise.  Over a run, the
    rows created are those whose key the table did not hold. *)
Theorem undated_row_matched_by_key :
  forall t emp comp wb,
    pk_ok t -> NoDup (map fst wb) ->
    let ks := item_keys emp comp (all_items wb) in
    let m := load_exist_map emp t in
    (exists r,
       sat_importar t emp comp wb = Ok r
       /\ ir_criados r = count_miss m ks
       /\ ir_atualizados r = count_hit m ks)
    /\ (forall s r,
          hit m (emp, None, s, r) = true
          <-> exists reg,
                In reg t /\ empresa reg = emp /\ competencia reg = None
                /\ sheet reg = s /\ row reg = r)
    /\ (forall st x k,
          item_key emp comp x = Some k -> key_comp k = None ->
          import_item emp comp st x
          = match em_get k (exist_map st) with
            | Some reg =>
                flush_full (staged_update st k
                              (updated_reg reg None (item_data x)))
            | None =>
                flush_full (staged_create st k
                              (created_reg emp None (it_sheet x) (it_row x)
                                           (item_data x)))
            end).
Proof.
  intros t emp comp wb Hok Hnames ks m. split; [| split].
  - destruct (WholeRun.sat_importar_run t emp comp wb Hok Hnames)
      as (r & E & _ & C & A & _).
    exists r. auto.
  - intros s r. split.
    + intros H. apply WholeRun.load_hit_persisted in H as (reg & Hin & E).
      exists reg. unfold ukey_of in E. injection E as E1 E2 E3 E4. auto.
    + intros (reg & Hin & E1 & E2 & E3 & E4).
      apply WholeRun.load_hit; [reflexivity |].
      exists reg. split; [exact Hin |]. unfold ukey_of. congruence.
  - intros st x k Ek Hc. rewrite RunFacts.import_item_eq, Ek, Hc. reflexivity.
Qed.

(** The table [table_undated] and the workbook [wb_undated] meet the
    conditions; the undated row 2 of the workbook finds the undated row 2
    of the table. *)
Lemma undated_row_matched_by_key_witness :
  pk_ok table_undated /\ NoDup (map fst wb_undated)
  /\ (hit (load_exist_map 7 table_undated) (7, None, "Plan1", 2) = true
      <-> exists reg,
            In reg table_undated /\ empresa reg = 7 /\ competencia reg = None
            /\ sheet reg = "Plan1" /\ row reg = 2).
Proof.
  assert (H1 : pk_ok table_undated).
  { intros p reg H. destruct p as [| [| p]]; try discriminate H.
    injection H as <-. reflexivity. }
  assert (H2 : NoDup (map fst wb_undated))
    by (constructor; [intros [] | constructor]).
  split; [exact H1 |]. split; [exact H2 |].
  apply (undated_row_matched_by_key table_undated 7 None wb_undated H1 H2).
Defined.

(** C4, as stated, fails: the only row of [wb_undated] has no date, no
    fallback competency is given, and the run over [table_undated] updates
    the persisted undated row instead of inserting a new one. *)
Lemma undated_row_is_updated :
  ~ (forall t emp wb r,
       (forall k, In k (item_keys emp None (all_items wb)) ->
                  key_comp k = None) ->
       sat_importar t emp None wb = Ok r ->
       ir_criados r = List.length (item_keys emp None (all_items wb))
       /\ ir_atualizados r = 0)
  /\ exists r,
       sat_importar table_undated 7 None wb_undated = Ok r
       /\ ir_criados r = 0 /\ ir_atualizados r = 1
       /\ List.length (ir_table r) = 1.
Proof.
  assert (E : exists r,
            sat_importar table_undated 7 None wb_undated = Ok r
            /\ ir_criados r = 0 /\ ir_atualizados r = 1
            /\ List.length (ir_table r) = 1).
  { eexists. split; [vm_compute; reflexivity |]. repeat split. }
  split; [| exact E].
  intros H. destruct E as (r & E & _ & Ea & _).
  destruct (H table_undated 7 wb_undated r) as [_ Hu]; [| exact E |].
  - intros k Hk. vm_compute in Hk. destruct Hk as [<- | []]. reflexivity.
  - rewrite Ea in Hu. discriminate Hu.
Qed.

(* ------------------------------------------------------------------ *)
(** ** Trimming and case *)

Module NormFacts.
Import TextFacts.

Lemma lower_char_idem (c : ascii) : lower_char (lower_char c) = lower_char c.
Proof.
  destruct c as [b0 b1 b2 b3 b4 b5 b6 b7].
  destruct b0, b1, b2, b3, b4, b5, b6, b7; reflexivity.
Qed.

Lemma lower_upper_char (c : ascii) : lower_char (upper_char c) = lower_char c.
Proof.
  destruct c as [b0 b1 b2 b3 b4 b5 b6 b7].
  destruct b0, b1, b2, b3, b4, b5, b6, b7; reflexivity.
Qed.

Lemma space_lower_char (c : ascii) : is_space (lower_char c) = is_space c.
Proof.
  destruct c as [b0 b1 b2 b3 b4 b5 b6 b7].
  destruct b0, b1, b2, b3, b4, b5, b6, b7; reflexivity.
Qed.

Lemma map_chars_map_chars (f g : ascii -> ascii) (s : string) :
  map_chars f (map_chars g s) = map_chars (fun c => f (g c)) s.
Proof. induction s as [| a r IH]; simpl; [| rewrite IH]; reflexivity. Qed.

Lemma map_chars_ext (f g : ascii -> ascii) (s : string) :
  (forall c, f c = g c) -> map_chars f s = map_chars g s.
Proof.
  intros H. induction s as [| a r IH]; simpl; [| rewrite IH, H]; reflexivity.
Qed.

Lemma lower_idem (s : string) : lower (lower s) = lower s.
Proof.
  unfold lower. rewrite map_chars_map_chars.
  apply map_chars_ext, lower_char_idem.
Qed.

Lemma lower_upper (s : string) : lower (upper s) = lower s.
Proof.
  unfold lower, upper. rewrite map_chars_map_chars.
  apply map_chars_ext, lower_upper_char.
Qed.

Lemma lstrip_map (p : ascii -> bool) (f : ascii -> ascii) (s : string) :
  (forall c, p (f c) = p c) ->
  lstrip_by p (map_chars f s) = map_chars f (lstrip_by p s).
Proof.
  intros H. induction s as [| a r IH]; simpl; [reflexivity |].
  rewrite H. destruct (p a); [exact IH | reflexivity].
Qed.

Lemma rstrip_map (p : ascii -> bool) (f : ascii -> ascii) (s : string) :
  (forall c, p (f c) = p c) ->
  rstrip_by p (map_chars f s) = map_chars f (rstrip_by p s).
Proof.
  intros H. induction s as [| a r IH]; simpl; [reflexivity |].
  rewrite IH, H. destruct (rstrip_by p r); simpl; [| reflexivity].
  destruct (p a); reflexivity.
Qed.

Lemma strip_lower (s : string) : strip (lower s) = lower (strip s).
Proof.
  unfold strip, strip_by, lower.
  rewrite lstrip_map by apply space_lower_char.
  apply rstrip_map, space_lower_char.
Qed.

Lemma rstrip_idem (p : ascii -> bool) (s : string) :
  rstrip_by p (rstrip_by p s) = rstrip_by p s.
Proof.
  induction s as [| a r IH]; simpl; [reflexivity |].
  destruct (rstrip_by p r) as [| b r'] eqn:E.
  - destruct (p a) eqn:Ea; simpl; [reflexivity |]. rewrite Ea. reflexivity.
  - simpl. simpl in IH. rewrite IH. reflexivity.
Qed.

(** What is left of a text without leading [p]-characters has none
    either, once its trailing ones are gone. *)
Lemma lstrip_rstrip (p : ascii -> bool) (s : string) :
  lstrip_by p (rstrip_by p (lstrip_by p s)) = rstrip_by p (lstrip_by p s).
Proof.
  assert (G : forall u, lstrip_by p u = u ->
                        lstrip_by p (rstrip_by p u) = rstrip_by p u).
  { intros u Hu. destruct u as [| a r]; [reflexivity |].
    simpl in Hu. destruct (p a) eqn:Ea.
    - exfalso. assert (L : forall x, String.length (lstrip_by p x) <= String.length x).
      { induction x as [| b x IH]; simpl; [lia |].
        destruct (p b); simpl; lia. }
      specialize (L r). rewrite Hu in L. simpl in L. lia.
    - simpl. destruct (rstrip_by p r); rewrite ?Ea; simpl; rewrite Ea;
        reflexivity. }
  apply G. induction s as [| a r IH]; simpl; [reflexivity |].
  destruct (p a) eqn:Ea; [exact IH |]. simpl. rewrite Ea. reflexivity.
Qed.

Lemma strip_by_idem (p : ascii -> bool) (s : string) :
  strip_by p (strip_by p s) = strip_by p s.
Proof.
  unfold strip_by. rewrite lstrip_rstrip. apply rstrip_idem.
Qed.

Lemma strip_idem (s : string) : strip (strip s) = strip s.
Proof. apply strip_by_idem. Qed.

(** Trimming and lower-casing a second time changes nothing. *)
Lemma norm_idem (s : string) : lower (strip (lower (strip s))) = lower (strip s).
Proof. rewrite strip_lower, strip_idem. apply lower_idem. Qed.

Lemma contains_nonempty (sub s : string) :
  nonempty sub = true -> contains sub s = true -> nonempty s = true.
Proof.
  destruct sub; [discriminate |]. destruct s; [discriminate | reflexivity].
Qed.

End NormFacts.

Module StatusFacts.
Import NormFacts.

Lemma cancelado_norm (s : string) :
  _is_cancelado s = true -> _is_cancelado (lower (strip s)) = true.
Proof.
  unfold _is_cancelado. intros H. apply andb_true_iff in H as [_ H].
  rewrite norm_idem, H.
  rewrite (contains_nonempty "cancel" _ eq_refl H). reflexivity.
Qed.

Lemma autorizado_not_cancelado (s : string) :
  _is_autorizado s = true -> _is_cancelado s = false.
Proof.
  unfold _is_autorizado. intros H.
  destruct (_is_cancelado s) eqn:E; [| reflexivity].
  rewrite (cancelado_norm s E), orb_true_r in H. discriminate H.
Qed.

Lemma upper_is (s w : string) :
  upper (strip s) = w -> lower (strip s) = lower w.
Proof. intros <-. rewrite lower_upper. reflexivity. Qed.

Lemma legivel_cancelada (d : row_dict) :
  _status_legivel d = "CANCELADA" <-> _is_cancelado (_extr_status_sat d) = true.
Proof.
  unfold _status_legivel.
  destruct (_is_cancelado (_extr_status_sat d)) eqn:Ec.
  - split; reflexivity.
  - split; [| discriminate].
    destruct (_is_autorizado (_extr_status_sat d)); [discriminate |].
    destruct (nonempty (_extr_status_sat d)) eqn:En; [| discriminate].
    intros H. apply upper_is in H.
    unfold _is_cancelado in Ec. rewrite En, H in Ec. discriminate Ec.
Qed.

Lemma legivel_autorizada (d : row_dict) :
  _status_legivel d = "AUTORIZADA"
  <-> _is_cancelado (_extr_status_sat d) = false
      /\ _is_autorizado (_extr_status_sat d) = true.
Proof.
  unfold _status_legivel.
  destruct (_is_cancelado (_extr_status_sat d)) eqn:Ec.
  - split; [discriminate | intros [H _]; discriminate H].
  - destruct (_is_autorizado (_extr_status_sat d)) eqn:Ea.
    + split; [auto | reflexivity].
    + split; [| intros [_ H]; discriminate H].
      destruct (nonempty (_extr_status_sat d)) eqn:En; [| discriminate].
      intros H. apply upper_is in H.
      unfold _is_autorizado in Ea. rewrite H in Ea.
      discriminate Ea.
Qed.

End StatusFacts.


(* ------------------------------------------------------------------ *)
(** ** The two passes of the reconciler *)

Module ReconcilerFacts.
Import StatusFacts.

Lemma forall_firstn {A : Type} (P : A -> Prop) (n : nat) (l : list A) :
  Forall P l -> Forall P (firstn n l).
Proof.
  intros H. revert n. induction H as [| a l Ha _ IH]; intros [| n]; simpl;
    constructor; auto.
Qed.

Lemma nodup_firstn {A : Type} (n : nat) (l : list A) :
  NoDup l -> NoDup (firstn n l).
Proof.
  intros H. revert n. induction H as [| a l Ha _ IH]; intros [| n]; simpl;
    try constructor; auto.
  intros Hin. apply Ha. revert Hin. clear. revert n.
  induction l as [| b l IH]; intros [| n]; simpl; try tauto.
  intros [H | H]; [left; exact H | right; exact (IH _ H)].
Qed.

Lemma nodup_snoc {A : Type} (l : list A) (a : A) :
  NoDup l -> ~ In a l -> NoDup (l ++ [a]).
Proof.
  intros H Ha. induction H as [| b l Hb _ IH]; simpl.
  - constructor; [intros [] | constructor].
  - constructor.
    + intros Hin. apply in_app_or in Hin as [Hin | [-> | []]].
      * exact (Hb Hin).
      * apply Ha. left. reflexivity.
    + apply IH. intros Hin. apply Ha. right. exact Hin.
Qed.

Lemma forall_snoc {A : Type} (P : A -> Prop) (l : list A) (a : A) :
  Forall P l -> P a -> Forall P (l ++ [a]).
Proof.
  intros H Ha. apply Forall_app. split; [exact H |].
  constructor; [exact Ha | constructor].
Qed.

Lemma seen_in (k : string) (l : list string) : seen k l = true <-> In k l.
Proof.
  unfold seen. rewrite existsb_exists. split.
  - intros (x & Hx & E). apply String.eqb_eq in E. subst. exact Hx.
  - intros H. exists k. split; [exact H | apply String.eqb_refl].
Qed.

(** The exact pair key is never empty: it holds the bar. *)
Lemma pair_key_nonempty (doc serie : string) :
  nonempty (fst (_norm_pair doc serie)) = true
  /\ nonempty (snd (_norm_pair doc serie)) = true.
Proof.
  unfold _norm_pair. cbn [fst snd].
  split.
  - destruct (lower (strip doc)); reflexivity.
  - destruct (_digits_only doc); reflexivity.
Qed.

Lemma key_pair_raw_of (num serie : string) :
  key_pair_raw (sat_keys_of num serie) = fst (_norm_pair num serie).
Proof. reflexivity. Qed.

(** The key under which the second pass remembers a row is its exact
    pair key: the two fallbacks are never reached. *)
Lemma uniq_pair_key (reg : SatRegistro) :
  str_or (key_pair_raw (reg_keys reg))
         (str_or (raw_doc (reg_keys reg)) (dig_doc (reg_keys reg)))
  = fst (_norm_pair (_numero_documento_sat (data reg)) (serie_sat_of (data reg))).
Proof.
  unfold reg_keys. rewrite key_pair_raw_of. unfold str_or at 1.
  rewrite (proj1 (pair_key_nonempty _ _)). reflexivity.
Qed.

(** One row of the first pass. *)
Lemma cancel_step_inv t dt_ini dt_fim (P : divergencia -> Prop) st reg st' :
  (forall e, reports_cancelled t reg e -> dv_status_sat e = "CANCELADA" -> P e) ->
  cancel_step t dt_ini dt_fim st reg = Ok st' ->
  counters_ok st -> Forall P (divergencias st) ->
  counters_ok st' /\ Forall P (divergencias st')
  /\ sat_total_periodo st' <= S (sat_total_periodo st).
Proof.
  intros HP. unfold cancel_step, counters_ok.
  destruct (negb (passes_period dt_ini dt_fim (_extr_data_emissao_dict (data reg)))).
  { intros [= <-] H F. repeat split; try tauto; lia. }
  cbn [divergencias candidatos pareadas nao_encontradas sat_considerados
         sat_total_periodo].
  destruct (nonempty (_numero_documento_sat (data reg))) eqn:En; cbn [negb].
  2:{ intros [= <-] H F. simpl. repeat split; try tauto; lia. }
  fold (reg_keys reg).
  destruct (present_in t (reg_keys reg)) eqn:Ep; cbn [negb].
  2:{ intros [= <-] H F. simpl. repeat split; try tauto; lia. }
  destruct (_is_cancelado (_extr_status_sat (data reg))) eqn:Ec; cbn [negb].
  2:{ intros [= <-] H F. simpl. repeat split; try tauto; lia. }
  destruct (lookup_val_q t (reg_keys reg)) as [val_q |] eqn:El.
  2:{ intros [= <-] H F. simpl. repeat split; try tauto; lia. }
  intros E H F. apply bind_ok_inv in E as (nz & Enz & E).
  injection E as <-.
  destruct nz; simpl.
  - rewrite length_app. simpl. repeat split; try lia.
    apply forall_snoc; [exact F |]. apply HP.
    + unfold reports_cancelled. simpl. repeat split; assumption.
    + simpl. apply legivel_cancelada, Ec.
  - repeat split; try tauto; lia.
Qed.

(** The first pass over the rows [qs], a part of [all]. *)
Lemma cancel_fold_inv t dt_ini dt_fim (all : list SatRegistro)
    (P : divergencia -> Prop) :
  (forall reg e, In reg all -> reports_cancelled t reg e ->
                 dv_status_sat e = "CANCELADA" -> P e) ->
  forall qs st st',
    incl qs all ->
    foldM (cancel_step t dt_ini dt_fim) st qs = Ok st' ->
    counters_ok st -> Forall P (divergencias st) ->
    counters_ok st' /\ Forall P (divergencias st')
    /\ sat_total_periodo st' <= sat_total_periodo st + List.length qs.
Proof.
  intros HP qs. induction qs as [| reg r IH]; simpl; intros st st' Hi.
  - intros [= <-] H F. split; [exact H | split; [exact F | lia]].
  - intros E H F. apply bind_ok_inv in E as (st1 & E1 & E).
    destruct (cancel_step_inv t dt_ini dt_fim P st reg st1
                (fun e => HP reg e (Hi reg (or_introl eq_refl))) E1 H F)
      as (H1 & F1 & L1).
    destruct (IH st1 st' (fun x Hx => Hi x (or_intror Hx)) E H1 F1)
      as (H2 & F2 & L2).
    split; [exact H2 | split; [exact F2 | lia]].
Qed.

Lemma autorizada_step_inv t dt_ini dt_fim (P : autorizada_fora -> Prop) st reg :
  (forall e, reports_absent t reg e -> af_status_sat e = "AUTORIZADA" -> P e) ->
  aut_ok st -> Forall P (autorizadas_fora st) ->
  aut_ok (autorizada_step t dt_ini dt_fim st reg)
  /\ Forall P (autorizadas_fora (autorizada_step t dt_ini dt_fim st reg)).
Proof.
  intros HP [Hn Hv] F. unfold autorizada_step.
  destruct (negb (passes_period dt_ini dt_fim (_extr_data_emissao_dict (data reg))));
    [split; [split |]; assumption |].
  destruct (nonempty (_numero_documento_sat (data reg))) eqn:En; cbn [negb];
    [| split; [split |]; assumption].
  fold (reg_keys reg).
  destruct (_is_autorizado (_extr_status_sat (data reg))) eqn:Ea; cbn [negb];
    [| split; [split |]; assumption].
  destruct (present_in t (reg_keys reg)) eqn:Ep;
    [split; [split |]; assumption |].
  rewrite uniq_pair_key.
  destruct (seen _ (vistos_aut st)) eqn:Es;
    [split; [split |]; assumption |].
  assert (Hni : ~ In (fst (_norm_pair (_numero_documento_sat (data reg))
                                      (serie_sat_of (data reg))))
                     (map af_key (autorizadas_fora st))).
  { intros Hin. apply Hv in Hin. apply seen_in in Hin. congruence. }
  split; [split |]; cbn [autorizadas_fora vistos_aut].
  - rewrite map_app. apply nodup_snoc; assumption.
  - intros k. rewrite map_app, in_app_iff. simpl. unfold af_key at 2. simpl.
    rewrite Hv. tauto.
  - apply forall_snoc; [exact F |]. apply HP.
    + unfold reports_absent. simpl. repeat split; assumption.
    + simpl. apply legivel_autorizada. split; [| exact Ea].
      apply autorizado_not_cancelado, Ea.
Qed.

Lemma autorizada_fold_inv t dt_ini dt_fim (all : list SatRegistro)
    (P : autorizada_fora -> Prop) :
  (forall reg e, In reg all -> reports_absent t reg e ->
                 af_status_sat e = "AUTORIZADA" -> P e) ->
  forall qs st,
    incl qs all -> aut_ok st -> Forall P (autorizadas_fora st) ->
    aut_ok (fold_left (autorizada_step t dt_ini dt_fim) qs st)
    /\ Forall P (autorizadas_fora
                   (fold_left (autorizada_step t dt_ini dt_fim) qs st)).
Proof.
  intros HP qs. induction qs as [| reg r IH]; simpl; intros st Hi H F.
  - split; assumption.
  - destruct (autorizada_step_inv t dt_ini dt_fim P st reg
                (fun e => HP reg e (Hi reg (or_introl eq_refl))) H F)
      as [H1 F1].
    exact (IH _ (fun x Hx => Hi x (or_intror Hx)) H1 F1).
Qed.

(** What a stored result was computed from. *)
Lemma comparar_questor_stored empresa_id store ws inicio fim r p :
  comparar_questor empresa_id store ws inicio fim = Ok r ->
  stored r = Some p ->
  let dt_ini := _parse_date_any inicio in
  let dt_fim := _parse_date_any fim in
  let qs_sat := filter (fun x => Nat.eqb (empresa x) empresa_id) store in
  exists t m tq ts st,
    _questor_map_por_documento ws dt_ini dt_fim = Ok (t, m)
    /\ _questor_totais_periodo ws dt_ini dt_fim = Ok tq
    /\ any_key t = true
    /\ _sat_totais_periodo qs_sat dt_ini dt_fim = Ok ts
    /\ foldM (cancel_step t dt_ini dt_fim) (mkcmp_state [] 0 0 0 0 0) qs_sat
       = Ok st
    /\ flash r = LSuccess
    /\ p = let au := fold_left (autorizada_step t dt_ini dt_fim) qs_sat
                               (mkaut_state [] []) in
           mkpayload empresa_id (linhas_lidas_periodo m)
             (pareadas st) (nao_encontradas st) (candidatos st)
             (firstn (Z.to_nat 20000) (divergencias st)) m
             (sat_total_periodo st) (linhas_lidas_periodo m)
             (sat_considerados st)
             (iso_or_empty dt_ini) (iso_or_empty dt_fim) tq ts
             (firstn (Z.to_nat 20000) (autorizadas_fora au))
             (List.length (autorizadas_fora au)).
Proof.
  unfold comparar_questor. intros E S.
  destruct (invalid_period _ _); [injection E as <-; discriminate S |].
  destruct (_questor_map_por_documento ws _ _) as [[t m] | e].
  2:{ destruct e; try discriminate E. injection E as <-. discriminate S. }
  apply bind_ok_inv in E as (tq & Etq & E).
  destruct (any_key t) eqn:Ek; cbn [negb] in E;
    [| injection E as <-; discriminate S].
  apply bind_ok_inv in E as (ts & Ets & E).
  apply bind_ok_inv in E as (st & Est & E).
  match type of E with
  | Ok (mkresponse _ _ _ (Some ?x)) = _ => set (pl := x) in E
  end.
  injection E as <-. cbn [stored] in S. injection S as <-.
  exists t, m, tq, ts, st. repeat split; assumption.
Qed.

End ReconcilerFacts.

(** X2: the counters of a stored comparison are consistent: every
    cancelled candidate is either paired or not found; the candidates are
    among the rows found in the Questor tables, which are among the rows
    of the period, which are rows of the company; a divergence is a paired
    row; the stored lists hold at most 20000 entries, and the total of the
    second list counts the entries before that cut. *)
Theorem reconciler_counters_consistent :
  forall empresa_id store ws inicio fim r p,
    comparar_questor empresa_id store ws inicio fim = Ok r ->
    stored r = Some p ->
    p_candidatos_cancelados p = p_pareadas p + p_nao_encontradas p
    /\ p_candidatos_cancelados p <= p_sat_considerados p
    /\ p_sat_considerados p <= p_sat_linhas_periodo p
    /\ p_sat_linhas_periodo p
       <= List.length (filter (fun x => Nat.eqb (empresa x) empresa_id) store)
    /\ List.length (p_resultado p) <= p_pareadas p
    /\ List.length (p_resultado p) <= Z.to_nat 20000
    /\ List.length (p_sat_autorizadas_fora p)
       = Nat.min (Z.to_nat 20000) (p_sat_autorizadas_fora_total p)
    /\ p_linhas_lidas p = p_questor_linhas_periodo p.
Proof.
  intros empresa_id store ws inicio fim r p E S.
  destruct (ReconcilerFacts.comparar_questor_stored _ _ _ _ _ _ _ E S)
    as (t & m & tq & ts & st & _ & _ & _ & _ & Est & _ & ->).
  set (c := Z.to_nat 20000).
  cbn [p_candidatos_cancelados p_pareadas p_nao_encontradas p_sat_considerados
         p_sat_linhas_periodo p_resultado p_sat_autorizadas_fora
         p_sat_autorizadas_fora_total p_linhas_lidas p_questor_linhas_periodo].
  destruct (ReconcilerFacts.cancel_fold_inv _ _ _ _ (fun _ => True)
              (fun _ _ _ _ _ => I) _ _ _ (incl_refl _) Est)
    as ((K1 & K2 & K3 & K4) & _ & K5).
  { unfold counters_ok. simpl. lia. }
  { constructor. }
  simpl in K5.
  pose proof (firstn_le_length c (divergencias st)) as L1.
  assert (L2 : List.length (firstn c (divergencias st))
               <= List.length (divergencias st)).
  { rewrite length_firstn. apply Nat.le_min_r. }
  repeat split; try lia.
  apply length_firstn.
Qed.

(** The rows [store_two_status] compared with the sheet [ws_zero_sum]: the
    comparison stores a result, and its counters are consistent. *)
Lemma reconciler_counters_consistent_witness :
  exists r p,
    comparar_questor 1 store_two_status ws_zero_sum PNone PNone = Ok r
    /\ stored r = Some p
    /\ p_candidatos_cancelados p = 1
    /\ p_candidatos_cancelados p = p_pareadas p + p_nao_encontradas p
    /\ p_candidatos_cancelados p <= p_sat_considerados p
    /\ p_sat_considerados p <= p_sat_linhas_periodo p
    /\ p_sat_linhas_periodo p
       <= List.length (filter (fun x => Nat.eqb (empresa x) 1) store_two_status)
    /\ List.length (p_resultado p) <= p_pareadas p
    /\ List.length (p_resultado p) <= Z.to_nat 20000
    /\ List.length (p_sat_autorizadas_fora p)
       = Nat.min (Z.to_nat 20000) (p_sat_autorizadas_fora_total p)
    /\ p_linhas_lidas p = p_questor_linhas_periodo p.
Proof.
  eexists. eexists. split; [vm_compute; reflexivity |].
  split; [reflexivity |]. split; [reflexivity |].
  eapply (reconciler_counters_consistent 1 store_two_status ws_zero_sum
            PNone PNone);
    [vm_compute; reflexivity | reflexivity].
Defined.

(** X3: every entry of the stored divergence list reports a row of the
    company that is in the registry: a cancelled row with a document
    number, found in the tables of the Questor sheet, whose retrieved sum
    is the value the entry shows and is not zero; its readable status is
    [CANCELADA]. *)
Theorem divergences_report_cancelled_rows :
  forall empresa_id store ws inicio fim r p,
    comparar_questor empresa_id store ws inicio fim = Ok r ->
    stored r = Some p ->
    exists t m,
      _questor_map_por_documento ws (_parse_date_any inicio)
        (_parse_date_any fim) = Ok (t, m)
      /\ Forall (fun e =>
                   dv_status_sat e = "CANCELADA"
                   /\ exists reg,
                        In reg store /\ empresa reg = empresa_id
                        /\ reports_cancelled t reg e)
                (p_resultado p).
Proof.
  intros empresa_id store ws inicio fim r p E S.
  destruct (ReconcilerFacts.comparar_questor_stored _ _ _ _ _ _ _ E S)
    as (t & m & tq & ts & st & Et & _ & _ & _ & Est & _ & ->).
  exists t, m. split; [exact Et |].
  cbn [p_resultado]. apply ReconcilerFacts.forall_firstn.
  refine (proj1 (proj2 (ReconcilerFacts.cancel_fold_inv _ _ _ _ _ _ _ _ _
                          (incl_refl _) Est _ _))).
  - intros reg e Hin Hr Hs. split; [exact Hs |].
    apply filter_In in Hin as [Hin He]. apply Nat.eqb_eq in He.
    exists reg. auto.
  - unfold counters_ok. simpl. lia.
  - constructor.
Qed.

(** On [store_two_status] and [ws_zero_sum] the stored list has one
    entry, for the cancelled document 123. *)
Lemma divergences_report_cancelled_rows_witness :
  exists r p,
    comparar_questor 1 store_two_status ws_zero_sum PNone PNone = Ok r
    /\ stored r = Some p
    /\ map dv_documento (p_resultado p) = ["123"]
    /\ exists t m,
         _questor_map_por_documento ws_zero_sum (_parse_date_any PNone)
           (_parse_date_any PNone) = Ok (t, m)
         /\ Forall (fun e =>
                      dv_status_sat e = "CANCELADA"
                      /\ exists reg,
                           In reg store_two_status /\ empresa reg = 1
                           /\ reports_cancelled t reg e)
                   (p_resultado p).
Proof.
  eexists. eexists. split; [vm_compute; reflexivity |].
  split; [reflexivity |]. split; [reflexivity |].
  eapply (divergences_report_cancelled_rows 1 store_two_status ws_zero_sum
            PNone PNone);
    [vm_compute; reflexivity | reflexivity].
Defined.

(** X4: every entry of the stored list of authorised documents missing
    from Questor reports a row of the company that is in the registry: an
    authorised row with a document number that the tables of the Questor
    sheet do not hold under any of its four keys; its readable status is
    [AUTORIZADA]; and no two entries have the same exact pair key. *)
Theorem absent_list_reports_authorised_rows :
  forall empresa_id store ws inicio fim r p,
    comparar_questor empresa_id store ws inicio fim = Ok r ->
    stored r = Some p ->
    exists t m,
      _questor_map_por_documento ws (_parse_date_any inicio)
        (_parse_date_any fim) = Ok (t, m)
      /\ Forall (fun e =>
                   af_status_sat e = "AUTORIZADA"
                   /\ exists reg,
                        In reg store /\ empresa reg = empresa_id
                        /\ reports_absent t reg e)
                (p_sat_autorizadas_fora p)
      /\ NoDup (map af_key (p_sat_autorizadas_fora p)).
Proof.
  intros empresa_id store ws inicio fim r p E S.
  destruct (ReconcilerFacts.comparar_questor_stored _ _ _ _ _ _ _ E S)
    as (t & m & tq & ts & st & Et & _ & _ & _ & _ & _ & ->).
  exists t, m. split; [exact Et |].
  cbn [p_sat_autorizadas_fora].
  assert (H0 : aut_ok (mkaut_state [] [])).
  { split; [constructor |]. intros k. simpl. tauto. }
  destruct (ReconcilerFacts.autorizada_fold_inv t (_parse_date_any inicio)
              (_parse_date_any fim)
              (filter (fun x => Nat.eqb (empresa x) empresa_id) store)
              (fun e =>
                 af_status_sat e = "AUTORIZADA"
                 /\ exists reg,
                      In reg store /\ empresa reg = empresa_id
                      /\ reports_absent t reg e)
              (fun reg e Hin Hr Hs =>
                 conj Hs
                   (ex_intro _ reg
                      (conj (proj1 (proj1 (filter_In _ _ _) Hin))
                         (conj (proj1 (Nat.eqb_eq _ _)
                                  (proj2 (proj1 (filter_In _ _ _) Hin)))
                               Hr))))
              _ (mkaut_state [] []) (incl_refl _) H0 (Forall_nil _))
    as [[Hn _] F].
  split.
  - apply ReconcilerFacts.forall_firstn, F.
  - rewrite <- firstn_map. apply ReconcilerFacts.nodup_firstn, Hn.
Qed.

(** On [store_two_status] and [ws_zero_sum] the stored list has one
    entry, for the authorised document 77. *)
Lemma absent_list_reports_authorised_rows_witness :
  exists r p,
    comparar_questor 1 store_two_status ws_zero_sum PNone PNone = Ok r
    /\ stored r = Some p
    /\ map af_documento (p_sat_autorizadas_fora p) = ["77"]
    /\ exists t m,
         _questor_map_por_documento ws_zero_sum (_parse_date_any PNone)
           (_parse_date_any PNone) = Ok (t, m)
         /\ Forall (fun e =>
                      af_status_sat e = "AUTORIZADA"
                      /\ exists reg,
                           In reg store_two_status /\ empresa reg = 1
                           /\ reports_absent t reg e)
                   (p_sat_autorizadas_fora p)
         /\ NoDup (map af_key (p_sat_autorizadas_fora p)).
Proof.
  eexists. eexists. split; [vm_compute; reflexivity |].
  split; [reflexivity |]. split; [reflexivity |].
  eapply (absent_list_reports_authorised_rows 1 store_two_status ws_zero_sum
            PNone PNone);
    [vm_compute; reflexivity | reflexivity].
Defined.

(* ------------------------------------------------------------------ *)
(** ** Field keys *)

Module SlugFacts.
Import TextFacts NormFacts.

Lemma word_lower_char (c : ascii) :
  is_word (lower_char c) = true -> key_char (lower_char c) = true.
Proof.
  destruct c as [b0 b1 b2 b3 b4 b5 b6 b7].
  destruct b0, b1, b2, b3, b4, b5, b6, b7; vm_compute; intro H;
    try discriminate H; reflexivity.
Qed.

Lemma key_char_facts (c : ascii) :
  key_char c = true ->
  is_word c = true /\ lower_char c = c /\ is_space c = false
  /\ (code c <? 128)%nat = true
  /\ (is_underscore c = false -> is_lower c || is_digit c = true)
  /\ (is_lower c = true -> is_digit c = false).
Proof.
  destruct c as [b0 b1 b2 b3 b4 b5 b6 b7].
  destruct b0, b1, b2, b3, b4, b5, b6, b7; vm_compute; intro H;
    try discriminate H; repeat split; intros; try reflexivity;
    try discriminate.
Qed.

(** The substitution leaves key characters only. *)
Lemma sub_nonword_chars (b : bool) (s : string) :
  forall_chars key_char (sub_nonword b (lower s)) = true.
Proof.
  unfold lower. revert b. induction s as [| a r IH]; intros b; simpl;
    [reflexivity |].
  destruct (is_word (lower_char a)) eqn:E.
  - simpl. rewrite (word_lower_char a E), IH. reflexivity.
  - destruct b; simpl; rewrite IH; reflexivity.
Qed.

Lemma sub_nonword_id (b : bool) (s : string) :
  forall_chars key_char s = true -> sub_nonword b s = s.
Proof.
  revert b. induction s as [| a r IH]; intros b; simpl; [reflexivity |].
  intros H. apply andb_true_iff in H as [H1 H2].
  destruct (key_char_facts a H1) as (-> & _). rewrite (IH false H2).
  reflexivity.
Qed.

Lemma lstrip_chars (p q : ascii -> bool) (s : string) :
  forall_chars p s = true -> forall_chars p (lstrip_by q s) = true.
Proof.
  induction s as [| a r IH]; simpl; [reflexivity |].
  intros H. destruct (q a); [| exact H].
  apply andb_true_iff in H as [_ H]. exact (IH H).
Qed.

Lemma rstrip_chars (p q : ascii -> bool) (s : string) :
  forall_chars p s = true -> forall_chars p (rstrip_by q s) = true.
Proof.
  induction s as [| a r IH]; simpl; [reflexivity |].
  intros H. apply andb_true_iff in H as [H1 H2]. specialize (IH H2).
  destruct (rstrip_by q r) as [| b r'].
  - destruct (q a); simpl; [reflexivity |]. rewrite H1. reflexivity.
  - simpl. simpl in IH. rewrite H1, IH. reflexivity.
Qed.

Lemma strip_chars (p q : ascii -> bool) (s : string) :
  forall_chars p s = true -> forall_chars p (strip_by q s) = true.
Proof. intros H. apply rstrip_chars, lstrip_chars, H. Qed.

(** What is left after the strip starts with no stripped character. *)
Lemma strip_head (p : ascii -> bool) (s : string) :
  match strip_by p s with
  | String c _ => p c = false
  | EmptyString => True
  end.
Proof.
  pose proof (lstrip_rstrip p s) as H. fold (strip_by p s) in H.
  destruct (strip_by p s) as [| c r]; [exact I |].
  simpl in H. destruct (p c) eqn:E; [| reflexivity].
  exfalso.
  assert (L : forall x, String.length (lstrip_by p x) <= String.length x).
  { induction x as [| b x IH]; simpl; [lia |]. destruct (p b); simpl; lia. }
  specialize (L r). rewrite H in L. simpl in L. lia.
Qed.

Lemma rstrip_app (p : ascii -> bool) (a x : string) :
  nonempty (rstrip_by p x) = true ->
  rstrip_by p (a ++ x) = (a ++ rstrip_by p x)%string.
Proof.
  intros H. induction a as [| c r IH]; simpl; [reflexivity |].
  rewrite IH. destruct (r ++ rstrip_by p x)%string eqn:E; [| reflexivity].
  exfalso. destruct r; simpl in E; [| discriminate].
  rewrite E in H. discriminate H.
Qed.

(** The core of both normalisers. *)
Lemma core_ok (s : string) :
  let t := strip_by is_underscore (sub_nonword false (lower s)) in
  nonempty t = true -> slug_ok t = true.
Proof.
  intros t Hn. unfold slug_ok. rewrite Hn. subst t.
  rewrite strip_chars by apply sub_nonword_chars.
  rewrite strip_by_idem, String.eqb_refl. reflexivity.
Qed.

Lemma slug_is_ok (v : pyval) : slug_ok (_slug v) = true.
Proof.
  unfold _slug.
  destruct (nonempty (strip_by is_underscore
              (sub_nonword false (lower (strip (to_ascii (Py.str v)))))))
    eqn:E; [| reflexivity].
  apply core_ok, E.
Qed.

Lemma slug_ok_parts (s : string) :
  slug_ok s = true ->
  nonempty s = true /\ forall_chars key_char s = true
  /\ strip_by is_underscore s = s.
Proof.
  unfold slug_ok. intros H.
  apply andb_true_iff in H as [H H3]. apply andb_true_iff in H as [H1 H2].
  apply String.eqb_eq in H3. auto.
Qed.

(** A slug goes through the core unchanged. *)
Lemma core_id (s : string) :
  slug_ok s = true ->
  strip_by is_underscore (sub_nonword false (lower (strip (to_ascii s)))) = s.
Proof.
  intros H. destruct (slug_ok_parts s H) as (Hn & Hc & Hs).
  assert (E1 : to_ascii s = s).
  { unfold to_ascii. apply filter_chars_all.
    eapply forall_chars_impl; [| exact Hc].
    intros c Hk. apply (key_char_facts c Hk). }
  assert (E2 : strip s = s).
  { unfold strip. apply strip_by_id.
    eapply forall_chars_impl; [| exact Hc].
    intros c Hk. destruct (key_char_facts c Hk) as (_ & _ & -> & _).
    reflexivity. }
  assert (E3 : lower s = s).
  { unfold lower. apply (map_chars_id lower_char key_char); [| exact Hc].
    intros c Hk. apply (key_char_facts c Hk). }
  rewrite E1, E2, E3, (sub_nonword_id false s Hc). exact Hs.
Qed.

Lemma slug_fixed (s : string) : slug_ok s = true -> _slug (PStr s) = s.
Proof.
  intros H. unfold _slug. cbn [Py.str]. rewrite (core_id s H).
  destruct (slug_ok_parts s H) as (-> & _). reflexivity.
Qed.

(** The head of a slug is a letter or a digit. *)
Lemma slug_head (c : ascii) (r : string) :
  slug_ok (String c r) = true -> is_lower c || is_digit c = true.
Proof.
  intros H. destruct (slug_ok_parts _ H) as (_ & Hc & Hs).
  pose proof (strip_head is_underscore (String c r)) as Hh.
  rewrite Hs in Hh. simpl in Hc. apply andb_true_iff in Hc as [Hc _].
  apply (key_char_facts c Hc), Hh.
Qed.

Lemma slug_rstrip (s : string) :
  slug_ok s = true -> rstrip_by is_underscore s = s.
Proof.
  intros H. destruct (slug_ok_parts s H) as (_ & _ & Ss).
  unfold strip_by in Ss. rewrite <- Ss at 2. rewrite <- Ss at 1.
  apply rstrip_idem.
Qed.

(** Joining key texts: the join is a slug when it starts with no
    underscore and ends with none. *)
Lemma slug_app (a s : string) :
  forall_chars key_char a = true -> forall_chars key_char s = true ->
  match a with
  | String c _ => is_underscore c = false
  | EmptyString => False
  end ->
  rstrip_by is_underscore s = s -> nonempty s = true ->
  slug_ok (a ++ s) = true.
Proof.
  intros Ac Sc Ha Hr Sn. unfold slug_ok.
  rewrite forall_chars_append, Ac, Sc.
  destruct a as [| c r]; [destruct Ha |]. simpl nonempty. simpl andb.
  apply String.eqb_eq. unfold strip_by.
  cbn [append lstrip_by]. rewrite Ha.
  change (String c (r ++ s)) with (String c r ++ s)%string.
  rewrite rstrip_app by (rewrite Hr; exact Sn).
  rewrite Hr. reflexivity.
Qed.

Lemma reserved_in (s : string) :
  existsb (String.eqb s) reserved_names = true -> In s reserved_names.
Proof.
  intros H. apply existsb_exists in H as (x & Hx & E).
  apply String.eqb_eq in E. subst. exact Hx.
Qed.

Lemma reserved_suffixed (n : string) :
  In n reserved_names -> field_key_ok (n ++ "_field") = true.
Proof.
  unfold reserved_names. simpl.
  intros H. repeat (destruct H as [<- | H]; [vm_compute; reflexivity |]).
  destruct H.
Qed.

(** The prefix guard gives a slug that starts with a letter. *)
Lemma prefixed_ok (s : string) :
  slug_ok s = true ->
  let n := match s with
           | String c _ => if is_digit c then ("col_" ++ s)%string else s
           | EmptyString => s
           end in
  slug_ok n = true /\ starts_lower n = true.
Proof.
  intros H n. subst n. destruct s as [| c r]; [discriminate H |].
  destruct (slug_ok_parts _ H) as (Hn & Hc & _).
  destruct (is_digit c) eqn:Ed.
  - split; [| reflexivity].
    apply (slug_app "col_" (String c r));
      [reflexivity | exact Hc | reflexivity | apply slug_rstrip, H | exact Hn].
  - split; [exact H |]. pose proof (slug_head c r H) as Hh.
    rewrite Ed, orb_false_r in Hh. exact Hh.
Qed.

(** The two guards of [_slugify_field] applied to a slug. *)
Lemma guards_ok (s : string) :
  slug_ok s = true ->
  let n := match s with
           | String c _ => if is_digit c then ("col_" ++ s)%string else s
           | EmptyString => s
           end in
  field_key_ok (if existsb (String.eqb n) reserved_names
                then (n ++ "_field")%string else n) = true.
Proof.
  intros H n. destruct (prefixed_ok s H) as [H1 H2]. fold n in H1, H2.
  destruct (existsb (String.eqb n) reserved_names) eqn:E.
  - apply reserved_suffixed, reserved_in, E.
  - unfold field_key_ok. rewrite H1, H2, E. reflexivity.
Qed.

Lemma slugify_is_ok (v : pyval) : field_key_ok (_slugify_field v) = true.
Proof.
  unfold _slugify_field.
  set (s := strip (to_ascii match v with
                            | PNone => EmptyString
                            | _ => Py.str v
                            end)).
  set (t := strip_by is_underscore (sub_nonword false (lower s))).
  assert (H : slug_ok (if nonempty t then t else "campo") = true).
  { destruct (nonempty t) eqn:E; [| reflexivity]. apply core_ok, E. }
  exact (guards_ok _ H).
Qed.

Lemma field_key_parts (s : string) :
  field_key_ok s = true ->
  slug_ok s = true /\ starts_lower s = true
  /\ existsb (String.eqb s) reserved_names = false.
Proof.
  unfold field_key_ok. intros H.
  apply andb_true_iff in H as [H H3]. apply andb_true_iff in H as [H1 H2].
  apply negb_true_iff in H3. auto.
Qed.

Lemma slugify_fixed (s : string) :
  field_key_ok s = true -> _slugify_field (PStr s) = s.
Proof.
  intros H. destruct (field_key_parts s H) as (H1 & H2 & H3).
  unfold _slugify_field. cbn [Py.str]. rewrite (core_id s H1).
  destruct s as [| c r]; [discriminate H2 |]. cbn [nonempty].
  simpl in H2. destruct (slug_ok_parts _ H1) as (_ & Hc & _).
  simpl in Hc. apply andb_true_iff in Hc as [Hc _].
  destruct (key_char_facts c Hc) as (_ & _ & _ & _ & _ & Hd).
  rewrite (Hd H2), H3. reflexivity.
Qed.

End SlugFacts.

(** X5: both normalisers give a key that is safe to use as a field name.
    [_slugify_field] always gives a text of lower-case letters, digits and
    underscores that starts with a letter, has no underscore at either
    end and is none of the reserved names; [_slug] always gives a text of
    the same characters, not empty, with no underscore at either end. *)
Theorem normalised_keys_are_well_formed :
  (forall v, field_key_ok (_slugify_field v) = true)
  /\ (forall v, slug_ok (_slug v) = true).
Proof.
  split; [exact SlugFacts.slugify_is_ok | exact SlugFacts.slug_is_ok].
Qed.

(** X6: the well-formed keys are exactly the texts the normalisers leave
    as they are, so normalising twice is normalising once. *)
Theorem normalised_keys_are_fixed_points :
  (forall s, _slugify_field (PStr s) = s <-> field_key_ok s = true)
  /\ (forall s, _slug (PStr s) = s <-> slug_ok s = true)
  /\ (forall v, _slugify_field (PStr (_slugify_field v)) = _slugify_field v)
  /\ (forall v, _slug (PStr (_slug v)) = _slug v).
Proof.
  split; [| split; [| split]].
  - intros s. split.
    + intros H. rewrite <- H. apply SlugFacts.slugify_is_ok.
    + apply SlugFacts.slugify_fixed.
  - intros s. split.
    + intros H. rewrite <- H. apply SlugFacts.slug_is_ok.
    + apply SlugFacts.slug_fixed.
  - intros v. apply SlugFacts.slugify_fixed, SlugFacts.slugify_is_ok.
  - intros v. apply SlugFacts.slug_fixed, SlugFacts.slug_is_ok.
Qed.

(* ------------------------------------------------------------------ *)
(** ** Key resolution *)

Module FirstKeyFacts.
Import DictFacts.

Lemma first_exact_find {V : Type} (d : dict V) (cands : list string) :
  first_exact d cands = find (fun c => Dict.mem c d) cands.
Proof.
  induction cands as [| c r IH]; simpl; [reflexivity |].
  destruct (Dict.mem c d); [reflexivity | exact IH].
Qed.

Lemma get_in {V : Type} (k : string) (v : V) (d : dict V) :
  Dict.get k d = Some v -> In (k, v) d.
Proof.
  induction d as [| [k' v'] r IH]; simpl; [discriminate |].
  destruct (String.eqb_spec k k') as [-> | Hne].
  - intros [= ->]. left. reflexivity.
  - intros H. right. exact (IH H).
Qed.

Lemma in_set {V : Type} (x : string * V) (k : string) (v : V) (d : dict V) :
  In x (Dict.set k v d) -> x = (k, v) \/ In x d.
Proof.
  induction d as [| [k' v'] r IH]; simpl.
  - intros [H | []]. left. symmetry. exact H.
  - destruct (String.eqb_spec k k') as [-> | Hne]; simpl.
    + intros [H | H]; [left; symmetry; exact H | right; right; exact H].
    + intros [H | H]; [right; left; exact H |].
      destruct (IH H); [left | right; right]; assumption.
Qed.

(** The entries of the lower-case map: each is a key of the dict under
    its lower-case form, and every key of the dict has its entry. *)
Lemma low_map_entries {V : Type} (d : dict V) :
  (forall kl ko, In (kl, ko) (low_map d) ->
                 kl = lower ko /\ In ko (Dict.keys d))
  /\ (forall k, In k (Dict.keys d) -> Dict.mem (lower k) (low_map d) = true).
Proof.
  unfold low_map.
  assert (G : forall (l : list string) (m : dict string),
             let m' := fold_left (fun m k => Dict.set (lower k) k m) l m in
             (forall kl ko, In (kl, ko) m' ->
                In (kl, ko) m \/ (kl = lower ko /\ In ko l))
             /\ (forall k, Dict.mem k m = true -> Dict.mem k m' = true)
             /\ (forall k, In k l -> Dict.mem (lower k) m' = true)).
  { induction l as [| a r IH]; intros m; simpl.
    - split; [auto | split; [auto | intros k []]].
    - destruct (IH (Dict.set (lower a) a m)) as (I1 & I2 & I3).
      split; [| split].
      + intros kl ko H. destruct (I1 kl ko H) as [H1 | [H1 H2]].
        * destruct (in_set _ _ _ _ H1) as [E | H2]; [| auto].
          injection E as -> ->. right. auto.
        * right. auto.
      + intros k H. apply I2, mem_set_mono, H.
      + intros k [<- | H]; [apply I2, mem_set_same | apply I3, H]. }
  destruct (G (Dict.keys d) []) as (G1 & _ & G3). split.
  - intros kl ko H. destruct (G1 kl ko H) as [[] | H1]. exact H1.
  - exact G3.
Qed.

Lemma first_substring_none (lm : dict string) (cands : list string) :
  first_substring lm cands = None
  <-> forall c, In c cands ->
        forall kl ko, In (kl, ko) lm -> contains c kl = false.
Proof.
  induction cands as [| c r IH]; simpl.
  - split; [intros _ c [] | reflexivity].
  - destruct (find (fun kl => contains c (fst kl)) lm) as [[kl ko] |] eqn:E.
    + split; [discriminate |]. intros H. exfalso.
      apply find_some in E as [E1 E2]. simpl in E2.
      rewrite (H c (or_introl eq_refl) kl ko E1) in E2. discriminate E2.
    + rewrite IH. split.
      * intros H c0 [<- | Hc] kl ko Hin.
        -- exact (find_none _ _ E (kl, ko) Hin).
        -- exact (H c0 Hc kl ko Hin).
      * intros H c0 Hc. exact (H c0 (or_intror Hc)).
Qed.

Lemma first_substring_some (lm : dict string) (cands : list string) (k : string) :
  first_substring lm cands = Some k ->
  exists c kl, In c cands /\ In (kl, k) lm /\ contains c kl = true.
Proof.
  induction cands as [| c r IH]; simpl; [discriminate |].
  destruct (find (fun kl => contains c (fst kl)) lm) as [[kl ko] |] eqn:E.
  - intros [= <-]. apply find_some in E as [E1 E2].
    exists c, kl. auto.
  - intros H. destruct (IH H) as (c0 & kl & H1 & H2 & H3).
    exists c0, kl. auto.
Qed.

Lemma first_key_some {V : Type} (d : dict V) (cands : list string) (k : string) :
  _first_key d cands = Some k ->
  In k (Dict.keys d)
  /\ (find (fun c => Dict.mem c d) cands = Some k
      \/ (find (fun c => Dict.mem c d) cands = None
          /\ exists c, In c cands /\ contains c (lower k) = true)).
Proof.
  unfold _first_key. rewrite first_exact_find.
  destruct (find (fun c => Dict.mem c d) cands) as [k0 |] eqn:E.
  - intros [= <-]. split; [| left; reflexivity].
    apply find_some in E as [_ E]. unfold Dict.mem in E.
    destruct (Dict.get k0 d) eqn:G; [| discriminate].
    exact (get_in_keys _ _ _ G).
  - intros H. destruct (first_substring_some _ _ _ H) as (c & kl & H1 & H2 & H3).
    destruct (proj1 (low_map_entries d) kl k H2) as [-> Hk].
    split; [exact Hk |]. right. split; [reflexivity |].
    exists c. auto.
Qed.

Lemma first_key_none {V : Type} (d : dict V) (cands : list string) :
  _first_key d cands = None
  <-> forall c, In c cands ->
        Dict.mem c d = false
        /\ forall k, In k (Dict.keys d) -> contains c (lower k) = false.
Proof.
  unfold _first_key. rewrite first_exact_find.
  destruct (find (fun c => Dict.mem c d) cands) as [k0 |] eqn:E.
  - split; [discriminate |]. intros H. exfalso.
    apply find_some in E as [E1 E2].
    rewrite (proj1 (H k0 E1)) in E2. discriminate E2.
  - rewrite first_substring_none. split.
    + intros H c Hc. split; [exact (find_none _ _ E c Hc) |].
      intros k Hk.
      pose proof (proj2 (low_map_entries d) k Hk) as Hm.
      unfold Dict.mem in Hm.
      destruct (Dict.get (lower k) (low_map d)) as [ko |] eqn:G;
        [| discriminate].
      exact (H c Hc _ _ (get_in _ _ _ G)).
    + intros H c Hc kl ko Hin.
      destruct (proj1 (low_map_entries d) kl ko Hin) as [-> Hk].
      exact (proj2 (H c Hc) ko Hk).
Qed.

End FirstKeyFacts.

(** X7: what [_first_key] resolves.  A key it returns is a key of the
    dict: the first candidate that is itself a key when there is one, and
    otherwise a key whose lower-case form contains a candidate.  It
    returns [None] exactly when no candidate is a key and no candidate is
    contained in the lower-case form of any key. *)
Theorem first_key_resolution :
  forall (V : Type) (d : dict V) (cands : list string),
    (forall k, _first_key d cands = Some k ->
       In k (Dict.keys d)
       /\ (find (fun c => Dict.mem c d) cands = Some k
           \/ (find (fun c => Dict.mem c d) cands = None
               /\ exists c, In c cands /\ contains c (lower k) = true)))
    /\ (forall c, find (fun c => Dict.mem c d) cands = Some c ->
                  _first_key d cands = Some c)
    /\ (_first_key d cands = None
        <-> forall c, In c cands ->
              Dict.mem c d = false
              /\ forall k, In k (Dict.keys d) -> contains c (lower k) = false).
Proof.
  intros V d cands. split; [| split].
  - intros k. apply FirstKeyFacts.first_key_some.
  - intros c H. unfold _first_key.
    rewrite FirstKeyFacts.first_exact_find, H. reflexivity.
  - apply FirstKeyFacts.first_key_none.
Qed.

(* ------------------------------------------------------------------ *)
(** ** Document keys *)

Module KeyFacts.
Import TextFacts.

Lemma digit_not_space (c : ascii) :
  is_digit c = true -> negb (is_space c) = true /\ Ascii.eqb c "|" = false.
Proof.
  destruct c as [b0 b1 b2 b3 b4 b5 b6 b7].
  destruct b0, b1, b2, b3, b4, b5, b6, b7; vm_compute; intro H;
    try discriminate H; split; reflexivity.
Qed.

(** The strip that closes [_digits_only] finds nothing to remove. *)
Lemma digits_only_digits (s : string) :
  _digits_only s = digits_of s /\ forall_chars is_digit (_digits_only s) = true.
Proof.
  unfold _digits_only, strip, digits_of.
  rewrite strip_by_id.
  - split; [reflexivity | apply forall_chars_filter].
  - eapply forall_chars_impl; [| apply forall_chars_filter].
    intros c H. apply (digit_not_space c H).
Qed.

Lemma digits_only_idem (s : string) : _digits_only (_digits_only s) = _digits_only s.
Proof.
  destruct (digits_only_digits s) as [E H].
  rewrite (proj1 (digits_only_digits (_digits_only s))).
  unfold digits_of. apply filter_chars_all, H.
Qed.

(** Two texts of digits joined by a bar come apart in one way only. *)
Lemma bar_split (a a' b b' : string) :
  forall_chars is_digit a = true -> forall_chars is_digit a' = true ->
  (a ++ "|" ++ b)%string = (a' ++ "|" ++ b')%string -> a = a' /\ b = b'.
Proof.
  revert a'. induction a as [| c r IH]; intros [| c' r']; simpl; intros Ha Ha' E.
  - injection E as ->. auto.
  - injection E as <- _. apply andb_true_iff in Ha' as [Hc _].
    destruct (digit_not_space _ Hc) as [_ X]. discriminate X.
  - injection E as -> _. apply andb_true_iff in Ha as [Hc _].
    destruct (digit_not_space _ Hc) as [_ X]. discriminate X.
  - injection E as -> E.
    apply andb_true_iff in Ha as [_ Ha]. apply andb_true_iff in Ha' as [_ Ha'].
    destruct (IH r' Ha Ha' E) as [-> ->]. auto.
Qed.

Lemma digits_pair_injective (d s d' s' : string) :
  snd (_norm_pair d s) = snd (_norm_pair d' s')
  <-> _digits_only d = _digits_only d' /\ _digits_only s = _digits_only s'.
Proof.
  unfold _norm_pair. cbn [snd]. split.
  - apply bar_split; apply digits_only_digits.
  - intros [-> ->]. reflexivity.
Qed.

End KeyFacts.

(** X8: the digits-only keys.  [_digits_only] returns the digits of its
    text and nothing else, and applying it again changes nothing.  The
    digits-only pair key of a document and a series tells the two apart:
    two pairs have the same key exactly when the documents have the same
    digits and the series have the same digits. *)
Theorem digits_pair_key_is_injective :
  (forall s, _digits_only s = digits_of s
             /\ forall_chars is_digit (_digits_only s) = true
             /\ _digits_only (_digits_only s) = _digits_only s)
  /\ (forall d s d' s',
        snd (_norm_pair d s) = snd (_norm_pair d' s')
        <-> _digits_only d = _digits_only d' /\ _digits_only s = _digits_only s').
Proof.
  split.
  - intros s. destruct (KeyFacts.digits_only_digits s) as [H1 H2].
    split; [exact H1 |]. split; [exact H2 | apply KeyFacts.digits_only_idem].
  - exact KeyFacts.digits_pair_injective.
Qed.

(* ------------------------------------------------------------------ *)
(** ** The counters of the indexer and the period filter *)

Module PeriodFacts.
Import DictFacts ColumnFacts ImporterFacts.

Lemma step_counts headers i_num i_val i_ser i_dt dt_ini dt_fim st row st' :
  questor_map_step headers i_num i_val i_ser i_dt dt_ini dt_fim st row = Ok st' ->
  lidas_total st' = S (lidas_total st)
  /\ lidas_periodo st'
     = lidas_periodo st
       + (if questor_map_counts headers i_dt dt_ini dt_fim row then 1 else 0).
Proof.
  unfold questor_map_step, questor_map_counts.
  destruct (passes_period dt_ini dt_fim (questor_row_date i_dt row));
    cbn [negb andb]; [| intros [= <-]; simpl; split; lia].
  destruct (_is_nfe_questor (_row_to_norm_dict headers row));
    cbn [negb]; [intros [= <-]; simpl; split; lia |].
  destruct (String.eqb _ EmptyString); [intros [= <-]; simpl; split; lia |].
  destruct (_norm_doc _) as [dr dg]. destruct (_norm_pair _ _) as [kr kd].
  destruct (nonempty (questor_row_serie i_ser row)); intros E;
    apply bind_ok_inv in E as (m1 & _ & E);
    apply bind_ok_inv in E as (m2 & _ & E);
    injection E as <-; simpl; split; lia.
Qed.

Lemma fold_counts headers i_num i_val i_ser i_dt dt_ini dt_fim rows :
  forall st st',
    foldM (questor_map_step headers i_num i_val i_ser i_dt dt_ini dt_fim)
          st rows = Ok st' ->
    lidas_total st' = lidas_total st + List.length rows
    /\ lidas_periodo st'
       = lidas_periodo st
         + List.length
             (filter (questor_map_counts headers i_dt dt_ini dt_fim) rows).
Proof.
  induction rows as [| row r IH]; simpl; intros st st'.
  - intros [= <-]. split; lia.
  - intros E. apply bind_ok_inv in E as (st1 & E1 & E).
    destruct (step_counts _ _ _ _ _ _ _ _ _ _ E1) as [T1 P1].
    destruct (IH _ _ E) as [T2 P2]. rewrite T2, P2, T1, P1.
    destruct (questor_map_counts headers i_dt dt_ini dt_fim row); simpl;
      split; lia.
Qed.

(** With a bound missing, the date filter passes every row. *)
Lemma passes_one_sided (a : date) (x : option date) :
  passes_period (Some a) None x = passes_period None None x
  /\ passes_period None (Some a) x = passes_period None None x.
Proof. split; reflexivity. Qed.

Lemma map_step_one_sided headers i_num i_val i_ser i_dt a st row :
  questor_map_step headers i_num i_val i_ser i_dt (Some a) None st row
  = questor_map_step headers i_num i_val i_ser i_dt None None st row
  /\ questor_map_step headers i_num i_val i_ser i_dt None (Some a) st row
     = questor_map_step headers i_num i_val i_ser i_dt None None st row.
Proof. split; reflexivity. Qed.

Lemma indexer_one_sided (ws : worksheet) (a : date) :
  _questor_map_por_documento ws (Some a) None
  = _questor_map_por_documento ws None None
  /\ _questor_map_por_documento ws None (Some a)
     = _questor_map_por_documento ws None None.
Proof.
  unfold _questor_map_por_documento. destruct ws as [| headers rows];
    [split; reflexivity |].
  cbv zeta.
  destruct (negb _); [split; reflexivity |].
  destruct (col_index _ (or_empty (_first_key _ cand_num))) as [i_num |];
    cbn [bind]; [| split; reflexivity].
  destruct (col_index _ (or_empty (_first_key _ cand_val))) as [i_val |];
    cbn [bind]; [| split; reflexivity].
  destruct (opt_col_index _ (_first_key _ cand_ser)) as [i_ser |];
    cbn [bind]; [| split; reflexivity].
  destruct (opt_col_index _ (_first_key _ cand_dt)) as [i_dt |];
    cbn [bind]; [| split; reflexivity].
  split.
  - rewrite (foldM_ext _ (questor_map_step headers i_num i_val i_ser i_dt
                            None None));
      [reflexivity |].
    intros st row. apply map_step_one_sided.
  - rewrite (foldM_ext _ (questor_map_step headers i_num i_val i_ser i_dt
                            None None));
      [reflexivity |].
    intros st row. apply map_step_one_sided.
Qed.

Lemma totais_one_sided (ws : worksheet) (a : date) :
  _questor_totais_periodo ws (Some a) None
  = _questor_totais_periodo ws None None
  /\ _questor_totais_periodo ws None (Some a)
     = _questor_totais_periodo ws None None.
Proof.
  unfold _questor_totais_periodo. destruct ws as [| headers rows];
    [split; reflexivity |].
  cbv zeta.
  destruct (negb _); [split; reflexivity |].
  destruct (col_index _ (or_empty (_first_key _ cand_num))) as [i_num |];
    cbn [bind]; [| split; reflexivity].
  destruct (opt_col_index _ (_first_key _ cand_ser)) as [i_ser |];
    cbn [bind]; [| split; reflexivity].
  destruct (opt_col_index _ (_first_key _ cand_dt)) as [i_dt |];
    cbn [bind]; [| split; reflexivity].
  split.
  - rewrite (foldM_ext _ (questor_totais_step headers i_num i_ser i_dt
                            None None));
      [reflexivity |].
    intros st row. reflexivity.
  - rewrite (foldM_ext _ (questor_totais_step headers i_num i_ser i_dt
                            None None));
      [reflexivity |].
    intros st row. reflexivity.
Qed.

Lemma sat_totais_one_sided (qs : list SatRegistro) (a : date) :
  _sat_totais_periodo qs (Some a) None = _sat_totais_periodo qs None None
  /\ _sat_totais_periodo qs None (Some a) = _sat_totais_periodo qs None None.
Proof.
  unfold _sat_totais_periodo. split.
  - rewrite (foldM_ext _ (sat_totais_step None None)); [reflexivity |].
    intros st reg. reflexivity.
  - rewrite (foldM_ext _ (sat_totais_step None None)); [reflexivity |].
    intros st reg. reflexivity.
Qed.

(** The indexer with its columns resolved and its loop run. *)
Lemma indexer_run headers rows dt_ini dt_fim t m :
  _questor_map_por_documento (headers :: rows) dt_ini dt_fim = Ok (t, m) ->
  exists i_num i_val i_ser i_dt st,
    opt_col_index (header_cols headers)
      (_first_key (header_cols headers) cand_dt) = Ok i_dt
    /\ foldM (questor_map_step headers i_num i_val i_ser i_dt dt_ini dt_fim)
             (mkqstate empty_tables 0 0) rows = Ok st
    /\ linhas_lidas_total m = lidas_total st
    /\ linhas_lidas_periodo m = lidas_periodo st.
Proof.
  unfold _questor_map_por_documento. cbv zeta.
  destruct (negb _); [discriminate |].
  intros H.
  apply bind_ok_inv in H as (i_num & _ & H).
  apply bind_ok_inv in H as (i_val & _ & H).
  apply bind_ok_inv in H as (i_ser & _ & H).
  apply bind_ok_inv in H as (i_dt & Ed & H).
  apply bind_ok_inv in H as (st & Ef & H).
  injection H as _ <-.
  exists i_num, i_val, i_ser, i_dt, st. auto.
Qed.

End PeriodFacts.

(** X9: a period with one bound only filters nothing: with the start or
    the end of the period missing, the indexer, the two period totals and
    the two passes of the comparison behave as with no period at all. *)
Theorem one_sided_period_filters_nothing :
  forall (ws : worksheet) (qs : list SatRegistro) (a : date),
    _questor_map_por_documento ws (Some a) None
    = _questor_map_por_documento ws None None
    /\ _questor_map_por_documento ws None (Some a)
       = _questor_map_por_documento ws None None
    /\ _questor_totais_periodo ws (Some a) None
       = _questor_totais_periodo ws None None
    /\ _questor_totais_periodo ws None (Some a)
       = _questor_totais_periodo ws None None
    /\ _sat_totais_periodo qs (Some a) None = _sat_totais_periodo qs None None
    /\ _sat_totais_periodo qs None (Some a) = _sat_totais_periodo qs None None
    /\ (forall t st reg,
          cancel_step t (Some a) None st reg = cancel_step t None None st reg
          /\ cancel_step t None (Some a) st reg
             = cancel_step t None None st reg)
    /\ (forall t st reg,
          autorizada_step t (Some a) None st reg
          = autorizada_step t None None st reg
          /\ autorizada_step t None (Some a) st reg
             = autorizada_step t None None st reg).
Proof.
  intros ws qs a.
  destruct (PeriodFacts.indexer_one_sided ws a) as [I1 I2].
  destruct (PeriodFacts.totais_one_sided ws a) as [T1 T2].
  destruct (PeriodFacts.sat_totais_one_sided qs a) as [S1 S2].
  repeat split; assumption || reflexivity.
Qed.

(** X10: the two counters the indexer reports.  The total counts every
    data row of the sheet.  The count for the period counts the rows that
    pass the date filter and are not invoices, whether or not they have a
    document number: a row with a blank number is counted and adds nothing
    to the tables. *)
Theorem indexer_counts_rows_read :
  forall headers rows dt_ini dt_fim t m,
    _questor_map_por_documento (headers :: rows) dt_ini dt_fim = Ok (t, m) ->
    linhas_lidas_total m = List.length rows
    /\ linhas_lidas_periodo m <= linhas_lidas_total m
    /\ exists i_dt,
         opt_col_index (header_cols headers)
           (_first_key (header_cols headers) cand_dt) = Ok i_dt
         /\ linhas_lidas_periodo m
            = List.length
                (filter (questor_map_counts headers i_dt dt_ini dt_fim) rows).
Proof.
  intros headers rows dt_ini dt_fim t m H.
  destruct (PeriodFacts.indexer_run _ _ _ _ _ _ H)
    as (i_num & i_val & i_ser & i_dt & st & Ed & Ef & -> & ->).
  destruct (PeriodFacts.fold_counts _ _ _ _ _ _ _ _ _ _ Ef) as [T P].
  simpl in T, P. rewrite T, P.
  split; [reflexivity |]. split; [apply filter_length_le |].
  exists i_dt. split; [exact Ed | reflexivity].
Qed.

(** The only data row of [ws_blank_number] has a blank document number:
    it is counted in both counters and the tables stay empty. *)
Lemma indexer_counts_rows_read_witness :
  _questor_map_por_documento ws_blank_number None None
  = Ok (empty_tables, mkmeta 1 1 "numero_documento" "valor_contabil" "serie" "")
  /\ exists i_dt,
       opt_col_index (header_cols headers_nsv)
         (_first_key (header_cols headers_nsv) cand_dt) = Ok i_dt
       /\ 1 = List.length
                (filter (questor_map_counts headers_nsv i_dt None None)
                        [[PStr " "; PStr "1"; PStr "50,00"]]).
Proof.
  assert (H : _questor_map_por_documento ws_blank_number None None
              = Ok (empty_tables,
                    mkmeta 1 1 "numero_documento" "valor_contabil" "serie" ""))
    by (vm_compute; reflexivity).
  split; [exact H |].
  exact (proj2 (proj2 (indexer_counts_rows_read _ _ _ _ _ _ H))).
Defined.

(* ------------------------------------------------------------------ *)
(** ** The competency typed in the form *)

Module CompetenciaFacts.
Import TextFacts ParseDecimalFacts.

Lemma valid_ymd_bounds (y m d : Z) :
  Calendar.valid_ymd y m d = true ->
  (1 <= y <= 9999 /\ 1 <= m <= 12 /\ 1 <= d)%Z.
Proof.
  unfold Calendar.valid_ymd. intros H.
  repeat (apply andb_true_iff in H as [H ?]).
  lia.
Qed.

Lemma competencia_of_first (y m : string) (d : date) :
  competencia_of y m = Some d ->
  day d = 1%Z /\ (1 <= month d <= 12)%Z /\ (1 <= year d <= 9999)%Z.
Proof.
  unfold competencia_of.
  destruct (py_int y) as [yy |]; [| discriminate].
  destruct (py_int m) as [mm |]; [| discriminate].
  destruct (Calendar.valid_ymd yy mm 1) eqn:E; [| discriminate].
  intros [= <-]. simpl. apply valid_ymd_bounds in E. lia.
Qed.

Lemma parse_competencia_first (s : option string) (d : date) :
  _parse_competencia_str s = Some d ->
  day d = 1%Z /\ (1 <= month d <= 12)%Z /\ (1 <= year d <= 9999)%Z.
Proof.
  unfold _parse_competencia_str.
  destruct (negb (Py.truthy s)); [discriminate |].
  destruct (contains "-" _); [apply competencia_of_first |].
  destruct (contains "/" _); [apply competencia_of_first | discriminate].
Qed.

(** The characters the two forms are written with. *)
Lemma digit_sep_facts (c : ascii) :
  is_digit c = true ->
  Ascii.eqb c "-" = false /\ Ascii.eqb c "/" = false
  /\ Ascii.eqb c "+" = false /\ is_space c = false.
Proof.
  destruct c as [b0 b1 b2 b3 b4 b5 b6 b7].
  destruct b0, b1, b2, b3, b4, b5, b6, b7; vm_compute; intro H;
    try discriminate H; repeat split; reflexivity.
Qed.

Lemma digit_char_facts (z : Z) :
  is_digit (Py.digit_char z) = true
  /\ Z.of_nat (code (Py.digit_char z) - 48) = (z mod 10)%Z.
Proof.
  unfold Py.digit_char.
  assert (H : (0 <= z mod 10 < 10)%Z) by (apply Z.mod_pos_bound; lia).
  assert (C : (z mod 10 = 0 \/ z mod 10 = 1 \/ z mod 10 = 2 \/ z mod 10 = 3
               \/ z mod 10 = 4 \/ z mod 10 = 5 \/ z mod 10 = 6
               \/ z mod 10 = 7 \/ z mod 10 = 8 \/ z mod 10 = 9)%Z) by lia.
  repeat (destruct C as [-> | C]; [split; reflexivity |]).
  rewrite C. split; reflexivity.
Qed.

Lemma pad2_digits (z : Z) : forall_chars is_digit (Py.pad2 z) = true.
Proof.
  unfold Py.pad2. cbn [forall_chars].
  rewrite (proj1 (digit_char_facts _)), (proj1 (digit_char_facts _)).
  reflexivity.
Qed.

Lemma pad4_digits (z : Z) : forall_chars is_digit (Py.pad4 z) = true.
Proof.
  unfold Py.pad4. cbn [forall_chars].
  rewrite (proj1 (digit_char_facts _)), (proj1 (digit_char_facts _)).
  apply pad2_digits.
Qed.

(** The decimal digits of a number below ten thousand. *)
Lemma four_digit_parts (z : Z) :
  (0 <= z <= 9999)%Z ->
  ((z / 1000) mod 10 = z / 1000
   /\ (z / 100) mod 10 = z / 100 - 10 * (z / 1000)
   /\ (z / 10) mod 10 = z / 10 - 10 * (z / 100)
   /\ z mod 10 = z - 10 * (z / 10))%Z.
Proof.
  intros H.
  pose proof (Z.div_mod z 10 ltac:(lia)) as E1.
  pose proof (Z.mod_pos_bound z 10 ltac:(lia)) as B1.
  pose proof (Z.div_mod (z / 10) 10 ltac:(lia)) as E2.
  pose proof (Z.mod_pos_bound (z / 10) 10 ltac:(lia)) as B2.
  pose proof (Z.div_mod (z / 100) 10 ltac:(lia)) as E3.
  pose proof (Z.mod_pos_bound (z / 100) 10 ltac:(lia)) as B3.
  assert (D2 : (z / 10 / 10 = z / 100)%Z)
    by (rewrite Z.div_div by lia; reflexivity).
  assert (D3 : (z / 100 / 10 = z / 1000)%Z)
    by (rewrite Z.div_div by lia; reflexivity).
  rewrite D2 in E2. rewrite D3 in E3.
  assert (B4 : (0 <= z / 1000 < 10)%Z).
  { split; [apply Z.div_pos; lia |]. apply Z.div_lt_upper_bound; lia. }
  split; [apply Z.mod_small; exact B4 |].
  generalize dependent (z mod 10)%Z. generalize dependent ((z / 10) mod 10)%Z.
  generalize dependent ((z / 100) mod 10)%Z.
  generalize dependent (z / 10)%Z. generalize dependent (z / 100)%Z.
  generalize dependent (z / 1000)%Z.
  intros. lia.
Qed.

Lemma pad4_value (z : Z) :
  (0 <= z <= 9999)%Z -> digits_value 0 (Py.pad4 z) = z.
Proof.
  intros H. unfold Py.pad4, Py.pad2. cbn [digits_value].
  rewrite !(proj2 (digit_char_facts _)).
  destruct (four_digit_parts z H) as (-> & -> & -> & ->). lia.
Qed.

Lemma pad2_value (z : Z) :
  (0 <= z <= 99)%Z -> digits_value 0 (Py.pad2 z) = z.
Proof.
  intros H. unfold Py.pad2. cbn [digits_value].
  rewrite !(proj2 (digit_char_facts _)).
  pose proof (Z.div_mod z 10 ltac:(lia)) as E1.
  assert (B : (0 <= z / 10 < 10)%Z).
  { split; [apply Z.div_pos; lia |]. apply Z.div_lt_upper_bound; lia. }
  rewrite (Z.mod_small (z / 10) 10 B).
  generalize dependent (z mod 10)%Z. generalize dependent (z / 10)%Z.
  intros. lia.
Qed.

Lemma grouped_digits_all (s : string) :
  forall_chars is_digit s = true -> nonempty s = true ->
  forall b, grouped_digits b s = true.
Proof.
  induction s as [| c r IH]; simpl; [discriminate |].
  intros H _ b. apply andb_true_iff in H as [H1 H2]. rewrite H1.
  destruct r as [| c' r']; [reflexivity |].
  apply IH; [exact H2 | reflexivity].
Qed.

(** [int] reads a short text of digits as the number it spells. *)
Lemma py_int_digits (s : string) :
  forall_chars is_digit s = true -> nonempty s = true ->
  (String.length s <= max_str_digits)%nat ->
  py_int s = Some (digits_value 0 s).
Proof.
  intros Hd Hn Hl. unfold py_int, strip.
  rewrite strip_by_id
    by (eapply forall_chars_impl; [| exact Hd];
        intros c Hc; destruct (digit_sep_facts c Hc) as (_ & _ & _ & ->);
        reflexivity).
  destruct s as [| c r]; [discriminate Hn |].
  pose proof Hd as Hd'. simpl in Hd'. apply andb_true_iff in Hd' as [Hc _].
  destruct (digit_sep_facts c Hc) as (Hm & _ & Hp & _).
  rewrite (split_sign_other c r Hm Hp).
  rewrite (grouped_digits_all _ Hd eq_refl).
  unfold digits_of. rewrite (filter_chars_all _ _ Hd).
  apply Nat.leb_le in Hl. rewrite Hl. reflexivity.
Qed.

Lemma py_int_pad2 (z : Z) : (0 <= z <= 99)%Z -> py_int (Py.pad2 z) = Some z.
Proof.
  intros H. rewrite py_int_digits.
  - rewrite (pad2_value z H). reflexivity.
  - apply pad2_digits.
  - reflexivity.
  - apply Nat.leb_le. reflexivity.
Qed.

Lemma py_int_pad4 (z : Z) : (0 <= z <= 9999)%Z -> py_int (Py.pad4 z) = Some z.
Proof.
  intros H. rewrite py_int_digits.
  - rewrite (pad4_value z H). reflexivity.
  - apply pad4_digits.
  - reflexivity.
  - apply Nat.leb_le. reflexivity.
Qed.

(** A text of digits, a separator and more text: where it splits. *)
Lemma split_digits (c : ascii) (ds rest : string) :
  forall_chars is_digit ds = true -> is_digit c = false ->
  before_char c (ds ++ String c rest) = ds
  /\ after_char c (ds ++ String c rest) = Some rest.
Proof.
  intros Hd Hc. induction ds as [| a r IH]; simpl.
  - rewrite Ascii.eqb_refl. auto.
  - simpl in Hd. apply andb_true_iff in Hd as [Ha Hr].
    destruct (Ascii.eqb_spec a c) as [-> | Hne]; [congruence |].
    destruct (IH Hr) as [-> ->]. auto.
Qed.

Lemma month_first (y m : Z) :
  (1 <= y <= 9999)%Z -> (1 <= m <= 12)%Z -> Calendar.valid_ymd y m 1 = true.
Proof.
  intros Hy Hm. unfold Calendar.valid_ymd, Calendar.days_in_month.
  repeat (apply andb_true_iff; split); try (apply Z.leb_le; lia).
  apply Z.leb_le.
  destruct (m =? 2)%Z; [destruct (Calendar.is_leap y); lia |].
  destruct (_ || _); lia.
Qed.

Lemma competencia_of_pads (y m : Z) :
  (1 <= y <= 9999)%Z -> (1 <= m <= 12)%Z ->
  competencia_of (Py.pad4 y) (Py.pad2 m) = Some (mkdate y m 1).
Proof.
  intros Hy Hm. unfold competencia_of.
  rewrite py_int_pad4 by lia. rewrite py_int_pad2 by lia.
  rewrite (month_first y m Hy Hm). reflexivity.
Qed.

Lemma no_space_strip (s : string) :
  forall_chars (fun a => negb (is_space a)) s = true -> strip s = s.
Proof. apply strip_by_id. Qed.

Lemma digits_no (c : ascii) (s : string) :
  is_digit c = false ->
  forall_chars is_digit s = true ->
  forall_chars (fun a => negb (Ascii.eqb a c)) s = true.
Proof.
  intros Hc. apply forall_chars_impl. intros a Ha.
  destruct (Ascii.eqb_spec a c) as [-> | _]; [congruence | reflexivity].
Qed.

Lemma digits_no_space (s : string) :
  forall_chars is_digit s = true ->
  forall_chars (fun a => negb (is_space a)) s = true.
Proof.
  apply forall_chars_impl. intros a Ha.
  destruct (digit_sep_facts a Ha) as (_ & _ & _ & ->). reflexivity.
Qed.

Lemma parse_month_iso (y m : Z) :
  (1 <= y <= 9999)%Z -> (1 <= m <= 12)%Z ->
  _parse_competencia_str (Some (Py.pad4 y ++ "-" ++ Py.pad2 m)%string)
  = Some (mkdate y m 1).
Proof.
  intros Hy Hm. unfold _parse_competencia_str.
  cbn [Py.truthy or_empty].
  assert (Hn : nonempty (Py.pad4 y ++ "-" ++ Py.pad2 m) = true) by reflexivity.
  rewrite Hn. cbn [negb].
  rewrite no_space_strip
    by (rewrite forall_chars_append; cbn [append forall_chars];
        rewrite (digits_no_space _ (pad4_digits y)),
                (digits_no_space _ (pad2_digits m)); reflexivity).
  change (Py.pad4 y ++ "-" ++ Py.pad2 m)%string
    with (Py.pad4 y ++ String "-" (Py.pad2 m))%string.
  rewrite contains_char_here.
  destruct (split_digits "-" (Py.pad4 y) (Py.pad2 m) (pad4_digits y) eq_refl)
    as [-> ->].
  apply competencia_of_pads; assumption.
Qed.

Lemma parse_month_br (y m : Z) :
  (1 <= y <= 9999)%Z -> (1 <= m <= 12)%Z ->
  _parse_competencia_str (Some (Py.pad2 m ++ "/" ++ Py.pad4 y)%string)
  = Some (mkdate y m 1).
Proof.
  intros Hy Hm. unfold _parse_competencia_str.
  cbn [Py.truthy or_empty].
  assert (Hn : nonempty (Py.pad2 m ++ "/" ++ Py.pad4 y) = true) by reflexivity.
  rewrite Hn. cbn [negb].
  rewrite no_space_strip
    by (rewrite forall_chars_append; cbn [append forall_chars];
        rewrite (digits_no_space _ (pad4_digits y)),
                (digits_no_space _ (pad2_digits m)); reflexivity).
  change (Py.pad2 m ++ "/" ++ Py.pad4 y)%string
    with (Py.pad2 m ++ String "/" (Py.pad4 y))%string.
  rewrite (contains_char_absent "-")
    by (rewrite forall_chars_append; cbn [forall_chars];
        rewrite (digits_no "-" _ eq_refl (pad4_digits y)),
                (digits_no "-" _ eq_refl (pad2_digits m)); reflexivity).
  rewrite contains_char_here.
  destruct (split_digits "/" (Py.pad2 m) (Py.pad4 y) (pad2_digits m) eq_refl)
    as [-> ->].
  apply competencia_of_pads; assumption.
Qed.

End CompetenciaFacts.

(** X11: the competency typed in the form, when it is read at all, is
    the first day of a month of a year that [date] accepts. *)
Theorem typed_competency_is_first_of_month :
  forall s d,
    _parse_competencia_str s = Some d ->
    day d = 1%Z /\ (1 <= month d <= 12)%Z /\ (1 <= year d <= 9999)%Z.
Proof. exact CompetenciaFacts.parse_competencia_first. Qed.

(** The text [2024-05] is read as the first of May 2024. *)
Lemma typed_competency_is_first_of_month_witness :
  _parse_competencia_str (Some "2024-05") = Some (mkdate 2024 5 1)
  /\ day (mkdate 2024 5 1) = 1%Z
  /\ (1 <= month (mkdate 2024 5 1) <= 12)%Z
  /\ (1 <= year (mkdate 2024 5 1) <= 9999)%Z.
Proof.
  assert (H : _parse_competencia_str (Some "2024-05") = Some (mkdate 2024 5 1))
    by (vm_compute; reflexivity).
  split; [exact H |].
  exact (typed_competency_is_first_of_month _ _ H).
Defined.

(** X12: the month of a date, typed as [YYYY-MM] or as [MM/YYYY], is read
    as the competency that [_competencia_from_date] gives a row of that
    date: the first day of its month. *)
Theorem typed_competency_agrees_with_row_dates :
  forall d,
    Calendar.valid_ymd (year d) (month d) (day d) = true ->
    _parse_competencia_str (Some (month_iso d)) = _competencia_from_date (Some d)
    /\ _parse_competencia_str (Some (month_br d)) = _competencia_from_date (Some d).
Proof.
  intros d H. apply CompetenciaFacts.valid_ymd_bounds in H as (Hy & Hm & _).
  unfold month_iso, month_br, _competencia_from_date. split.
  - apply CompetenciaFacts.parse_month_iso; assumption.
  - apply CompetenciaFacts.parse_month_br; assumption.
Qed.

(** For 2024-12-31 the two texts are [2024-12] and [12/2024]. *)
Lemma typed_competency_agrees_with_row_dates_witness :
  Calendar.valid_ymd 2024 12 31 = true
  /\ month_iso (mkdate 2024 12 31) = "2024-12"
  /\ month_br (mkdate 2024 12 31) = "12/2024"
  /\ _parse_competencia_str (Some (month_iso (mkdate 2024 12 31)))
     = _competencia_from_date (Some (mkdate 2024 12 31))
  /\ _parse_competencia_str (Some (month_br (mkdate 2024 12 31)))
     = _competencia_from_date (Some (mkdate 2024 12 31)).
Proof.
  split; [reflexivity |]. split; [reflexivity |]. split; [reflexivity |].
  exact (typed_competency_agrees_with_row_dates (mkdate 2024 12 31) eq_refl).
Defined.

(** X13: the competency a row is filed under, whether it comes from the
    date of the row or from the form, is the first day of a month. *)
Theorem filed_competency_is_first_of_month :
  forall s data c,
    row_competencia (_parse_competencia_str s) data = Some c ->
    day c = 1%Z.
Proof.
  intros s data c. unfold row_competencia, _competencia_from_date.
  destruct (_extr_data_emissao_dict data) as [d |].
  - intros [= <-]. reflexivity.
  - intros H. apply (CompetenciaFacts.parse_competencia_first _ _ H).
Qed.

(** A row dated 31/12/2024 is filed under 2024-12-01 whatever the form
    says, and a row without a date under the month of the form. *)
Lemma filed_competency_is_first_of_month_witness :
  row_competencia (_parse_competencia_str (Some "05/2024"))
    [("data_emissao", Some "31/12/2024")] = Some (mkdate 2024 12 1)
  /\ row_competencia (_parse_competencia_str (Some "05/2024"))
       [("numero", Some "1")] = Some (mkdate 2024 5 1)
  /\ day (mkdate 2024 12 1) = 1%Z /\ day (mkdate 2024 5 1) = 1%Z.
Proof.
  assert (H1 : row_competencia (_parse_competencia_str (Some "05/2024"))
                 [("data_emissao", Some "31/12/2024")] = Some (mkdate 2024 12 1))
    by (vm_compute; reflexivity).
  assert (H2 : row_competencia (_parse_competencia_str (Some "05/2024"))
                 [("numero", Some "1")] = Some (mkdate 2024 5 1))
    by (vm_compute; reflexivity).
  split; [exact H1 |]. split; [exact H2 |]. split.
  - exact (filed_competency_is_first_of_month _ _ _ H1).
  - exact (filed_competency_is_first_of_month _ _ _ H2).
Defined.

(* ------------------------------------------------------------------ *)
(** ** What an import leaves alone *)

Module FrameFacts.
Import ImporterFacts TableFacts LoopFacts RunFacts WholeRun.

Lemma frame_refl emp t : frame emp t t.
Proof. split; [reflexivity | auto]. Qed.

Lemma frame_trans emp t1 t2 t3 :
  frame emp t1 t2 -> frame emp t2 t3 -> frame emp t1 t3.
Proof.
  intros [A1 B1] [A2 B2]. split; [congruence | auto].
Qed.

Lemma others_app emp t t' : others emp (t ++ t') = others emp t ++ others emp t'.
Proof. apply filter_app. Qed.

Lemma insert_ignore_others emp t o :
  empresa o = emp -> others emp (insert_ignore t o) = others emp t.
Proof.
  intros E. unfold insert_ignore. destruct (conflicts t o); [reflexivity |].
  rewrite others_app. unfold others at 2. cbn [filter with_pk empresa].
  rewrite E, Nat.eqb_refl. cbn [negb]. apply app_nil_r.
Qed.

Lemma bulk_create_others emp (objs : list SatRegistro) :
  forall t,
    (forall o, In o objs -> empresa o = emp) ->
    others emp (bulk_create t objs) = others emp t.
Proof.
  unfold bulk_create. induction objs as [| o r IH]; intros t H; simpl;
    [reflexivity |].
  rewrite IH by (intros o' Ho'; apply H; right; exact Ho').
  apply insert_ignore_others, H. left. reflexivity.
Qed.

(** An update writes no primary key and no company. *)
Lemma update_row_in t o r' :
  In r' (update_row t o) ->
  exists r, In r t /\ pk r' = pk r /\ empresa r' = empresa r.
Proof.
  unfold update_row. intros H. apply in_map_iff in H as (r & <- & Hr).
  exists r. split; [exact Hr |].
  destruct (opt_nat_eqb (pk r) (pk o)); split; reflexivity.
Qed.

Lemma update_row_others emp t o :
  (forall r, In r t -> pk r = pk o -> empresa r = emp) ->
  others emp (update_row t o) = others emp t.
Proof.
  unfold update_row, others. induction t as [| r t IH]; intros H; simpl;
    [reflexivity |].
  rewrite IH by (intros r0 H0; apply H; right; exact H0).
  destruct (opt_nat_eqb (pk r) (pk o)) eqn:E; [| reflexivity].
  apply opt_nat_eqb_eq in E.
  cbn [write_fields empresa].
  rewrite (H r (or_introl eq_refl) E), Nat.eqb_refl. reflexivity.
Qed.

Lemma fold_update_others emp (objs : list SatRegistro) :
  forall t,
    (forall o r, In o objs -> In r t -> pk r = pk o -> empresa r = emp) ->
    others emp (fold_left update_row objs t) = others emp t.
Proof.
  induction objs as [| o rest IH]; intros t H; simpl; [reflexivity |].
  rewrite IH.
  - apply update_row_others. intros r Hr. apply H; [left; reflexivity | exact Hr].
  - intros o' r' Ho' Hr' E.
    destruct (update_row_in _ _ _ Hr') as (r & Hr & Ep & Ee).
    rewrite Ee. apply (H o' r); [right; exact Ho' | exact Hr | congruence].
Qed.

(** A pending update names a row of the company. *)
Lemma update_targets emp rest st o r :
  import_inv rest st -> objs_of emp st ->
  In o (deref (exist_map st) (to_update st)) ->
  In r (tbl st) -> pk r = pk o -> empresa r = emp.
Proof.
  intros I J Ho Hr Ep.
  apply in_deref in Ho as (k & Hk & Eo).
  destruct (inv_upd _ _ I k Hk) as (o' & Eo' & Hp).
  rewrite Eo in Eo'. injection Eo' as <-.
  destruct (inv_obj _ _ I k o Eo) as [Ek Ho].
  unfold has_pk in Hp. destruct (pk o) as [p |] eqn:Epk; [| discriminate].
  apply In_nth_error in Hr as (q & Hq).
  assert (Sq : nth_error (shape (tbl st)) q = Some (pk r, ukey_of r))
    by (unfold shape; rewrite nth_error_map, Hq; reflexivity).
  pose proof (inv_pk _ _ I q _ Sq) as Eq_. simpl in Eq_.
  assert (q = p) by congruence. subst q.
  rewrite Ho in Sq. injection Sq as _ Eu.
  assert (E : ukey_of r = ukey_of o) by congruence.
  unfold ukey_of in E. injection E as E _ _ _.
  rewrite E. exact (J k o Eo).
Qed.

Lemma create_frame emp rest st :
  import_inv rest st -> objs_of emp st ->
  frame emp (tbl st) (tbl (after_create st)).
Proof.
  intros I J. unfold after_create. cbn [tbl]. split.
  - apply bulk_create_others. intros o Ho.
    apply in_deref in Ho as (k & _ & Eo). exact (J k o Eo).
  - apply bulk_create_ext.
Qed.

Lemma update_frame emp rest st t :
  import_inv rest st -> objs_of emp st ->
  bulk_update (tbl st) (deref (exist_map st) (to_update st)) = Ok t ->
  frame emp (tbl st) t.
Proof.
  intros I J E.
  destruct (inv_after_update _ _ I) as (t0 & E0 & Es & _).
  rewrite E in E0. injection E0 as <-.
  split.
  - unfold bulk_update in E.
    destruct (forallb has_pk _); [| discriminate]. injection E as <-.
    apply fold_update_others. intros o r Ho Hr Ep.
    exact (update_targets emp rest st o r I J Ho Hr Ep).
  - intros p x H. rewrite Es. exact H.
Qed.

Lemma flush_frame emp rest st st' :
  import_inv rest st -> objs_of emp st ->
  flush_full st = Ok st' ->
  frame emp (tbl st) (tbl st') /\ exist_map st' = exist_map st.
Proof.
  intros I J. rewrite flush_full_eq. cbv zeta.
  set (st1 := if (BATCH <=? List.length (to_create st))%nat
              then after_create st else st).
  assert (H1 : import_inv rest st1 /\ objs_of emp st1
               /\ frame emp (tbl st) (tbl st1)
               /\ exist_map st1 = exist_map st).
  { subst st1. destruct (BATCH <=? List.length (to_create st))%nat.
    - split; [apply inv_after_create, I |]. split; [exact J |].
      split; [exact (create_frame emp rest st I J) | reflexivity].
    - split; [exact I |]. split; [exact J |].
      split; [apply frame_refl | reflexivity]. }
  destruct H1 as (I1 & J1 & F1 & M1).
  destruct (BATCH <=? List.length (to_update st1))%nat.
  - intros E. apply bind_ok_inv in E as (t & Et & E). injection E as <-.
    cbn [after_update tbl exist_map]. split; [| exact M1].
    exact (frame_trans _ _ _ _ F1 (update_frame emp rest st1 t I1 J1 Et)).
  - intros [= <-]. split; [exact F1 | exact M1].
Qed.

Lemma objs_set emp st st2 k o :
  objs_of emp st -> empresa o = emp ->
  exist_map st2 = em_set k o (exist_map st) ->
  objs_of emp st2.
Proof.
  intros J E M k' o'. rewrite M, em_get_set.
  destruct (ukey_eqb k k'); [intros [= <-]; exact E | apply J].
Qed.

(** One row of the workbook. *)
Lemma step_frame emp comp x rest st st' :
  let ks := item_key_list emp comp x in
  NoDup (ks ++ rest) ->
  import_inv (ks ++ rest) st -> objs_of emp st ->
  import_item emp comp st x = Ok st' ->
  frame emp (tbl st) (tbl st') /\ objs_of emp st'.
Proof.
  unfold item_key_list. rewrite import_item_eq.
  destruct (item_key emp comp x) as [k |] eqn:Ek; cbn [app].
  - intros Hnd I J. inversion Hnd as [| ? ? Hk Hr]; subst.
    destruct (em_get k (exist_map st)) as [reg |] eqn:E.
    + pose proof (inv_staged_update rest st k reg (key_comp k) (item_data x)
                    Hk I E eq_refl) as I2.
      assert (J2 : objs_of emp (staged_update st k
                                  (updated_reg reg (key_comp k) (item_data x)))).
      { apply (objs_set emp st _ k
                 (updated_reg reg (key_comp k) (item_data x)) J);
          [| reflexivity].
        cbn [updated_reg empresa]. exact (J k reg E). }
      intros Ef. destruct (flush_frame emp rest _ st' I2 J2 Ef) as [F M].
      split; [exact F |]. unfold objs_of. rewrite M. exact J2.
    + assert (Eo : ukey_of (created_reg emp (key_comp k) (it_sheet x)
                              (it_row x) (item_data x)) = k).
      { rewrite (item_key_form _ _ _ _ Ek). reflexivity. }
      pose proof (inv_staged_create rest st k _ Hk I E Eo eq_refl) as I2.
      assert (J2 : objs_of emp (staged_create st k
                                  (created_reg emp (key_comp k) (it_sheet x)
                                     (it_row x) (item_data x)))).
      { apply (objs_set emp st _ k
                 (created_reg emp (key_comp k) (it_sheet x) (it_row x)
                    (item_data x)) J); reflexivity. }
      intros Ef. destruct (flush_frame emp rest _ st' I2 J2 Ef) as [F M].
      split; [exact F |]. unfold objs_of. rewrite M. exact J2.
  - intros _ I J [= <-]. split; [apply frame_refl | exact J].
Qed.

(** The loop over all rows. *)
Lemma run_frame emp comp (items : list item) :
  forall st st',
    NoDup (item_keys emp comp items) ->
    import_inv (item_keys emp comp items) st -> objs_of emp st ->
    foldM (import_item emp comp) st items = Ok st' ->
    frame emp (tbl st) (tbl st') /\ objs_of emp st' /\ import_inv [] st'.
Proof.
  induction items as [| x xs IH]; intros st st' Hnd I J.
  - intros [= <-]. split; [apply frame_refl |]. split; [exact J | exact I].
  - rewrite item_keys_cons in Hnd, I. cbn [foldM]. intros E.
    apply bind_ok_inv in E as (st1 & E1 & E).
    destruct (step_inv emp comp x (item_keys emp comp xs) st Hnd I)
      as (st1' & E1' & I1 & _).
    rewrite E1 in E1'. injection E1' as <-.
    destruct (step_frame emp comp x (item_keys emp comp xs) st st1 Hnd I J E1)
      as [F1 J1].
    apply NoDup_app_remove_l in Hnd.
    destruct (IH st1 st' Hnd I1 J1 E) as (F2 & J2 & I2).
    split; [exact (frame_trans _ _ _ _ F1 F2) |]. split; assumption.
Qed.

Lemma objs_initial emp t :
  objs_of emp (mkimp_state (load_exist_map emp t) [] [] t 0 0 0).
Proof.
  intros k o H. cbn [exist_map] in H. unfold load_exist_map in H.
  destruct (fold_em_get emp _ _ _ _ H) as [H1 | [H1 _]]; [discriminate H1 |].
  apply filter_In in H1 as [_ He]. apply Nat.eqb_eq, He.
Qed.

(** A whole run. *)
Lemma import_frame t emp comp wb r :
  pk_ok t -> NoDup (map fst wb) ->
  sat_importar t emp comp wb = Ok r ->
  frame emp t (ir_table r).
Proof.
  intros Hok Hnames. rewrite sat_importar_eq. intros E.
  apply bind_ok_inv in E as (st & Ef & E).
  apply bind_ok_inv in E as (t2 & Eu & E). injection E as <-.
  cbn [ir_table].
  assert (Hnd : NoDup (item_keys emp comp (all_items wb)))
    by (apply item_keys_nodup, all_items_locators, Hnames).
  destruct (run_frame emp comp (all_items wb) _ st Hnd
              (inv_initial emp t _ Hok) (objs_initial emp t) Ef)
    as (F & J & I).
  cbn [tbl] in F.
  pose proof (create_frame emp [] st I J) as F1.
  pose proof (inv_after_create _ _ I) as I1.
  assert (J1 : objs_of emp (after_create st)) by exact J.
  pose proof (update_frame emp [] (after_create st) t2 I1 J1 Eu) as F2.
  exact (frame_trans _ _ _ _ F (frame_trans _ _ _ _ F1 F2)).
Qed.

End FrameFacts.

(** X14: an import for one company leaves the rows of every other company
    as they are: none is changed, added or removed. *)
Theorem import_leaves_other_companies_alone :
  forall t emp comp wb r,
    pk_ok t -> NoDup (map fst wb) ->
    sat_importar t emp comp wb = Ok r ->
    others emp (ir_table r) = others emp t.
Proof.
  intros t emp comp wb r Hok Hnames E.
  exact (proj1 (FrameFacts.import_frame t emp comp wb r Hok Hnames E)).
Qed.

(** Importing [wb_undated] for company 7 into a registry that also holds
    a row of company 8 leaves that row as it was. *)
Lemma import_leaves_other_companies_alone_witness :
  pk_ok table_two_companies /\ NoDup (map fst wb_undated)
  /\ exists r,
       sat_importar table_two_companies 7 None wb_undated = Ok r
       /\ ir_atualizados r = 1
       /\ others 7 (ir_table r) = others 7 table_two_companies.
Proof.
  assert (H1 : pk_ok table_two_companies).
  { intros p reg H. destruct p as [| [| [| p]]]; try discriminate H;
      injection H as <-; reflexivity. }
  assert (H2 : NoDup (map fst wb_undated))
    by (constructor; [intros [] | constructor]).
  split; [exact H1 |]. split; [exact H2 |].
  assert (X : exists r,
            sat_importar table_two_companies 7 None wb_undated = Ok r
            /\ ir_atualizados r = 1).
  { eexists. split; [vm_compute; reflexivity | reflexivity]. }
  destruct X as (r & E & A). exists r.
  split; [exact E |]. split; [exact A |].
  exact (import_leaves_other_companies_alone _ _ _ _ _ H1 H2 E).
Defined.

(** X15: an import never deletes a row and never moves one: every row of
    the table is still at its place afterwards, with the same primary key
    and the same logical key (company, competency, sheet, row number), so
    the table does not shrink. *)
Theorem import_keeps_rows_in_place :
  forall t emp comp wb r,
    pk_ok t -> NoDup (map fst wb) ->
    sat_importar t emp comp wb = Ok r ->
    (forall p reg,
       nth_error t p = Some reg ->
       exists reg',
         nth_error (ir_table r) p = Some reg'
         /\ pk reg' = pk reg /\ ukey_of reg' = ukey_of reg)
    /\ List.length t <= List.length (ir_table r).
Proof.
  intros t emp comp wb r Hok Hnames E.
  destruct (FrameFacts.import_frame t emp comp wb r Hok Hnames E) as [_ F].
  assert (G : forall p reg,
             nth_error t p = Some reg ->
             exists reg',
               nth_error (ir_table r) p = Some reg'
               /\ pk reg' = pk reg /\ ukey_of reg' = ukey_of reg).
  { intros p reg H.
    assert (S : nth_error (shape t) p = Some (pk reg, ukey_of reg))
      by (unfold shape; rewrite nth_error_map, H; reflexivity).
    apply F in S. unfold shape in S. rewrite nth_error_map in S.
    destruct (nth_error (ir_table r) p) as [reg' |]; [| discriminate S].
    exists reg'. split; [reflexivity |].
    assert (X : (pk reg', ukey_of reg') = (pk reg, ukey_of reg)).
    { apply (f_equal (fun o => match o with
                               | Some y => y
                               | None => (pk reg, ukey_of reg)
                               end)) in S.
      exact S. }
    split; [exact (f_equal fst X) | exact (f_equal snd X)]. }
  split; [exact G |].
  destruct (Nat.le_gt_cases (List.length t) (List.length (ir_table r)))
    as [L | L]; [exact L | exfalso].
  destruct (nth_error t (List.length (ir_table r))) as [reg |] eqn:En.
  - destruct (G _ _ En) as (reg' & H & _).
    assert (X : nth_error (ir_table r) (List.length (ir_table r)) <> None)
      by (rewrite H; discriminate).
    apply nth_error_Some in X. lia.
  - apply nth_error_None in En. lia.
Qed.

(** On the same registry and workbook the two rows are still at their
    places, under their keys. *)
Lemma import_keeps_rows_in_place_witness :
  pk_ok table_two_companies /\ NoDup (map fst wb_undated)
  /\ exists r,
       sat_importar table_two_companies 7 None wb_undated = Ok r
       /\ map ukey_of (ir_table r) = map ukey_of table_two_companies
       /\ (forall p reg,
             nth_error table_two_companies p = Some reg ->
             exists reg',
               nth_error (ir_table r) p = Some reg'
               /\ pk reg' = pk reg /\ ukey_of reg' = ukey_of reg)
       /\ List.length table_two_companies <= List.length (ir_table r).
Proof.
  assert (H1 : pk_ok table_two_companies).
  { intros p reg H. destruct p as [| [| [| p]]]; try discriminate H;
      injection H as <-; reflexivity. }
  assert (H2 : NoDup (map fst wb_undated))
    by (constructor; [intros [] | constructor]).
  split; [exact H1 |]. split; [exact H2 |].
  assert (X : exists r,
            sat_importar table_two_companies 7 None wb_undated = Ok r
            /\ map ukey_of (ir_table r) = map ukey_of table_two_companies).
  { eexists. split; [vm_compute; reflexivity | reflexivity]. }
  destruct X as (r & E & A). exists r.
  split; [exact E |]. split; [exact A |].
  exact (import_keeps_rows_in_place _ _ _ _ _ H1 H2 E).
Defined.

(** X16: a run counts every data row of the workbook once: a row with a
    value is created or updated, a row without one is skipped. *)
Theorem import_counts_every_row_once :
  forall t emp comp wb,
    pk_ok t -> NoDup (map fst wb) ->
    exists r,
      sat_importar t emp comp wb = Ok r
      /\ ir_criados r + ir_atualizados r
         = List.length (filter has_value (all_items wb))
      /\ ir_ignorados_vazios r
         = List.length (filter (fun x => negb (has_value x)) (all_items wb))
      /\ ir_criados r + ir_atualizados r + ir_ignorados_vazios r
         = List.length (all_items wb).
Proof.
  intros t emp comp wb Hok Hnames.
  destruct (WholeRun.sat_importar_run t emp comp wb Hok Hnames)
    as (r & E & _ & C & A & G & _).
  pose proof (WholeRun.count_split (load_exist_map emp t)
                (item_keys emp comp (all_items wb))) as Sp.
  assert (L : List.length (item_keys emp comp (all_items wb))
              = List.length (filter has_value (all_items wb)))
    by (rewrite RowFacts.item_keys_filled; apply length_map).
  rewrite RowFacts.count_empty_filled in G.
  pose proof (RowFacts.filter_split has_value (all_items wb)) as F.
  exists r. split; [exact E |]. repeat split; lia.
Qed.

(** The three data rows of [wb_three_rows]: two with a value, one
    without. *)
Lemma import_counts_every_row_once_witness :
  pk_ok [] /\ NoDup (map fst wb_three_rows)
  /\ List.length (all_items wb_three_rows) = 3
  /\ exists r,
       sat_importar [] 7 None wb_three_rows = Ok r
       /\ ir_criados r + ir_atualizados r = 2
       /\ ir_ignorados_vazios r = 1
       /\ ir_criados r + ir_atualizados r + ir_ignorados_vazios r = 3.
Proof.
  assert (H1 : pk_ok []) by (intros p reg H; destruct p; discriminate H).
  assert (H2 : NoDup (map fst wb_three_rows))
    by (constructor; [intros [] | constructor]).
  split; [exact H1 |]. split; [exact H2 |]. split; [reflexivity |].
  exact (import_counts_every_row_once [] 7 None wb_three_rows H1 H2).
Defined.

(* ------------------------------------------------------------------ *)
(** ** The texts of dates *)

Module DateFacts.
Import TextFacts CompetenciaFacts Strptime.

(** *** Characters that are absent *)

Lemma contains_absent (c : ascii) (s : string) :
  contains (String c "") s = false -> absent c s = true.
Proof.
  unfold absent. induction s as [| a r IH]; simpl; [reflexivity |].
  intros H. apply orb_false_iff in H as [H1 H2].
  rewrite andb_true_r in H1. rewrite Ascii.eqb_sym, H1. simpl. auto.
Qed.

Lemma absent_cons (c a : ascii) (r : string) :
  absent c (String a r) = true -> Ascii.eqb a c = false /\ absent c r = true.
Proof.
  unfold absent. simpl. intros H. apply andb_true_iff in H as [H1 H2].
  apply negb_true_iff in H1. auto.
Qed.

Lemma absent_tail (c a : ascii) (r : string) :
  absent c (String a r) = true -> absent c r = true.
Proof. intros H. apply (absent_cons _ _ _ H). Qed.

Lemma absent_append (c : ascii) (a b : string) :
  absent c (a ++ b) = absent c a && absent c b.
Proof. apply forall_chars_append. Qed.

Lemma absent_before (c x : ascii) (s : string) :
  absent c s = true -> absent c (before_char x s) = true.
Proof.
  unfold absent. induction s as [| a r IH]; simpl; [reflexivity |].
  intros H. apply andb_true_iff in H as [H1 H2].
  destruct (Ascii.eqb a x); simpl; [reflexivity |].
  rewrite H1. auto.
Qed.

Lemma absent_before_self (c : ascii) (s : string) :
  absent c (before_char c s) = true.
Proof.
  unfold absent. induction s as [| a r IH]; simpl; [reflexivity |].
  destruct (Ascii.eqb a c) eqn:E; simpl; [reflexivity |].
  rewrite E. exact IH.
Qed.

Lemma absent_replace (c x : ascii) (new s : string) :
  absent c new = true -> absent c s = true ->
  absent c (replace_char x new s) = true.
Proof.
  intros Hn. induction s as [| a r IH]; simpl; [reflexivity |].
  intros H. apply absent_cons in H as [H1 H2].
  destruct (Ascii.eqb a x).
  - rewrite absent_append, Hn. exact (IH H2).
  - unfold absent. simpl. rewrite H1. exact (IH H2).
Qed.

Lemma absent_strip (c : ascii) (s : string) :
  absent c s = true -> absent c (strip s) = true.
Proof. apply SlugFacts.strip_chars. Qed.

(** The text the formats are tried on holds no character that the text
    given does not hold. *)
Lemma absent_norm (c : ascii) (s : string) :
  Ascii.eqb c " " = false ->
  absent c s = true ->
  let t := replace_char "Z" "" (replace_char "T" " " (strip s)) in
  absent c (if contains "." t then before_char "." t else t) = true.
Proof.
  intros Hc H t.
  assert (Ht : absent c t = true).
  { unfold t. apply absent_replace; [reflexivity |].
    apply absent_replace; [| apply absent_strip, H].
    unfold absent. cbn [forall_chars]. rewrite Ascii.eqb_sym, Hc. reflexivity. }
  destruct (contains "." t); [apply absent_before |]; exact Ht.
Qed.

(** *** A literal of the format must be in the text *)

Lemma first_success_none {A B : Type} (k : A -> option B) (l : list A) :
  Forall (fun a => k a = None) l -> first_success k l = None.
Proof.
  induction 1 as [| a l Ha _ IH]; simpl; [reflexivity |].
  rewrite Ha. exact IH.
Qed.

Lemma separator_match (c a : ascii) :
  Ascii.eqb c "/" || Ascii.eqb c "-" || Ascii.eqb c "." = true ->
  Ascii.eqb (lower_char a) (lower_char c) = Ascii.eqb a c.
Proof.
  intros H. apply orb_true_iff in H as [H | H];
    [apply orb_true_iff in H as [H | H] |];
    apply Ascii.eqb_eq in H; subst c;
    destruct a as [b0 b1 b2 b3 b4 b5 b6 b7];
    destruct b0, b1, b2, b3, b4, b5, b6, b7; reflexivity.
Qed.

Lemma blank_rests_absent (c : ascii) (s : string) :
  absent c s = true -> Forall (fun r => absent c r = true) (blank_rests s).
Proof.
  induction s as [| a r IH]; simpl; intros H; [constructor |].
  destruct (is_space a); [| constructor].
  apply absent_tail in H. apply Forall_app. split; [exact (IH H) |].
  constructor; [exact H | constructor].
Qed.

Lemma alt2_absent (c : ascii) (p1 p2 : ascii -> bool) (s : string) :
  absent c s = true ->
  Forall (fun vr => absent c (snd vr) = true) (alt2 p1 p2 s).
Proof.
  intros H. destruct s as [| a [| b r]]; simpl; try constructor.
  destruct (p1 a && p2 b); constructor; [| constructor].
  simpl. exact (absent_tail _ _ _ (absent_tail _ _ _ H)).
Qed.

Lemma alt1_absent (c : ascii) (p : ascii -> bool) (s : string) :
  absent c s = true ->
  Forall (fun vr => absent c (snd vr) = true) (alt1 p s).
Proof.
  intros H. destruct s as [| a r]; simpl; try constructor.
  destruct (p a); constructor; [| constructor].
  simpl. exact (absent_tail _ _ _ H).
Qed.

Lemma alt_blank_digit_absent (c : ascii) (s : string) :
  absent c s = true ->
  Forall (fun vr => absent c (snd vr) = true) (alt_blank_digit s).
Proof.
  intros H. destruct s as [| a [| b r]].
  - constructor.
  - destruct a as [b0 b1 b2 b3 b4 b5 b6 b7].
    destruct b0, b1, b2, b3, b4, b5, b6, b7; constructor.
  - pose proof (absent_tail _ _ _ (absent_tail _ _ _ H)) as Hr.
    destruct a as [b0 b1 b2 b3 b4 b5 b6 b7].
    destruct b0, b1, b2, b3, b4, b5, b6, b7; try constructor.
    unfold alt_blank_digit. destruct (between "1" "9" b); constructor;
      [exact Hr | constructor].
Qed.

Lemma four_digits_absent (c : ascii) (s : string) :
  absent c s = true ->
  Forall (fun vr => absent c (snd vr) = true) (four_digits s).
Proof.
  intros H. destruct s as [| a1 [| a2 [| a3 [| a4 r]]]]; simpl; try constructor.
  destruct (_ && _); constructor; [| constructor].
  simpl.
  exact (absent_tail _ _ _ (absent_tail _ _ _
           (absent_tail _ _ _ (absent_tail _ _ _ H)))).
Qed.

Lemma upd_absent (c : ascii) (h : Z * string -> found * string)
    (l : list (Z * string)) :
  (forall vr, snd (h vr) = snd vr) ->
  Forall (fun vr => absent c (snd vr) = true) l ->
  Forall (fun fr : found * string => absent c (snd fr) = true) (map h l).
Proof.
  intros Hh. induction 1; simpl; constructor; [rewrite Hh |]; assumption.
Qed.

Lemma alternatives_absent (c : ascii) (d : directive) (s : string) (f : found) :
  absent c s = true ->
  Forall (fun fr : found * string => absent c (snd fr) = true)
         (alternatives d s f).
Proof.
  intros H. destruct d; unfold alternatives.
  - apply upd_absent; [reflexivity |]. repeat (apply Forall_app; split);
      auto using alt2_absent, alt1_absent, alt_blank_digit_absent.
  - apply upd_absent; [reflexivity |]. repeat (apply Forall_app; split);
      auto using alt2_absent, alt1_absent.
  - apply upd_absent; [reflexivity |]. auto using alt2_absent.
  - apply upd_absent; [reflexivity |]. auto using four_digits_absent.
  - apply upd_absent; [reflexivity |]. repeat (apply Forall_app; split);
      auto using alt2_absent, alt1_absent.
  - apply upd_absent; [reflexivity |]. repeat (apply Forall_app; split);
      auto using alt2_absent, alt1_absent.
  - apply upd_absent; [reflexivity |]. repeat (apply Forall_app; split);
      auto using alt2_absent, alt1_absent.
  - pose proof (blank_rests_absent c s H) as B.
    induction B; simpl; constructor; assumption.
  - destruct s as [| a r]; [constructor |].
    destruct (Ascii.eqb _ _); constructor; [| constructor].
    simpl. exact (absent_tail _ _ _ H).
  - constructor.
Qed.

(** A format with the literal [c] matches no text without [c]. *)
Lemma literal_needed (c : ascii) (ds : list directive) :
  Ascii.eqb c "/" || Ascii.eqb c "-" || Ascii.eqb c "." = true ->
  In (Dlit c) ds ->
  forall s f, absent c s = true -> regex_match ds s f = None.
Proof.
  intros Hc. induction ds as [| d ds IH]; intros Hin s f H; [destruct Hin |].
  cbn [regex_match]. destruct Hin as [-> | Hin].
  - unfold alternatives. destruct s as [| a r]; [reflexivity |].
    rewrite (separator_match c a Hc).
    apply absent_cons in H as [-> _]. reflexivity.
  - apply first_success_none.
    pose proof (alternatives_absent c d s f H) as A.
    induction A as [| fr l Hfr _ IHl]; constructor; [| exact IHl].
    apply (IH Hin). exact Hfr.
Qed.

Lemma strptime_needs (c : ascii) (fmt s : string) :
  Ascii.eqb c "/" || Ascii.eqb c "-" || Ascii.eqb c "." = true ->
  In (Dlit c) (compile fmt) ->
  absent c s = true -> strptime_date s fmt = None.
Proof.
  intros Hc Hin H. unfold strptime_date.
  rewrite (literal_needed c _ Hc Hin s found0 H). reflexivity.
Qed.

(** Every format holds a slash, a dash or a dot. *)
Lemma formats_need_separator (s : string) :
  absent "/" s = true -> absent "-" s = true -> absent "." s = true ->
  try_formats _DT_FMTS s = None.
Proof.
  intros Hs Hd Hp. unfold _DT_FMTS. cbn [try_formats].
  repeat
    (first
       [ rewrite (strptime_needs "/" _ s eq_refl) by (simpl; tauto || exact Hs)
       | rewrite (strptime_needs "-" _ s eq_refl) by (simpl; tauto || exact Hd)
       | rewrite (strptime_needs "." _ s eq_refl) by (simpl; tauto || exact Hp) ]).
  reflexivity.
Qed.

(** *** What a text without slash and dash can be *)

Lemma parse_without_separator (s : string) :
  absent "/" s = true -> absent "-" s = true ->
  _parse_date_any (PStr s)
  = if isdigit (strip s)
       && (20000 <=? digits_value 0 (strip s))%Z
       && (digits_value 0 (strip s) <=? 80000)%Z
    then Some (Calendar.add_days serial_base (digits_value 0 (strip s)))
    else None.
Proof.
  intros Hs Hd. unfold _parse_date_any. cbn [Py.str]. cbv zeta.
  destruct (nonempty (strip s)) eqn:En; cbn [negb].
  - rewrite formats_need_separator.
    + destruct (isdigit (strip s)); [| reflexivity].
      cbn [andb]. reflexivity.
    + apply absent_norm; [reflexivity | exact Hs].
    + apply absent_norm; [reflexivity | exact Hd].
    + destruct (contains "." _) eqn:E;
        [apply absent_before_self | apply contains_absent, E].
  - unfold isdigit. rewrite En. reflexivity.
Qed.

(** *** Texts with a dot *)

Lemma lstrip_app_stop (p : ascii -> bool) (a : string) (c : ascii) (b : string) :
  p c = false ->
  lstrip_by p (a ++ String c b) = (lstrip_by p a ++ String c b)%string.
Proof.
  intros Hc. induction a as [| x r IH]; simpl.
  - rewrite Hc. reflexivity.
  - destruct (p x); [exact IH | reflexivity].
Qed.

Lemma rstrip_cons_stop (p : ascii -> bool) (c : ascii) (b : string) :
  p c = false -> rstrip_by p (String c b) = String c (rstrip_by p b).
Proof.
  intros Hc. simpl. destruct (rstrip_by p b); [rewrite Hc |]; reflexivity.
Qed.

Lemma strip_around (a : string) (c : ascii) (b : string) :
  is_space c = false ->
  strip (a ++ String c b)
  = (lstrip_by is_space a ++ String c (rstrip_by is_space b))%string.
Proof.
  intros Hc. unfold strip, strip_by. rewrite (lstrip_app_stop _ _ _ _ Hc).
  rewrite SlugFacts.rstrip_app; rewrite (rstrip_cons_stop _ _ _ Hc); reflexivity.
Qed.

Lemma before_app (c : ascii) (x y : string) :
  before_char c (x ++ String c y) = before_char c x.
Proof.
  induction x as [| a r IH]; simpl.
  - rewrite Ascii.eqb_refl. reflexivity.
  - destruct (Ascii.eqb a c); [reflexivity | rewrite IH; reflexivity].
Qed.

Lemma parse_dotted (a b : string) :
  absent "/" a = true -> absent "-" a = true ->
  _parse_date_any (PStr (a ++ String "." b)) = None.
Proof.
  intros Hs Hd. unfold _parse_date_any. cbn [Py.str]. cbv zeta.
  rewrite (strip_around a "." b eq_refl).
  set (a1 := lstrip_by is_space a). set (b1 := rstrip_by is_space b).
  assert (Hs1 : absent "/" a1 = true) by (apply SlugFacts.lstrip_chars, Hs).
  assert (Hd1 : absent "-" a1 = true) by (apply SlugFacts.lstrip_chars, Hd).
  destruct (nonempty (a1 ++ String "." b1)); cbn [negb]; [| reflexivity].
  rewrite !replace_char_append.
  set (a2 := replace_char "Z" "" (replace_char "T" " " a1)).
  change (replace_char "T" " " (String "." b1))
    with (String "." (replace_char "T" " " b1)).
  change (replace_char "Z" "" (String "." (replace_char "T" " " b1)))
    with (String "." (replace_char "Z" "" (replace_char "T" " " b1))).
  rewrite contains_char_here, before_app.
  assert (Hs2 : absent "/" a2 = true)
    by (unfold a2; repeat apply absent_replace; try reflexivity; exact Hs1).
  assert (Hd2 : absent "-" a2 = true)
    by (unfold a2; repeat apply absent_replace; try reflexivity; exact Hd1).
  rewrite formats_need_separator;
    [| apply absent_before, Hs2 | apply absent_before, Hd2
     | apply absent_before_self ].
  unfold isdigit. rewrite forall_chars_append. cbn [forall_chars].
  change (is_digit ".") with false. cbn [andb].
  rewrite !andb_false_r. reflexivity.
Qed.

(** *** Dates written with digits, dashes and slashes *)

Lemma date_char_facts (c : ascii) :
  date_char c = true ->
  is_space c = false /\ Ascii.eqb c "T" = false /\ Ascii.eqb c "Z" = false
  /\ Ascii.eqb c "." = false.
Proof.
  destruct c as [b0 b1 b2 b3 b4 b5 b6 b7].
  destruct b0, b1, b2, b3, b4, b5, b6, b7; vm_compute; intro H;
    try discriminate H; repeat split; reflexivity.
Qed.

Lemma date_chars_no (c : ascii) (s : string) :
  date_char c = false -> forall_chars date_char s = true -> absent c s = true.
Proof.
  intros Hc. apply forall_chars_impl. intros a Ha.
  destruct (Ascii.eqb_spec a c) as [-> | _]; [congruence | reflexivity].
Qed.

Lemma digits_absent (c : ascii) (s : string) :
  is_digit c = false -> forall_chars is_digit s = true -> absent c s = true.
Proof. apply digits_no. Qed.

(** On such a text the formats are tried on the text itself. *)
Lemma parse_date_chars (s : string) :
  forall_chars date_char s = true -> nonempty s = true ->
  forall d, try_formats _DT_FMTS s = Some d -> _parse_date_any (PStr s) = Some d.
Proof.
  intros H Hn d E. unfold _parse_date_any. cbn [Py.str]. cbv zeta.
  assert (S : strip s = s).
  { apply no_space_strip. revert H. apply forall_chars_impl.
    intros c Hc. destruct (date_char_facts c Hc) as (-> & _). reflexivity. }
  rewrite S, Hn. cbn [negb].
  rewrite (replace_char_id "T" " " s) by (apply date_chars_no; [reflexivity | exact H]).
  rewrite (replace_char_id "Z" "" s) by (apply date_chars_no; [reflexivity | exact H]).
  rewrite (contains_char_absent "." s) by (apply date_chars_no; [reflexivity | exact H]).
  rewrite E. reflexivity.
Qed.

Lemma digits_date_chars (s : string) :
  forall_chars is_digit s = true -> forall_chars date_char s = true.
Proof.
  apply forall_chars_impl. intros c Hc. unfold date_char. rewrite Hc. reflexivity.
Qed.

(** The four digits of a year. *)
Lemma pad4_chars (y : Z) :
  (0 <= y <= 9999)%Z ->
  exists c1 c2 c3 c4,
    Py.pad4 y = String c1 (String c2 (String c3 (String c4 "")))
    /\ is_digit c1 = true /\ is_digit c2 = true
    /\ is_digit c3 = true /\ is_digit c4 = true
    /\ (1000 * digit_val c1 + 100 * digit_val c2
        + 10 * digit_val c3 + digit_val c4 = y)%Z.
Proof.
  intros H.
  exists (Py.digit_char (y / 1000)), (Py.digit_char (y / 100)),
         (Py.digit_char (y / 10)), (Py.digit_char y).
  split; [reflexivity |].
  repeat (split; [apply digit_char_facts |]).
  unfold digit_val. rewrite !(proj2 (digit_char_facts _)).
  destruct (four_digit_parts y H) as (-> & -> & -> & ->). lia.
Qed.

Lemma match_head (d : directive) (ds : list directive) (s : string)
    (f f1 : found) (r1 : string) (res : found * string) :
  hd_error (alternatives d s f) = Some (f1, r1) ->
  regex_match ds r1 f1 = Some res ->
  regex_match (d :: ds) s f = Some res.
Proof.
  intros H E. cbn [regex_match].
  destruct (alternatives d s f) as [| x l]; [discriminate H |].
  injection H as ->. cbn [first_success fst snd]. rewrite E. reflexivity.
Qed.

Lemma match_lit (c : ascii) (ds : list directive) (r : string) (f : found)
    (res : found * string) :
  Ascii.eqb (lower_char c) (lower_char c) = true ->
  regex_match ds r f = Some res ->
  regex_match (Dlit c :: ds) (String c r) f = Some res.
Proof.
  intros Hc E. apply (match_head _ _ _ _ f r); [| exact E].
  unfold alternatives. rewrite Hc. reflexivity.
Qed.

Lemma month_alt (m : Z) (r : string) (f : found) :
  (1 <= m <= 12)%Z ->
  hd_error (alternatives Dm
              (String (Py.digit_char (m / 10)) (String (Py.digit_char m) r)) f)
  = Some (mkfound (f_year f) m (f_day f) (f_hour f) (f_minute f) (f_second f), r).
Proof.
  intros H.
  assert (C : (m = 1 \/ m = 2 \/ m = 3 \/ m = 4 \/ m = 5 \/ m = 6 \/ m = 7
               \/ m = 8 \/ m = 9 \/ m = 10 \/ m = 11 \/ m = 12)%Z) by lia.
  repeat (destruct C as [-> | C]; [reflexivity |]).
  rewrite C. reflexivity.
Qed.

Lemma day_alt (d : Z) (r : string) (f : found) :
  (1 <= d <= 31)%Z ->
  hd_error (alternatives Dd
              (String (Py.digit_char (d / 10)) (String (Py.digit_char d) r)) f)
  = Some (mkfound (f_year f) (f_month f) d (f_hour f) (f_minute f) (f_second f), r).
Proof.
  intros H.
  assert (C : (d = 1 \/ d = 2 \/ d = 3 \/ d = 4 \/ d = 5 \/ d = 6 \/ d = 7
               \/ d = 8 \/ d = 9 \/ d = 10 \/ d = 11 \/ d = 12 \/ d = 13
               \/ d = 14 \/ d = 15 \/ d = 16 \/ d = 17 \/ d = 18 \/ d = 19
               \/ d = 20 \/ d = 21 \/ d = 22 \/ d = 23 \/ d = 24 \/ d = 25
               \/ d = 26 \/ d = 27 \/ d = 28 \/ d = 29 \/ d = 30
               \/ d = 31)%Z) by lia.
  repeat (destruct C as [-> | C]; [reflexivity |]).
  rewrite C. reflexivity.
Qed.

Lemma year_alt (c1 c2 c3 c4 : ascii) (y : Z) (r : string) (f : found) :
  is_digit c1 = true -> is_digit c2 = true ->
  is_digit c3 = true -> is_digit c4 = true ->
  (1000 * digit_val c1 + 100 * digit_val c2
   + 10 * digit_val c3 + digit_val c4 = y)%Z ->
  hd_error (alternatives DY (String c1 (String c2 (String c3 (String c4 r)))) f)
  = Some (mkfound y (f_month f) (f_day f) (f_hour f) (f_minute f) (f_second f), r).
Proof.
  intros H1 H2 H3 H4 E. unfold alternatives, four_digits.
  rewrite H1, H2, H3, H4. cbn [andb map hd_error fst snd]. rewrite E.
  reflexivity.
Qed.

Lemma short_year_alt (c1 c2 : ascii) (r : string) (f : found) :
  is_digit c1 = true -> is_digit c2 = true ->
  exists f1, hd_error (alternatives Dy (String c1 (String c2 r)) f) = Some (f1, r).
Proof.
  intros H1 H2. unfold alternatives, alt2. rewrite H1, H2.
  cbn [andb map hd_error fst snd]. eexists. reflexivity.
Qed.

Lemma valid_ymd_day (y m d : Z) :
  Calendar.valid_ymd y m d = true -> (1 <= d <= 31)%Z.
Proof.
  unfold Calendar.valid_ymd, Calendar.days_in_month. intros H.
  repeat (apply andb_true_iff in H as [H ?]).
  revert H0.
  destruct (m =? 2)%Z; [destruct (Calendar.is_leap y) |];
    [| | destruct (_ || _)]; lia.
Qed.

(** The [YYYY-MM-DD] text of a date is read by the third format. *)
Lemma iso_formats (d : date) :
  valid_date d = true -> try_formats _DT_FMTS (Py.isoformat d) = Some d.
Proof.
  destruct d as [y m dd]. unfold valid_date. cbn [year month day]. intros V.
  pose proof (valid_ymd_bounds _ _ _ V) as (Hy & Hm & _).
  pose proof (valid_ymd_day _ _ _ V) as Hd.
  destruct (pad4_chars y ltac:(lia)) as (c1 & c2 & c3 & c4 & Ey & H1 & H2 & H3 & H4 & Ev).
  assert (A : absent "/" (Py.isoformat (mkdate y m dd)) = true).
  { unfold Py.isoformat. cbn [year month day]. rewrite !absent_append.
    rewrite (digits_absent "/" _ eq_refl (pad4_digits y)).
    rewrite !(digits_absent "/" _ eq_refl (pad2_digits _)). reflexivity. }
  unfold _DT_FMTS. cbn [try_formats].
  rewrite (strptime_needs "/" "%d/%m/%y" _ eq_refl) by (simpl; tauto || exact A).
  rewrite (strptime_needs "/" "%d/%m/%Y" _ eq_refl) by (simpl; tauto || exact A).
  assert (M : regex_match (compile "%Y-%m-%d") (Py.isoformat (mkdate y m dd)) found0
              = Some (mkfound y m dd 0 0 0, "")).
  { change (compile "%Y-%m-%d") with [DY; Dlit "-"; Dm; Dlit "-"; Dd].
    unfold Py.isoformat. cbn [year month day]. rewrite Ey.
    unfold Py.pad2. cbn [append].
    eapply match_head; [apply (year_alt c1 c2 c3 c4 y); assumption |].
    apply match_lit; [reflexivity |].
    eapply match_head; [apply month_alt; exact Hm |].
    apply match_lit; [reflexivity |].
    eapply match_head; [apply day_alt; exact Hd |].
    reflexivity. }
  unfold strptime_date. rewrite M. cbn [f_year f_month f_day f_hour f_minute f_second].
  rewrite V. reflexivity.
Qed.

(** The [DD/MM/YYYY] text of a date is read by the second format; the
    first one stops after two digits of the year. *)
Lemma br_formats (d : date) :
  valid_date d = true -> try_formats _DT_FMTS (date_br d) = Some d.
Proof.
  destruct d as [y m dd]. unfold valid_date. cbn [year month day]. intros V.
  pose proof (valid_ymd_bounds _ _ _ V) as (Hy & Hm & _).
  pose proof (valid_ymd_day _ _ _ V) as Hd.
  destruct (pad4_chars y ltac:(lia)) as (c1 & c2 & c3 & c4 & Ey & H1 & H2 & H3 & H4 & Ev).
  unfold _DT_FMTS. cbn [try_formats].
  assert (M1 : exists f1,
             regex_match (compile "%d/%m/%y") (date_br (mkdate y m dd)) found0
             = Some (f1, String c3 (String c4 ""))).
  { change (compile "%d/%m/%y") with [Dd; Dlit "/"; Dm; Dlit "/"; Dy].
    unfold date_br. cbn [year month day]. rewrite Ey.
    unfold Py.pad2. cbn [append].
    destruct (short_year_alt c1 c2 (String c3 (String c4 ""))
                (mkfound 1900 m dd 0 0 0) H1 H2) as (f1 & E1).
    exists f1.
    eapply match_head; [apply day_alt; exact Hd |].
    apply match_lit; [reflexivity |].
    eapply match_head; [apply month_alt; exact Hm |].
    apply match_lit; [reflexivity |].
    eapply match_head; [exact E1 |].
    reflexivity. }
  destruct M1 as (f1 & M1).
  assert (M2 : regex_match (compile "%d/%m/%Y") (date_br (mkdate y m dd)) found0
               = Some (mkfound y m dd 0 0 0, "")).
  { change (compile "%d/%m/%Y") with [Dd; Dlit "/"; Dm; Dlit "/"; DY].
    unfold date_br. cbn [year month day]. rewrite Ey.
    unfold Py.pad2. cbn [append].
    eapply match_head; [apply day_alt; exact Hd |].
    apply match_lit; [reflexivity |].
    eapply match_head; [apply month_alt; exact Hm |].
    apply match_lit; [reflexivity |].
    eapply match_head; [apply (year_alt c1 c2 c3 c4 y); assumption |].
    reflexivity. }
  unfold strptime_date. rewrite M1, M2.
  cbn [f_year f_month f_day f_hour f_minute f_second].
  rewrite V. reflexivity.
Qed.

Lemma iso_chars (d : date) : forall_chars date_char (Py.isoformat d) = true.
Proof.
  unfold Py.isoformat. rewrite !forall_chars_append.
  rewrite (digits_date_chars _ (pad4_digits _)).
  rewrite !(digits_date_chars _ (pad2_digits _)). reflexivity.
Qed.

Lemma br_chars (d : date) : forall_chars date_char (date_br d) = true.
Proof.
  unfold date_br. rewrite !forall_chars_append.
  rewrite (digits_date_chars _ (pad4_digits _)).
  rewrite !(digits_date_chars _ (pad2_digits _)). reflexivity.
Qed.

Lemma iso_read_back (d : date) :
  valid_date d = true -> _parse_date_any (PStr (Py.isoformat d)) = Some d.
Proof.
  intros V. apply parse_date_chars;
    [apply iso_chars | reflexivity | apply iso_formats, V].
Qed.

Lemma br_read_back (d : date) :
  valid_date d = true -> _parse_date_any (PStr (date_br d)) = Some d.
Proof.
  intros V. apply parse_date_chars;
    [apply br_chars | reflexivity | apply br_formats, V].
Qed.

(** *** The dates a text gives are dates of the calendar *)

Lemma all_from_spec (p : Z -> bool) (k : nat) :
  forall n, all_from k n p = true ->
  forall z, (n <= z < n + Z.of_nat k)%Z -> p z = true.
Proof.
  induction k as [| k IH]; intros n H z Hz; [lia |].
  cbn [all_from] in H. apply andb_true_iff in H as [H1 H2].
  destruct (Z.eq_dec z n) as [-> | Hne]; [exact H1 |].
  apply (IH (n + 1)%Z H2). lia.
Qed.

Lemma serial_window_valid :
  all_from (Z.to_nat 60001) 20000
    (fun n => valid_date (Calendar.add_days serial_base n)) = true.
Proof. vm_compute. reflexivity. Qed.

Lemma serial_valid (n : Z) :
  (20000 <= n <= 80000)%Z ->
  valid_date (Calendar.add_days serial_base n) = true.
Proof.
  intros H.
  apply (all_from_spec _ _ _ serial_window_valid n).
  rewrite Z2Nat.id by lia. lia.
Qed.

Lemma strptime_valid (s fmt : string) (d : date) :
  strptime_date s fmt = Some d -> valid_date d = true.
Proof.
  unfold strptime_date.
  destruct (regex_match _ _ _) as [[f r] |]; [| discriminate].
  destruct r; [| discriminate].
  destruct (Calendar.valid_ymd _ _ _) eqn:V; [| discriminate].
  cbn [andb]. destruct (_ && _); [| discriminate].
  intros [= <-]. exact V.
Qed.

Lemma try_formats_valid (fmts : list string) (s : string) (d : date) :
  try_formats fmts s = Some d -> valid_date d = true.
Proof.
  induction fmts as [| fmt r IH]; simpl; [discriminate |].
  destruct (strptime_date s fmt) as [d' |] eqn:E; [| exact IH].
  intros [= <-]. exact (strptime_valid _ _ _ E).
Qed.

Lemma parse_text_valid (s : string) (d : date) :
  _parse_date_any (PStr s) = Some d -> valid_date d = true.
Proof.
  unfold _parse_date_any. cbn [Py.str]. cbv zeta.
  destruct (negb (nonempty (strip s))); [discriminate |].
  destruct (try_formats _DT_FMTS _) as [d' |] eqn:E.
  - intros [= <-]. exact (try_formats_valid _ _ _ E).
  - destruct (isdigit (strip s)); [| discriminate].
    destruct (20000 <=? _)%Z eqn:E1; [| discriminate].
    destruct (_ <=? 80000)%Z eqn:E2; [| discriminate].
    intros [= <-]. apply Z.leb_le in E1, E2.
    apply serial_valid. lia.
Qed.

Lemma parse_opt_valid (o : option string) (d : date) :
  _parse_date_any (to_py o) = Some d -> valid_date d = true.
Proof.
  destruct o as [s |]; [apply parse_text_valid | discriminate].
Qed.

(** What the export reads from the stored text of a date. *)
Lemma stored_read_back (o : option string) :
  _to_date (PStr (iso_or_empty (_parse_date_any (to_py o))))
  = _parse_date_any (to_py o).
Proof.
  unfold _to_date.
  destruct (_parse_date_any (to_py o)) as [d |] eqn:E; cbn [iso_or_empty].
  - apply iso_read_back. exact (parse_opt_valid _ _ E).
  - reflexivity.
Qed.

Lemma emission_read_back (data : row_dict) :
  _to_date (PStr (iso_or_empty (_extr_data_emissao_dict data)))
  = _extr_data_emissao_dict data.
Proof.
  unfold _extr_data_emissao_dict.
  destruct (Py.truthy _); [apply stored_read_back | reflexivity].
Qed.

End DateFacts.

(** X17: a text without slash and without dash is read as a date only
    when it is a serial number between 20000 and 80000, and then as that
    many days after 1899-12-30. *)
Theorem dates_need_a_separator :
  forall s d,
    contains "/" s = false -> contains "-" s = false ->
    _parse_date_any (PStr s) = Some d ->
    isdigit (strip s) = true
    /\ (20000 <= digits_value 0 (strip s) <= 80000)%Z
    /\ d = Calendar.add_days serial_base (digits_value 0 (strip s)).
Proof.
  intros s d Hs Hd.
  rewrite (DateFacts.parse_without_separator s
             (DateFacts.contains_absent _ _ Hs)
             (DateFacts.contains_absent _ _ Hd)).
  destruct (isdigit (strip s)); [| discriminate].
  destruct (20000 <=? _)%Z eqn:E1; [| discriminate].
  destruct (_ <=? 80000)%Z eqn:E2; [| discriminate].
  intros [= <-]. apply Z.leb_le in E1, E2. auto.
Qed.

(** The text [ 45657 ] is the serial of 2024-12-31. *)
Lemma dates_need_a_separator_witness :
  _parse_date_any (PStr " 45657 ") = Some (mkdate 2024 12 31)
  /\ isdigit (strip " 45657 ") = true
  /\ (20000 <= digits_value 0 (strip " 45657 ") <= 80000)%Z
  /\ mkdate 2024 12 31
     = Calendar.add_days serial_base (digits_value 0 (strip " 45657 ")).
Proof.
  assert (H : _parse_date_any (PStr " 45657 ") = Some (mkdate 2024 12 31))
    by (vm_compute; reflexivity).
  split; [exact H |].
  exact (dates_need_a_separator " 45657 " (mkdate 2024 12 31)
           eq_refl eq_refl H).
Defined.

(** X18: a text with a dot, with neither slash nor dash before its first
    dot, is never read as a date: the text is cut at the dot before any
    format is tried, so the format [%d.%m.%Y] matches nothing. *)
Theorem dotted_text_is_never_a_date :
  forall a b,
    contains "/" a = false -> contains "-" a = false ->
    _parse_date_any (PStr (a ++ "." ++ b)) = None.
Proof.
  intros a b Hs Hd.
  apply DateFacts.parse_dotted; apply DateFacts.contains_absent; assumption.
Qed.

(** The dotted forms of 2024-12-31, with the time or without. *)
Lemma dotted_text_is_never_a_date_witness :
  contains "/" "31" = false /\ contains "-" "31" = false
  /\ _parse_date_any (PStr ("31" ++ "." ++ "12.2024")) = None
  /\ _parse_date_any (PStr ("31" ++ "." ++ "12.2024 10:00")) = None.
Proof.
  split; [reflexivity |]. split; [reflexivity |]. split.
  - exact (dotted_text_is_never_a_date "31" "12.2024" eq_refl eq_refl).
  - exact (dotted_text_is_never_a_date "31" "12.2024 10:00" eq_refl eq_refl).
Defined.

(** X19: a date of the calendar, written [YYYY-MM-DD] or [DD/MM/YYYY]
    with leading zeros, is read as that date. *)
Theorem written_dates_are_read_back :
  forall d,
    valid_date d = true ->
    _parse_date_any (PStr (Py.isoformat d)) = Some d
    /\ _parse_date_any (PStr (date_br d)) = Some d.
Proof.
  intros d V. split.
  - apply DateFacts.iso_read_back, V.
  - apply DateFacts.br_read_back, V.
Qed.

(** The leap day of 2024 in both forms. *)
Lemma written_dates_are_read_back_witness :
  valid_date (mkdate 2024 2 29) = true
  /\ Py.isoformat (mkdate 2024 2 29) = "2024-02-29"
  /\ date_br (mkdate 2024 2 29) = "29/02/2024"
  /\ _parse_date_any (PStr (Py.isoformat (mkdate 2024 2 29)))
     = Some (mkdate 2024 2 29)
  /\ _parse_date_any (PStr (date_br (mkdate 2024 2 29)))
     = Some (mkdate 2024 2 29).
Proof.
  split; [reflexivity |]. split; [reflexivity |]. split; [reflexivity |].
  exact (written_dates_are_read_back (mkdate 2024 2 29) eq_refl).
Defined.

(* ------------------------------------------------------------------ *)
(** ** The dates the export reads *)

Module ExportFacts.
Import ReconcilerFacts.

Lemma cancel_step_dates t dt_ini dt_fim (Q : divergencia -> Prop) st reg st' :
  (forall e, dated_from dt_ini dt_fim reg (dv_sheet_sat e) (dv_row_sat e)
               (dv_data_emissao e) -> Q e) ->
  cancel_step t dt_ini dt_fim st reg = Ok st' ->
  Forall Q (divergencias st) -> Forall Q (divergencias st').
Proof.
  intros HQ. unfold cancel_step.
  destruct (passes_period dt_ini dt_fim (_extr_data_emissao_dict (data reg)))
    eqn:Ep; cbn [negb].
  2:{ intros [= <-] F. exact F. }
  cbn [divergencias candidatos pareadas nao_encontradas sat_considerados
         sat_total_periodo].
  destruct (nonempty (_numero_documento_sat (data reg))); cbn [negb].
  2:{ intros [= <-] F. exact F. }
  destruct (present_in t _); cbn [negb].
  2:{ intros [= <-] F. exact F. }
  destruct (_is_cancelado (_extr_status_sat (data reg))); cbn [negb].
  2:{ intros [= <-] F. exact F. }
  destruct (lookup_val_q t _) as [val_q |].
  2:{ intros [= <-] F. exact F. }
  intros E F. apply bind_ok_inv in E as (nz & _ & E).
  injection E as <-. cbn [divergencias].
  destruct nz; [| exact F].
  apply forall_snoc; [exact F |]. apply HQ.
  unfold dated_from. cbn [dv_sheet_sat dv_row_sat dv_data_emissao].
  rewrite DateFacts.emission_read_back. auto.
Qed.

Lemma cancel_fold_dates t dt_ini dt_fim (all : list SatRegistro)
    (Q : divergencia -> Prop) :
  (forall reg e, In reg all ->
                 dated_from dt_ini dt_fim reg (dv_sheet_sat e) (dv_row_sat e)
                   (dv_data_emissao e) -> Q e) ->
  forall qs st st',
    incl qs all ->
    foldM (cancel_step t dt_ini dt_fim) st qs = Ok st' ->
    Forall Q (divergencias st) -> Forall Q (divergencias st').
Proof.
  intros HQ qs. induction qs as [| reg r IH]; simpl; intros st st' Hi.
  - intros [= <-] F. exact F.
  - intros E F. apply bind_ok_inv in E as (st1 & E1 & E).
    apply (IH st1 st' (fun x Hx => Hi x (or_intror Hx)) E).
    exact (cancel_step_dates t dt_ini dt_fim Q st reg st1
             (fun e => HQ reg e (Hi reg (or_introl eq_refl))) E1 F).
Qed.

Lemma autorizada_step_dates t dt_ini dt_fim (Q : autorizada_fora -> Prop) st reg :
  (forall e, dated_from dt_ini dt_fim reg (af_sheet_sat e) (af_row_sat e)
               (af_data_emissao e) -> Q e) ->
  Forall Q (autorizadas_fora st) ->
  Forall Q (autorizadas_fora (autorizada_step t dt_ini dt_fim st reg)).
Proof.
  intros HQ F. unfold autorizada_step.
  destruct (passes_period dt_ini dt_fim (_extr_data_emissao_dict (data reg)))
    eqn:Ep; cbn [negb]; [| exact F].
  destruct (nonempty (_numero_documento_sat (data reg))); cbn [negb];
    [| exact F].
  destruct (_is_autorizado (_extr_status_sat (data reg))); cbn [negb];
    [| exact F].
  destruct (present_in t _); [exact F |].
  destruct (seen _ (vistos_aut st)); [exact F |].
  cbn [autorizadas_fora]. apply forall_snoc; [exact F |]. apply HQ.
  unfold dated_from. cbn [af_sheet_sat af_row_sat af_data_emissao].
  rewrite DateFacts.emission_read_back. auto.
Qed.

Lemma autorizada_fold_dates t dt_ini dt_fim (all : list SatRegistro)
    (Q : autorizada_fora -> Prop) :
  (forall reg e, In reg all ->
                 dated_from dt_ini dt_fim reg (af_sheet_sat e) (af_row_sat e)
                   (af_data_emissao e) -> Q e) ->
  forall qs st,
    incl qs all -> Forall Q (autorizadas_fora st) ->
    Forall Q (autorizadas_fora
                (fold_left (autorizada_step t dt_ini dt_fim) qs st)).
Proof.
  intros HQ qs. induction qs as [| reg r IH]; simpl; intros st Hi F;
    [exact F |].
  apply (IH _ (fun x Hx => Hi x (or_intror Hx))).
  exact (autorizada_step_dates t dt_ini dt_fim Q st reg
           (fun e => HQ reg e (Hi reg (or_introl eq_refl))) F).
Qed.

End ExportFacts.

(** X20: what the export reads in the date column of its two sheets.  For
    every entry of the two stored lists, the stored text of the date, read
    again by [_to_date], is the emission date of a row of the company in
    the registry, the row the entry names by sheet and row number, and
    that date passes the period of the comparison. *)
Theorem export_dates_are_row_dates :
  forall empresa_id store ws inicio fim r p,
    comparar_questor empresa_id store ws inicio fim = Ok r ->
    stored r = Some p ->
    Forall (fun e =>
              exists reg,
                In reg store /\ empresa reg = empresa_id
                /\ dated_from (_parse_date_any inicio) (_parse_date_any fim)
                     reg (dv_sheet_sat e) (dv_row_sat e) (dv_data_emissao e))
           (p_resultado p)
    /\ Forall (fun e =>
                 exists reg,
                   In reg store /\ empresa reg = empresa_id
                   /\ dated_from (_parse_date_any inicio) (_parse_date_any fim)
                        reg (af_sheet_sat e) (af_row_sat e) (af_data_emissao e))
              (p_sat_autorizadas_fora p).
Proof.
  intros empresa_id store ws inicio fim r p E S.
  destruct (ReconcilerFacts.comparar_questor_stored _ _ _ _ _ _ _ E S)
    as (t & m & tq & ts & st & _ & _ & _ & _ & Est & _ & ->).
  cbn [p_resultado p_sat_autorizadas_fora].
  assert (K : forall reg,
             In reg (filter (fun x => Nat.eqb (empresa x) empresa_id) store) ->
             In reg store /\ empresa reg = empresa_id).
  { intros reg Hin. apply filter_In in Hin as [Hin He].
    apply Nat.eqb_eq in He. auto. }
  split; apply ReconcilerFacts.forall_firstn.
  - refine (ExportFacts.cancel_fold_dates _ _ _ _ _ _ _ _ _
              (incl_refl _) Est _).
    + intros reg e Hin D. exists reg. destruct (K reg Hin). auto.
    + constructor.
  - refine (ExportFacts.autorizada_fold_dates _ _ _ _ _ _ _ _
              (incl_refl _) _).
    + intros reg e Hin D. exists reg. destruct (K reg Hin). auto.
    + constructor.
Qed.

(** On [store_dated] and [ws_dated], for December 2024, each list has one
    entry, with the text [2024-12-31]. *)
Lemma export_dates_are_row_dates_witness :
  exists r p,
    comparar_questor 1 store_dated ws_dated (PStr "2024-12-01")
      (PStr "2024-12-31") = Ok r
    /\ stored r = Some p
    /\ map dv_data_emissao (p_resultado p) = ["2024-12-31"]
    /\ map af_data_emissao (p_sat_autorizadas_fora p) = ["2024-12-31"]
    /\ Forall (fun e =>
                 exists reg,
                   In reg store_dated /\ empresa reg = 1
                   /\ dated_from (_parse_date_any (PStr "2024-12-01"))
                        (_parse_date_any (PStr "2024-12-31"))
                        reg (dv_sheet_sat e) (dv_row_sat e) (dv_data_emissao e))
              (p_resultado p)
    /\ Forall (fun e =>
                 exists reg,
                   In reg store_dated /\ empresa reg = 1
                   /\ dated_from (_parse_date_any (PStr "2024-12-01"))
                        (_parse_date_any (PStr "2024-12-31"))
                        reg (af_sheet_sat e) (af_row_sat e) (af_data_emissao e))
              (p_sat_autorizadas_fora p).
Proof.
  eexists. eexists. split; [vm_compute; reflexivity |].
  split; [reflexivity |]. split; [reflexivity |]. split; [reflexivity |].
  eapply (export_dates_are_row_dates 1 store_dated ws_dated
            (PStr "2024-12-01") (PStr "2024-12-31"));
    [vm_compute; reflexivity | reflexivity].
Defined.

(* ------------------------------------------------------------------ *)
(** ** The columns of a sheet and the dict of a row *)

Module ColumnsFacts.
Import DictFacts.

Lemma get_set {V : Type} (k k' : string) (v : V) (d : dict V) :
  Dict.get k' (Dict.set k v d)
  = if String.eqb k' k then Some v else Dict.get k' d.
Proof.
  destruct (String.eqb_spec k' k) as [-> | Hne].
  - apply get_set_same.
  - apply get_set_other. congruence.
Qed.

Lemma map_set {V W : Type} (g : V -> W) (k : string) (v : V) (d : dict V) :
  map (fun kv => (fst kv, g (snd kv))) (Dict.set k v d)
  = Dict.set k (g v) (map (fun kv => (fst kv, g (snd kv))) d).
Proof.
  induction d as [| [k' v'] r IH]; simpl; [reflexivity |].
  destruct (String.eqb k k'); simpl; [reflexivity |].
  rewrite IH. reflexivity.
Qed.

Lemma map_fold {V W : Type} (g : V -> W) (val : nat * pyval -> V)
    (l : list (nat * pyval)) :
  forall d,
    map (fun kv => (fst kv, g (snd kv)))
        (fold_left (fun m ih => Dict.set (_slug (snd ih)) (val ih) m) l d)
    = fold_left (fun m ih => Dict.set (_slug (snd ih)) (g (val ih)) m) l
                (map (fun kv => (fst kv, g (snd kv))) d).
Proof.
  induction l as [| ih r IH]; simpl; intros d; [reflexivity |].
  rewrite IH, map_set. reflexivity.
Qed.

(** The dict of a row is the column index with every position replaced
    by the text of the cell at that position. *)
Lemma row_dict_columns (headers row : list pyval) :
  _row_to_norm_dict headers row
  = map (fun ki => (fst ki, Some (cell_text (Py.cell row (snd ki) PNone))))
        (header_cols headers).
Proof.
  unfold _row_to_norm_dict, header_cols.
  rewrite (map_fold (fun i => Some (cell_text (Py.cell row i PNone))) fst).
  cbn [map].
  rewrite (map_ext _ (fun kv : string * pyval =>
                        (fst kv, Some (cell_text (snd kv)))))
    by (intros [k []]; reflexivity).
  exact (map_fold (fun v => Some (cell_text v))
           (fun ih => Py.cell row (fst ih) PNone)
           (enumerate_from 0 headers) []).
Qed.

Lemma get_map {V W : Type} (g : V -> W) (k : string) (d : dict V) :
  Dict.get k (map (fun kv => (fst kv, g (snd kv))) d)
  = option_map g (Dict.get k d).
Proof.
  induction d as [| [k' v'] r IH]; simpl; [reflexivity |].
  destruct (String.eqb k k'); [reflexivity | exact IH].
Qed.

Lemma keys_map {V W : Type} (g : V -> W) (d : dict V) :
  Dict.keys (map (fun kv => (fst kv, g (snd kv))) d) = Dict.keys d.
Proof.
  unfold Dict.keys. rewrite map_map. reflexivity.
Qed.

Lemma fold_get (k : string) (l : list (nat * pyval)) :
  forall d,
    Dict.get k (fold_left (fun m ih => Dict.set (_slug (snd ih)) (fst ih) m) l d)
    = match last_index k l with
      | Some i => Some i
      | None => Dict.get k d
      end.
Proof.
  induction l as [| ih r IH]; simpl; intros d; [reflexivity |].
  rewrite IH. destruct (last_index k r); [reflexivity |].
  rewrite get_set. destruct (String.eqb k (_slug (snd ih))); reflexivity.
Qed.

Lemma last_index_none (k : string) (hs : list pyval) :
  forall n, last_index k (enumerate_from n hs) = None ->
            forall h, In h hs -> _slug h <> k.
Proof.
  induction hs as [| h0 r IH]; simpl; intros n H h Hin; [destruct Hin |].
  destruct (last_index k (enumerate_from (S n) r)) eqn:E; [discriminate |].
  destruct (String.eqb_spec k (_slug h0)) as [-> | Hne]; [discriminate |].
  destruct Hin as [<- | Hin]; [congruence | exact (IH _ E h Hin)].
Qed.

Lemma last_index_some (k : string) (hs : list pyval) :
  forall n i, last_index k (enumerate_from n hs) = Some i ->
    n <= i
    /\ (exists h, nth_error hs (i - n) = Some h /\ _slug h = k)
    /\ forall j h, i < j -> nth_error hs (j - n) = Some h -> _slug h <> k.
Proof.
  induction hs as [| h0 r IH]; simpl; intros n i H; [discriminate |].
  destruct (last_index k (enumerate_from (S n) r)) as [i' |] eqn:E.
  - injection H as ->. destruct (IH _ _ E) as (L & (h & Hh & Hk) & N).
    split; [lia |]. split.
    + exists h. split; [| exact Hk].
      replace (i - n) with (S (i - S n)) by lia. exact Hh.
    + intros j h' Hj Hn. apply (N j h' Hj).
      replace (j - n) with (S (j - S n)) in Hn by lia. exact Hn.
  - cbn [fst snd] in H.
    destruct (String.eqb_spec k (_slug h0)) as [-> | Hne]; [| discriminate].
    injection H as <-. split; [lia |]. split.
    + exists h0. rewrite Nat.sub_diag. auto.
    + intros j h' Hj Hn.
      replace (j - n) with (S (j - S n)) in Hn by lia. simpl in Hn.
      apply (last_index_none _ _ _ E h'). exact (nth_error_In _ _ Hn).
Qed.

Lemma header_cols_last (headers : list pyval) (k : string) (i : nat) :
  Dict.get k (header_cols headers) = Some i -> last_column headers k i.
Proof.
  unfold header_cols. rewrite fold_get.
  destruct (last_index k (enumerate_from 0 headers)) as [j |] eqn:E;
    [| discriminate].
  intros [= ->]. destruct (last_index_some _ _ _ _ E) as (_ & A & B).
  rewrite Nat.sub_0_r in A. split; [exact A |].
  intros j h Hj Hn. apply (B j h Hj). rewrite Nat.sub_0_r. exact Hn.
Qed.

Lemma header_cols_has (headers : list pyval) (h : pyval) :
  In h headers -> Dict.mem (_slug h) (header_cols headers) = true.
Proof.
  intros Hin. unfold Dict.mem, header_cols. rewrite fold_get.
  destruct (last_index (_slug h) (enumerate_from 0 headers)) eqn:E;
    [reflexivity |].
  exfalso. exact (last_index_none _ _ _ E h Hin eq_refl).
Qed.

Lemma set_nodup {V : Type} (k : string) (v : V) (d : dict V) :
  NoDup (Dict.keys d) -> NoDup (Dict.keys (Dict.set k v d)).
Proof.
  intros H. rewrite keys_set. destruct (Dict.mem k d) eqn:E; [exact H |].
  apply ReconcilerFacts.nodup_snoc; [exact H |].
  intros Hin. apply in_keys_mem in Hin. congruence.
Qed.

Lemma header_cols_nodup (headers : list pyval) :
  NoDup (Dict.keys (header_cols headers)).
Proof.
  unfold header_cols.
  assert (G : forall (l : list (nat * pyval)) (d : dict nat),
             NoDup (Dict.keys d) ->
             NoDup (Dict.keys
                      (fold_left
                         (fun m ih => Dict.set (_slug (snd ih)) (fst ih) m)
                         l d))).
  { induction l as [| ih r IH]; simpl; intros d Hd; [exact Hd |].
    apply IH, set_nodup, Hd. }
  apply G. constructor.
Qed.

End ColumnsFacts.

(** X21: the dict of a row and the column index of the sheet agree.  They
    have the same keys, each once, one for the slug of every header; the
    index of a key is the position of the last header with that slug, and
    the dict of a row holds under the key the text of the cell at that
    position. *)
Theorem row_dict_agrees_with_columns :
  forall headers row,
    Dict.keys (_row_to_norm_dict headers row) = Dict.keys (header_cols headers)
    /\ NoDup (Dict.keys (header_cols headers))
    /\ (forall h, In h headers ->
                  Dict.mem (_slug h) (header_cols headers) = true)
    /\ forall k i,
         Dict.get k (header_cols headers) = Some i ->
         last_column headers k i
         /\ Dict.get k (_row_to_norm_dict headers row)
            = Some (Some (cell_text (Py.cell row i PNone))).
Proof.
  intros headers row. rewrite ColumnsFacts.row_dict_columns.
  split;
    [exact (ColumnsFacts.keys_map
              (fun i => Some (cell_text (Py.cell row i PNone)))
              (header_cols headers)) |].
  split; [apply ColumnsFacts.header_cols_nodup |].
  split; [apply ColumnsFacts.header_cols_has |].
  intros k i H. split; [exact (ColumnsFacts.header_cols_last _ _ _ H) |].
  rewrite (ColumnsFacts.get_map
             (fun i => Some (cell_text (Py.cell row i PNone)))), H.
  reflexivity.
Qed.

(* ------------------------------------------------------------------ *)
(** ** What the membership test finds *)

Module MatchFacts.
Import DictFacts ClassifierFacts IndexerFacts.

Lemma mem_set (k k' : string) (v : Decimal) (d : dict Decimal) :
  Dict.mem k' (Dict.set k v d) = String.eqb k' k || Dict.mem k' d.
Proof.
  destruct (String.eqb_spec k' k) as [-> | Hne].
  - apply mem_set_same.
  - apply mem_set_other. congruence.
Qed.

Lemma mem_accumulate (m m' : dict Decimal) (k k' : string) (v : Decimal) :
  accumulate m k v = Ok m' ->
  Dict.mem k' m' = String.eqb k' k || Dict.mem k' m.
Proof.
  intros H. apply accumulate_ok in H as (s & _ & ->). apply mem_set.
Qed.

(** What one row adds to the four tables. *)
Lemma step_mem headers i_num i_val i_ser i_dt dt_ini dt_fim st row st' :
  questor_map_step headers i_num i_val i_ser i_dt dt_ini dt_fim st row = Ok st' ->
  let a := questor_map_accepts headers i_num i_dt dt_ini dt_fim row in
  let ws := nonempty (questor_row_serie i_ser row) in
  let kq := questor_row_keys i_num i_ser row in
  forall k,
    Dict.mem k (pair_exato (q_tables st'))
    = (a && ws && String.eqb k (key_pair_raw kq))
      || Dict.mem k (pair_exato (q_tables st))
    /\ Dict.mem k (pair_digits (q_tables st'))
       = (a && ws && String.eqb k (key_pair_dig kq))
         || Dict.mem k (pair_digits (q_tables st))
    /\ Dict.mem k (doc_exato (q_tables st'))
       = (a && negb ws && String.eqb k (raw_doc kq))
         || Dict.mem k (doc_exato (q_tables st))
    /\ Dict.mem k (doc_digits (q_tables st'))
       = (a && negb ws && String.eqb k (dig_doc kq))
         || Dict.mem k (doc_digits (q_tables st)).
Proof.
  intros E a ws kq k. subst a ws kq.
  destruct (questor_map_accepts headers i_num i_dt dt_ini dt_fim row) eqn:Ea.
  - rewrite (step_accepted _ _ _ _ _ _ _ _ _ Ea) in E. cbv zeta in E.
    destruct (nonempty (questor_row_serie i_ser row));
      apply bind_ok_inv in E as (m1 & E1 & E);
      apply bind_ok_inv in E as (m2 & E2 & E);
      injection E as <-;
      cbn [q_tables pair_exato pair_digits doc_exato doc_digits andb negb orb];
      rewrite ?(mem_accumulate _ _ _ k _ E1), ?(mem_accumulate _ _ _ k _ E2);
      repeat split; reflexivity.
  - destruct (step_rejected headers i_num i_val i_ser i_dt dt_ini dt_fim
                st row Ea) as (st2 & E2 & Et).
    rewrite E in E2. injection E2 as <-. rewrite Et.
    repeat split; reflexivity.
Qed.

(** What the loop adds to the four tables. *)
Lemma fold_mem headers i_num i_val i_ser i_dt dt_ini dt_fim rows :
  forall st st',
    foldM (questor_map_step headers i_num i_val i_ser i_dt dt_ini dt_fim)
          st rows = Ok st' ->
    let a := questor_map_accepts headers i_num i_dt dt_ini dt_fim in
    let ws := fun row => nonempty (questor_row_serie i_ser row) in
    let kq := questor_row_keys i_num i_ser in
    forall k,
      Dict.mem k (pair_exato (q_tables st'))
      = existsb (fun row => a row && ws row
                            && String.eqb k (key_pair_raw (kq row))) rows
        || Dict.mem k (pair_exato (q_tables st))
      /\ Dict.mem k (pair_digits (q_tables st'))
         = existsb (fun row => a row && ws row
                               && String.eqb k (key_pair_dig (kq row))) rows
           || Dict.mem k (pair_digits (q_tables st))
      /\ Dict.mem k (doc_exato (q_tables st'))
         = existsb (fun row => a row && negb (ws row)
                               && String.eqb k (raw_doc (kq row))) rows
           || Dict.mem k (doc_exato (q_tables st))
      /\ Dict.mem k (doc_digits (q_tables st'))
         = existsb (fun row => a row && negb (ws row)
                               && String.eqb k (dig_doc (kq row))) rows
           || Dict.mem k (doc_digits (q_tables st)).
Proof.
  induction rows as [| row r IH]; intros st st' E a ws kq k.
  - injection E as <-. repeat split; reflexivity.
  - cbn [foldM] in E. apply bind_ok_inv in E as (st1 & E1 & E).
    destruct (IH _ _ E k) as (A1 & A2 & A3 & A4).
    destruct (step_mem _ _ _ _ _ _ _ _ _ _ E1 k) as (B1 & B2 & B3 & B4).
    cbn [existsb]. subst a ws kq. cbv beta.
    rewrite A1, A2, A3, A4, B1, B2, B3, B4.
    repeat split;
      match goal with
      | |- ?x || (?y || ?z) = (?y || ?x) || ?z =>
          rewrite orb_assoc, (orb_comm x y); reflexivity
      end.
Qed.

Lemma existsb_or {A : Type} (p q : A -> bool) (l : list A) :
  existsb (fun x => p x || q x) l = existsb p l || existsb q l.
Proof.
  induction l as [| a r IH]; simpl; [reflexivity |].
  rewrite IH. destruct (p a), (q a), (existsb p r); reflexivity.
Qed.

Lemma existsb_and_l {A : Type} (b : bool) (p : A -> bool) (l : list A) :
  b && existsb p l = existsb (fun x => b && p x) l.
Proof.
  destruct b; simpl; [reflexivity |].
  induction l; simpl; auto.
Qed.

Lemma existsb_ext_eq {A : Type} (p q : A -> bool) (l : list A) :
  (forall x, p x = q x) -> existsb p l = existsb q l.
Proof.
  intros H. induction l as [| a r IH]; simpl; [reflexivity |].
  rewrite H, IH. reflexivity.
Qed.

(** The membership test on the tables of a loop that started empty. *)
Lemma present_in_rows headers i_num i_val i_ser i_dt dt_ini dt_fim rows st :
  foldM (questor_map_step headers i_num i_val i_ser i_dt dt_ini dt_fim)
        (mkqstate empty_tables 0 0) rows = Ok st ->
  forall k,
    present_in (q_tables st) k
    = existsb (matches_row headers i_num i_ser i_dt dt_ini dt_fim k) rows.
Proof.
  intros E k.
  unfold present_in.
  destruct (fold_mem _ _ _ _ _ _ _ _ _ _ E (key_pair_raw k)) as (-> & _).
  destruct (fold_mem _ _ _ _ _ _ _ _ _ _ E (key_pair_dig k)) as (_ & -> & _).
  destruct (fold_mem _ _ _ _ _ _ _ _ _ _ E (raw_doc k)) as (_ & _ & -> & _).
  destruct (fold_mem _ _ _ _ _ _ _ _ _ _ E (dig_doc k)) as (_ & _ & _ & ->).
  cbn [q_tables empty_tables pair_exato pair_digits doc_exato doc_digits
         Dict.mem Dict.get].
  rewrite !orb_false_r, !existsb_and_l, <- !existsb_or.
  apply existsb_ext_eq. intros row. unfold matches_row, shares_key.
  destruct (questor_map_accepts headers i_num i_dt dt_ini dt_fim row);
    cbn [andb]; [| rewrite !andb_false_r; reflexivity].
  destruct (nonempty (questor_row_serie i_ser row)); cbn [andb negb];
    rewrite ?andb_false_r, ?orb_false_r; reflexivity.
Qed.

Lemma indexer_columns headers rows dt_ini dt_fim t m :
  _questor_map_por_documento (headers :: rows) dt_ini dt_fim = Ok (t, m) ->
  exists i_num i_val i_ser i_dt st,
    resolved_columns headers i_num i_ser i_dt
    /\ foldM (questor_map_step headers i_num i_val i_ser i_dt dt_ini dt_fim)
             (mkqstate empty_tables 0 0) rows = Ok st
    /\ t = q_tables st.
Proof.
  unfold _questor_map_por_documento. cbv zeta.
  destruct (negb _); [discriminate |].
  intros H.
  apply bind_ok_inv in H as (i_num & En & H).
  apply bind_ok_inv in H as (i_val & _ & H).
  apply bind_ok_inv in H as (i_ser & Es & H).
  apply bind_ok_inv in H as (i_dt & Ed & H).
  apply bind_ok_inv in H as (st & Ef & H).
  injection H as <- _.
  exists i_num, i_val, i_ser, i_dt, st. unfold resolved_columns. auto.
Qed.

End MatchFacts.

(** X22: what it means for a registry row to be present in the Questor
    sheet.  On the tables the indexer returns, the membership test answers
    true for the keys [k] exactly when the sheet has a row that the indexer
    keeps and that shares a key with [k] in its own family: a pair key when
    the row of the sheet has a series, a document key when it has none. *)
Theorem presence_is_a_shared_key :
  forall headers rows dt_ini dt_fim t m,
    _questor_map_por_documento (headers :: rows) dt_ini dt_fim = Ok (t, m) ->
    exists i_num i_ser i_dt,
      resolved_columns headers i_num i_ser i_dt
      /\ forall k,
           present_in t k = true
           <-> exists row,
                 In row rows
                 /\ questor_map_accepts headers i_num i_dt dt_ini dt_fim row
                    = true
                 /\ shares_key (questor_row_keys i_num i_ser row)
                      (nonempty (questor_row_serie i_ser row)) k = true.
Proof.
  intros headers rows dt_ini dt_fim t m E.
  destruct (MatchFacts.indexer_columns _ _ _ _ _ _ E)
    as (i_num & i_val & i_ser & i_dt & st & R & F & ->).
  exists i_num, i_ser, i_dt. split; [exact R |].
  intros k. rewrite (MatchFacts.present_in_rows _ _ _ _ _ _ _ _ _ F k).
  rewrite existsb_exists. unfold matches_row.
  split.
  - intros (row & Hin & H). apply andb_true_iff in H as [H1 H2].
    exists row. auto.
  - intros (row & Hin & H1 & H2). exists row. rewrite H1, H2. auto.
Qed.

(** On [ws_doc_only] the row has no series, so a registry row for the
    document 123 with the series 1 is present through its digits. *)
Lemma presence_is_a_shared_key_witness :
  exists t m,
    _questor_map_por_documento ws_doc_only None None = Ok (t, m)
    /\ present_in t keys_123_serie_1 = true
    /\ exists i_num i_ser i_dt,
         resolved_columns [PStr "Numero Documento"; PStr "Serie";
                           PStr "Valor Contabil"] i_num i_ser i_dt
         /\ forall k,
              present_in t k = true
              <-> exists row,
                    In row [[PStr "1.23"; PNone; PStr "10,00"]]
                    /\ questor_map_accepts
                         [PStr "Numero Documento"; PStr "Serie";
                          PStr "Valor Contabil"] i_num i_dt None None row
                       = true
                    /\ shares_key (questor_row_keys i_num i_ser row)
                         (nonempty (questor_row_serie i_ser row)) k = true.
Proof.
  eexists. eexists. split; [vm_compute; reflexivity |].
  split; [vm_compute; reflexivity |].
  eapply (presence_is_a_shared_key
            [PStr "Numero Documento"; PStr "Serie"; PStr "Valor Contabil"]
            [[PStr "1.23"; PNone; PStr "10,00"]] None None).
  vm_compute. reflexivity.
Defined.
